(** * AllocatorCustom: a page-granular, multi-zone allocator

    Shallow embedding of the C++ sources (PageBitmap, BlockGuard,
    QuarantineTable, PageAllocator, AllocatorCustomCpp), followed by the
    properties proved about them.  Each module carries the name of the
    struct it embeds; its functions come first, the predicates and the
    example runs used by the theorems after them.

    Conventions of the embedding.
    - Unsigned machine integers are [Z] values; every narrowing conversion and
      every wrap-around of the source is written out with [u8], [u16], [u32]
      and [usize].  [size_t] is 32 bits wide (the ARMv7-M target of the
      repository).
    - Memory is a function from addresses to cells read modulo 256;
      multi-byte fields are little-endian, as on the target.  Addresses are
      mathematical integers.
    - A nullable pointer is an [option Z], [None] being [nullptr].
    - [ALLOC_ASSERT] stops the program.  A function that may assert returns
      [result A]: [Ok a] for a normal return, [Fatal] when the call does not
      return.
    - The configuration is the default one of AllocConf.h; the MPU guard is
      the stub of MpuGuardStub.cpp. *)

From Stdlib Require Import ZArith List Bool Lia.
From stdpp Require Import base list.
Import ListNotations.

Local Open Scope Z_scope.

(** ** Machine integers *)

Definition u8 (x : Z) : Z := x mod 2 ^ 8.
Definition u16 (x : Z) : Z := x mod 2 ^ 16.
Definition u32 (x : Z) : Z := x mod 2 ^ 32.
Definition usize (x : Z) : Z := x mod 2 ^ 32.
(** Conversion to [int32_t]. *)
Definition i32 (x : Z) : Z := (x + 2 ^ 31) mod 2 ^ 32 - 2 ^ 31.

Definition UINT32_MAX : Z := 4294967295.
Definition SIZE_MAX : Z := 4294967295.

(** ** Outcome of a call that may hit [ALLOC_ASSERT] *)

Inductive result (A : Type) : Type :=
| Ok (a : A)
| Fatal.
Arguments Ok {A} a.
Arguments Fatal {A}.

Definition bind {A B : Type} (m : result A) (k : A -> result B) : result B :=
  match m with
  | Ok a => k a
  | Fatal => Fatal
  end.

(** [ALLOC_ASSERT(expr)] *)
Definition ALLOC_ASSERT (b : bool) : result unit :=
  if b then Ok tt else Fatal.

Declare Scope result_scope.
Delimit Scope result_scope with result.
Notation "'do' x <- m ; k" := (bind m (fun x => k))
  (at level 10, x pattern, m at level 100, k at level 200) : result_scope.
Notation "'check' b ; k" := (bind (ALLOC_ASSERT b) (fun _ => k))
  (at level 10, b at level 100, k at level 200) : result_scope.
Local Open Scope result_scope.

(** [for (i = lo; i < lo + n; ++i) s = body(i, s)], aborting as soon as the
    body does. *)
Fixpoint forZ {T : Type} (n : nat) (lo : Z) (body : Z -> T -> result T)
    (s : T) : result T :=
  match n with
  | O => Ok s
  | S n' => do s' <- body lo s; forZ n' (lo + 1) body s'
  end.

(** Number of [i] in [lo, lo + n) with [f i = true]. *)
Fixpoint countZ (f : Z -> bool) (n : nat) (lo : Z) : Z :=
  match n with
  | O => 0
  | S n' => Z.b2z (f lo) + countZ f n' (lo + 1)
  end.

(** [f i = true] for every [i] in [lo, lo + n). *)
Fixpoint allZ (f : Z -> bool) (n : nat) (lo : Z) : bool :=
  match n with
  | O => true
  | S n' => f lo && allZ f n' (lo + 1)
  end.

(** ** AllocConf.h (default configuration) *)

Module AllocConf.
Definition ALLOC_PAGE_SIZE : Z := 1024.
Definition ALLOC_HEADER_SIZE : Z := 32.
Definition ALLOC_FOOTER_SIZE : Z := 32.
Definition ALLOC_MAX_ZONES : Z := 2.
Definition ALLOC_MAX_PAGES_PER_ZONE : Z := 10240.
Definition ALLOC_QUARANTINE_CAPACITY : Z := 32.
Definition ALLOC_PATTERN_HEADER_MAGIC : Z := 0x48454144.
Definition ALLOC_PATTERN_FOOTER_MAGIC : Z := 0x464F4F54.
Definition ALLOC_PATTERN_PADDING : Z := 0xFE.
Definition ALLOC_PATTERN_QUARANTINE_FILL : Z := 0xCD.
Definition ALLOC_PATTERN_CLEARED_PAGE : Z := 0x00.
(* ALLOC_FILL_ON_FREE = 1, ALLOC_ENABLE_CLEAR_ON_EVICT = 1,
   ALLOC_QUARANTINE_CHECK_LEVEL = 1, ALLOC_CHECK_ALL_ALLOCATED = 0,
   ALLOC_ENABLE_MPU_PROTECTION = 0: the conditional blocks of the source
   are embedded as this configuration compiles them. *)
End AllocConf.
Import AllocConf.

(** ** Byte-addressed memory *)

Module Mem.
Definition mem : Type := Z -> Z.

Definition load8 (m : mem) (a : Z) : Z := u8 (m a).
Definition store8 (m : mem) (a v : Z) : mem :=
  fun x => if x =? a then u8 v else m x.

Definition load16 (m : mem) (a : Z) : Z :=
  load8 m a + 2 ^ 8 * load8 m (a + 1).
Definition store16 (m : mem) (a v : Z) : mem :=
  store8 (store8 m a v) (a + 1) (v / 2 ^ 8).

Definition load32 (m : mem) (a : Z) : Z :=
  load8 m a + 2 ^ 8 * load8 m (a + 1) + 2 ^ 16 * load8 m (a + 2)
  + 2 ^ 24 * load8 m (a + 3).
Definition store32 (m : mem) (a v : Z) : mem :=
  store8 (store8 (store8 (store8 m a v) (a + 1) (v / 2 ^ 8))
                 (a + 2) (v / 2 ^ 16)) (a + 3) (v / 2 ^ 24).

(** [std::memset(p, v, n)] *)
Definition memset (m : mem) (p v n : Z) : mem :=
  fun x => if (p <=? x) && (x <? p + n) then u8 v else m x.

Definition zero : mem := fun _ => 0.

(** Two memories that read the same on [lo, lo + n). *)
Definition agree (m1 m2 : mem) (lo n : Z) : Prop :=
  forall x, lo <= x < lo + n -> load8 m1 x = load8 m2 x.
End Mem.
Import Mem.

(** ** PageBitmap.hpp / PageBitmap.cpp *)

Module PageBitmap.
Record t : Type := mk {
  words : list Z;      (* uint32_t words[kMaxWords] *)
  pageCount : Z        (* uint16_t *)
}.

Definition kMaxWords : Z := (ALLOC_MAX_PAGES_PER_ZONE + 31) / 32.

(** [words[k]] *)
Definition word (b : t) (k : Z) : Z :=
  default 0 (words b !! Z.to_nat k).

Definition setWord (b : t) (k v : Z) : t :=
  {| words := <[Z.to_nat k := v]> (words b); pageCount := pageCount b |}.

(** The zero-initialised (BSS) object. *)
Definition zeroed : t :=
  {| words := replicate (Z.to_nat kMaxWords) 0; pageCount := 0 |}.

Definition init (count : Z) : result t :=
  check (count <=? ALLOC_MAX_PAGES_PER_ZONE);
  Ok {| words := replicate (Z.to_nat kMaxWords) 0; pageCount := count |}.

Definition set (b : t) (page : Z) : result t :=
  check (page <? pageCount b);
  Ok (setWord b (page / 32)
        (Z.lor (word b (page / 32)) (u32 (Z.shiftl 1 (page mod 32))))).

Definition clear (b : t) (page : Z) : result t :=
  check (page <? pageCount b);
  Ok (setWord b (page / 32)
        (Z.land (word b (page / 32))
                (Z.lxor (u32 (Z.shiftl 1 (page mod 32))) 0xFFFFFFFF))).

Definition test (b : t) (page : Z) : result bool :=
  check (page <? pageCount b);
  Ok (negb (Z.land (word b (page / 32))
                   (u32 (Z.shiftl 1 (page mod 32))) =? 0)).

Definition setRange (b : t) (start count : Z) : result t :=
  check (start + count <=? pageCount b);
  forZ (Z.to_nat count) 0 (fun i b' => set b' (u16 (start + i))) b.

Definition clearRange (b : t) (start count : Z)
  : result t :=
  check (start + count <=? pageCount b);
  forZ (Z.to_nat count) 0 (fun i b' => clear b' (u16 (start + i))) b.

(** The scan of [findFreeRun]: one unfolding per loop iteration, [i],
    [runStart] and [runLen] being the loop variables.  [fuel] bounds the
    number of iterations; every iteration advances [i], so that
    [pageCount + 1] of them are enough on a bitmap within capacity, and
    [Fatal] stands for a scan that needs more. *)
Fixpoint findFreeRun_loop (fuel : nat) (b : t) (count : Z)
    (i runStart runLen : Z) : result Z :=
  match fuel with
  | O => Fatal
  | S fuel' =>
      if i <? pageCount b then
        let wordIdx := i / 32 in
        if (runLen =? 0) && (word b wordIdx =? 0xFFFFFFFF) then
          (* i = (wordIdx + 1) * 32 - 1; continue; *)
          findFreeRun_loop fuel' b count
            (u16 (u16 ((wordIdx + 1) * 32 - 1) + 1)) runStart runLen
        else
          do t <- test b i;
          if negb t then
            let runStart' := if runLen =? 0 then i else runStart in
            let runLen' := u16 (runLen + 1) in
            if runLen' >=? count then Ok runStart'
            else findFreeRun_loop fuel' b count (u16 (i + 1))
                   runStart' runLen'
          else findFreeRun_loop fuel' b count (u16 (i + 1)) runStart 0
      else Ok (-1)
  end.

Definition findFreeRun (b : t) (count : Z) : result Z :=
  if (count =? 0) || (count >? pageCount b) then Ok (-1)
  else findFreeRun_loop (S (Z.to_nat (pageCount b))) b count 0 0 0.

(** [__builtin_popcount] on a 32-bit word: the number of its bits 0..31
    that are set. *)
Definition popcount (w : Z) : Z := countZ (Z.testbit w) 32 0.

Definition countSet (b : t) : result Z :=
  let fullWords := pageCount b / 32 in
  do n <- forZ (Z.to_nat fullWords) 0
            (fun w n => Ok (u16 (n + popcount (word b w)))) 0;
  forZ (Z.to_nat (pageCount b - u16 (fullWords * 32))) (u16 (fullWords * 32))
    (fun i n => do t <- test b i; Ok (if t then u16 (n + 1) else n)) n.

Definition countClear (b : t) : result Z :=
  do n <- countSet b; Ok (u16 (pageCount b - n)).

(** Bit [i] of the array, without the bounds assertion of [test]. *)
Definition bit (b : t) (i : Z) : bool :=
  Z.testbit (word b (i / 32)) (i mod 32).

(** The object is one that [init] builds and the range operations update:
    the array has [kMaxWords] words and the page count is within the
    compile-time maximum. *)
Definition wf (b : t) : Prop :=
  length (words b) = Z.to_nat kMaxWords /\
  0 <= pageCount b <= ALLOC_MAX_PAGES_PER_ZONE.

(** Bits [i, i + count) exist and are all zero. *)
Definition freeRun (b : t) (i count : Z) : Prop :=
  0 <= i /\ i + count <= pageCount b /\
  forall k, i <= k < i + count -> bit b k = false.
End PageBitmap.

(** ** AllocTypes.h *)

(** [AllocBlockHeader] lives in the managed memory; a field is read at its
    offset in the 32-byte record: magic +0, requestedSize +4, startPage +8,
    pageCount +10, zoneIndex +12, reserved[3] +13, sequenceNum +16,
    reserved2 +20, reserved3 +24, checksum +28. *)
Module AllocBlockHeader.
Definition magic (m : mem) (p : Z) : Z := load32 m p.
Definition requestedSize (m : mem) (p : Z) : Z := load32 m (p + 4).
Definition startPage (m : mem) (p : Z) : Z := load16 m (p + 8).
Definition pageCount (m : mem) (p : Z) : Z := load16 m (p + 10).
Definition zoneIndex (m : mem) (p : Z) : Z := load8 m (p + 12).
Definition sequenceNum (m : mem) (p : Z) : Z := load32 m (p + 16).
Definition checksum (m : mem) (p : Z) : Z := load32 m (p + 28).
End AllocBlockHeader.

(** [AllocBlockFooter] has the layout of the header. *)
Module AllocBlockFooter.
Definition magic (m : mem) (p : Z) : Z := load32 m p.
Definition requestedSize (m : mem) (p : Z) : Z := load32 m (p + 4).
Definition startPage (m : mem) (p : Z) : Z := load16 m (p + 8).
Definition pageCount (m : mem) (p : Z) : Z := load16 m (p + 10).
Definition zoneIndex (m : mem) (p : Z) : Z := load8 m (p + 12).
Definition sequenceNum (m : mem) (p : Z) : Z := load32 m (p + 16).
Definition checksum (m : mem) (p : Z) : Z := load32 m (p + 28).
End AllocBlockFooter.

Module AllocQuarantineEntry.
Record t : Type := mk {
  startPage : Z;       (* uint16_t *)
  pageCount : Z;       (* uint16_t *)
  requestedSize : Z;   (* uint32_t *)
  freeSequence : Z;    (* uint32_t *)
  mpuRegion : Z;       (* int8_t *)
  zoneIndex : Z;       (* uint8_t *)
  active : Z;          (* uint8_t *)
  reserved : Z         (* uint8_t *)
}.

(** [AllocQuarantineEntry e{}] *)
Definition zero : t := mk 0 0 0 0 0 0 0 0.
End AllocQuarantineEntry.

(** ** BlockGuard.hpp / BlockGuard.cpp *)

Module BlockGuard.
Definition computeChecksum (m : mem) (block blockSize : Z) : result Z :=
  let wordCount := blockSize / 4 in
  check (wordCount >=? 2);
  forZ (Z.to_nat (wordCount - 1)) 0
    (fun i r => Ok (Z.lxor r (load32 m (block + 4 * i)))) 0.

(** The stores of [writeHeader] and [writeFooter] before the checksum. *)
Definition writeFields (m : mem) (dest magicValue requestedSize startPage
    pageCount zoneIndex sequenceNum : Z) : mem :=
  let m := store32 m dest magicValue in
  let m := store32 m (dest + 4) requestedSize in
  let m := store16 m (dest + 8) startPage in
  let m := store16 m (dest + 10) pageCount in
  let m := store8 m (dest + 12) zoneIndex in
  let m := memset m (dest + 13) 0 3 in
  let m := store32 m (dest + 16) sequenceNum in
  let m := store32 m (dest + 20) 0 in
  store32 m (dest + 24) 0.

Definition writeHeader (m : mem) (dest requestedSize startPage pageCount
    zoneIndex sequenceNum : Z) : result mem :=
  let m := writeFields m dest ALLOC_PATTERN_HEADER_MAGIC requestedSize
             startPage pageCount zoneIndex sequenceNum in
  do c <- computeChecksum m dest ALLOC_HEADER_SIZE;
  Ok (store32 m (dest + 28) c).

Definition writeFooter (m : mem) (dest requestedSize startPage pageCount
    zoneIndex sequenceNum : Z) : result mem :=
  let m := writeFields m dest ALLOC_PATTERN_FOOTER_MAGIC requestedSize
             startPage pageCount zoneIndex sequenceNum in
  do c <- computeChecksum m dest ALLOC_FOOTER_SIZE;
  Ok (store32 m (dest + 28) c).

Definition validateHeader (m : mem) (headerPtr : Z) : result bool :=
  if negb (AllocBlockHeader.magic m headerPtr =? ALLOC_PATTERN_HEADER_MAGIC)
  then Ok false
  else do c <- computeChecksum m headerPtr ALLOC_HEADER_SIZE;
       Ok (AllocBlockHeader.checksum m headerPtr =? c).

Definition validateFooter (m : mem) (footerPtr : Z) : result bool :=
  if negb (AllocBlockFooter.magic m footerPtr =? ALLOC_PATTERN_FOOTER_MAGIC)
  then Ok false
  else do c <- computeChecksum m footerPtr ALLOC_FOOTER_SIZE;
       Ok (AllocBlockFooter.checksum m footerPtr =? c).

Definition validatePair (m : mem) (header footer : Z) : bool :=
  if negb (AllocBlockHeader.requestedSize m header
           =? AllocBlockFooter.requestedSize m footer) then false
  else if negb (AllocBlockHeader.startPage m header
                =? AllocBlockFooter.startPage m footer) then false
  else if negb (AllocBlockHeader.pageCount m header
                =? AllocBlockFooter.pageCount m footer) then false
  else if negb (AllocBlockHeader.zoneIndex m header
                =? AllocBlockFooter.zoneIndex m footer) then false
  else if negb (AllocBlockHeader.sequenceNum m header
                =? AllocBlockFooter.sequenceNum m footer) then false
  else true.

Definition fillPadding (m : mem) (paddingStart size : Z) : mem :=
  memset m paddingStart ALLOC_PATTERN_PADDING size.

Definition fillQuarantinePayload (m : mem) (payloadStart size : Z) : mem :=
  memset m payloadStart ALLOC_PATTERN_QUARANTINE_FILL size.

Definition fillClearedPages (m : mem) (start size : Z) : mem :=
  memset m start ALLOC_PATTERN_CLEARED_PAGE size.

(** The loop of [validatePadding] and of [validateQuarantinePayload]: the
    bytes [p[i]], [p[i + 1]], ... are compared with [pattern], [n] being the
    number of iterations left. *)
Fixpoint validatePattern_loop (n : nat) (m : mem) (p pattern i : Z) : bool :=
  match n with
  | O => true
  | S n' =>
      if negb (load8 m (p + i) =? pattern) then false
      else validatePattern_loop n' m p pattern (i + 1)
  end.

Definition validatePadding (m : mem) (paddingStart size : Z) : bool :=
  validatePattern_loop (Z.to_nat size) m paddingStart ALLOC_PATTERN_PADDING 0.

Definition validateQuarantinePayload (m : mem) (start size : Z) : bool :=
  validatePattern_loop (Z.to_nat size) m start
    ALLOC_PATTERN_QUARANTINE_FILL 0.

Definition userDataFromHeader (headerPtr : Z) : Z :=
  headerPtr + ALLOC_HEADER_SIZE.

Definition headerFromUserData (userData : Z) : Z :=
  userData - ALLOC_HEADER_SIZE.

Definition footerFromHeader (m : mem) (header : Z) : Z :=
  header + ALLOC_HEADER_SIZE + AllocBlockHeader.requestedSize m header.

Definition paddingFromHeader (m : mem) (header : Z) : Z :=
  header + ALLOC_HEADER_SIZE + AllocBlockHeader.requestedSize m header
  + ALLOC_FOOTER_SIZE.

(** XOR of the seven 32-bit words that precede the checksum of the record
    at [p]. *)
Definition xorWords (m : mem) (p : Z) : Z :=
  fold_left Z.lxor
    (map (fun i => load32 m (p + 4 * i)) [0; 1; 2; 3; 4; 5; 6]) 0.

Definition paddingSize (m : mem) (header : Z) : result Z :=
  let totalBytes :=
    usize (AllocBlockHeader.pageCount m header * ALLOC_PAGE_SIZE) in
  let usedBytes :=
    usize (ALLOC_HEADER_SIZE + AllocBlockHeader.requestedSize m header
           + ALLOC_FOOTER_SIZE) in
  check (totalBytes >=? usedBytes);
  Ok (totalBytes - usedBytes).
End BlockGuard.

(** ** MpuGuard.hpp / MpuGuardStub.cpp *)

Module MpuGuard.
(** The loop of [floorPow2], [acc] being the variable [result] of the
    source.  The values of [acc] are 1, 2, 4, ..., 2^31 and then 0 for
    ever, so that a loop that exits does so within 33 iterations; [Fatal]
    stands for a loop that needs more. *)
Fixpoint floorPow2_loop (fuel : nat) (value acc : Z) : result Z :=
  match fuel with
  | O => Fatal
  | S fuel' =>
      if usize (acc * 2) <=? value
      then floorPow2_loop fuel' value (usize (acc * 2))
      else Ok acc
  end.

Definition floorPow2 (value : Z) : result Z :=
  if value =? 0 then Ok 0 else floorPow2_loop 33 value 1.

Definition isPow2 (value : Z) : bool :=
  (value >? 0) && (Z.land value (usize (value - 1)) =? 0).

Definition alignDown (addr alignment : Z) : result Z :=
  check (isPow2 alignment);
  Ok (Z.land addr (Z.lxor (usize (alignment - 1)) 0xFFFFFFFF)).
End MpuGuard.

(** ** Quarantine.hpp / Quarantine.cpp *)

Module QuarantineTable.
Import AllocQuarantineEntry.

Record t : Type := mk {
  entries : list AllocQuarantineEntry.t;  (* [ALLOC_QUARANTINE_CAPACITY] *)
  nextSequence : Z;                       (* uint32_t *)
  activeCount : Z                         (* uint16_t *)
}.

(** [entries[i]] *)
Definition entry (q : t) (i : Z) : AllocQuarantineEntry.t :=
  default AllocQuarantineEntry.zero (entries q !! Z.to_nat i).

Definition capacity : Z := ALLOC_QUARANTINE_CAPACITY.

(** The zero-initialised (BSS) object. *)
Definition zeroed : t :=
  {| entries := replicate (Z.to_nat capacity) AllocQuarantineEntry.zero;
     nextSequence := 0; activeCount := 0 |}.

Definition init : t :=
  {| entries := replicate (Z.to_nat capacity) AllocQuarantineEntry.zero;
     nextSequence := 1; activeCount := 0 |}.

Definition isEmpty (q : t) : bool := activeCount q =? 0.
Definition isFull (q : t) : bool :=
  activeCount q >=? ALLOC_QUARANTINE_CAPACITY.
Definition count (q : t) : Z := activeCount q.

Definition entryAt (q : t) (idx : Z)
  : result AllocQuarantineEntry.t :=
  check (idx <? ALLOC_QUARANTINE_CAPACITY);
  Ok (entry q idx).

(** The loop of [findOldest]; [oldest] is the index of the entry the
    source points to, [None] for [nullptr]. *)
Fixpoint findOldest_loop (n : nat) (q : t) (i : Z)
    (oldest : option Z) (minSeq : Z) : option Z :=
  match n with
  | O => oldest
  | S n' =>
      if negb (active (entry q i) =? 0) && (freeSequence (entry q i) <? minSeq)
      then findOldest_loop n' q (i + 1) (Some i) (freeSequence (entry q i))
      else findOldest_loop n' q (i + 1) oldest minSeq
  end.

Definition findOldest (q : t) : option Z :=
  findOldest_loop (Z.to_nat ALLOC_QUARANTINE_CAPACITY) q 0 None UINT32_MAX.

(** The slot search of [add]: the first index with [!entries[i].active]. *)
Fixpoint findSlot_loop (n : nat) (q : t) (i : Z) : option Z :=
  match n with
  | O => None
  | S n' =>
      if active (entry q i) =? 0 then Some i
      else findSlot_loop n' q (i + 1)
  end.

Definition deactivated (e : AllocQuarantineEntry.t) : AllocQuarantineEntry.t :=
  AllocQuarantineEntry.mk (startPage e) (pageCount e) (requestedSize e)
    (freeSequence e) (mpuRegion e) (zoneIndex e) 0 (reserved e).

(** [add]: the result carries the table, and the evicted entry written
    through [evicted] when [didEvict] is true ([None] when it is false). *)
Definition add (q : t) (startPage pageCount requestedSize
    zoneIndex : Z) : result (t * option AllocQuarantineEntry.t) :=
  do (q1, ev) <-
    (if isFull q then
       match findOldest q with
       | None => Fatal                      (* ALLOC_ASSERT(oldest != nullptr) *)
       | Some o =>
           Ok ({| entries := <[Z.to_nat o := deactivated (entry q o)]> (entries q);
                  nextSequence := nextSequence q;
                  activeCount := u16 (activeCount q - 1) |},
               Some (entry q o))
       end
     else Ok (q, None));
  match findSlot_loop (Z.to_nat ALLOC_QUARANTINE_CAPACITY) q1 0 with
  | None => Fatal                           (* ALLOC_ASSERT(slot != nullptr) *)
  | Some s =>
      Ok ({| entries :=
               <[Z.to_nat s := AllocQuarantineEntry.mk startPage pageCount
                                 requestedSize (nextSequence q1) (-1)
                                 zoneIndex 1 0]>
                 (entries q1);
             nextSequence := u32 (nextSequence q1 + 1);
             activeCount := u16 (activeCount q1 + 1) |}, ev)
  end.

(** [deactivate(entry)], the entry being [&entries[idx]]. *)
Definition deactivate (q : t) (idx : Z) : result t :=
  check (negb (active (entry q idx) =? 0));
  Ok {| entries := <[Z.to_nat idx := deactivated (entry q idx)]> (entries q);
        nextSequence := nextSequence q;
        activeCount := u16 (activeCount q - 1) |}.

(** *** Properties of a table *)

(** Number of entries with [active = 1]. *)
Fixpoint numActive (es : list AllocQuarantineEntry.t) : Z :=
  match es with
  | [] => 0
  | e :: es' => (if active e =? 1 then 1 else 0) + numActive es'
  end.

(** The fields of every entry are values of their C types: [active] is 0
    or 1 and [freeSequence] is a [uint32_t]. *)
Definition typed (q : t) : Prop :=
  length (entries q) = Z.to_nat capacity /\
  forall i e, entries q !! i = Some e ->
    (active e = 0 \/ active e = 1) /\ 0 <= freeSequence e <= UINT32_MAX.

(** No two active entries share a [freeSequence]. *)
Definition distinctActive (q : t) : Prop :=
  forall i j ei ej,
    entries q !! i = Some ei -> entries q !! j = Some ej -> i <> j ->
    active ei = 1 -> active ej = 1 -> freeSequence ei <> freeSequence ej.

(** Every active entry was stamped before the current [nextSequence]. *)
Definition stampedBelow (q : t) : Prop :=
  forall i e, entries q !! i = Some e -> active e = 1 ->
    1 <= freeSequence e < nextSequence q.

(** The inductive invariant of the table. *)
Definition QInv (q : t) : Prop :=
  typed q /\
  activeCount q = numActive (entries q) /\
  distinctActive q /\
  stampedBelow q /\
  1 <= nextSequence q <= UINT32_MAX.

(** Tables reached from [init] with [add] and [deactivate]. *)
Inductive reach : t -> Prop :=
| reach_init : reach init
| reach_add q startPage pageCount requestedSize zoneIndex q' ev :
    reach q ->
    add q startPage pageCount requestedSize zoneIndex = Ok (q', ev) ->
    reach q'
| reach_deactivate q idx q' :
    reach q -> deactivate q idx = Ok q' -> reach q'.

(** The same, every [add] being called before the 32-bit [nextSequence]
    reaches its last value. *)
Inductive reachNoWrap : t -> Prop :=
| reachNoWrap_init : reachNoWrap init
| reachNoWrap_add q startPage pageCount requestedSize zoneIndex q' ev :
    reachNoWrap q ->
    nextSequence q < UINT32_MAX ->
    add q startPage pageCount requestedSize zoneIndex = Ok (q', ev) ->
    reachNoWrap q'
| reachNoWrap_deactivate q idx q' :
    reachNoWrap q -> deactivate q idx = Ok q' -> reachNoWrap q'.

(** A full table: slot [k] holds page [k], stamped [k + 1]. *)
Definition fullTable : t :=
  {| entries :=
       (fun k => AllocQuarantineEntry.mk k 1 100 (k + 1) (-1) 0 1 0)
         <$> seqZ 0 32;
     nextSequence := 33;
     activeCount := 32 |}.

(** The table after [init] and one [add]. *)
Definition afterOneAdd : t :=
  {| entries :=
       AllocQuarantineEntry.mk 0 1 100 1 (-1) 0 1 0
       :: replicate 31 AllocQuarantineEntry.zero;
     nextSequence := 2;
     activeCount := 1 |}.

(** A table with one long-lived entry in slot 0 (stamped 1) while slot 1
    has just been used and released, [n] being the unwrapped value of the
    sequence counter. *)
Definition oneLongLived (n : Z) : t :=
  {| entries :=
       AllocQuarantineEntry.mk 0 1 100 1 (-1) 0 1 0
       :: AllocQuarantineEntry.mk 0 1 100 (u32 (n - 1)) (-1) 0 0 0
       :: replicate 30 AllocQuarantineEntry.zero;
     nextSequence := u32 n;
     activeCount := 1 |}.

(** The table once the counter has wrapped around to 1 ... *)
Definition afterWrap : t := oneLongLived (2 ^ 32 + 1).

(** ... and after one more [add]: slots 0 and 1 are both active and both
    stamped 1. *)
Definition twoStampedOne : t :=
  {| entries :=
       AllocQuarantineEntry.mk 0 1 100 1 (-1) 0 1 0
       :: AllocQuarantineEntry.mk 0 1 100 1 (-1) 0 1 0
       :: replicate 30 AllocQuarantineEntry.zero;
     nextSequence := 2;
     activeCount := 2 |}.
End QuarantineTable.

(** ** PageAllocator.hpp / PageAllocator.cpp *)

Module PageAllocator.
Record t : Type := mk {
  baseAddress : Z;                    (* uint8_t* *)
  regionSize : Z;                     (* size_t *)
  totalPages : Z;                     (* uint16_t *)
  zoneIndex : Z;                      (* uint8_t *)
  initialized : bool;
  bitmapInUse : PageBitmap.t;
  bitmapAllocated : PageBitmap.t;
  quarantine : QuarantineTable.t;
  sequenceCounter : Z;                (* uint32_t *)
  freePagesCount : Z;                 (* size_t *)
  minEverFreePages : Z;               (* size_t *)
  successfulAllocs : Z;               (* size_t *)
  successfulFrees : Z                 (* size_t *)
}.

(** The zero-initialised (BSS) object, also what [resetState] leaves. *)
Definition zeroed : t :=
  mk 0 0 0 0 false PageBitmap.zeroed PageBitmap.zeroed QuarantineTable.zeroed
     0 0 0 0 0.

Definition init (start size zone : Z) : result t :=
  check (negb (start =? 0));
  check (size >=? ALLOC_PAGE_SIZE);
  let totalPages := u16 (size / ALLOC_PAGE_SIZE) in
  check (totalPages >? 0);
  check (totalPages <=? ALLOC_MAX_PAGES_PER_ZONE);
  do inUse <- PageBitmap.init totalPages;
  do allocated <- PageBitmap.init totalPages;
  Ok {| baseAddress := start;
        regionSize := size;
        totalPages := totalPages;
        zoneIndex := zone;
        initialized := true;
        bitmapInUse := inUse;
        bitmapAllocated := allocated;
        quarantine := QuarantineTable.init;
        sequenceCounter := 0;
        freePagesCount := totalPages;
        minEverFreePages := totalPages;
        successfulAllocs := 0;
        successfulFrees := 0 |}.

Definition pagesNeeded (requestedSize : Z) : Z :=
  let total := usize (usize (ALLOC_HEADER_SIZE + requestedSize)
                      + ALLOC_FOOTER_SIZE) in
  u16 (usize (usize (total + ALLOC_PAGE_SIZE) - 1) / ALLOC_PAGE_SIZE).

Definition pageAddress (pa : t) (pageIdx : Z) : Z :=
  baseAddress pa + usize (pageIdx * ALLOC_PAGE_SIZE).

(** One iteration of the loop of [verifyQuarantine] per unfolding; [i] is
    the loop variable. *)
Fixpoint verifyQuarantine_loop (n : nat) (pa : t) (m : mem) (i : Z)
  : result bool :=
  match n with
  | O => Ok true
  | S n' =>
      do entry <- QuarantineTable.entryAt (quarantine pa) i;
      if AllocQuarantineEntry.active entry =? 0
      then verifyQuarantine_loop n' pa m (i + 1)
      else
        let header := pageAddress pa (AllocQuarantineEntry.startPage entry) in
        do okH <- BlockGuard.validateHeader m header;
        if negb okH then Ok false else
        let footer := BlockGuard.footerFromHeader m header in
        do okF <- BlockGuard.validateFooter m footer;
        if negb okF then Ok false else
        if negb (BlockGuard.validatePair m header footer) then Ok false
        else verifyQuarantine_loop n' pa m (i + 1)
  end.

Definition verifyQuarantine (pa : t) (m : mem) : result bool :=
  verifyQuarantine_loop (Z.to_nat QuarantineTable.capacity) pa m 0.

Definition allocate (pa : t) (m : mem) (requestedSize : Z)
  : result (t * mem * option Z) :=
  if negb (initialized pa) || (requestedSize =? 0) then Ok (pa, m, None) else
  let pages := pagesNeeded requestedSize in
  if pages >? freePagesCount pa then Ok (pa, m, None) else
  do okQ <- verifyQuarantine pa m;
  check okQ;
  do sp32 <- PageBitmap.findFreeRun (bitmapInUse pa) pages;
  if sp32 <? 0 then Ok (pa, m, None) else
  let sp := u16 sp32 in
  let seq := sequenceCounter pa in
  do inUse <- PageBitmap.setRange (bitmapInUse pa) sp pages;
  do allocated <- PageBitmap.setRange (bitmapAllocated pa) sp pages;
  let headerAddr := pageAddress pa sp in
  do m1 <- BlockGuard.writeHeader m headerAddr (u32 requestedSize) sp pages
             (zoneIndex pa) seq;
  let footer := BlockGuard.footerFromHeader m1 headerAddr in
  do m2 <- BlockGuard.writeFooter m1 footer (u32 requestedSize) sp pages
             (zoneIndex pa) seq;
  do padLen <- BlockGuard.paddingSize m2 headerAddr;
  let m3 := if padLen >? 0
            then BlockGuard.fillPadding m2
                   (BlockGuard.paddingFromHeader m2 headerAddr) padLen
            else m2 in
  let freePages := usize (freePagesCount pa - pages) in
  Ok ({| baseAddress := baseAddress pa;
         regionSize := regionSize pa;
         totalPages := totalPages pa;
         zoneIndex := zoneIndex pa;
         initialized := initialized pa;
         bitmapInUse := inUse;
         bitmapAllocated := allocated;
         quarantine := quarantine pa;
         sequenceCounter := u32 (seq + 1);
         freePagesCount := freePages;
         minEverFreePages := if freePages <? minEverFreePages pa
                             then freePages else minEverFreePages pa;
         successfulAllocs := usize (successfulAllocs pa + 1);
         successfulFrees := successfulFrees pa |},
      m3, Some (BlockGuard.userDataFromHeader headerAddr)).

Definition evictFromQuarantine (pa : t) (m : mem)
    (entry : AllocQuarantineEntry.t) : result (t * mem) :=
  (* entry.mpuRegion >= 0: MpuGuard::unprotect, which is empty in
     MpuGuardStub.cpp *)
  let start := pageAddress pa (AllocQuarantineEntry.startPage entry) in
  let bytes := usize (AllocQuarantineEntry.pageCount entry * ALLOC_PAGE_SIZE) in
  let m1 := BlockGuard.fillClearedPages m start bytes in
  do inUse <- PageBitmap.clearRange (bitmapInUse pa)
                (AllocQuarantineEntry.startPage entry)
                (AllocQuarantineEntry.pageCount entry);
  Ok ({| baseAddress := baseAddress pa;
         regionSize := regionSize pa;
         totalPages := totalPages pa;
         zoneIndex := zoneIndex pa;
         initialized := initialized pa;
         bitmapInUse := inUse;
         bitmapAllocated := bitmapAllocated pa;
         quarantine := quarantine pa;
         sequenceCounter := sequenceCounter pa;
         freePagesCount :=
           usize (freePagesCount pa + AllocQuarantineEntry.pageCount entry);
         minEverFreePages := minEverFreePages pa;
         successfulAllocs := successfulAllocs pa;
         successfulFrees := successfulFrees pa |}, m1).

Definition withQuarantine (pa : t) (q : QuarantineTable.t) : t :=
  {| baseAddress := baseAddress pa;
     regionSize := regionSize pa;
     totalPages := totalPages pa;
     zoneIndex := zoneIndex pa;
     initialized := initialized pa;
     bitmapInUse := bitmapInUse pa;
     bitmapAllocated := bitmapAllocated pa;
     quarantine := q;
     sequenceCounter := sequenceCounter pa;
     freePagesCount := freePagesCount pa;
     minEverFreePages := minEverFreePages pa;
     successfulAllocs := successfulAllocs pa;
     successfulFrees := successfulFrees pa |}.

Definition deallocate (pa : t) (m : mem) (userPtr : option Z)
  : result (t * mem) :=
  match userPtr with
  | None => Ok (pa, m)
  | Some userPtr =>
    if negb (initialized pa) then Ok (pa, m) else
    let header := BlockGuard.headerFromUserData userPtr in
    do okH <- BlockGuard.validateHeader m header;
    check okH;
    let footer := BlockGuard.footerFromHeader m header in
    do okF <- BlockGuard.validateFooter m footer;
    check okF;
    check (BlockGuard.validatePair m header footer);
    check (AllocBlockHeader.zoneIndex m header =? zoneIndex pa);
    let sp := AllocBlockHeader.startPage m header in
    let pc := AllocBlockHeader.pageCount m header in
    check (u32 (sp + pc) <=? totalPages pa);
    do okQ <- verifyQuarantine pa m;
    check okQ;
    do (q, evicted) <- QuarantineTable.add (quarantine pa) sp pc
                         (AllocBlockHeader.requestedSize m header)
                         (zoneIndex pa);
    let pa1 := withQuarantine pa q in
    do (pa2, m2) <- match evicted with
                    | Some e => evictFromQuarantine pa1 m e
                    | None => Ok (pa1, m)
                    end;
    let m3 := BlockGuard.fillQuarantinePayload m2 userPtr
                (AllocBlockHeader.requestedSize m2 header) in
    do allocated <- PageBitmap.clearRange (bitmapAllocated pa2) sp pc;
    Ok ({| baseAddress := baseAddress pa2;
           regionSize := regionSize pa2;
           totalPages := totalPages pa2;
           zoneIndex := zoneIndex pa2;
           initialized := initialized pa2;
           bitmapInUse := bitmapInUse pa2;
           bitmapAllocated := allocated;
           quarantine := quarantine pa2;
           sequenceCounter := sequenceCounter pa2;
           freePagesCount := freePagesCount pa2;
           minEverFreePages := minEverFreePages pa2;
           successfulAllocs := successfulAllocs pa2;
           successfulFrees := usize (successfulFrees pa2 + 1) |}, m3)
  end.

Definition calloc (pa : t) (m : mem) (num elemSize : Z)
  : result (t * mem * option Z) :=
  if (num >? 0) && (elemSize >? SIZE_MAX / num) then Ok (pa, m, None) else
  let total := usize (num * elemSize) in
  do (pa', m', ptr) <- allocate pa m total;
  match ptr with
  | Some p => Ok (pa', memset m' p 0 total, Some p)
  | None => Ok (pa', m', None)
  end.

Definition freeBytes (pa : t) : Z :=
  if initialized pa then usize (freePagesCount pa * ALLOC_PAGE_SIZE) else 0.
Definition minEverFreeBytes (pa : t) : Z :=
  if initialized pa then usize (minEverFreePages pa * ALLOC_PAGE_SIZE) else 0.
Definition totalBytes (pa : t) : Z :=
  if initialized pa then usize (totalPages pa * ALLOC_PAGE_SIZE) else 0.
Definition usedBytes (pa : t) : Z := usize (totalBytes pa - freeBytes pa).
Definition isInitialized (pa : t) : bool := initialized pa.

Definition ownsPointer (pa : t) (userPtr : option Z) : bool :=
  match userPtr with
  | None => false
  | Some ptr =>
      if negb (initialized pa) then false else
      let lo := baseAddress pa + ALLOC_HEADER_SIZE in
      let hi := baseAddress pa + usize (totalPages pa * ALLOC_PAGE_SIZE) in
      (ptr >=? lo) && (ptr <? hi)
  end.

Definition pageIndex (pa : t) (addr : Z) : Z :=
  let end_ := baseAddress pa + usize (totalPages pa * ALLOC_PAGE_SIZE) in
  if (addr <? baseAddress pa) || (addr >=? end_) then -1
  else i32 (usize (addr - baseAddress pa) / ALLOC_PAGE_SIZE).

(** The loop of [verifyAllocated], one unfolding per iteration, [i] being
    the loop variable.  [i] is a [uint16_t] and nothing else changes, so
    that a loop that exits does so within 65537 iterations; [Fatal] stands
    for a loop that needs more. *)
Fixpoint verifyAllocated_loop (fuel : nat) (pa : t) (m : mem) (i : Z)
  : result bool :=
  match fuel with
  | O => Fatal
  | S fuel' =>
      if i <? totalPages pa then
        do t <- PageBitmap.test (bitmapAllocated pa) i;
        if negb t then verifyAllocated_loop fuel' pa m (u16 (i + 1)) else
        let header := pageAddress pa i in
        do okH <- BlockGuard.validateHeader m header;
        if negb okH || negb (AllocBlockHeader.startPage m header =? i)
        then verifyAllocated_loop fuel' pa m (u16 (i + 1)) else
        let footer := BlockGuard.footerFromHeader m header in
        do okF <- BlockGuard.validateFooter m footer;
        if negb okF then Ok false else
        if negb (BlockGuard.validatePair m header footer) then Ok false else
        verifyAllocated_loop fuel' pa m
          (u16 (i + AllocBlockHeader.pageCount m header))
      else Ok true
  end.

Definition verifyAllocated (pa : t) (m : mem) : result bool :=
  verifyAllocated_loop (Z.to_nat 65537) pa m 0.

(** [runChecks] with ALLOC_QUARANTINE_CHECK_LEVEL = 1 and
    ALLOC_CHECK_ALL_ALLOCATED = 0. *)
Definition runChecks (pa : t) (m : mem) : result bool :=
  do okQ <- verifyQuarantine pa m; Ok (true && okQ).

(** *** Properties of a zone *)

(** Page [i] lies in the region of an active quarantine entry. *)
Definition quarantined (pa : t) (i : Z) : Prop :=
  exists k e, QuarantineTable.entries (quarantine pa) !! k = Some e /\
    AllocQuarantineEntry.active e <> 0 /\
    AllocQuarantineEntry.startPage e <= i
      < AllocQuarantineEntry.startPage e + AllocQuarantineEntry.pageCount e.

(** The allocated bitmap is a subset of the in-use bitmap, and quarantined
    pages are in use and not allocated. *)
Definition bitmapsConsistent (pa : t) : Prop :=
  (forall i, 0 <= i < totalPages pa ->
     PageBitmap.bit (bitmapAllocated pa) i = true ->
     PageBitmap.bit (bitmapInUse pa) i = true) /\
  (forall i, quarantined pa i ->
     PageBitmap.bit (bitmapInUse pa) i = true /\
     PageBitmap.bit (bitmapAllocated pa) i = false).

(** [freePagesCount] is [N] minus the population count of the in-use
    bitmap. *)
Definition freeCountConsistent (pa : t) : Prop :=
  exists n, PageBitmap.countSet (bitmapInUse pa) = Ok n /\
    freePagesCount pa = totalPages pa - n.

(** The header in front of [userPtr] describes a run of pages that are all
    marked allocated: the pointer is that of a live block. *)
Definition liveBlock (pa : t) (m : mem) (userPtr : Z) : Prop :=
  let header := BlockGuard.headerFromUserData userPtr in
  forall i,
    AllocBlockHeader.startPage m header <= i
      < AllocBlockHeader.startPage m header
        + AllocBlockHeader.pageCount m header ->
    PageBitmap.bit (bitmapAllocated pa) i = true.

(** No condition on the pointer handed to [deallocate]. *)
Definition anyPointer (pa : t) (m : mem) (userPtr : Z) : Prop := True.

(** States of a zone and of the memory after a sequence of public
    operations, the client writing to memory in between.  [ok] is what
    the trace promises of each non-null pointer it frees. *)
Inductive reach (ok : t -> mem -> Z -> Prop) : t -> mem -> Prop :=
| reach_init start size zone pa m :
    init start size zone = Ok pa -> reach ok pa m
| reach_allocate pa m requestedSize pa' m' ptr :
    reach ok pa m ->
    allocate pa m requestedSize = Ok (pa', m', ptr) ->
    reach ok pa' m'
| reach_calloc pa m num elemSize pa' m' ptr :
    reach ok pa m ->
    calloc pa m num elemSize = Ok (pa', m', ptr) ->
    reach ok pa' m'
| reach_deallocate pa m userPtr pa' m' :
    reach ok pa m ->
    (forall p, userPtr = Some p -> ok pa m p) ->
    deallocate pa m userPtr = Ok (pa', m') ->
    reach ok pa' m'
| reach_write pa m m' :
    reach ok pa m -> reach ok pa m'.

(** The inductive invariant of a zone. *)
Definition ZInv (pa : t) : Prop :=
  PageBitmap.wf (bitmapInUse pa) /\
  PageBitmap.wf (bitmapAllocated pa) /\
  PageBitmap.pageCount (bitmapInUse pa) = totalPages pa /\
  PageBitmap.pageCount (bitmapAllocated pa) = totalPages pa /\
  length (QuarantineTable.entries (quarantine pa))
    = Z.to_nat QuarantineTable.capacity /\
  (forall i, 0 <= i < totalPages pa ->
     PageBitmap.bit (bitmapAllocated pa) i = true ->
     PageBitmap.bit (bitmapInUse pa) i = true) /\
  (forall k e, QuarantineTable.entries (quarantine pa) !! k = Some e ->
     AllocQuarantineEntry.active e <> 0 ->
     0 <= AllocQuarantineEntry.startPage e /\
     0 <= AllocQuarantineEntry.pageCount e /\
     AllocQuarantineEntry.startPage e + AllocQuarantineEntry.pageCount e
       <= totalPages pa /\
     forall i,
       AllocQuarantineEntry.startPage e <= i
         < AllocQuarantineEntry.startPage e
           + AllocQuarantineEntry.pageCount e ->
       PageBitmap.bit (bitmapInUse pa) i = true /\
       PageBitmap.bit (bitmapAllocated pa) i = false) /\
  (forall k1 k2 e1 e2,
     QuarantineTable.entries (quarantine pa) !! k1 = Some e1 ->
     QuarantineTable.entries (quarantine pa) !! k2 = Some e2 ->
     k1 <> k2 ->
     AllocQuarantineEntry.active e1 <> 0 ->
     AllocQuarantineEntry.active e2 <> 0 ->
     forall i,
       AllocQuarantineEntry.startPage e1 <= i
         < AllocQuarantineEntry.startPage e1
           + AllocQuarantineEntry.pageCount e1 ->
       ~ (AllocQuarantineEntry.startPage e2 <= i
            < AllocQuarantineEntry.startPage e2
              + AllocQuarantineEntry.pageCount e2)) /\
  freePagesCount pa
  = totalPages pa
    - countZ (PageBitmap.bit (bitmapInUse pa)) (Z.to_nat (totalPages pa)) 0.

(** *** A client that keeps the contract *)

(** The largest request whose page count fits the [uint16_t] of
    [pagesNeeded]. *)
Definition maxRequest : Z := 65535 * ALLOC_PAGE_SIZE - 64.

(** Page [i] belongs to the block whose user pointer is [userPtr], as its
    header describes it. *)
Definition blockPages (m : mem) (userPtr i : Z) : Prop :=
  let header := BlockGuard.headerFromUserData userPtr in
  AllocBlockHeader.startPage m header <= i
    < AllocBlockHeader.startPage m header
      + AllocBlockHeader.pageCount m header.

(** Address [x] lies in the payload of that block. *)
Definition inPayload (m : mem) (userPtr x : Z) : Prop :=
  userPtr <= x
    < userPtr
      + AllocBlockHeader.requestedSize m
          (BlockGuard.headerFromUserData userPtr).

(** States of a zone and of the memory while the client keeps the
    contract, with the list of the user pointers it holds: requests are at
    most [maxRequest] bytes, a pointer is freed once and only if
    [allocate] or [calloc] returned it, the region of the zone is written
    only inside the payload of a block that is held (memory outside the
    region may change at will), and the sequence counter of the quarantine
    has not reached its last value. *)
Inductive served : t -> mem -> list Z -> Prop :=
| served_init start size zone pa m :
    0 <= zone < 256 ->
    init start size zone = Ok pa -> served pa m []
| served_allocate pa m live requestedSize pa' m' ptr :
    served pa m live ->
    0 <= requestedSize <= maxRequest ->
    allocate pa m requestedSize = Ok (pa', m', ptr) ->
    served pa' m' (match ptr with Some p => p :: live | None => live end)
| served_calloc pa m live num elemSize pa' m' ptr :
    served pa m live ->
    0 <= num -> 0 <= elemSize -> num * elemSize <= maxRequest ->
    calloc pa m num elemSize = Ok (pa', m', ptr) ->
    served pa' m' (match ptr with Some p => p :: live | None => live end)
| served_deallocate pa m live p pa' m' :
    served pa m live ->
    List.In p live ->
    QuarantineTable.nextSequence (quarantine pa) < UINT32_MAX ->
    deallocate pa m (Some p) = Ok (pa', m') ->
    served pa' m' (List.remove Z.eq_dec p live)
| served_write pa m live m' :
    served pa m live ->
    (forall x,
       baseAddress pa <= x
         < baseAddress pa + totalPages pa * ALLOC_PAGE_SIZE ->
       (forall p, List.In p live -> ~ inPayload m p x) ->
       load8 m' x = load8 m x) ->
    served pa m' live.

(** The block of pages [sp, sp + pc) carries a valid header at its first
    page and a valid footer behind the payload, both describing it, and
    header, payload and footer fit its pages. *)
Definition intactBlock (pa : t) (m : mem) (sp pc : Z) : Prop :=
  let header := pageAddress pa sp in
  let footer := BlockGuard.footerFromHeader m header in
  BlockGuard.validateHeader m header = Ok true /\
  BlockGuard.validateFooter m footer = Ok true /\
  BlockGuard.validatePair m header footer = true /\
  AllocBlockHeader.startPage m header = sp /\
  AllocBlockHeader.pageCount m header = pc /\
  AllocBlockHeader.zoneIndex m header = zoneIndex pa /\
  ALLOC_HEADER_SIZE + AllocBlockHeader.requestedSize m header
  + ALLOC_FOOTER_SIZE <= pc * ALLOC_PAGE_SIZE.

(** The block in front of which [userPtr] points is intact, starts at the
    page its header names, lies in the zone, and its pages are marked
    allocated. *)
Definition heldBlock (pa : t) (m : mem) (userPtr : Z) : Prop :=
  let header := BlockGuard.headerFromUserData userPtr in
  let sp := AllocBlockHeader.startPage m header in
  let pc := AllocBlockHeader.pageCount m header in
  header = pageAddress pa sp /\
  sp + pc <= totalPages pa /\
  intactBlock pa m sp pc /\
  forall i, sp <= i < sp + pc ->
    PageBitmap.bit (bitmapAllocated pa) i = true.

(** The invariant of a zone, of the memory and of the pointers held. *)
Definition MInv (pa : t) (m : mem) (live : list Z) : Prop :=
  ZInv pa /\
  initialized pa = true /\
  0 <= zoneIndex pa < 256 /\
  QuarantineTable.QInv (quarantine pa) /\
  (forall p, List.In p live -> heldBlock pa m p) /\
  (forall p q i, List.In p live -> List.In q live -> p <> q ->
     blockPages m p i -> ~ blockPages m q i) /\
  (forall i, 0 <= i < totalPages pa ->
     PageBitmap.bit (bitmapAllocated pa) i = true ->
     exists p, List.In p live /\ blockPages m p i) /\
  (forall k e, QuarantineTable.entries (quarantine pa) !! k = Some e ->
     AllocQuarantineEntry.active e <> 0 ->
     intactBlock pa m (AllocQuarantineEntry.startPage e)
       (AllocQuarantineEntry.pageCount e)).

(** *** Scripts of public operations *)

Inductive op : Type :=
| Allocate (requestedSize : Z)            (* the pointer is dropped *)
| Deallocate (userPtr : option Z)
| AllocateThenFree (requestedSize : Z).   (* p = allocate(n); deallocate(p) *)

Definition step (o : op) (w : t * mem) : result (t * mem) :=
  match o with
  | Allocate n =>
      do (pa, m, _) <- allocate (fst w) (snd w) n; Ok (pa, m)
  | Deallocate p => deallocate (fst w) (snd w) p
  | AllocateThenFree n =>
      do (pa, m, p) <- allocate (fst w) (snd w) n; deallocate pa m p
  end.

Fixpoint run (script : list op) (w : t * mem) : result (t * mem) :=
  match script with
  | [] => Ok w
  | o :: script' => do w' <- step o w; run script' w'
  end.

(** [init] followed by a script, on the memory [m]. *)
Definition lifetime (start size zone : Z) (m : mem) (script : list op)
  : result (t * mem) :=
  do pa <- init start size zone; run script (pa, m).

(** Base address of the zones of the examples (start of SRAM). *)
Definition base : Z := 0x20000000.

(** A block is freed twice, then 31 more blocks are allocated and freed:
    the last free evicts the first of the two entries of the block. *)
Definition doubleFree : list op :=
  [Allocate 100; Deallocate (Some (base + 32)); Deallocate (Some (base + 32))]
  ++ replicate 31 (AllocateThenFree 100).

(** Page 0 is free again while slot 1 of the quarantine still holds it. *)
Definition quarantinedPageFree (pa : t) : bool :=
  let e := QuarantineTable.entry (quarantine pa) 1 in
  negb (PageBitmap.bit (bitmapInUse pa) 0)
  && negb (AllocQuarantineEntry.active e =? 0)
  && (AllocQuarantineEntry.startPage e <=? 0)
  && (0 <? AllocQuarantineEntry.startPage e + AllocQuarantineEntry.pageCount e).

(** The memory an earlier lifetime of a 64-page zone leaves behind: a
    40-page block, and a one-page block at page 40. *)
Definition staleMemory : mem :=
  match lifetime base (64 * 1024) 0 Mem.zero [Allocate 40896; Allocate 100]
  with
  | Ok w => snd w
  | Fatal => Mem.zero
  end.

(** In the next lifetime the pointer of the old block at page 40 is freed,
    then 32 blocks are allocated and freed: the last free evicts the entry
    of page 40, which was never in use in this lifetime. *)
Definition staleFree : list op :=
  Deallocate (Some (base + 40 * 1024 + 32))
  :: replicate 32 (AllocateThenFree 100).

(** [freePagesCount] differs from [N] minus the population count. *)
Definition freeCountOff (pa : t) : bool :=
  match PageBitmap.countSet (bitmapInUse pa) with
  | Ok n => negb (freePagesCount pa =? totalPages pa - n)
  | Fatal => true
  end.

(** [liveBlock] as a test. *)
Definition liveBlockb (pa : t) (m : mem) (userPtr : Z) : bool :=
  let header := BlockGuard.headerFromUserData userPtr in
  allZ (PageBitmap.bit (bitmapAllocated pa))
    (Z.to_nat (AllocBlockHeader.pageCount m header))
    (AllocBlockHeader.startPage m header).

(** The pointers a script frees are those of live blocks. *)
Definition freesLive (o : op) (w : t * mem) : bool :=
  match o with
  | Allocate _ => true
  | Deallocate None => true
  | Deallocate (Some p) => liveBlockb (fst w) (snd w) p
  | AllocateThenFree n =>
      match allocate (fst w) (snd w) n with
      | Ok (pa, m, Some p) => liveBlockb pa m p
      | _ => true
      end
  end.

Fixpoint scriptLive (script : list op) (w : t * mem) : bool :=
  match script with
  | [] => true
  | o :: script' =>
      freesLive o w
      && match step o w with
         | Ok w' => scriptLive script' w'
         | Fatal => true
         end
  end.

(** A 16-page zone in which a second block is allocated and freed. *)
Definition allocFree : list op := [Allocate 100; AllocateThenFree 100].

Definition afterAllocFree : t * mem :=
  match lifetime base (16 * 1024) 0 Mem.zero allocFree with
  | Ok w => w
  | Fatal => (zeroed, Mem.zero)
  end.

(** A fresh zone of 16 pages. *)
Definition fresh16 : t :=
  match init base (16 * 1024) 0 with
  | Ok pa => pa
  | Fatal => zeroed
  end.

(** A request of 64 MiB + 960 bytes: header, payload and footer take
    65537 pages. *)
Definition hugeRequest : Z := 65537 * 1024 - 64.

(** [calloc(4, 250)] returned the first payload address and the 1000 bytes
    there read zero. *)
Definition callocZeroed (r : result (t * mem * option Z)) : bool :=
  match r with
  | Ok (_, m, Some p) =>
      (p =? base + ALLOC_HEADER_SIZE)
      && allZ (fun x => load8 m x =? 0) 1000 p
  | _ => false
  end.

(** *** The zone of the examples

    Two blocks of 100 bytes are allocated in a fresh zone of 16 pages, at
    [base + 32] and at [base + 1056], and the first is given back. *)
Definition zoneOf (r : result (t * mem * option Z)) : t :=
  match r with
  | Ok (pa, _, _) => pa
  | Fatal => zeroed
  end.

Definition memOf (r : result (t * mem * option Z)) : mem :=
  match r with
  | Ok (_, m, _) => m
  | Fatal => Mem.zero
  end.

Definition oneHeld : result (t * mem * option Z) :=
  allocate fresh16 Mem.zero 100.

Definition twoHeld : result (t * mem * option Z) :=
  allocate (zoneOf oneHeld) (memOf oneHeld) 100.

Definition oneFreed : t * mem :=
  match deallocate (zoneOf twoHeld) (memOf twoHeld) (Some (base + 32)) with
  | Ok w => w
  | Fatal => (zeroed, Mem.zero)
  end.
End PageAllocator.

(** ** AllocatorZones.h *)

Inductive HeapZone_t : Type :=
| HEAP_ZONE_ANY
| HEAP_ZONE_FAST
| HEAP_ZONE_SLOW
| HEAP_ZONE_FAST_PREFER
| HEAP_ZONE_SLOW_PREFER.

(** ** AllocatorCustomCpp.hpp / AllocatorCustomCpp.cpp

    [lock], [unlock] and [assertNotISR] have no effect on a sequential
    run from task context and are left out. *)

Module AllocatorCustomCpp.
Record t : Type := mk {
  zones_ : list PageAllocator.t;     (* zones_[ALLOC_MAX_ZONES] *)
  activeZones_ : Z;                  (* uint8_t *)
  currentZone_ : HeapZone_t;
  initialized_ : bool
}.

Record ZoneRoute : Type := mkRoute {
  primary : Z;
  secondary : Z;
  trySecondary : bool
}.

(** [zones_[i]] *)
Definition zone (a : t) (i : Z) : PageAllocator.t :=
  default PageAllocator.zeroed (zones_ a !! Z.to_nat i).

Definition setZoneAt (a : t) (i : Z) (pa : PageAllocator.t) : t :=
  {| zones_ := <[Z.to_nat i := pa]> (zones_ a);
     activeZones_ := activeZones_ a;
     currentZone_ := currentZone_ a;
     initialized_ := initialized_ a |}.

(** The zero-initialised (BSS) object. *)
Definition zeroed : t :=
  {| zones_ := replicate (Z.to_nat ALLOC_MAX_ZONES) PageAllocator.zeroed;
     activeZones_ := 0;
     currentZone_ := HEAP_ZONE_ANY;
     initialized_ := false |}.

(** The loop of [defineHeapRegions] over the array [regions], whose
    terminator is the entry with a null start or a zero size (the end of the
    list stands for it). *)
Fixpoint defineHeapRegions_loop (regions : list (Z * Z)) (a : t) : result t :=
  match regions with
  | [] => Ok a
  | (pucStartAddress, xSizeInBytes) :: rest =>
      if (activeZones_ a <? ALLOC_MAX_ZONES)
         && negb (pucStartAddress =? 0) && negb (xSizeInBytes =? 0)
      then
        do z <- PageAllocator.init pucStartAddress xSizeInBytes
                  (activeZones_ a);
        defineHeapRegions_loop rest
          {| zones_ := <[Z.to_nat (activeZones_ a) := z]> (zones_ a);
             activeZones_ := u8 (activeZones_ a + 1);
             currentZone_ := currentZone_ a;
             initialized_ := initialized_ a |}
      else Ok a
  end.

Definition defineHeapRegions (a : t) (regions : option (list (Z * Z)))
  : result t :=
  match regions with
  | None => Ok a
  | Some regions =>
      do a' <- defineHeapRegions_loop regions
                 {| zones_ := zones_ a; activeZones_ := 0;
                    currentZone_ := HEAP_ZONE_ANY; initialized_ := false |};
      check (activeZones_ a' >? 0);
      Ok {| zones_ := zones_ a'; activeZones_ := activeZones_ a';
            currentZone_ := currentZone_ a'; initialized_ := true |}
  end.

Definition resolveRoute (zone : HeapZone_t) : ZoneRoute :=
  match zone with
  | HEAP_ZONE_FAST => mkRoute 0 0 false
  | HEAP_ZONE_SLOW => mkRoute 1 1 false
  | HEAP_ZONE_FAST_PREFER => mkRoute 0 1 true
  | HEAP_ZONE_SLOW_PREFER => mkRoute 1 0 true
  | HEAP_ZONE_ANY => mkRoute 0 1 true
  end.

(** The last loop of [allocateWithRoute] ("the other zones"). *)
Fixpoint allocateWithRoute_loop (n : nat) (a : t) (m : mem)
    (route : ZoneRoute) (size : Z) (i : Z) : result (t * mem * option Z) :=
  match n with
  | O => Ok (a, m, None)
  | S n' =>
      if i =? primary route
      then allocateWithRoute_loop n' a m route size (i + 1)
      else if trySecondary route && (i =? secondary route)
      then allocateWithRoute_loop n' a m route size (i + 1)
      else if negb (PageAllocator.isInitialized (zone a i))
      then allocateWithRoute_loop n' a m route size (i + 1)
      else
        do (z, m', p) <- PageAllocator.allocate (zone a i) m size;
        match p with
        | Some _ => Ok (setZoneAt a i z, m', p)
        | None =>
            allocateWithRoute_loop n' (setZoneAt a i z) m' route size (i + 1)
        end
  end.

Definition allocateWithRoute (a : t) (m : mem) (route : ZoneRoute) (size : Z)
  : result (t * mem * option Z) :=
  (* primary *)
  do (a1, m1, p1) <-
    (if (primary route <? activeZones_ a)
        && PageAllocator.isInitialized (zone a (primary route))
     then do (z, m', p) <- PageAllocator.allocate (zone a (primary route))
                              m size;
          Ok (setZoneAt a (primary route) z, m', p)
     else Ok (a, m, None));
  match p1 with
  | Some _ => Ok (a1, m1, p1)
  | None =>
    (* secondary *)
    do (a2, m2, p2) <-
      (if trySecondary route
          && (secondary route <? activeZones_ a1)
          && negb (secondary route =? primary route)
          && PageAllocator.isInitialized (zone a1 (secondary route))
       then do (z, m', p) <- PageAllocator.allocate
                                (zone a1 (secondary route)) m1 size;
            Ok (setZoneAt a1 (secondary route) z, m', p)
       else Ok (a1, m1, None));
    match p2 with
    | Some _ => Ok (a2, m2, p2)
    | None =>
        allocateWithRoute_loop (Z.to_nat (activeZones_ a2)) a2 m2 route size 0
    end
  end.

Definition allocate (a : t) (m : mem) (size : Z)
  : result (t * mem * option Z) :=
  allocateWithRoute a m (resolveRoute (currentZone_ a)) size.

Definition calloc (a : t) (m : mem) (num size : Z)
  : result (t * mem * option Z) :=
  let route := resolveRoute (currentZone_ a) in
  do (a1, m1, p1) <-
    (if (primary route <? activeZones_ a)
        && PageAllocator.isInitialized (zone a (primary route))
     then do (z, m', p) <- PageAllocator.calloc (zone a (primary route))
                              m num size;
          Ok (setZoneAt a (primary route) z, m', p)
     else Ok (a, m, None));
  match p1 with
  | Some _ => Ok (a1, m1, p1)
  | None =>
      if trySecondary route
         && (secondary route <? activeZones_ a1)
         && negb (secondary route =? primary route)
         && PageAllocator.isInitialized (zone a1 (secondary route))
      then do (z, m', p) <- PageAllocator.calloc
                               (zone a1 (secondary route)) m1 num size;
           Ok (setZoneAt a1 (secondary route) z, m', p)
      else Ok (a1, m1, None)
  end.

(** The loop of [deallocate] over the zones. *)
Fixpoint deallocate_loop (n : nat) (a : t) (m : mem) (ptr : option Z)
    (i : Z) : result (t * mem) :=
  match n with
  | O => Fatal                 (* ALLOC_ASSERT(!"pointer of no known zone") *)
  | S n' =>
      if PageAllocator.isInitialized (zone a i)
         && PageAllocator.ownsPointer (zone a i) ptr
      then do (z, m') <- PageAllocator.deallocate (zone a i) m ptr;
           Ok (setZoneAt a i z, m')
      else deallocate_loop n' a m ptr (i + 1)
  end.

Definition deallocate (a : t) (m : mem) (ptr : option Z) : result (t * mem) :=
  match ptr with
  | None => Ok (a, m)
  | Some _ => deallocate_loop (Z.to_nat (activeZones_ a)) a m ptr 0
  end.

Definition setZone (a : t) (zone : HeapZone_t) : t :=
  {| zones_ := zones_ a; activeZones_ := activeZones_ a;
     currentZone_ := zone; initialized_ := initialized_ a |}.
Definition getZone (a : t) : HeapZone_t := currentZone_ a.
Definition getZoneCount (a : t) : Z := activeZones_ a.

(** The loop of [resetState]. *)
Fixpoint resetState_loop (n : nat) (a : t) (i : Z) : t :=
  match n with
  | O => a
  | S n' => resetState_loop n' (setZoneAt a i PageAllocator.zeroed) (i + 1)
  end.

Definition resetState (a : t) : t :=
  let a' := resetState_loop (Z.to_nat (activeZones_ a)) a 0 in
  {| zones_ := zones_ a'; activeZones_ := 0;
     currentZone_ := HEAP_ZONE_ANY; initialized_ := false |}.

(** The loop of the size queries: [total += zones_[i].f()] for the zones
    [i], [i + 1], ... *)
Fixpoint sumZones_loop (n : nat) (a : t) (f : PageAllocator.t -> Z)
    (i total : Z) : Z :=
  match n with
  | O => total
  | S n' => sumZones_loop n' a f (i + 1) (usize (total + f (zone a i)))
  end.

Definition getFreeHeapSize (a : t) : Z :=
  sumZones_loop (Z.to_nat (activeZones_ a)) a PageAllocator.freeBytes 0 0.

Definition getMinimumEverFreeBytes (a : t) : Z :=
  sumZones_loop (Z.to_nat (activeZones_ a)) a PageAllocator.minEverFreeBytes
    0 0.

Definition getTotalHeapSize (a : t) : Z :=
  sumZones_loop (Z.to_nat (activeZones_ a)) a PageAllocator.totalBytes 0 0.

Definition getUsedHeapSize (a : t) : Z :=
  usize (getTotalHeapSize a - getFreeHeapSize a).

(** [HeapStats_t] of FreeRTOS (the header is not part of the repository);
    every field is a [size_t]. *)
Record HeapStats_t : Type := mkHeapStats {
  xAvailableHeapSpaceInBytes : Z;
  xSizeOfLargestFreeBlockInBytes : Z;
  xSizeOfSmallestFreeBlockInBytes : Z;
  xNumberOfFreeBlocks : Z;
  xMinimumEverFreeBytesRemaining : Z;
  xNumberOfSuccessfulAllocations : Z;
  xNumberOfSuccessfulFrees : Z
}.

(** The loop of [getHeapStats]. *)
Fixpoint getHeapStats_loop (n : nat) (a : t) (i : Z) (stats : HeapStats_t)
  : HeapStats_t :=
  match n with
  | O => stats
  | S n' =>
      getHeapStats_loop n' a (i + 1)
        {| xAvailableHeapSpaceInBytes :=
             usize (xAvailableHeapSpaceInBytes stats
                    + PageAllocator.freeBytes (zone a i));
           xSizeOfLargestFreeBlockInBytes :=
             xSizeOfLargestFreeBlockInBytes stats;
           xSizeOfSmallestFreeBlockInBytes :=
             xSizeOfSmallestFreeBlockInBytes stats;
           xNumberOfFreeBlocks := xNumberOfFreeBlocks stats;
           xMinimumEverFreeBytesRemaining :=
             usize (xMinimumEverFreeBytesRemaining stats
                    + PageAllocator.minEverFreeBytes (zone a i));
           xNumberOfSuccessfulAllocations :=
             usize (xNumberOfSuccessfulAllocations stats
                    + PageAllocator.successfulAllocs (zone a i));
           xNumberOfSuccessfulFrees :=
             usize (xNumberOfSuccessfulFrees stats
                    + PageAllocator.successfulFrees (zone a i)) |}
  end.

(** [getHeapStats(stats)]: the result is the object [stats] points to
    afterwards, [None] standing for a null pointer. *)
Definition getHeapStats (a : t) (stats : option HeapStats_t)
  : option HeapStats_t :=
  match stats with
  | None => None
  | Some _ =>
      Some (getHeapStats_loop (Z.to_nat (activeZones_ a)) a 0
              (mkHeapStats 0 0 0 0 0 0 0))
  end.

Definition isInitialized (a : t) : bool := initialized_ a.

Definition getZoneFreeBytes (a : t) (idx : Z) : Z :=
  if idx <? activeZones_ a then PageAllocator.freeBytes (zone a idx) else 0.

Definition getZoneTotalBytes (a : t) (idx : Z) : Z :=
  if idx <? activeZones_ a then PageAllocator.totalBytes (zone a idx) else 0.

Definition getZoneMinFreeBytes (a : t) (idx : Z) : Z :=
  if idx <? activeZones_ a then PageAllocator.minEverFreeBytes (zone a idx)
  else 0.

Definition getZoneUsedBytes (a : t) (idx : Z) : Z :=
  if idx <? activeZones_ a then PageAllocator.usedBytes (zone a idx) else 0.

(** The loop of [validateHeap]. *)
Fixpoint validateHeap_loop (n : nat) (a : t) (m : mem) (i : Z) (ok : bool)
  : result bool :=
  match n with
  | O => Ok ok
  | S n' =>
      if negb (PageAllocator.isInitialized (zone a i))
      then validateHeap_loop n' a m (i + 1) ok
      else
        do ok1 <- (if ok then PageAllocator.verifyQuarantine (zone a i) m
                   else Ok false);
        do ok2 <- (if ok1 then PageAllocator.verifyAllocated (zone a i) m
                   else Ok false);
        validateHeap_loop n' a m (i + 1) ok2
  end.

Definition validateHeap (a : t) (m : mem) : result bool :=
  validateHeap_loop (Z.to_nat (activeZones_ a)) a m 0 true.

(** *** A client of the multi-zone allocator

    [inZone pa x]: the byte at [x] lies in the region of the zone. *)
Definition inZone (pa : PageAllocator.t) (x : Z) : Prop :=
  PageAllocator.baseAddress pa <= x
  < PageAllocator.baseAddress pa
    + PageAllocator.totalPages pa * ALLOC_PAGE_SIZE.

(** The regions of the active zones do not overlap. *)
Definition zonesApart (a : t) : Prop :=
  forall i j x, 0 <= i < j -> j < activeZones_ a ->
    inZone (zone a i) x -> ~ inZone (zone a j) x.

(** No active zone has used up the sequence numbers of its quarantine. *)
Definition sequencesLeft (a : t) : Prop :=
  forall i, 0 <= i < activeZones_ a ->
    QuarantineTable.nextSequence (PageAllocator.quarantine (zone a i))
    < UINT32_MAX.

(** The states a client that keeps the contract can bring the allocator
    and the memory to, as in [PageAllocator.served]: the regions handed to
    [defineHeapRegions] do not overlap, the selection changes at will,
    requests are of at most [PageAllocator.maxRequest] bytes, a pointer is
    given back once, and the client writes into the payloads of the blocks
    it holds and nowhere else in the regions. *)
Inductive served : t -> mem -> list Z -> Prop :=
| served_define a regions a' m :
    length (zones_ a) = Z.to_nat ALLOC_MAX_ZONES ->
    defineHeapRegions a (Some regions) = Ok a' ->
    zonesApart a' ->
    served a' m []
| served_setZone a m live selector :
    served a m live -> served (setZone a selector) m live
| served_allocate a m live size a' m' ptr :
    served a m live -> 0 <= size <= PageAllocator.maxRequest ->
    allocate a m size = Ok (a', m', ptr) ->
    served a' m' (match ptr with Some p => p :: live | None => live end)
| served_calloc a m live num size a' m' ptr :
    served a m live -> 0 <= num -> 0 <= size ->
    num * size <= PageAllocator.maxRequest ->
    calloc a m num size = Ok (a', m', ptr) ->
    served a' m' (match ptr with Some p => p :: live | None => live end)
| served_deallocate a m live p a' m' :
    served a m live -> List.In p live -> sequencesLeft a ->
    deallocate a m (Some p) = Ok (a', m') ->
    served a' m' (List.remove Z.eq_dec p live)
| served_write a m live m' :
    served a m live ->
    (forall x,
       (exists i, 0 <= i < activeZones_ a /\ inZone (zone a i) x) ->
       (forall p, List.In p live -> ~ PageAllocator.inPayload m p x) ->
       load8 m' x = load8 m x) ->
    served a m' live.

(** [ownedBy pa p]: [pa.ownsPointer(p)]. *)
Definition ownedBy (pa : PageAllocator.t) (p : Z) : bool :=
  PageAllocator.ownsPointer pa (Some p).

(** What holds in every such state: each active zone is in a state of
    [PageAllocator.served], the pointers it has handed out being those of
    the client's that lie in its region, and every pointer of the client
    lies in one of the regions. *)
Definition RInv (a : t) (m : mem) (live : list Z) : Prop :=
  length (zones_ a) = Z.to_nat ALLOC_MAX_ZONES /\
  1 <= activeZones_ a <= ALLOC_MAX_ZONES /\
  zonesApart a /\
  (forall i, 0 <= i < activeZones_ a ->
     PageAllocator.served (zone a i) m
       (List.filter (ownedBy (zone a i)) live)) /\
  (forall p, List.In p live ->
     exists i, 0 <= i < activeZones_ a /\ ownedBy (zone a i) p = true).

(** *** A run with the fast zone selected

    Two zones of one page each, the fast one at [PageAllocator.base] and
    the slow one at [slowBase]; a zone is selected and 100 bytes are
    requested twice.  The result carries the two pointers and the number
    of successful allocations of the zone that was not selected. *)
Definition slowBase : Z := 0x60000000.

Definition selectedTwice (selector : HeapZone_t) (other : Z)
  : result (option Z * option Z * Z) :=
  do a0 <- defineHeapRegions zeroed
             (Some [(PageAllocator.base, 1024); (slowBase, 1024)]);
  let a1 := setZone a0 selector in
  do (a2, m2, p1) <- allocate a1 Mem.zero 100;
  do (a3, m3, p2) <- allocate a2 m2 100;
  Ok (p1, p2, PageAllocator.successfulAllocs (zone a3 other)).

Definition fastSelectedTwice : result (option Z * option Z * Z) :=
  selectedTwice HEAP_ZONE_FAST 1.

(** The same with [HEAP_ZONE_SLOW], the counter being that of the fast
    zone. *)
Definition slowSelectedTwice : result (option Z * option Z * Z) :=
  selectedTwice HEAP_ZONE_SLOW 0.

(** *** The allocator of the examples

    Two zones of 16 pages and of one page, and a block of 100 bytes. *)
Definition twoZones : t :=
  match defineHeapRegions zeroed
          (Some [(PageAllocator.base, 16 * 1024); (slowBase, 1024)]) with
  | Ok a => a
  | Fatal => zeroed
  end.

Definition stateOf (r : result (t * mem * option Z)) : t :=
  match r with
  | Ok (a, _, _) => a
  | Fatal => zeroed
  end.

Definition memoryOf (r : result (t * mem * option Z)) : mem :=
  match r with
  | Ok (_, m, _) => m
  | Fatal => Mem.zero
  end.

Definition oneServed : result (t * mem * option Z) :=
  allocate twoZones Mem.zero 100.
End AllocatorCustomCpp.

(** * Machine integers *)

Lemma u8_range x : 0 <= u8 x < 256.
Proof. unfold u8. apply Z.mod_pos_bound. lia. Qed.

Lemma u16_range x : 0 <= u16 x < 65536.
Proof. unfold u16. apply Z.mod_pos_bound. lia. Qed.

Lemma u32_range x : 0 <= u32 x < 4294967296.
Proof. unfold u32. apply Z.mod_pos_bound. lia. Qed.

Lemma usize_range x : 0 <= usize x < 4294967296.
Proof. unfold usize. apply Z.mod_pos_bound. lia. Qed.

Lemma u8_small x : 0 <= x < 256 -> u8 x = x.
Proof. intros. unfold u8. apply Z.mod_small. lia. Qed.

Lemma u16_small x : 0 <= x < 65536 -> u16 x = x.
Proof. intros. unfold u16. apply Z.mod_small. lia. Qed.

Lemma u32_small x : 0 <= x < 4294967296 -> u32 x = x.
Proof. intros. unfold u32. apply Z.mod_small. lia. Qed.

Lemma usize_small x : 0 <= x < 4294967296 -> usize x = x.
Proof. intros. unfold usize. apply Z.mod_small. lia. Qed.

Lemma u8_u8 x : u8 (u8 x) = u8 x.
Proof. unfold u8. apply Z.mod_mod. lia. Qed.

(** Little-endian bytes of a 16-bit and of a 32-bit value. *)
Lemma bytes16 v : u8 v + 2 ^ 8 * u8 (v / 2 ^ 8) = u16 v.
Proof.
  unfold u8, u16. change (2 ^ 8) with 256. change (2 ^ 16) with 65536.
  pose proof (Z.div_mod v 256 ltac:(lia)).
  pose proof (Z.mod_pos_bound v 256 ltac:(lia)).
  pose proof (Z.div_mod (v / 256) 256 ltac:(lia)).
  pose proof (Z.mod_pos_bound (v / 256) 256 ltac:(lia)).
  apply Z.mod_unique with (q := v / 256 / 256); lia.
Qed.

Lemma bytes32 v :
  u8 v + 2 ^ 8 * u8 (v / 2 ^ 8) + 2 ^ 16 * u8 (v / 2 ^ 16)
  + 2 ^ 24 * u8 (v / 2 ^ 24) = u32 v.
Proof.
  unfold u8, u32.
  change (2 ^ 8) with 256. change (2 ^ 16) with (256 * 256).
  change (2 ^ 24) with (256 * 256 * 256). change (2 ^ 32) with 4294967296.
  rewrite <- !Z.div_div by lia.
  pose proof (Z.div_mod v 256 ltac:(lia)).
  pose proof (Z.mod_pos_bound v 256 ltac:(lia)).
  pose proof (Z.div_mod (v / 256) 256 ltac:(lia)).
  pose proof (Z.mod_pos_bound (v / 256) 256 ltac:(lia)).
  pose proof (Z.div_mod (v / 256 / 256) 256 ltac:(lia)).
  pose proof (Z.mod_pos_bound (v / 256 / 256) 256 ltac:(lia)).
  pose proof (Z.div_mod (v / 256 / 256 / 256) 256 ltac:(lia)).
  pose proof (Z.mod_pos_bound (v / 256 / 256 / 256) 256 ltac:(lia)).
  apply Z.mod_unique with (q := v / 256 / 256 / 256 / 256); lia.
Qed.

(** * Memory *)

Lemma load8_store8 m a v x :
  load8 (store8 m a v) x = if x =? a then u8 v else load8 m x.
Proof.
  unfold load8, store8. destruct (x =? a); [apply u8_u8 | reflexivity].
Qed.

Lemma load8_memset m p v n x :
  load8 (memset m p v n) x
  = if (p <=? x) && (x <? p + n) then u8 v else load8 m x.
Proof.
  unfold load8, memset.
  destruct ((p <=? x) && (x <? p + n)); [apply u8_u8 | reflexivity].
Qed.

Lemma load8_range m a : 0 <= load8 m a < 256.
Proof. apply u8_range. Qed.

Lemma load16_range m a : 0 <= load16 m a < 65536.
Proof.
  unfold load16. pose proof (load8_range m a).
  pose proof (load8_range m (a + 1)). change (2 ^ 8) with 256. lia.
Qed.

Lemma load32_range m a : 0 <= load32 m a < 4294967296.
Proof.
  unfold load32. pose proof (load8_range m a).
  pose proof (load8_range m (a + 1)). pose proof (load8_range m (a + 2)).
  pose proof (load8_range m (a + 3)).
  change (2 ^ 8) with 256. change (2 ^ 16) with 65536.
  change (2 ^ 24) with 16777216. lia.
Qed.

(** Simplification of a read through a chain of writes: every address
    comparison is decided by linear arithmetic. *)
Ltac decide_addr :=
  repeat match goal with
  | |- context [?a =? ?b] =>
      first [ replace (a =? b) with true by (symmetry; apply Z.eqb_eq; lia)
            | replace (a =? b) with false by (symmetry; apply Z.eqb_neq; lia) ]
  | |- context [?a <=? ?b] =>
      first [ replace (a <=? b) with true by (symmetry; apply Z.leb_le; lia)
            | replace (a <=? b) with false by (symmetry; apply Z.leb_gt; lia) ]
  | |- context [?a <? ?b] =>
      first [ replace (a <? b) with true by (symmetry; apply Z.ltb_lt; lia)
            | replace (a <? b) with false by (symmetry; apply Z.ltb_ge; lia) ]
  end; rewrite ?andb_false_r, ?andb_true_r; cbn [andb orb negb].

Ltac mem_simpl :=
  unfold load32, load16, store32, store16;
  repeat (rewrite ?load8_store8, ?load8_memset; decide_addr).

Lemma load32_store32 m a v : load32 (store32 m a v) a = u32 v.
Proof. mem_simpl. apply bytes32. Qed.

Lemma load16_store16 m a v : load16 (store16 m a v) a = u16 v.
Proof. mem_simpl. apply bytes16. Qed.

Lemma load32_store32_other m a v b :
  b + 4 <= a \/ a + 4 <= b -> load32 (store32 m a v) b = load32 m b.
Proof. intros. mem_simpl. reflexivity. Qed.

Lemma agree_load32 m1 m2 lo n a :
  agree m1 m2 lo n -> lo <= a -> a + 4 <= lo + n ->
  load32 m1 a = load32 m2 a.
Proof.
  intros H ? ?. unfold load32.
  rewrite (H a), (H (a + 1)), (H (a + 2)), (H (a + 3)) by lia. reflexivity.
Qed.

Lemma agree_load16 m1 m2 lo n a :
  agree m1 m2 lo n -> lo <= a -> a + 2 <= lo + n ->
  load16 m1 a = load16 m2 a.
Proof.
  intros H ? ?. unfold load16.
  rewrite (H a), (H (a + 1)) by lia. reflexivity.
Qed.

Lemma agree_store32 m a v lo n :
  a + 4 <= lo \/ lo + n <= a -> agree (store32 m a v) m lo n.
Proof. intros ? x ?. mem_simpl. reflexivity. Qed.

Lemma agree_store16 m a v lo n :
  a + 2 <= lo \/ lo + n <= a -> agree (store16 m a v) m lo n.
Proof. intros ? x ?. mem_simpl. reflexivity. Qed.

Lemma agree_store8 m a v lo n :
  a + 1 <= lo \/ lo + n <= a -> agree (store8 m a v) m lo n.
Proof. intros ? x ?. mem_simpl. reflexivity. Qed.

Lemma agree_memset m p v k lo n :
  p + k <= lo \/ lo + n <= p -> agree (memset m p v k) m lo n.
Proof.
  intros ? x ?. rewrite load8_memset.
  destruct (Z.leb_spec p x), (Z.ltb_spec x (p + k)); cbn [andb];
    (reflexivity || lia).
Qed.

Lemma agree_refl m lo n : agree m m lo n.
Proof. intros x _. reflexivity. Qed.

Lemma agree_trans m1 m2 m3 lo n :
  agree m1 m2 lo n -> agree m2 m3 lo n -> agree m1 m3 lo n.
Proof. intros H1 H2 x Hx. rewrite (H1 x Hx). apply H2, Hx. Qed.

Lemma agree_sym m1 m2 lo n : agree m1 m2 lo n -> agree m2 m1 lo n.
Proof. intros H x Hx. symmetry. apply H, Hx. Qed.

Lemma agree_sub m1 m2 lo n lo' n' :
  agree m1 m2 lo n -> lo <= lo' -> lo' + n' <= lo + n -> agree m1 m2 lo' n'.
Proof. intros H ? ? x Hx. apply H. lia. Qed.

Section BlockGuardFacts.
Import BlockGuard.

(** * BlockGuard *)

Lemma u32_lxor a b : u32 (Z.lxor a b) = Z.lxor (u32 a) (u32 b).
Proof.
  unfold u32. apply Z.bits_inj'. intros i Hi.
  rewrite Z.lxor_spec, !Z.testbit_mod_pow2, Z.lxor_spec by lia.
  destruct (i <? 32); reflexivity.
Qed.

Lemma lxor_u32_range a b :
  0 <= a < 4294967296 -> 0 <= b < 4294967296 ->
  0 <= Z.lxor a b < 4294967296.
Proof.
  intros Ha Hb. rewrite <- (u32_small a), <- (u32_small b) by lia.
  rewrite <- u32_lxor. apply u32_range.
Qed.

Lemma xorWords_range m p : 0 <= xorWords m p < 4294967296.
Proof.
  unfold xorWords. cbn [map fold_left].
  repeat apply lxor_u32_range; try apply load32_range; lia.
Qed.

Lemma computeChecksum_32 m p :
  BlockGuard.computeChecksum m p 32 = Ok (xorWords m p).
Proof. reflexivity. Qed.

Lemma xorWords_agree m1 m2 p :
  agree m1 m2 p 28 -> xorWords m1 p = xorWords m2 p.
Proof.
  intros H. unfold xorWords. cbn [map fold_left].
  rewrite !(agree_load32 m1 m2 p 28) by (assumption || lia). reflexivity.
Qed.

Lemma writeFields_agree m d mg rs sp pc zi seq lo n :
  d + 28 <= lo \/ lo + n <= d ->
  agree (BlockGuard.writeFields m d mg rs sp pc zi seq) m lo n.
Proof.
  intros H. unfold BlockGuard.writeFields.
  repeat (eapply agree_trans;
          [ first [ apply agree_store32 | apply agree_store16
                  | apply agree_store8 | apply agree_memset ]; lia | ]).
  apply agree_refl.
Qed.

(** What the fields of a record read after [writeFields] and the store of
    the checksum. *)
Lemma written_fields m d mg rs sp pc zi seq c :
  let m' := store32 (BlockGuard.writeFields m d mg rs sp pc zi seq) (d + 28) c in
  load32 m' d = u32 mg /\ load32 m' (d + 4) = u32 rs /\
  load16 m' (d + 8) = u16 sp /\ load16 m' (d + 10) = u16 pc /\
  load8 m' (d + 12) = u8 zi /\ load32 m' (d + 16) = u32 seq /\
  load32 m' (d + 28) = u32 c.
Proof.
  cbv zeta. unfold BlockGuard.writeFields.
  repeat split; mem_simpl;
    first [ apply bytes32 | apply bytes16 | reflexivity ].
Qed.

Lemma writeHeader_ok m d rs sp pc zi seq :
  BlockGuard.writeHeader m d rs sp pc zi seq
  = Ok (store32 (BlockGuard.writeFields m d ALLOC_PATTERN_HEADER_MAGIC
                   rs sp pc zi seq) (d + 28)
          (xorWords (BlockGuard.writeFields m d ALLOC_PATTERN_HEADER_MAGIC
                       rs sp pc zi seq) d)).
Proof. reflexivity. Qed.

Lemma writeFooter_ok m d rs sp pc zi seq :
  BlockGuard.writeFooter m d rs sp pc zi seq
  = Ok (store32 (BlockGuard.writeFields m d ALLOC_PATTERN_FOOTER_MAGIC
                   rs sp pc zi seq) (d + 28)
          (xorWords (BlockGuard.writeFields m d ALLOC_PATTERN_FOOTER_MAGIC
                       rs sp pc zi seq) d)).
Proof. reflexivity. Qed.

(** A record written with magic [mg] carries in its last word the XOR of
    the seven words before it. *)
Lemma written_checksum m d mg rs sp pc zi seq :
  let mf := BlockGuard.writeFields m d mg rs sp pc zi seq in
  let m' := store32 mf (d + 28) (xorWords mf d) in
  load32 m' (d + 28) = xorWords m' d.
Proof.
  cbv zeta.
  set (mf := BlockGuard.writeFields m d mg rs sp pc zi seq).
  rewrite load32_store32, u32_small by apply xorWords_range.
  symmetry. apply xorWords_agree. apply agree_store32. lia.
Qed.

Lemma validateHeader_agree m1 m2 p :
  agree m1 m2 p 32 ->
  BlockGuard.validateHeader m1 p = BlockGuard.validateHeader m2 p.
Proof.
  intros H. unfold BlockGuard.validateHeader.
  unfold AllocBlockHeader.magic, AllocBlockHeader.checksum, ALLOC_HEADER_SIZE.
  rewrite !computeChecksum_32.
  rewrite (xorWords_agree m1 m2) by (eapply agree_sub; [exact H | lia | lia]).
  rewrite (agree_load32 m1 m2 p 32 p), (agree_load32 m1 m2 p 32 (p + 28))
    by (assumption || lia).
  reflexivity.
Qed.

Lemma validateFooter_agree m1 m2 p :
  agree m1 m2 p 32 ->
  BlockGuard.validateFooter m1 p = BlockGuard.validateFooter m2 p.
Proof.
  intros H. unfold BlockGuard.validateFooter.
  unfold AllocBlockFooter.magic, AllocBlockFooter.checksum, ALLOC_FOOTER_SIZE.
  rewrite !computeChecksum_32.
  rewrite (xorWords_agree m1 m2) by (eapply agree_sub; [exact H | lia | lia]).
  rewrite (agree_load32 m1 m2 p 32 p), (agree_load32 m1 m2 p 32 (p + 28))
    by (assumption || lia).
  reflexivity.
Qed.

Lemma validateHeader_written m d rs sp pc zi seq m' :
  BlockGuard.writeHeader m d rs sp pc zi seq = Ok m' ->
  BlockGuard.validateHeader m' d = Ok true.
Proof.
  rewrite writeHeader_ok. intros [= <-].
  unfold BlockGuard.validateHeader, AllocBlockHeader.magic,
    AllocBlockHeader.checksum, ALLOC_HEADER_SIZE.
  rewrite computeChecksum_32.
  destruct (written_fields m d ALLOC_PATTERN_HEADER_MAGIC rs sp pc zi seq
              (xorWords (BlockGuard.writeFields m d ALLOC_PATTERN_HEADER_MAGIC
                           rs sp pc zi seq) d)) as (-> & _).
  rewrite written_checksum. cbn [bind]. rewrite !Z.eqb_refl. reflexivity.
Qed.

Lemma validateFooter_written m d rs sp pc zi seq m' :
  BlockGuard.writeFooter m d rs sp pc zi seq = Ok m' ->
  BlockGuard.validateFooter m' d = Ok true.
Proof.
  rewrite writeFooter_ok. intros [= <-].
  unfold BlockGuard.validateFooter, AllocBlockFooter.magic,
    AllocBlockFooter.checksum, ALLOC_FOOTER_SIZE.
  rewrite computeChecksum_32.
  destruct (written_fields m d ALLOC_PATTERN_FOOTER_MAGIC rs sp pc zi seq
              (xorWords (BlockGuard.writeFields m d ALLOC_PATTERN_FOOTER_MAGIC
                           rs sp pc zi seq) d)) as (-> & _).
  rewrite written_checksum. cbn [bind]. rewrite !Z.eqb_refl. reflexivity.
Qed.

Lemma writeHeader_agree m d rs sp pc zi seq m' lo n :
  BlockGuard.writeHeader m d rs sp pc zi seq = Ok m' ->
  d + 32 <= lo \/ lo + n <= d -> agree m' m lo n.
Proof.
  rewrite writeHeader_ok. intros [= <-] H.
  eapply agree_trans; [apply agree_store32; lia |].
  apply writeFields_agree. lia.
Qed.

Lemma writeFooter_agree m d rs sp pc zi seq m' lo n :
  BlockGuard.writeFooter m d rs sp pc zi seq = Ok m' ->
  d + 32 <= lo \/ lo + n <= d -> agree m' m lo n.
Proof.
  rewrite writeFooter_ok. intros [= <-] H.
  eapply agree_trans; [apply agree_store32; lia |].
  apply writeFields_agree. lia.
Qed.

(** C7.  Round trip of the block guard: a header written at [h] and a
    footer written at [f] with the same arguments, the two 32-byte records
    not overlapping, both validate, validate as a pair, and each carries as
    checksum the XOR of the seven 32-bit words that precede it. *)
Theorem guard_round_trip (m : mem) (h f rs sp pc zi seq : Z) :
  h + 32 <= f \/ f + 32 <= h ->
  exists m1 m2,
    BlockGuard.writeHeader m h rs sp pc zi seq = Ok m1 /\
    BlockGuard.writeFooter m1 f rs sp pc zi seq = Ok m2 /\
    BlockGuard.validateHeader m2 h = Ok true /\
    BlockGuard.validateFooter m2 f = Ok true /\
    BlockGuard.validatePair m2 h f = true /\
    AllocBlockHeader.checksum m2 h = xorWords m2 h /\
    AllocBlockFooter.checksum m2 f = xorWords m2 f.
Proof.
  intros Hdis.
  destruct (BlockGuard.writeHeader m h rs sp pc zi seq) as [m1|] eqn:E1;
    [| rewrite writeHeader_ok in E1; discriminate].
  destruct (BlockGuard.writeFooter m1 f rs sp pc zi seq) as [m2|] eqn:E2;
    [| rewrite writeFooter_ok in E2; discriminate].
  exists m1, m2.
  assert (Hag : agree m2 m1 h 32) by (eapply writeFooter_agree; eauto; lia).
  pose proof (validateHeader_written _ _ _ _ _ _ _ _ E1) as Hh.
  pose proof (validateFooter_written _ _ _ _ _ _ _ _ E2) as Hf.
  rewrite <- (validateHeader_agree m2 m1 h Hag) in Hh.
  split; [reflexivity |]. split; [exact E2 |].
  rewrite writeHeader_ok in E1. injection E1 as E1.
  rewrite writeFooter_ok in E2. injection E2 as E2.
  pose proof (written_fields m h ALLOC_PATTERN_HEADER_MAGIC rs sp pc zi seq
    (xorWords (BlockGuard.writeFields m h ALLOC_PATTERN_HEADER_MAGIC
                 rs sp pc zi seq) h)) as Fh.
  pose proof (written_fields m1 f ALLOC_PATTERN_FOOTER_MAGIC rs sp pc zi seq
    (xorWords (BlockGuard.writeFields m1 f ALLOC_PATTERN_FOOTER_MAGIC
                 rs sp pc zi seq) f)) as Ff.
  cbv zeta in Fh, Ff. rewrite E1 in Fh. rewrite E2 in Ff.
  destruct Fh as (_ & Fh1 & Fh2 & Fh3 & Fh4 & Fh5 & _).
  destruct Ff as (_ & Ff1 & Ff2 & Ff3 & Ff4 & Ff5 & _).
  repeat split; try assumption.
  - unfold BlockGuard.validatePair.
    unfold AllocBlockHeader.requestedSize, AllocBlockHeader.startPage,
      AllocBlockHeader.pageCount, AllocBlockHeader.zoneIndex,
      AllocBlockHeader.sequenceNum, AllocBlockFooter.requestedSize,
      AllocBlockFooter.startPage, AllocBlockFooter.pageCount,
      AllocBlockFooter.zoneIndex, AllocBlockFooter.sequenceNum.
    rewrite (agree_load32 m2 m1 h 32 (h + 4)),
      (agree_load16 m2 m1 h 32 (h + 8)), (agree_load16 m2 m1 h 32 (h + 10)),
      (Hag (h + 12)), (agree_load32 m2 m1 h 32 (h + 16))
      by (assumption || lia).
    rewrite Fh1, Fh2, Fh3, Fh4, Fh5, Ff1, Ff2, Ff3, Ff4, Ff5.
    rewrite !Z.eqb_refl. reflexivity.
  - unfold AllocBlockHeader.checksum.
    rewrite (agree_load32 m2 m1 h 32 (h + 28)) by (assumption || lia).
    rewrite (xorWords_agree m2 m1 h)
      by (eapply agree_sub; [exact Hag | lia | lia]).
    rewrite <- E1. apply written_checksum.
  - unfold AllocBlockFooter.checksum. rewrite <- E2. apply written_checksum.
Qed.
End BlockGuardFacts.

(** * Counting *)

Lemma countZ_ext f g n lo :
  (forall i, lo <= i < lo + Z.of_nat n -> f i = g i) ->
  countZ f n lo = countZ g n lo.
Proof.
  revert lo. induction n as [|n IH]; intros lo H; cbn [countZ]; [reflexivity|].
  rewrite (H lo) by lia. rewrite (IH (lo + 1)); [reflexivity|].
  intros i Hi. apply H. lia.
Qed.

Lemma countZ_app f n1 n2 lo :
  countZ f (n1 + n2) lo = countZ f n1 lo + countZ f n2 (lo + Z.of_nat n1).
Proof.
  revert lo. induction n1 as [|n1 IH]; intros lo.
  - cbn [countZ Nat.add]. rewrite Z.add_0_r. reflexivity.
  - cbn [countZ Nat.add]. rewrite IH.
    replace (lo + 1 + Z.of_nat n1) with (lo + Z.of_nat (S n1)) by lia. lia.
Qed.

Lemma countZ_bounds f n lo : 0 <= countZ f n lo <= Z.of_nat n.
Proof.
  revert lo. induction n as [|n IH]; intros lo; cbn [countZ]; [lia|].
  specialize (IH (lo + 1)). destruct (f lo); cbn [Z.b2z]; lia.
Qed.

Lemma countZ_false f n lo :
  (forall i, lo <= i < lo + Z.of_nat n -> f i = false) -> countZ f n lo = 0.
Proof.
  revert lo. induction n as [|n IH]; intros lo H; cbn [countZ]; [reflexivity|].
  rewrite (H lo) by lia. rewrite IH; [reflexivity|].
  intros i Hi. apply H. lia.
Qed.

Lemma countZ_true f n lo :
  (forall i, lo <= i < lo + Z.of_nat n -> f i = true) ->
  countZ f n lo = Z.of_nat n.
Proof.
  revert lo. induction n as [|n IH]; intros lo H; cbn [countZ]; [reflexivity|].
  rewrite (H lo) by lia. rewrite IH; [cbn [Z.b2z]; lia|].
  intros i Hi. apply H. lia.
Qed.

(** Splitting a count over [0, n) around the range [s, s + c). *)
Lemma countZ_split3 f n s c :
  0 <= s -> 0 <= c -> s + c <= n ->
  countZ f (Z.to_nat n) 0
  = countZ f (Z.to_nat s) 0 + countZ f (Z.to_nat c) s
    + countZ f (Z.to_nat (n - s - c)) (s + c).
Proof.
  intros Hs Hc Hn.
  replace (Z.to_nat n)
    with (Z.to_nat s + (Z.to_nat c + Z.to_nat (n - s - c)))%nat by lia.
  rewrite !countZ_app. rewrite !Z2Nat.id by lia.
  rewrite Z.add_0_l. lia.
Qed.

(** * The loop combinator *)

Lemma forZ_inv {T : Type} (P : Z -> T -> Prop) (body : Z -> T -> result T)
    (n : nat) (lo : Z) (s : T) :
  P lo s ->
  (forall i s0, lo <= i < lo + Z.of_nat n -> P i s0 ->
     exists s1, body i s0 = Ok s1 /\ P (i + 1) s1) ->
  exists s', forZ n lo body s = Ok s' /\ P (lo + Z.of_nat n) s'.
Proof.
  revert lo s. induction n as [|n IH]; intros lo s H0 Hstep.
  - exists s. cbn [forZ]. rewrite Z.add_0_r. auto.
  - cbn [forZ]. destruct (Hstep lo s ltac:(lia) H0) as (s1 & -> & H1).
    cbn [bind]. destruct (IH (lo + 1) s1 H1) as (s' & E & H').
    { intros i s0 Hi. apply Hstep. lia. }
    exists s'. split; [exact E|].
    replace (lo + Z.of_nat (S n)) with (lo + 1 + Z.of_nat n) by lia. exact H'.
Qed.

Section PageBitmapFacts.
Import PageBitmap.

(** * PageBitmap *)

Lemma shiftl1_u32 k : 0 <= k < 32 -> u32 (Z.shiftl 1 k) = 2 ^ k.
Proof.
  intros Hk. rewrite Z.shiftl_1_l. apply u32_small.
  split; [apply Z.pow_nonneg; lia|].
  change 4294967296 with (2 ^ 32). apply Z.pow_lt_mono_r; lia.
Qed.

Lemma land_pow2_eqb w k :
  0 <= k -> (Z.land w (2 ^ k) =? 0) = negb (Z.testbit w k).
Proof.
  intros Hk. destruct (Z.testbit w k) eqn:E; cbn [negb].
  - apply Z.eqb_neq. intros H.
    assert (Z.testbit (Z.land w (2 ^ k)) k = true).
    { rewrite Z.land_spec, E, Z.pow2_bits_eqb, Z.eqb_refl by lia. reflexivity. }
    rewrite H, Z.bits_0 in *. discriminate.
  - apply Z.eqb_eq. apply Z.bits_inj'. intros i Hi.
    rewrite Z.land_spec, Z.bits_0, Z.pow2_bits_eqb by lia.
    destruct (Z.eqb_spec k i); [subst; rewrite E|]; 
      rewrite ?andb_false_r; reflexivity.
Qed.

Lemma word_setWord b k v j :
  0 <= k -> 0 <= j -> (Z.to_nat k < length (words b))%nat ->
  word (setWord b k v) j = if j =? k then v else word b j.
Proof.
  intros Hk Hj Hlen. unfold word, setWord. cbn [words].
  destruct (Z.eqb_spec j k) as [->|Hne].
  - rewrite list_lookup_insert_eq by lia. reflexivity.
  - rewrite list_lookup_insert_ne by lia. reflexivity.
Qed.

Lemma wf_setWord b k v : wf b -> wf (setWord b k v).
Proof.
  intros [Hl Hp]. split; cbn [setWord words pageCount]; [|exact Hp].
  rewrite length_insert. exact Hl.
Qed.

Lemma page_word_bound b p :
  wf b -> 0 <= p < pageCount b -> (Z.to_nat (p / 32) < length (words b))%nat.
Proof.
  intros [Hl Hp] Hpage. rewrite Hl.
  unfold kMaxWords, ALLOC_MAX_PAGES_PER_ZONE in *.
  change ((10240 + 31) / 32) with 320.
  assert (p / 32 < 320) by (apply Z.div_lt_upper_bound; lia).
  assert (0 <= p / 32) by (apply Z.div_pos; lia). lia.
Qed.

Lemma test_spec b p :
  0 <= p < pageCount b -> test b p = Ok (bit b p).
Proof.
  intros Hp. unfold test, ALLOC_ASSERT.
  replace (p <? pageCount b) with true by (symmetry; apply Z.ltb_lt; lia).
  cbn [bind]. f_equal. unfold bit.
  assert (0 <= p mod 32 < 32) by (apply Z.mod_pos_bound; lia).
  rewrite shiftl1_u32, land_pow2_eqb by lia. apply negb_involutive.
Qed.

Lemma same_word_bit i p :
  0 <= i -> 0 <= p -> i / 32 = p / 32 -> i mod 32 = p mod 32 -> i = p.
Proof.
  intros. rewrite (Z.div_mod i 32), (Z.div_mod p 32) by lia. congruence.
Qed.

Lemma set_spec b p :
  wf b -> 0 <= p < pageCount b ->
  exists b', set b p = Ok b' /\ wf b' /\ pageCount b' = pageCount b /\
    forall i, 0 <= i -> bit b' i = (i =? p) || bit b i.
Proof.
  intros Hwf Hp. unfold set, ALLOC_ASSERT.
  replace (p <? pageCount b) with true by (symmetry; apply Z.ltb_lt; lia).
  cbn [bind]. eexists. split; [reflexivity|].
  split; [apply wf_setWord, Hwf|]. split; [reflexivity|].
  intros i Hi. unfold bit.
  assert (0 <= p mod 32 < 32) by (apply Z.mod_pos_bound; lia).
  assert (0 <= i mod 32 < 32) by (apply Z.mod_pos_bound; lia).
  assert (0 <= p / 32) by (apply Z.div_pos; lia).
  assert (0 <= i / 32) by (apply Z.div_pos; lia).
  rewrite word_setWord by (try lia; apply page_word_bound; auto).
  rewrite shiftl1_u32 by lia.
  destruct (Z.eqb_spec (i / 32) (p / 32)) as [Ew|Ew].
  - rewrite Z.lor_spec, Z.pow2_bits_eqb, Ew by lia.
    destruct (Z.eqb_spec (p mod 32) (i mod 32)) as [Eb|Eb].
    + rewrite (same_word_bit i p) by (lia || congruence).
      rewrite Z.eqb_refl, orb_true_r. reflexivity.
    + replace (i =? p) with false; [apply orb_false_r|].
      symmetry. apply Z.eqb_neq. intros ->. congruence.
  - replace (i =? p) with false; [reflexivity|].
    symmetry. apply Z.eqb_neq. intros ->. congruence.
Qed.

Lemma clear_spec b p :
  wf b -> 0 <= p < pageCount b ->
  exists b', clear b p = Ok b' /\ wf b' /\ pageCount b' = pageCount b /\
    forall i, 0 <= i -> bit b' i = negb (i =? p) && bit b i.
Proof.
  intros Hwf Hp. unfold clear, ALLOC_ASSERT.
  replace (p <? pageCount b) with true by (symmetry; apply Z.ltb_lt; lia).
  cbn [bind]. eexists. split; [reflexivity|].
  split; [apply wf_setWord, Hwf|]. split; [reflexivity|].
  intros i Hi. unfold bit.
  assert (0 <= p mod 32 < 32) by (apply Z.mod_pos_bound; lia).
  assert (0 <= i mod 32 < 32) by (apply Z.mod_pos_bound; lia).
  assert (0 <= p / 32) by (apply Z.div_pos; lia).
  assert (0 <= i / 32) by (apply Z.div_pos; lia).
  rewrite word_setWord by (try lia; apply page_word_bound; auto).
  rewrite shiftl1_u32 by lia.
  destruct (Z.eqb_spec (i / 32) (p / 32)) as [Ew|Ew].
  - rewrite Z.land_spec, Z.lxor_spec, Z.pow2_bits_eqb, Ew by lia.
    change 0xFFFFFFFF with (Z.ones 32).
    rewrite Z.testbit_ones_nonneg by lia.
    replace (i mod 32 <? 32) with true by (symmetry; apply Z.ltb_lt; lia).
    destruct (Z.eqb_spec (p mod 32) (i mod 32)) as [Eb|Eb].
    + rewrite (same_word_bit i p) by (lia || congruence).
      rewrite Z.eqb_refl. cbn. apply andb_false_r.
    + replace (i =? p) with false; [cbn; apply andb_true_r|].
      symmetry. apply Z.eqb_neq. intros ->. congruence.
  - replace (i =? p) with false; [reflexivity|].
    symmetry. apply Z.eqb_neq. intros ->. congruence.
Qed.

Lemma wf_page_u16 b p : wf b -> 0 <= p <= pageCount b -> u16 p = p.
Proof.
  intros [_ Hp] H. apply u16_small.
  unfold ALLOC_MAX_PAGES_PER_ZONE in Hp. lia.
Qed.

Lemma setRange_spec b start count :
  wf b -> 0 <= start -> 0 <= count -> start + count <= pageCount b ->
  exists b', setRange b start count = Ok b' /\ wf b' /\
    pageCount b' = pageCount b /\
    forall i, 0 <= i ->
      bit b' i = ((start <=? i) && (i <? start + count)) || bit b i.
Proof.
  intros Hwf Hs Hc Hle. unfold setRange, ALLOC_ASSERT.
  replace (start + count <=? pageCount b) with true
    by (symmetry; apply Z.leb_le; lia).
  cbn [bind].
  destruct (forZ_inv
    (fun k b' => wf b' /\ pageCount b' = pageCount b /\
       forall i, 0 <= i ->
         bit b' i = ((start <=? i) && (i <? start + k)) || bit b i)
    (fun i b' => set b' (u16 (start + i))) (Z.to_nat count) 0 b)
    as (b' & E & Hwf' & Hpc & Hbits).
  - split; [exact Hwf|]. split; [reflexivity|]. intros i Hi.
    rewrite Z.add_0_r.
    destruct (Z.leb_spec start i), (Z.ltb_spec i start);
      cbn [andb orb]; (reflexivity || lia).
  - intros i b0 Hi (Hwf0 & Hpc0 & Hb0).
    rewrite (wf_page_u16 b) by (auto; lia).
    destruct (set_spec b0 (start + i)) as (b1 & E1 & Hwf1 & Hpc1 & Hb1);
      [exact Hwf0 | lia |].
    exists b1. split; [exact E1|]. split; [exact Hwf1|].
    split; [congruence|]. intros j Hj. rewrite Hb1, Hb0 by lia.
    destruct (Z.eqb_spec j (start + i)), (Z.leb_spec start j),
      (Z.ltb_spec j (start + i)), (Z.ltb_spec j (start + (i + 1)));
      cbn [andb orb]; (reflexivity || lia).
  - exists b'. split; [exact E|]. split; [exact Hwf'|]. split; [exact Hpc|].
    intros i Hi. rewrite Hbits by lia.
    rewrite Z.add_0_l, Z2Nat.id by lia. reflexivity.
Qed.

Lemma clearRange_spec b start count :
  wf b -> 0 <= start -> 0 <= count -> start + count <= pageCount b ->
  exists b', clearRange b start count = Ok b' /\ wf b' /\
    pageCount b' = pageCount b /\
    forall i, 0 <= i ->
      bit b' i = negb ((start <=? i) && (i <? start + count)) && bit b i.
Proof.
  intros Hwf Hs Hc Hle. unfold clearRange, ALLOC_ASSERT.
  replace (start + count <=? pageCount b) with true
    by (symmetry; apply Z.leb_le; lia).
  cbn [bind].
  destruct (forZ_inv
    (fun k b' => wf b' /\ pageCount b' = pageCount b /\
       forall i, 0 <= i ->
         bit b' i = negb ((start <=? i) && (i <? start + k)) && bit b i)
    (fun i b' => clear b' (u16 (start + i))) (Z.to_nat count) 0 b)
    as (b' & E & Hwf' & Hpc & Hbits).
  - split; [exact Hwf|]. split; [reflexivity|]. intros i Hi.
    rewrite Z.add_0_r.
    destruct (Z.leb_spec start i), (Z.ltb_spec i start);
      cbn [andb negb]; (reflexivity || lia).
  - intros i b0 Hi (Hwf0 & Hpc0 & Hb0).
    rewrite (wf_page_u16 b) by (auto; lia).
    destruct (clear_spec b0 (start + i)) as (b1 & E1 & Hwf1 & Hpc1 & Hb1);
      [exact Hwf0 | lia |].
    exists b1. split; [exact E1|]. split; [exact Hwf1|].
    split; [congruence|]. intros j Hj. rewrite Hb1, Hb0 by lia.
    destruct (Z.eqb_spec j (start + i)), (Z.leb_spec start j),
      (Z.ltb_spec j (start + i)), (Z.ltb_spec j (start + (i + 1)));
      cbn [andb negb]; (reflexivity || lia).
  - exists b'. split; [exact E|]. split; [exact Hwf'|]. split; [exact Hpc|].
    intros i Hi. rewrite Hbits by lia.
    rewrite Z.add_0_l, Z2Nat.id by lia. reflexivity.
Qed.

(** The range operations only return after their assertion held. *)
Lemma setRange_Ok_bound b start count b' :
  setRange b start count = Ok b' -> start + count <= pageCount b.
Proof.
  unfold setRange, ALLOC_ASSERT.
  destruct (Z.leb_spec (start + count) (pageCount b)); [auto|discriminate].
Qed.

Lemma clearRange_Ok_bound b start count b' :
  clearRange b start count = Ok b' -> start + count <= pageCount b.
Proof.
  unfold clearRange, ALLOC_ASSERT.
  destruct (Z.leb_spec (start + count) (pageCount b)); [auto|discriminate].
Qed.

Lemma init_spec count b :
  PageBitmap.init count = Ok b ->
  count <= ALLOC_MAX_PAGES_PER_ZONE /\ pageCount b = count /\
  length (words b) = Z.to_nat kMaxWords /\ forall i, bit b i = false.
Proof.
  unfold PageBitmap.init, ALLOC_ASSERT.
  destruct (Z.leb_spec count ALLOC_MAX_PAGES_PER_ZONE); [|discriminate].
  cbn [bind]. intros E.
  assert (Hb : b = {| words := replicate (Z.to_nat kMaxWords) 0;
                      pageCount := count |}) by congruence.
  clear E. subst b. cbn [pageCount words].
  split; [assumption|]. split; [reflexivity|].
  split; [apply length_replicate|].
  intros i. unfold bit, word. cbn [words].
  destruct (replicate (Z.to_nat kMaxWords) 0 !! Z.to_nat (i / 32)) eqn:E.
  - apply lookup_replicate in E as [-> _]. apply Z.bits_0.
  - apply Z.bits_0.
Qed.

(** ** First fit *)

Lemma full_word_bits b i k :
  0 <= i -> word b (i / 32) = 0xFFFFFFFF ->
  32 * (i / 32) <= k < 32 * (i / 32) + 32 -> bit b k = true.
Proof.
  intros Hi Hw Hk. unfold bit.
  assert (E : k / 32 = i / 32).
  { symmetry. apply Z.div_unique with (r := k - 32 * (i / 32)); lia. }
  rewrite E, Hw. change 0xFFFFFFFF with (Z.ones 32).
  assert (0 <= k mod 32 < 32) by (apply Z.mod_pos_bound; lia).
  apply Z.ones_spec_low. lia.
Qed.

Lemma findFreeRun_loop_spec fuel : forall b count i rs rl,
  wf b -> 1 <= count <= pageCount b ->
  0 <= rl < count -> rl <= i ->
  (0 < rl -> rs = i - rl /\ i <= pageCount b) ->
  (forall k, i - rl <= k < i -> bit b k = false) ->
  (forall j, 0 <= j < i - rl -> ~ freeRun b j count) ->
  (1 <= Z.of_nat fuel /\ pageCount b - i < Z.of_nat fuel) ->
  exists r, findFreeRun_loop fuel b count i rs rl = Ok r /\
    ((r = -1 /\ forall j, ~ freeRun b j count) \/
     (freeRun b r count /\ forall j, 0 <= j < r -> ~ freeRun b j count)).
Proof.
  induction fuel as [|fuel IH]; intros b count i rs rl Hwf Hc Hrl Hi Hrs Hfree
    Hmin Hfuel; [lia|].
  assert (Hmax : pageCount b <= 10240) by (destruct Hwf as [_ H]; apply H).
  cbn [findFreeRun_loop].
  destruct (Z.ltb_spec i (pageCount b)) as [Hlt|Hge].
  2:{ (* the scan is over *)
      exists (-1). split; [reflexivity|]. left. split; [reflexivity|].
      intros j (Hj0 & Hj1 & Hj2).
      destruct (Z.lt_ge_cases j (i - rl)) as [Hlow|Hhigh].
      - apply (Hmin j); [lia|]. repeat split; auto.
      - destruct (Z.eq_dec rl 0); [lia|]. destruct Hrs; lia. }
  assert (Hi0 : 0 <= i) by lia.
  assert (Hdiv : 32 * (i / 32) <= i < 32 * (i / 32) + 32).
  { pose proof (Z.div_mod i 32 ltac:(lia)).
    pose proof (Z.mod_pos_bound i 32 ltac:(lia)). lia. }
  destruct ((rl =? 0) && (word b (i / 32) =? 0xFFFFFFFF)) eqn:Eskip.
  - (* a full word is skipped *)
    apply andb_true_iff in Eskip as [Erl Ew].
    apply Z.eqb_eq in Erl. apply Z.eqb_eq in Ew. subst rl.
    rewrite (u16_small ((i / 32 + 1) * 32 - 1)) by lia.
    rewrite u16_small by lia.
    replace ((i / 32 + 1) * 32 - 1 + 1) with (32 * (i / 32) + 32) by lia.
    apply IH; [exact Hwf | exact Hc | lia | lia | lia | intros k Hk; lia
              | | lia].
    intros j Hj (Hj0 & Hj1 & Hj2).
    destruct (Z.lt_ge_cases j i) as [Hlow|Hhigh].
    + apply (Hmin j); [lia|]. repeat split; auto.
    + specialize (Hj2 j ltac:(lia)).
      rewrite (full_word_bits b i j) in Hj2 by (auto; lia). discriminate.
  - rewrite test_spec by lia. cbn [bind].
    rewrite (u16_small (i + 1)) by lia.
    destruct (bit b i) eqn:Ebit; cbn [negb].
    + (* page [i] is taken: the run restarts *)
      apply IH; [exact Hwf | exact Hc | lia | lia | lia | intros k Hk; lia
                | | lia].
      intros j Hj (Hj0 & Hj1 & Hj2).
      destruct (Z.lt_ge_cases j (i - rl)) as [Hlow|Hhigh].
      * apply (Hmin j); [lia|]. repeat split; auto.
      * rewrite (Hj2 i) in Ebit by lia. discriminate.
    + (* page [i] is free: the run grows *)
      rewrite (u16_small (rl + 1)) by lia.
      assert (Hrs' : (if rl =? 0 then i else rs) = i - rl).
      { destruct (Z.eqb_spec rl 0); [lia|]. destruct Hrs; lia. }
      rewrite Hrs'. rewrite Z.geb_leb.
      destruct (Z.leb_spec count (rl + 1)) as [Hfull|Hshort].
      * exists (i - rl). split; [reflexivity|]. right. split.
        -- repeat split; try lia. intros k Hk.
           destruct (Z.eq_dec k i); [subst; exact Ebit|]. apply Hfree. lia.
        -- exact Hmin.
      * apply IH; [exact Hwf | exact Hc | lia | lia | lia | | | lia].
        -- intros k Hk.
           destruct (Z.eq_dec k i); [subst; exact Ebit|]. apply Hfree. lia.
        -- intros j Hj. apply Hmin. lia.
Qed.

(** First fit: on a bitmap within capacity and for a run length between 1
    and the page count, [findFreeRun] returns the lowest index of a run of
    [count] zero bits, and -1 exactly when there is none. *)
Lemma findFreeRun_first_fit b count :
  wf b -> 1 <= count <= pageCount b ->
  exists r, findFreeRun b count = Ok r /\
    ((r = -1 /\ forall j, ~ freeRun b j count) \/
     (freeRun b r count /\ forall j, 0 <= j < r -> ~ freeRun b j count)).
Proof.
  intros Hwf Hc. unfold findFreeRun.
  replace ((count =? 0) || (count >? pageCount b)) with false.
  2:{ symmetry. apply orb_false_iff. split; [apply Z.eqb_neq; lia|].
      rewrite Z.gtb_ltb. apply Z.ltb_ge. lia. }
  apply findFreeRun_loop_spec;
    [exact Hwf | exact Hc | lia | lia | lia | intros k Hk; lia
    | intros j Hj; lia | lia].
Qed.

(** ** Population count *)

Lemma countZ_shift f d n lo :
  countZ (fun i => f (i + d)) n lo = countZ f n (lo + d).
Proof.
  revert lo. induction n as [|n IH]; intros lo; cbn [countZ]; [reflexivity|].
  rewrite IH. replace (lo + 1 + d) with (lo + d + 1) by lia. reflexivity.
Qed.

Lemma countZ_snoc f n :
  countZ f (S n) 0 = countZ f n 0 + Z.b2z (f (Z.of_nat n)).
Proof.
  replace (S n) with (n + 1)%nat by lia. rewrite countZ_app.
  cbn [countZ]. rewrite Z.add_0_l. lia.
Qed.

Lemma popcount_word b k :
  0 <= k -> popcount (word b k) = countZ (bit b) 32 (32 * k).
Proof.
  intros Hk. unfold popcount.
  rewrite <- (Z.add_0_l (32 * k)), <- countZ_shift.
  apply countZ_ext. intros i Hi. unfold bit.
  replace ((i + 32 * k) / 32) with k
    by (apply Z.div_unique with (r := i); lia).
  replace ((i + 32 * k) mod 32) with i
    by (apply Z.mod_unique with (q := k); lia).
  reflexivity.
Qed.

(** [countSet] is the number of set bits among the first [pageCount]. *)
Lemma countSet_spec b :
  wf b -> countSet b = Ok (countZ (bit b) (Z.to_nat (pageCount b)) 0).
Proof.
  intros Hwf.
  assert (Hmax : 0 <= pageCount b <= 10240) by (destruct Hwf as [_ H]; apply H).
  unfold countSet.
  assert (Hdiv : 32 * (pageCount b / 32) <= pageCount b
                 < 32 * (pageCount b / 32) + 32).
  { pose proof (Z.div_mod (pageCount b) 32 ltac:(lia)).
    pose proof (Z.mod_pos_bound (pageCount b) 32 ltac:(lia)). lia. }
  assert (Hfw : 0 <= pageCount b / 32) by (apply Z.div_pos; lia).
  destruct (forZ_inv
    (fun k n => n = countZ (bit b) (Z.to_nat (32 * k)) 0)
    (fun w n => Ok (u16 (n + popcount (word b w))))
    (Z.to_nat (pageCount b / 32)) 0 0) as (n1 & -> & Hn1).
  - reflexivity.
  - intros k n Hk ->. eexists. split; [reflexivity|].
    rewrite popcount_word by lia.
    replace (Z.to_nat (32 * (k + 1)))
      with (Z.to_nat (32 * k) + 32)%nat by lia.
    rewrite countZ_app, Z2Nat.id, Z.add_0_l by lia.
    pose proof (countZ_bounds (bit b) (Z.to_nat (32 * k)) 0).
    pose proof (countZ_bounds (bit b) 32 (32 * k)).
    apply u16_small. lia.
  - cbn [bind]. rewrite Z.add_0_l, Z2Nat.id in Hn1 by lia.
    rewrite (Z.mul_comm (pageCount b / 32) 32).
    rewrite (u16_small (32 * (pageCount b / 32))) by lia.
    destruct (forZ_inv
      (fun i n => n = countZ (bit b) (Z.to_nat i) 0)
      (fun i n => do t <- test b i; Ok (if t then u16 (n + 1) else n))
      (Z.to_nat (pageCount b - 32 * (pageCount b / 32)))
      (32 * (pageCount b / 32)) n1) as (n2 & -> & Hn2).
    + exact Hn1.
    + intros i n Hi ->. rewrite test_spec by lia. cbn [bind].
      eexists. split; [reflexivity|].
      replace (Z.to_nat (i + 1)) with (S (Z.to_nat i)) by lia.
      rewrite countZ_snoc, Z2Nat.id by lia.
      pose proof (countZ_bounds (bit b) (Z.to_nat i) 0).
      destruct (bit b i); cbn [Z.b2z]; [apply u16_small; lia | lia].
    + rewrite Hn2. do 2 f_equal. lia.
Qed.

(** Setting a range of clear bits adds its length to the count; clearing a
    range of set bits removes it. *)
Lemma countZ_set_range f g n s c :
  0 <= s -> 0 <= c -> s + c <= n ->
  (forall i, 0 <= i -> g i = ((s <=? i) && (i <? s + c)) || f i) ->
  (forall i, s <= i < s + c -> f i = false) ->
  countZ g (Z.to_nat n) 0 = countZ f (Z.to_nat n) 0 + c.
Proof.
  intros Hs Hc Hn Hg Hf.
  rewrite (countZ_split3 g n s c), (countZ_split3 f n s c) by lia.
  rewrite (countZ_ext g f (Z.to_nat s) 0).
  2:{ intros i Hi. rewrite Hg by lia.
      destruct (Z.leb_spec s i); [lia | reflexivity]. }
  rewrite (countZ_ext g f (Z.to_nat (n - s - c)) (s + c)).
  2:{ intros i Hi. rewrite Hg by lia.
      destruct (Z.leb_spec s i), (Z.ltb_spec i (s + c)); cbn [andb orb];
        (reflexivity || lia). }
  rewrite (countZ_true g (Z.to_nat c) s).
  2:{ intros i Hi. rewrite Hg by lia.
      destruct (Z.leb_spec s i), (Z.ltb_spec i (s + c)); cbn [andb orb];
        (reflexivity || lia). }
  rewrite (countZ_false f (Z.to_nat c) s) by (intros i Hi; apply Hf; lia).
  lia.
Qed.

Lemma countZ_clear_range f g n s c :
  0 <= s -> 0 <= c -> s + c <= n ->
  (forall i, 0 <= i -> g i = negb ((s <=? i) && (i <? s + c)) && f i) ->
  (forall i, s <= i < s + c -> f i = true) ->
  countZ g (Z.to_nat n) 0 = countZ f (Z.to_nat n) 0 - c.
Proof.
  intros Hs Hc Hn Hg Hf.
  rewrite (countZ_split3 g n s c), (countZ_split3 f n s c) by lia.
  rewrite (countZ_ext g f (Z.to_nat s) 0).
  2:{ intros i Hi. rewrite Hg by lia.
      destruct (Z.leb_spec s i); [lia | reflexivity]. }
  rewrite (countZ_ext g f (Z.to_nat (n - s - c)) (s + c)).
  2:{ intros i Hi. rewrite Hg by lia.
      destruct (Z.leb_spec s i), (Z.ltb_spec i (s + c)); cbn [andb negb];
        (reflexivity || lia). }
  rewrite (countZ_false g (Z.to_nat c) s).
  2:{ intros i Hi. rewrite Hg by lia.
      destruct (Z.leb_spec s i), (Z.ltb_spec i (s + c)); cbn [andb negb];
        (reflexivity || lia). }
  rewrite (countZ_true f (Z.to_nat c) s) by (intros i Hi; apply Hf; lia).
  lia.
Qed.
End PageBitmapFacts.

Section QuarantineTableFacts.
Import AllocQuarantineEntry QuarantineTable.

(** * QuarantineTable *)

Lemma entry_lookup q i e :
  0 <= i -> entries q !! Z.to_nat i = Some e -> entry q i = e.
Proof. intros _ H. unfold entry. rewrite H. reflexivity. Qed.

Lemma entry_in_range q i :
  0 <= i < Z.of_nat (length (entries q)) ->
  entries q !! Z.to_nat i = Some (entry q i).
Proof.
  intros Hi. unfold entry.
  destruct (entries q !! Z.to_nat i) eqn:E; [reflexivity|].
  apply lookup_ge_None in E. lia.
Qed.

(** [findOldest]: either nothing beats the running minimum, or the result
    is an active entry below it that no active entry of the scanned range
    undercuts. *)
Lemma findOldest_loop_spec n : forall q i oldest minSeq,
  (findOldest_loop n q i oldest minSeq = oldest /\
   forall j, i <= j < i + Z.of_nat n -> active (entry q j) <> 0 ->
     minSeq <= freeSequence (entry q j))
  \/
  (exists o, findOldest_loop n q i oldest minSeq = Some o /\
     i <= o < i + Z.of_nat n /\ active (entry q o) <> 0 /\
     freeSequence (entry q o) < minSeq /\
     (forall j, i <= j < i + Z.of_nat n -> active (entry q j) <> 0 ->
        freeSequence (entry q o) <= freeSequence (entry q j)) /\
     (forall j, i <= j < o -> active (entry q j) <> 0 ->
        freeSequence (entry q o) < freeSequence (entry q j))).
Proof.
  induction n as [|n IH]; intros q i oldest minSeq; cbn [findOldest_loop].
  - left. split; [reflexivity|]. intros j Hj. lia.
  - destruct (Z.eqb_spec (active (entry q i)) 0) as [Ea|Ea]; cbn [negb andb].
    + destruct (IH q (i + 1) oldest minSeq)
        as [[E H]|(o & E & Ho & Hact & Hlt & Hmin & Hfirst)].
      * left. split; [exact E|]. intros j Hj Hj'.
        destruct (Z.eq_dec j i); [subst; contradiction|]. apply H; [lia|auto].
      * right. exists o. split; [exact E|]. split; [lia|].
        split; [exact Hact|]. split; [exact Hlt|]. split.
        -- intros j Hj Hj'.
           destruct (Z.eq_dec j i); [subst; contradiction|].
           apply Hmin; [lia|auto].
        -- intros j Hj Hj'.
           destruct (Z.eq_dec j i); [subst; contradiction|].
           apply Hfirst; [lia|auto].
    + destruct (Z.ltb_spec (freeSequence (entry q i)) minSeq) as [Hs|Hs].
      * destruct (IH q (i + 1) (Some i) (freeSequence (entry q i)))
          as [[E H]|(o & E & Ho & Hact & Hlt & Hmin & Hfirst)].
        -- right. exists i. split; [exact E|]. split; [lia|].
           split; [exact Ea|]. split; [exact Hs|]. split.
           ++ intros j Hj Hj'.
              destruct (Z.eq_dec j i); [subst; lia|]. apply H; [lia|auto].
           ++ intros j Hj. lia.
        -- right. exists o. split; [exact E|]. split; [lia|].
           split; [exact Hact|]. split; [lia|]. split.
           ++ intros j Hj Hj'.
              destruct (Z.eq_dec j i); [subst; lia|]. apply Hmin; [lia|auto].
           ++ intros j Hj Hj'.
              destruct (Z.eq_dec j i); [subst; lia|].
              apply Hfirst; [lia|auto].
      * destruct (IH q (i + 1) oldest minSeq)
          as [[E H]|(o & E & Ho & Hact & Hlt & Hmin & Hfirst)].
        -- left. split; [exact E|]. intros j Hj Hj'.
           destruct (Z.eq_dec j i); [subst; lia|]. apply H; [lia|auto].
        -- right. exists o. split; [exact E|]. split; [lia|].
           split; [exact Hact|]. split; [exact Hlt|]. split.
           ++ intros j Hj Hj'.
              destruct (Z.eq_dec j i); [subst; lia|]. apply Hmin; [lia|auto].
           ++ intros j Hj Hj'.
              destruct (Z.eq_dec j i); [subst; lia|].
              apply Hfirst; [lia|auto].
Qed.

(** The slot search returns the first inactive slot of the scanned
    range. *)
Lemma findSlot_loop_sound n : forall q i s,
  findSlot_loop n q i = Some s ->
  i <= s < i + Z.of_nat n /\ active (entry q s) = 0 /\
  forall j, i <= j < s -> active (entry q j) <> 0.
Proof.
  induction n as [|n IH]; intros q i s; cbn [findSlot_loop]; [discriminate|].
  destruct (Z.eqb_spec (active (entry q i)) 0) as [Ea|Ea].
  - intros [= <-]. split; [lia|]. split; [exact Ea|]. intros j Hj. lia.
  - intros H. apply IH in H as (Hs & Hact & Hbefore).
    split; [lia|]. split; [exact Hact|]. intros j Hj.
    destruct (Z.eq_dec j i); [subst; exact Ea|]. apply Hbefore. lia.
Qed.

Lemma findSlot_loop_complete n : forall q i s,
  i <= s < i + Z.of_nat n -> active (entry q s) = 0 ->
  (forall j, i <= j < s -> active (entry q j) <> 0) ->
  findSlot_loop n q i = Some s.
Proof.
  induction n as [|n IH]; intros q i s Hs Ha Hb; cbn [findSlot_loop]; [lia|].
  destruct (Z.eqb_spec (active (entry q i)) 0) as [Ea|Ea].
  - destruct (Z.eq_dec s i); [subst; reflexivity|].
    exfalso. apply (Hb i); [lia|exact Ea].
  - destruct (Z.eq_dec s i); [subst; contradiction|].
    apply IH; [lia | exact Ha |]. intros j Hj. apply Hb. lia.
Qed.

(** ** Counting active entries *)

Lemma numActive_bounds es : 0 <= numActive es <= Z.of_nat (length es).
Proof.
  induction es as [|e es IH]; cbn [numActive length]; [lia|].
  destruct (active e =? 1); lia.
Qed.

Lemma numActive_full es :
  numActive es = Z.of_nat (length es) ->
  forall i e, es !! i = Some e -> active e = 1.
Proof.
  induction es as [|e0 es IH]; intros H i e Hi; [discriminate|].
  cbn [numActive length] in H. pose proof (numActive_bounds es).
  destruct (Z.eqb_spec (active e0) 1) as [Ea|Ea]; [|lia].
  destruct i as [|i]; cbn in Hi.
  - congruence.
  - apply (IH ltac:(lia) i e Hi).
Qed.

Lemma numActive_pos es : forall k e,
  es !! k = Some e -> active e = 1 -> 1 <= numActive es.
Proof.
  induction es as [|x es IH]; intros k e Hk Ha; [discriminate|].
  cbn [numActive]. pose proof (numActive_bounds es).
  destruct k as [|k].
  - injection Hk as ->. rewrite Ha. change (1 =? 1) with true. lia.
  - change ((x :: es) !! S k) with (es !! k) in Hk.
    pose proof (IH k e Hk Ha). destruct (active x =? 1); lia.
Qed.

Lemma numActive_insert es : forall i e e0,
  es !! i = Some e0 ->
  numActive (<[i := e]> es)
  = numActive es - (if active e0 =? 1 then 1 else 0)
    + (if active e =? 1 then 1 else 0).
Proof.
  induction es as [|x es IH]; intros i e e0 Hi; [discriminate|].
  destruct i as [|i].
  - injection Hi as ->.
    change (<[0%nat := e]> (e0 :: es)) with (e :: es).
    cbn [numActive]. lia.
  - change (<[S i := e]> (x :: es)) with (x :: <[i := e]> es).
    change ((x :: es) !! S i) with (es !! i) in Hi.
    cbn [numActive]. rewrite (IH i e e0 Hi). lia.
Qed.

Lemma entry_insert q q' i e j :
  entries q' = <[Z.to_nat i := e]> (entries q) ->
  0 <= i < Z.of_nat (length (entries q)) -> 0 <= j ->
  entry q' j = if j =? i then e else entry q j.
Proof.
  intros E Hi Hj. unfold entry. rewrite E.
  destruct (Z.eqb_spec j i) as [->|Hne].
  - rewrite list_lookup_insert_eq by lia. reflexivity.
  - rewrite list_lookup_insert_ne by lia. reflexivity.
Qed.

Lemma capacity_nat : Z.to_nat capacity = 32%nat.
Proof. reflexivity. Qed.

(** C3.  On a full table that satisfies the invariant of the data model
    (entries of their C types, [activeCount] the number of active entries,
    no two active entries with the same [freeSequence]), [add] evicts: the
    entry it reports is the active entry whose [freeSequence] is strictly
    smaller than that of every other active entry, and that entry's slot is
    the one it deactivates and hands to the new region. *)
Theorem add_evicts_oldest (q : QuarantineTable.t)
    (sp pc rs zi : Z) :
  typed q ->
  activeCount q = numActive (entries q) ->
  activeCount q = capacity ->
  distinctActive q ->
  exists o e q',
    add q sp pc rs zi = Ok (q', Some e) /\
    0 <= o < capacity /\
    entries q !! Z.to_nat o = Some e /\
    active e = 1 /\
    (forall j e', entries q !! j = Some e' -> j <> Z.to_nat o ->
       active e' = 1 -> freeSequence e < freeSequence e') /\
    entries q' =
      <[Z.to_nat o := AllocQuarantineEntry.mk sp pc rs (nextSequence q)
                        (-1) zi 1 0]> (entries q) /\
    activeCount q' = capacity.
Proof.
  intros [Hlen Hty] Hcnt Hfull Hdist.
  rewrite capacity_nat in Hlen.
  assert (Hall : forall i e, entries q !! i = Some e -> active e = 1).
  { apply numActive_full. rewrite <- Hcnt, Hfull, Hlen. reflexivity. }
  assert (Hent : forall j, 0 <= j < 32 ->
            entries q !! Z.to_nat j = Some (entry q j)).
  { intros j Hj. apply entry_in_range. lia. }
  assert (Hact : forall j, 0 <= j < 32 -> active (entry q j) = 1).
  { intros j Hj. apply (Hall _ _ (Hent j Hj)). }
  unfold add, isFull. rewrite Hfull.
  change (capacity >=? ALLOC_QUARANTINE_CAPACITY) with true. cbv iota.
  unfold findOldest.
  destruct (findOldest_loop_spec (Z.to_nat ALLOC_QUARANTINE_CAPACITY) q 0
              None UINT32_MAX)
    as [[_ H]|(o & -> & Ho & _ & _ & Hmin & _)].
  { (* all sequences at UINT32_MAX: two active entries would share one *)
    exfalso.
    assert (H0 := H 0 ltac:(unfold ALLOC_QUARANTINE_CAPACITY; lia)).
    assert (H1 := H 1 ltac:(unfold ALLOC_QUARANTINE_CAPACITY; lia)).
    rewrite (Hact 0), (Hact 1) in * by lia.
    specialize (H0 ltac:(lia)). specialize (H1 ltac:(lia)).
    destruct (Hty _ _ (Hent 0 ltac:(lia))) as [_ B0].
    destruct (Hty _ _ (Hent 1 ltac:(lia))) as [_ B1].
    apply (Hdist _ _ _ _ (Hent 0 ltac:(lia)) (Hent 1 ltac:(lia)));
      [lia | apply Hact; lia | apply Hact; lia | lia]. }
  change (Z.of_nat (Z.to_nat ALLOC_QUARANTINE_CAPACITY)) with 32 in *.
  rewrite Z.add_0_l in *.
  cbn [bind].
  set (q1 := {| entries := <[Z.to_nat o := deactivated (entry q o)]> (entries q);
                nextSequence := nextSequence q;
                activeCount := u16 (capacity - 1) |}).
  assert (Hslot : findSlot_loop (Z.to_nat ALLOC_QUARANTINE_CAPACITY) q1 0
                  = Some o).
  { apply findSlot_loop_complete.
    - change (Z.of_nat (Z.to_nat ALLOC_QUARANTINE_CAPACITY)) with 32. lia.
    - rewrite (entry_insert q q1 o (deactivated (entry q o)) o)
        by (reflexivity || lia).
      rewrite Z.eqb_refl. reflexivity.
    - intros j Hj.
      rewrite (entry_insert q q1 o (deactivated (entry q o)) j)
        by (reflexivity || lia).
      destruct (Z.eqb_spec j o); [lia|]. rewrite Hact by lia. lia. }
  rewrite Hslot.
  exists o, (entry q o). eexists. split; [reflexivity|].
  split; [unfold capacity, ALLOC_QUARANTINE_CAPACITY; lia|].
  split; [apply Hent; lia|]. split; [apply Hact; lia|].
  cbn [entries activeCount q1 nextSequence]. repeat split.
  - intros j e' Hj Hne Ha'.
    assert (Hj32 : (j < 32)%nat)
      by (apply lookup_lt_Some in Hj; lia).
    assert (He' : entry q (Z.of_nat j) = e').
    { apply entry_lookup; [lia|]. rewrite Nat2Z.id. exact Hj. }
    specialize (Hmin (Z.of_nat j) ltac:(lia)). rewrite He' in Hmin.
    specialize (Hmin ltac:(lia)).
    assert (freeSequence (entry q o) <> freeSequence e'); [|lia].
    apply (Hdist (Z.to_nat o) j); auto;
      try (apply Hent; lia); try (apply Hact; lia).
  - apply list_insert_insert_eq.
Qed.

(** ** The invariant of the table *)

Lemma numActive_replicate_zero n :
  numActive (replicate n AllocQuarantineEntry.zero) = 0.
Proof. induction n as [|n IH]; cbn [replicate numActive]; [reflexivity|]. rewrite IH. reflexivity. Qed.

Lemma QInv_init : QInv QuarantineTable.init.
Proof.
  unfold QInv, QuarantineTable.init, typed, distinctActive, stampedBelow.
  cbn [entries activeCount nextSequence].
  rewrite numActive_replicate_zero.
  split; [split|split; [|split; [|split]]].
  - apply length_replicate.
  - intros i e H. apply lookup_replicate in H as [-> _].
    cbn [active freeSequence zero]. unfold UINT32_MAX. lia.
  - reflexivity.
  - intros i j ei ej Hi _ _ Hai. apply lookup_replicate in Hi as [-> _].
    discriminate.
  - intros i e H Ha. apply lookup_replicate in H as [-> _]. discriminate.
  - unfold UINT32_MAX. lia.
Qed.

(** Deactivating the active entry of slot [k]. *)
Lemma QInv_deactivated q k e :
  QInv q -> entries q !! k = Some e -> active e <> 0 ->
  QInv {| entries := <[k := deactivated e]> (entries q);
          nextSequence := nextSequence q;
          activeCount := u16 (activeCount q - 1) |}.
Proof.
  intros ([Hlen Hty] & Hcnt & Hdist & Hst & Hnext) Hk Ha.
  assert (Ha1 : active e = 1) by (destruct (Hty _ _ Hk) as [[?|?] _]; lia).
  unfold QInv, typed, distinctActive, stampedBelow.
  cbn [entries activeCount nextSequence].
  split; [split|split; [|split; [|split]]].
  - rewrite length_insert. exact Hlen.
  - intros i x Hi. apply list_lookup_insert_Some in Hi
      as [(-> & <- & _)|(_ & Hi)]; [|apply (Hty _ _ Hi)].
    cbn [deactivated active freeSequence].
    split; [left; reflexivity | apply (Hty _ _ Hk)].
  - rewrite (numActive_insert _ _ _ _ Hk), Ha1, Hcnt.
    cbn [deactivated active]. change (0 =? 1) with false.
    change (1 =? 1) with true. cbv iota.
    pose proof (numActive_bounds (entries q)). rewrite Hlen in *.
    pose proof (numActive_pos _ _ _ Hk Ha1).
    rewrite u16_small by (rewrite capacity_nat in *; lia). lia.
  - intros i j ei ej Hi Hj Hne Hai Haj.
    apply list_lookup_insert_Some in Hi as [(-> & <- & _)|(_ & Hi)];
      [discriminate|].
    apply list_lookup_insert_Some in Hj as [(-> & <- & _)|(_ & Hj)];
      [discriminate|].
    apply (Hdist i j); auto.
  - intros i x Hi Hax.
    apply list_lookup_insert_Some in Hi as [(-> & <- & _)|(_ & Hi)];
      [discriminate|].
    apply (Hst i x); auto.
  - exact Hnext.
Qed.

Lemma QInv_deactivate q idx q' :
  QInv q -> deactivate q idx = Ok q' -> QInv q'.
Proof.
  intros Hinv. unfold deactivate, ALLOC_ASSERT.
  destruct (Z.eqb_spec (active (entry q idx)) 0) as [E|E]; cbn [negb bind];
    [discriminate|].
  intros [= <-]. apply QInv_deactivated; auto.
  unfold entry in *. destruct (entries q !! Z.to_nat idx); [reflexivity|].
  cbn in E. contradiction.
Qed.

(** Filling the inactive slot [s] with a region stamped [nextSequence]. *)
Lemma QInv_filled q s e0 sp pc rs zi :
  QInv q -> nextSequence q < UINT32_MAX ->
  entries q !! s = Some e0 -> active e0 = 0 ->
  QInv {| entries :=
            <[s := AllocQuarantineEntry.mk sp pc rs (nextSequence q) (-1)
                     zi 1 0]> (entries q);
          nextSequence := u32 (nextSequence q + 1);
          activeCount := u16 (activeCount q + 1) |}.
Proof.
  intros ([Hlen Hty] & Hcnt & Hdist & Hst & Hnext) Hwrap Hs Ha.
  unfold QInv, typed, distinctActive, stampedBelow.
  cbn [entries activeCount nextSequence].
  rewrite (u32_small (nextSequence q + 1)) by (unfold UINT32_MAX in *; lia).
  split; [split|split; [|split; [|split]]].
  - rewrite length_insert. exact Hlen.
  - intros i x Hi. apply list_lookup_insert_Some in Hi
      as [(-> & <- & _)|(_ & Hi)]; [|apply (Hty _ _ Hi)].
    cbn [active freeSequence]. split; [right; reflexivity | lia].
  - pose proof (numActive_insert (entries q) s
      (AllocQuarantineEntry.mk sp pc rs (nextSequence q) (-1) zi 1 0) e0 Hs)
      as Hn.
    rewrite Ha in Hn. cbn [active] in Hn.
    change (0 =? 1) with false in Hn. change (1 =? 1) with true in Hn.
    cbv iota in Hn.
    pose proof (numActive_bounds (<[s := AllocQuarantineEntry.mk sp pc rs
      (nextSequence q) (-1) zi 1 0]> (entries q))) as Hb.
    rewrite length_insert, Hlen, capacity_nat, Hn in Hb.
    rewrite Hn, Hcnt, u16_small by lia. lia.
  - intros i j ei ej Hi Hj Hne Hai Haj.
    apply list_lookup_insert_Some in Hi as [(-> & <- & _)|(_ & Hi)];
      apply list_lookup_insert_Some in Hj as [(-> & <- & _)|(_ & Hj)];
      cbn [freeSequence].
    + contradiction.
    + pose proof (Hst _ _ Hj Haj). lia.
    + pose proof (Hst _ _ Hi Hai). lia.
    + apply (Hdist i j); auto.
  - intros i x Hi Hax.
    apply list_lookup_insert_Some in Hi as [(-> & <- & _)|(_ & Hi)].
    + cbn [freeSequence]. lia.
    + pose proof (Hst _ _ Hi Hax). lia.
  - lia.
Qed.

Lemma findSlot_lookup q s :
  typed q -> findSlot_loop (Z.to_nat ALLOC_QUARANTINE_CAPACITY) q 0 = Some s ->
  exists e0, entries q !! Z.to_nat s = Some e0 /\ active e0 = 0.
Proof.
  intros [Hlen _] H. apply findSlot_loop_sound in H as (Hs & Ha & _).
  change (Z.of_nat (Z.to_nat ALLOC_QUARANTINE_CAPACITY)) with 32 in Hs.
  exists (entry q s). split; [|exact Ha].
  apply entry_in_range. rewrite Hlen, capacity_nat. lia.
Qed.

Lemma QInv_add q sp pc rs zi q' ev :
  QInv q -> nextSequence q < UINT32_MAX ->
  add q sp pc rs zi = Ok (q', ev) -> QInv q'.
Proof.
  intros Hinv Hwrap. unfold add.
  destruct (isFull q).
  - unfold findOldest.
    destruct (findOldest_loop_spec (Z.to_nat ALLOC_QUARANTINE_CAPACITY) q 0
                None UINT32_MAX)
      as [[-> _]|(o & -> & Ho & Hact & _)]; [discriminate|].
    cbn [bind].
    change (Z.of_nat (Z.to_nat ALLOC_QUARANTINE_CAPACITY)) with 32 in Ho.
    assert (Hk : entries q !! Z.to_nat o = Some (entry q o)).
    { apply entry_in_range. destruct Hinv as ([Hlen _] & _).
      rewrite Hlen, capacity_nat. lia. }
    pose proof (QInv_deactivated q _ _ Hinv Hk Hact) as Hinv1.
    match goal with |- context [findSlot_loop _ ?q1 0] =>
      destruct (findSlot_loop (Z.to_nat ALLOC_QUARANTINE_CAPACITY) q1 0)
        as [s|] eqn:Es; [|discriminate];
      destruct (findSlot_lookup q1 s (proj1 Hinv1) Es) as (e0 & He0 & Ha0)
    end.
    intros [= <- <-].
    apply (QInv_filled _ _ e0 sp pc rs zi Hinv1 Hwrap He0 Ha0).
  - cbn [bind].
    destruct (findSlot_loop (Z.to_nat ALLOC_QUARANTINE_CAPACITY) q 0)
      as [s|] eqn:Es; [|discriminate].
    destruct (findSlot_lookup q s (proj1 Hinv) Es) as (e0 & He0 & Ha0).
    intros [= <- <-].
    apply (QInv_filled _ _ e0 sp pc rs zi Hinv Hwrap He0 Ha0).
Qed.

Lemma reachNoWrap_QInv q : reachNoWrap q -> QInv q.
Proof.
  induction 1 as [|q sp pc rs zi q' ev _ IH Hw Ha|q idx q' _ IH Hd].
  - apply QInv_init.
  - eapply QInv_add; eauto.
  - eapply QInv_deactivate; eauto.
Qed.

(** C9 (amended).  After [init] and after every [add] or [deactivate], as
    long as each [add] is called before the 32-bit [nextSequence] reaches
    its last value, [activeCount] is the number of entries with
    [active = 1], at most [Q = 32] entries are active, no two active
    entries share a [freeSequence], and every active entry carries a stamp
    below [nextSequence], the stamp the next [add] assigns: stamps are
    handed out in strictly increasing order. *)
Theorem quarantine_invariant (q : QuarantineTable.t) :
  reachNoWrap q ->
  activeCount q = numActive (entries q) /\
  numActive (entries q) <= capacity /\
  distinctActive q /\
  stampedBelow q.
Proof.
  intros H. apply reachNoWrap_QInv in H
    as ([Hlen _] & Hcnt & Hdist & Hst & _).
  split; [exact Hcnt|]. split; [|split; assumption].
  pose proof (numActive_bounds (entries q)). rewrite Hlen in *.
  rewrite Z2Nat.id in * by (unfold capacity, ALLOC_QUARANTINE_CAPACITY; lia).
  lia.
Qed.

(** ** Wrap-around of [nextSequence] *)

Lemma reach_oneLongLived_3 : reach (oneLongLived 3).
Proof.
  eapply reach_deactivate with (idx := 1).
  - eapply reach_add with (startPage := 0) (pageCount := 1)
      (requestedSize := 100) (zoneIndex := 0).
    + eapply reach_add with (startPage := 0) (pageCount := 1)
        (requestedSize := 100) (zoneIndex := 0).
      * apply reach_init.
      * reflexivity.
    + reflexivity.
  - reflexivity.
Qed.

Lemma reach_oneLongLived_step n :
  reach (oneLongLived n) -> reach (oneLongLived (n + 1)).
Proof.
  intros H.
  eapply reach_deactivate with (idx := 1).
  - eapply reach_add with (startPage := 0) (pageCount := 1)
      (requestedSize := 100) (zoneIndex := 0); [exact H | reflexivity].
  - unfold deactivate, oneLongLived. cbn.
    replace (n + 1 - 1) with n by lia.
    replace (u32 (u32 n + 1)) with (u32 (n + 1)); [reflexivity|].
    unfold u32. rewrite Zplus_mod_idemp_l. reflexivity.
Qed.

Lemma reach_oneLongLived n : 3 <= n -> reach (oneLongLived n).
Proof.
  intros Hn. replace n with (3 + (n - 3)) by lia.
  assert (H : 0 <= n - 3) by lia. revert H. generalize (n - 3).
  apply natlike_ind.
  - apply reach_oneLongLived_3.
  - intros k Hk IH. replace (3 + Z.succ k) with (3 + k + 1) by lia.
    apply reach_oneLongLived_step, IH.
Qed.

Lemma reach_twoStampedOne : reach twoStampedOne.
Proof.
  eapply reach_add with (q := afterWrap) (startPage := 0) (pageCount := 1)
    (requestedSize := 100) (zoneIndex := 0).
  - apply reach_oneLongLived. lia.
  - reflexivity.
Qed.

(** C9 as stated fails once the 32-bit counter has wrapped: the table
    [twoStampedOne] is reached from [init] by [add] and [deactivate]
    (2^32 + 2 calls of [add]), and its active slots 0 and 1 share
    [freeSequence] 1. *)
Lemma sequence_wrap_duplicates :
  reach twoStampedOne /\ ~ distinctActive twoStampedOne.
Proof.
  split; [apply reach_twoStampedOne|].
  intros H.
  apply (H 0%nat 1%nat (AllocQuarantineEntry.mk 0 1 100 1 (-1) 0 1 0)
           (AllocQuarantineEntry.mk 0 1 100 1 (-1) 0 1 0));
    reflexivity || lia.
Qed.
End QuarantineTableFacts.

Section PageAllocatorFacts.
Import PageAllocator.

(** * PageAllocator *)

(** What a call of [allocate] that returns did: nothing when it returned
    [nullptr], otherwise the reservation the record describes. *)
Lemma allocate_inv pa m rs pa' m' r :
  allocate pa m rs = Ok (pa', m', r) ->
  (r = None /\ pa' = pa /\ m' = m) \/
  (exists sp32 inUse allocated,
     initialized pa = true /\ rs <> 0 /\
     pagesNeeded rs <= freePagesCount pa /\
     PageBitmap.findFreeRun (bitmapInUse pa) (pagesNeeded rs) = Ok sp32 /\
     0 <= sp32 /\
     PageBitmap.setRange (bitmapInUse pa) (u16 sp32) (pagesNeeded rs)
       = Ok inUse /\
     PageBitmap.setRange (bitmapAllocated pa) (u16 sp32) (pagesNeeded rs)
       = Ok allocated /\
     r = Some (BlockGuard.userDataFromHeader (pageAddress pa (u16 sp32))) /\
     bitmapInUse pa' = inUse /\ bitmapAllocated pa' = allocated /\
     quarantine pa' = quarantine pa /\ totalPages pa' = totalPages pa /\
     initialized pa' = initialized pa /\
     baseAddress pa' = baseAddress pa /\ zoneIndex pa' = zoneIndex pa /\
     sequenceCounter pa' = u32 (sequenceCounter pa + 1) /\
     successfulAllocs pa' = usize (successfulAllocs pa + 1) /\
     freePagesCount pa' = usize (freePagesCount pa - pagesNeeded rs)).
Proof.
  unfold allocate. intros H.
  destruct (initialized pa) eqn:Einit; cbn [negb orb] in H;
    [|left; injection H as <- <- <-; auto].
  destruct (Z.eqb_spec rs 0) as [E0|E0];
    [left; injection H as <- <- <-; auto|].
  destruct (Z.gtb_spec (pagesNeeded rs) (freePagesCount pa)) as [Ef|Ef];
    [left; injection H as <- <- <-; auto|].
  destruct (verifyQuarantine pa m) as [okQ|]; cbn [bind] in H; [|discriminate].
  unfold ALLOC_ASSERT in H. destruct okQ; cbn [bind] in H; [|discriminate].
  destruct (PageBitmap.findFreeRun (bitmapInUse pa) (pagesNeeded rs))
    as [sp32|] eqn:Efind; cbn [bind] in H; [|discriminate].
  destruct (Z.ltb_spec sp32 0) as [Es|Es];
    [left; injection H as <- <- <-; auto|].
  destruct (PageBitmap.setRange (bitmapInUse pa) (u16 sp32) (pagesNeeded rs))
    as [inUse|] eqn:E1; cbn [bind] in H; [|discriminate].
  destruct (PageBitmap.setRange (bitmapAllocated pa) (u16 sp32)
              (pagesNeeded rs))
    as [allocated|] eqn:E2; cbn [bind] in H; [|discriminate].
  destruct (BlockGuard.writeHeader _ _ _ _ _ _ _) as [m1|];
    cbn [bind] in H; [|discriminate].
  destruct (BlockGuard.writeFooter _ _ _ _ _ _ _) as [m2|];
    cbn [bind] in H; [|discriminate].
  destruct (BlockGuard.paddingSize _ _) as [padLen|];
    cbn [bind] in H; [|discriminate].
  right. exists sp32, inUse, allocated.
  injection H as <- <- <-. cbn.
  repeat split; auto; lia.
Qed.

(** C4.  A call of [allocate] or [calloc] that returns [nullptr] leaves
    the zone (both bitmaps, the quarantine, [freePagesCount],
    [minEverFreePages], [successfulAllocs], [sequenceCounter] and every
    other field) and the memory exactly as they were. *)
Theorem null_return_changes_nothing (pa : PageAllocator.t) (m : mem)
    (pa' : PageAllocator.t) (m' : mem) :
  (exists requestedSize, allocate pa m requestedSize = Ok (pa', m', None)) \/
  (exists num elemSize, calloc pa m num elemSize = Ok (pa', m', None)) ->
  pa' = pa /\ m' = m.
Proof.
  intros [(rs & H)|(num & es & H)].
  - apply allocate_inv in H as [(_ & -> & ->)|(? & ? & ? & H)]; [auto|].
    destruct H as (_ & _ & _ & _ & _ & _ & _ & H & _). discriminate.
  - revert H. unfold calloc.
    destruct ((num >? 0) && (es >? SIZE_MAX / num));
      [intros [= <- <-]; auto|].
    destruct (allocate pa m (usize (num * es))) as [[[pa1 m1] [p|]]|] eqn:E;
      cbn [bind]; try discriminate.
    intros [= <- <-].
    apply allocate_inv in E as [(_ & -> & ->)|(? & ? & ? & H)]; [auto|].
    destruct H as (_ & _ & _ & _ & _ & _ & _ & H & _). discriminate.
Qed.

(** The reportable reasons do surface as [nullptr]. *)
Lemma allocate_zero pa m : allocate pa m 0 = Ok (pa, m, None).
Proof. unfold allocate. rewrite orb_true_r. reflexivity. Qed.

Lemma allocate_uninitialized pa m rs :
  initialized pa = false -> allocate pa m rs = Ok (pa, m, None).
Proof. intros H. unfold allocate. rewrite H. reflexivity. Qed.

Lemma allocate_insufficient pa m rs :
  freePagesCount pa < pagesNeeded rs -> allocate pa m rs = Ok (pa, m, None).
Proof.
  intros H. unfold allocate.
  destruct (negb (initialized pa) || (rs =? 0)); [reflexivity|].
  rewrite Z.gtb_ltb.
  replace (freePagesCount pa <? pagesNeeded rs) with true
    by (symmetry; apply Z.ltb_lt; lia).
  reflexivity.
Qed.

(** C8.  [calloc] returns [nullptr] on a multiplication overflow, and the
    [num * elemSize] bytes at the pointer of a successful call read zero. *)
Theorem calloc_overflow_and_zero (pa : PageAllocator.t) (m : mem)
    (num elemSize : Z) :
  0 <= num <= SIZE_MAX -> 0 <= elemSize <= SIZE_MAX ->
  (num > 0 -> elemSize > SIZE_MAX / num ->
   calloc pa m num elemSize = Ok (pa, m, None)) /\
  (forall pa' m' p,
     calloc pa m num elemSize = Ok (pa', m', Some p) ->
     forall x, p <= x < p + num * elemSize -> load8 m' x = 0).
Proof.
  intros Hnum Hes. split.
  - intros Hpos Hov. unfold calloc.
    replace (num >? 0) with true by (symmetry; apply Z.gtb_lt; lia).
    replace (elemSize >? SIZE_MAX / num) with true
      by (symmetry; apply Z.gtb_lt; lia).
    reflexivity.
  - intros pa' m' p. unfold calloc.
    destruct (Z.gtb_spec num 0) as [Hpos|Hz]; cbn [andb].
    + destruct (Z.gtb_spec elemSize (SIZE_MAX / num)) as [Hov|Hfit];
        [discriminate|].
      assert (Hprod : 0 <= num * elemSize <= SIZE_MAX).
      { split; [apply Z.mul_nonneg_nonneg; lia|].
        transitivity (num * (SIZE_MAX / num)).
        - apply Z.mul_le_mono_nonneg_l; lia.
        - apply Z.mul_div_le. lia. }
      rewrite usize_small by (unfold SIZE_MAX in Hprod; lia).
      destruct (allocate pa m (num * elemSize)) as [[[pa1 m1] [q|]]|];
        cbn [bind]; try discriminate.
      intros [= <- <- <-] x Hx. rewrite load8_memset.
      replace ((q <=? x) && (x <? q + num * elemSize)) with true; [reflexivity|].
      symmetry. apply andb_true_iff. split; [apply Z.leb_le|apply Z.ltb_lt]; lia.
    + assert (num = 0) by lia. subst num.
      rewrite Z.mul_0_l. change (usize 0) with 0. rewrite allocate_zero.
      cbn [bind]. discriminate.
Qed.

(** * The invariant of a zone *)

Ltac splits := repeat match goal with |- _ /\ _ => split end.

(** The active entries of the table [add] returns: the new region in some
    slot [s], and in the other slots active entries the table already had,
    the evicted one not among them. *)
Lemma add_active q sp pc rs zi q' ev :
  length (QuarantineTable.entries q) = Z.to_nat QuarantineTable.capacity ->
  QuarantineTable.add q sp pc rs zi = Ok (q', ev) ->
  length (QuarantineTable.entries q') = Z.to_nat QuarantineTable.capacity /\
  exists s,
    QuarantineTable.entries q' !! s
      = Some (AllocQuarantineEntry.mk sp pc rs
                (QuarantineTable.nextSequence q) (-1) zi 1 0) /\
    match ev with
    | None =>
        forall k e, k <> s -> QuarantineTable.entries q' !! k = Some e ->
          AllocQuarantineEntry.active e <> 0 ->
          QuarantineTable.entries q !! k = Some e
    | Some eo =>
        exists o, QuarantineTable.entries q !! o = Some eo /\
          AllocQuarantineEntry.active eo <> 0 /\
          forall k e, k <> s -> QuarantineTable.entries q' !! k = Some e ->
            AllocQuarantineEntry.active e <> 0 ->
            QuarantineTable.entries q !! k = Some e /\ k <> o
    end.
Proof.
  intros Hlen. unfold QuarantineTable.add.
  destruct (QuarantineTable.isFull q).
  - unfold QuarantineTable.findOldest.
    destruct (findOldest_loop_spec (Z.to_nat ALLOC_QUARANTINE_CAPACITY) q 0
                None UINT32_MAX)
      as [[-> _]|(o & -> & Ho & Hact & _)]; [discriminate|].
    cbn [bind].
    change (Z.of_nat (Z.to_nat ALLOC_QUARANTINE_CAPACITY)) with 32 in Ho.
    assert (Hk : QuarantineTable.entries q !! Z.to_nat o
                 = Some (QuarantineTable.entry q o)).
    { apply entry_in_range. rewrite Hlen, capacity_nat. lia. }
    match goal with |- context [QuarantineTable.findSlot_loop _ ?q1 0] =>
      destruct (QuarantineTable.findSlot_loop
                  (Z.to_nat ALLOC_QUARANTINE_CAPACITY) q1 0)
        as [s|] eqn:Es; [|discriminate];
      apply findSlot_loop_sound in Es as (Hs & _ & _)
    end.
    change (Z.of_nat (Z.to_nat ALLOC_QUARANTINE_CAPACITY)) with 32 in Hs.
    intros [= <- <-]. cbn [QuarantineTable.entries QuarantineTable.nextSequence].
    split; [rewrite !length_insert; exact Hlen|].
    exists (Z.to_nat s). split.
    + apply list_lookup_insert_eq. rewrite length_insert, Hlen, capacity_nat.
      lia.
    + exists (Z.to_nat o). split; [exact Hk|]. split; [exact Hact|].
      intros k e Hks He Ha.
      rewrite list_lookup_insert_ne in He by congruence.
      apply list_lookup_insert_Some in He as [(<- & <- & _)|(Hne & He)].
      * cbn in Ha. contradiction.
      * split; [exact He | congruence].
  - cbn [bind].
    destruct (QuarantineTable.findSlot_loop
                (Z.to_nat ALLOC_QUARANTINE_CAPACITY) q 0)
      as [s|] eqn:Es; [|discriminate].
    apply findSlot_loop_sound in Es as (Hs & _ & _).
    change (Z.of_nat (Z.to_nat ALLOC_QUARANTINE_CAPACITY)) with 32 in Hs.
    intros [= <- <-]. cbn [QuarantineTable.entries QuarantineTable.nextSequence].
    split; [rewrite length_insert; exact Hlen|].
    exists (Z.to_nat s). split.
    + apply list_lookup_insert_eq. rewrite Hlen, capacity_nat. lia.
    + intros k e Hks He Ha.
      rewrite list_lookup_insert_ne in He by congruence. exact He.
Qed.

Lemma findFreeRun_found b count r :
  PageBitmap.wf b -> 0 <= count ->
  PageBitmap.findFreeRun b count = Ok r -> 0 <= r ->
  PageBitmap.freeRun b r count /\ 1 <= count /\
  forall j, 0 <= j < r -> ~ PageBitmap.freeRun b j count.
Proof.
  intros Hwf Hc H Hr.
  destruct (Z.eq_dec count 0) as [->|Hne].
  { unfold PageBitmap.findFreeRun in H. cbn in H. injection H as <-. lia. }
  destruct (Z.lt_ge_cases (PageBitmap.pageCount b) count) as [Hbig|Hfit].
  { unfold PageBitmap.findFreeRun in H.
    replace (count >? PageBitmap.pageCount b) with true in H
      by (symmetry; apply Z.gtb_lt; lia).
    rewrite orb_true_r in H. injection H as <-. lia. }
  destruct (findFreeRun_first_fit b count Hwf ltac:(lia))
    as (r' & E & [(-> & _)|(Hrun & Hmin)]);
    rewrite E in H; injection H as <-; [lia|].
  split; [exact Hrun|]. split; [lia | exact Hmin].
Qed.

Lemma pagesNeeded_range rs : 0 <= pagesNeeded rs < 65536.
Proof. unfold pagesNeeded. apply u16_range. Qed.

Lemma ZInv_init start size zone pa :
  init start size zone = Ok pa -> ZInv pa /\ initialized pa = true.
Proof.
  unfold init, ALLOC_ASSERT.
  destruct (negb (start =? 0)); cbn [bind]; [|discriminate].
  destruct (size >=? ALLOC_PAGE_SIZE); cbn [bind]; [|discriminate].
  destruct (Z.gtb_spec (u16 (size / ALLOC_PAGE_SIZE)) 0) as [Hp|];
    cbn [bind]; [|discriminate].
  destruct (Z.leb_spec (u16 (size / ALLOC_PAGE_SIZE)) ALLOC_MAX_PAGES_PER_ZONE)
    as [Hm|]; cbn [bind]; [|discriminate].
  destruct (PageBitmap.init (u16 (size / ALLOC_PAGE_SIZE))) as [b|] eqn:Eb;
    cbn [bind]; [|discriminate].
  intros [= <-]. split; [|reflexivity].
  apply init_spec in Eb as (_ & Hpc & Hlen & Hbits).
  assert (Hwf : PageBitmap.wf b) by (split; [exact Hlen | lia]).
  unfold ZInv.
  cbn [bitmapInUse bitmapAllocated totalPages quarantine freePagesCount].
  splits.
  - exact Hwf.
  - exact Hwf.
  - exact Hpc.
  - exact Hpc.
  - apply length_replicate.
  - intros i _ Hi. rewrite Hbits in Hi. discriminate.
  - intros k e Hk Ha. apply lookup_replicate in Hk as [-> _].
    cbn in Ha. contradiction.
  - intros k1 k2 e1 e2 H1 _ _ Ha. apply lookup_replicate in H1 as [-> _].
    cbn in Ha. contradiction.
  - rewrite countZ_false by (intros; apply Hbits). lia.
Qed.

Lemma ZInv_allocate pa m rs pa' m' r :
  ZInv pa -> allocate pa m rs = Ok (pa', m', r) -> ZInv pa'.
Proof.
  intros Hinv H.
  apply allocate_inv in H as [(_ & -> & _)|(sp & inUse & allocated & H)];
    [exact Hinv|].
  destruct H as (_ & _ & Hfree & Hfind & Hsp & EU & EA & _ & HU & HA & HQ
                 & HN & _ & _ & _ & _ & _ & HF).
  destruct Hinv as (HwU & HwA & HpU & HpA & Hlen & Hsub & Hent & Hdis & Hcnt).
  pose proof (pagesNeeded_range rs) as Hpg.
  destruct (findFreeRun_found _ _ _ HwU (proj1 Hpg) Hfind Hsp)
    as ((_ & Hfit & Hrun) & Hpos & _).
  assert (HNmax : totalPages pa <= 10240)
    by (destruct HwU as [_ Hb]; rewrite HpU in Hb; apply Hb).
  rewrite u16_small in EU, EA by lia.
  destruct (setRange_spec (bitmapInUse pa) sp (pagesNeeded rs))
    as (bU & EU' & HwU' & HpU' & HbU); try lia; [exact HwU|].
  destruct (setRange_spec (bitmapAllocated pa) sp (pagesNeeded rs))
    as (bA & EA' & HwA' & HpA' & HbA); try lia; [exact HwA|].
  rewrite EU in EU'. injection EU' as <-.
  rewrite EA in EA'. injection EA' as <-.
  unfold ZInv. rewrite HU, HA, HQ, HN, HF. splits.
  - exact HwU'.
  - exact HwA'.
  - congruence.
  - congruence.
  - exact Hlen.
  - intros i Hi. rewrite HbU, HbA by lia.
    destruct ((sp <=? i) && (i <? sp + pagesNeeded rs)); cbn [orb];
      [reflexivity | apply Hsub; lia].
  - intros k e Hk Ha.
    destruct (Hent k e Hk Ha) as (H0 & H1 & H2 & Hb).
    splits; try assumption.
    intros i Hi. destruct (Hb i Hi) as [Hu Hal].
    rewrite HbU, HbA, Hu, Hal by lia. rewrite orb_true_r. split; [reflexivity|].
    rewrite orb_false_r.
    destruct (Z.leb_spec sp i), (Z.ltb_spec i (sp + pagesNeeded rs));
      cbn [andb]; try reflexivity.
    rewrite Hrun in Hu by lia. discriminate.
  - exact Hdis.
  - rewrite (countZ_set_range (PageBitmap.bit (bitmapInUse pa))
               (PageBitmap.bit inUse) (totalPages pa) sp (pagesNeeded rs))
      by (lia || auto).
    pose proof (countZ_bounds (PageBitmap.bit (bitmapInUse pa))
                  (Z.to_nat (totalPages pa)) 0).
    rewrite usize_small by lia. lia.
Qed.

Lemma ZInv_calloc pa m num es pa' m' r :
  ZInv pa -> calloc pa m num es = Ok (pa', m', r) -> ZInv pa'.
Proof.
  intros Hinv. unfold calloc.
  destruct ((num >? 0) && (es >? SIZE_MAX / num)); [intros [= <- _ _]; auto|].
  destruct (allocate pa m (usize (num * es))) as [[[pa1 m1] p]|] eqn:E;
    cbn [bind]; [|discriminate].
  apply ZInv_allocate in E; [|exact Hinv].
  destruct p; intros [= <- _ _]; exact E.
Qed.

(** What a call of [deallocate] that returns did to the zone. *)
Lemma deallocate_inv pa m p pa' m' :
  deallocate pa m (Some p) = Ok (pa', m') ->
  pa' = pa \/
  exists q ev inUse allocated,
    let header := BlockGuard.headerFromUserData p in
    let sp := AllocBlockHeader.startPage m header in
    let pc := AllocBlockHeader.pageCount m header in
    sp + pc <= totalPages pa /\
    QuarantineTable.add (quarantine pa) sp pc
      (AllocBlockHeader.requestedSize m header) (zoneIndex pa) = Ok (q, ev) /\
    match ev with
    | Some e =>
        PageBitmap.clearRange (bitmapInUse pa)
          (AllocQuarantineEntry.startPage e)
          (AllocQuarantineEntry.pageCount e) = Ok inUse /\
        freePagesCount pa'
        = usize (freePagesCount pa + AllocQuarantineEntry.pageCount e)
    | None =>
        inUse = bitmapInUse pa /\ freePagesCount pa' = freePagesCount pa
    end /\
    PageBitmap.clearRange (bitmapAllocated pa) sp pc = Ok allocated /\
    bitmapInUse pa' = inUse /\ bitmapAllocated pa' = allocated /\
    quarantine pa' = q /\ totalPages pa' = totalPages pa /\
    successfulFrees pa' = usize (successfulFrees pa + 1).
Proof.
  unfold deallocate.
  destruct (initialized pa); cbn [negb]; [|intros [= <- _]; left; reflexivity].
  destruct (BlockGuard.validateHeader _ _) as [okH|]; cbn [bind];
    [|discriminate].
  unfold ALLOC_ASSERT at 1. destruct okH; cbn [bind]; [|discriminate].
  destruct (BlockGuard.validateFooter _ _) as [okF|]; cbn [bind];
    [|discriminate].
  unfold ALLOC_ASSERT at 1. destruct okF; cbn [bind]; [|discriminate].
  unfold ALLOC_ASSERT at 1.
  destruct (BlockGuard.validatePair _ _ _); cbn [bind]; [|discriminate].
  unfold ALLOC_ASSERT at 1.
  destruct (_ =? zoneIndex pa); cbn [bind]; [|discriminate].
  unfold ALLOC_ASSERT at 1.
  set (header := BlockGuard.headerFromUserData p).
  pose proof (load16_range m (header + 8)) as Hsp.
  pose proof (load16_range m (header + 10)) as Hpc.
  fold (AllocBlockHeader.startPage m header) in Hsp.
  fold (AllocBlockHeader.pageCount m header) in Hpc.
  rewrite (u32_small (_ + _)) by lia.
  destruct (Z.leb_spec (AllocBlockHeader.startPage m header
                        + AllocBlockHeader.pageCount m header)
              (totalPages pa)) as [Hfit|]; cbn [bind]; [|discriminate].
  destruct (verifyQuarantine pa m) as [okQ|]; cbn [bind]; [|discriminate].
  unfold ALLOC_ASSERT at 1. destruct okQ; cbn [bind]; [|discriminate].
  destruct (QuarantineTable.add _ _ _ _ _) as [[q ev]|] eqn:Eadd;
    cbn [bind]; [|discriminate].
  destruct ev as [e|].
  - unfold evictFromQuarantine.
    cbn [withQuarantine bitmapInUse bitmapAllocated].
    destruct (PageBitmap.clearRange (bitmapInUse pa) _ _) as [inUse|] eqn:EU;
      cbn [bind]; [|discriminate].
    cbn [bitmapAllocated].
    destruct (PageBitmap.clearRange (bitmapAllocated pa) _ _)
      as [allocated|] eqn:EA; cbn [bind]; [|discriminate].
    intros [= <- _]. right. exists q, (Some e), inUse, allocated.
    cbn. splits; auto.
  - cbn [bind withQuarantine bitmapAllocated].
    destruct (PageBitmap.clearRange (bitmapAllocated pa) _ _)
      as [allocated|] eqn:EA; cbn [bind]; [|discriminate].
    intros [= <- _]. right. exists q, None, (bitmapInUse pa), allocated.
    cbn. splits; auto.
Qed.

(** Membership of a page range as a boolean. *)
Lemma in_range_true s c i :
  s <= i < s + c -> (s <=? i) && (i <? s + c) = true.
Proof.
  intros H. apply andb_true_iff. split; [apply Z.leb_le|apply Z.ltb_lt]; lia.
Qed.

Lemma in_range_false s c i :
  ~ (s <= i < s + c) -> (s <=? i) && (i <? s + c) = false.
Proof.
  intros H. destruct (Z.leb_spec s i), (Z.ltb_spec i (s + c)); cbn [andb];
    (reflexivity || lia).
Qed.

Lemma ZInv_deallocate pa m p pa' m' :
  ZInv pa -> liveBlock pa m p ->
  deallocate pa m (Some p) = Ok (pa', m') -> ZInv pa'.
Proof.
  intros Hinv Hlive H.
  apply deallocate_inv in H
    as [->|(q & ev & inUse & allocated & H)]; [exact Hinv|].
  cbv zeta in H. unfold liveBlock in Hlive. cbv zeta in Hlive.
  set (header := BlockGuard.headerFromUserData p) in *.
  pose proof (load16_range m (header + 8)) as Hsp.
  pose proof (load16_range m (header + 10)) as Hpc.
  fold (AllocBlockHeader.startPage m header) in Hsp.
  fold (AllocBlockHeader.pageCount m header) in Hpc.
  set (sp := AllocBlockHeader.startPage m header) in *.
  set (pc := AllocBlockHeader.pageCount m header) in *.
  destruct H as (Hfit & Eadd & Hev & EA & HU & HA & HQ & HN & _).
  destruct Hinv as (HwU & HwA & HpU & HpA & Hlen & Hsub & Hent & Hdis & Hcnt).
  assert (HNmax : totalPages pa <= 10240)
    by (destruct HwU as [_ Hb]; rewrite HpU in Hb; apply Hb).
  destruct (add_active _ _ _ _ _ _ _ Hlen Eadd) as (Hlen' & s & Hs & Hsurv).
  destruct (clearRange_spec (bitmapAllocated pa) sp pc)
    as (bA & EA' & HwA' & HpA' & HbA); try lia; [exact HwA|].
  rewrite EA in EA'. injection EA' as <-.
  (* the pages of the freed block are in use *)
  assert (HliveU : forall i, sp <= i < sp + pc ->
            PageBitmap.bit (bitmapInUse pa) i = true).
  { intros i Hi. apply Hsub; [lia | apply Hlive, Hi]. }
  (* the freed block meets no quarantined region *)
  assert (Hfresh : forall k e,
            QuarantineTable.entries (quarantine pa) !! k = Some e ->
            AllocQuarantineEntry.active e <> 0 ->
            forall i, sp <= i < sp + pc ->
              ~ (AllocQuarantineEntry.startPage e <= i
                   < AllocQuarantineEntry.startPage e
                     + AllocQuarantineEntry.pageCount e)).
  { intros k e Hk Ha i Hi Hin.
    destruct (Hent k e Hk Ha) as (_ & _ & _ & Hb).
    destruct (Hb i Hin) as [_ Hal]. rewrite (Hlive i Hi) in Hal.
    discriminate. }
  unfold ZInv. rewrite HU, HA, HQ, HN.
  destruct ev as [eo|].
  - (* an entry was evicted *)
    destruct Hev as [EU HF].
    destruct Hsurv as (o & Ho & Hao & Hsurv).
    destruct (Hent o eo Ho Hao) as (Ho0 & Ho1 & Ho2 & Hob).
    destruct (clearRange_spec (bitmapInUse pa)
                (AllocQuarantineEntry.startPage eo)
                (AllocQuarantineEntry.pageCount eo))
      as (bU & EU' & HwU' & HpU' & HbU); try lia; [exact HwU|].
    rewrite EU in EU'. injection EU' as <-.
    rewrite HF. splits.
    + exact HwU'.
    + exact HwA'.
    + congruence.
    + congruence.
    + exact Hlen'.
    + intros i Hi. rewrite HbU, HbA by lia. intros Hal.
      apply andb_true_iff in Hal as [Hout Hal].
      rewrite (Hsub i Hi Hal), andb_true_r.
      rewrite in_range_false; [reflexivity|].
      intros Hin. destruct (Hob i Hin) as [_ Hz]. congruence.
    + intros k e Hk Ha.
      destruct (Nat.eq_dec k s) as [->|Hks].
      * rewrite Hs in Hk. injection Hk as <-.
        cbn [AllocQuarantineEntry.startPage AllocQuarantineEntry.pageCount].
        splits; try lia.
        intros i Hi. rewrite HbU, HbA by lia.
        rewrite (HliveU i Hi), (in_range_true sp pc i Hi).
        rewrite in_range_false by (apply (Hfresh o eo Ho Hao i Hi)).
        split; reflexivity.
      * destruct (Hsurv k e Hks Hk Ha) as [Hk' Hko].
        destruct (Hent k e Hk' Ha) as (H0 & H1 & H2 & Hb).
        splits; try assumption.
        intros i Hi. destruct (Hb i Hi) as [Hu Hal].
        rewrite HbU, HbA, Hu, Hal by lia. rewrite !andb_true_r, andb_false_r.
        rewrite in_range_false by (apply (Hdis k o e eo Hk' Ho Hko Ha Hao i Hi)).
        split; reflexivity.
    + intros k1 k2 e1 e2 H1 H2 Hne Ha1 Ha2 i Hi1 Hi2.
      destruct (Nat.eq_dec k1 s) as [->|Hk1], (Nat.eq_dec k2 s) as [->|Hk2];
        try contradiction.
      * rewrite Hs in H1. injection H1 as <-.
        destruct (Hsurv k2 e2 Hk2 H2 Ha2) as [H2' _].
        apply (Hfresh k2 e2 H2' Ha2 i Hi1 Hi2).
      * rewrite Hs in H2. injection H2 as <-.
        destruct (Hsurv k1 e1 Hk1 H1 Ha1) as [H1' _].
        apply (Hfresh k1 e1 H1' Ha1 i Hi2 Hi1).
      * destruct (Hsurv k1 e1 Hk1 H1 Ha1) as [H1' _].
        destruct (Hsurv k2 e2 Hk2 H2 Ha2) as [H2' _].
        apply (Hdis k1 k2 e1 e2 H1' H2' Hne Ha1 Ha2 i Hi1 Hi2).
    + rewrite (countZ_clear_range (PageBitmap.bit (bitmapInUse pa))
                 (PageBitmap.bit inUse) (totalPages pa)
                 (AllocQuarantineEntry.startPage eo)
                 (AllocQuarantineEntry.pageCount eo));
        try lia; try assumption; [|intros i Hi; apply (Hob i Hi)].
      pose proof (countZ_split3 (PageBitmap.bit (bitmapInUse pa))
                    (totalPages pa) (AllocQuarantineEntry.startPage eo)
                    (AllocQuarantineEntry.pageCount eo) Ho0 Ho1 Ho2) as Hsplit.
      rewrite (countZ_true _ (Z.to_nat (AllocQuarantineEntry.pageCount eo)))
        in Hsplit by (intros i Hi; apply (Hob i); lia).
      pose proof (countZ_bounds (PageBitmap.bit (bitmapInUse pa))
                    (Z.to_nat (AllocQuarantineEntry.startPage eo)) 0).
      pose proof (countZ_bounds (PageBitmap.bit (bitmapInUse pa))
                    (Z.to_nat (totalPages pa
                               - AllocQuarantineEntry.startPage eo
                               - AllocQuarantineEntry.pageCount eo))
                    (AllocQuarantineEntry.startPage eo
                     + AllocQuarantineEntry.pageCount eo)).
      pose proof (countZ_bounds (PageBitmap.bit (bitmapInUse pa))
                    (Z.to_nat (totalPages pa)) 0).
      rewrite usize_small by lia. lia.
  - (* no eviction *)
    destruct Hev as [-> HF]. rewrite HF. splits.
    + exact HwU.
    + exact HwA'.
    + congruence.
    + congruence.
    + exact Hlen'.
    + intros i Hi. rewrite HbA by lia. intros Hal.
      apply andb_true_iff in Hal as [_ Hal]. apply (Hsub i Hi Hal).
    + intros k e Hk Ha.
      destruct (Nat.eq_dec k s) as [->|Hks].
      * rewrite Hs in Hk. injection Hk as <-.
        cbn [AllocQuarantineEntry.startPage AllocQuarantineEntry.pageCount].
        splits; try lia.
        intros i Hi. rewrite HbA by lia.
        rewrite (HliveU i Hi), (in_range_true sp pc i Hi).
        split; reflexivity.
      * pose proof (Hsurv k e Hks Hk Ha) as Hk'.
        destruct (Hent k e Hk' Ha) as (H0 & H1 & H2 & Hb).
        splits; try assumption.
        intros i Hi. destruct (Hb i Hi) as [Hu Hal].
        rewrite HbA, Hal by lia. rewrite andb_false_r. auto.
    + intros k1 k2 e1 e2 H1 H2 Hne Ha1 Ha2 i Hi1 Hi2.
      destruct (Nat.eq_dec k1 s) as [->|Hk1], (Nat.eq_dec k2 s) as [->|Hk2];
        try contradiction.
      * rewrite Hs in H1. injection H1 as <-.
        apply (Hfresh k2 e2 (Hsurv k2 e2 Hk2 H2 Ha2) Ha2 i Hi1 Hi2).
      * rewrite Hs in H2. injection H2 as <-.
        apply (Hfresh k1 e1 (Hsurv k1 e1 Hk1 H1 Ha1) Ha1 i Hi2 Hi1).
      * apply (Hdis k1 k2 e1 e2 (Hsurv k1 e1 Hk1 H1 Ha1)
                 (Hsurv k2 e2 Hk2 H2 Ha2) Hne Ha1 Ha2 i Hi1 Hi2).
    + exact Hcnt.
Qed.

Lemma reach_ZInv pa m : reach liveBlock pa m -> ZInv pa.
Proof.
  induction 1 as [start size zone pa m Hi
                 | pa m rs pa' m' r _ IH Ha
                 | pa m num es pa' m' r _ IH Hc
                 | pa m p pa' m' _ IH Hok Hd
                 | pa m m' _ IH].
  - apply (ZInv_init _ _ _ _ Hi).
  - apply (ZInv_allocate _ _ _ _ _ _ IH Ha).
  - apply (ZInv_calloc _ _ _ _ _ _ _ IH Hc).
  - destruct p as [p|].
    + apply (ZInv_deallocate _ _ _ _ _ IH (Hok p eq_refl) Hd).
    + cbn in Hd. injection Hd as <- _. exact IH.
  - exact IH.
Qed.

(** C5 (amended).  After every public operation on a zone ([init],
    [allocate], [deallocate] with its eviction, [calloc]), provided every
    non-null pointer handed to [deallocate] is that of a live block (the
    pages its header names are set in the allocated bitmap), the allocated
    bitmap is a subset of the in-use bitmap and every quarantined page has
    its in-use bit set and its allocated bit clear. *)
Theorem zone_bitmaps_consistent (pa : PageAllocator.t) (m : mem) :
  reach liveBlock pa m -> bitmapsConsistent pa.
Proof.
  intros H. apply reach_ZInv in H.
  destruct H as (_ & _ & _ & _ & _ & Hsub & Hent & _).
  split; [exact Hsub|].
  intros i (k & e & Hk & Ha & Hi).
  destruct (Hent k e Hk Ha) as (_ & _ & _ & Hb). apply (Hb i Hi).
Qed.

(** C6 (amended).  After every public operation on an initialized zone,
    provided every non-null pointer handed to [deallocate] is that of a
    live block, [freePagesCount] is [N] minus the number of set bits of the
    in-use bitmap, as [countSet] counts them. *)
Theorem zone_free_count_consistent (pa : PageAllocator.t) (m : mem) :
  reach liveBlock pa m -> freeCountConsistent pa.
Proof.
  intros H. apply reach_ZInv in H.
  destruct H as (HwU & _ & HpU & _ & _ & _ & _ & _ & Hcnt).
  eexists. split; [apply countSet_spec, HwU|].
  rewrite HpU. exact Hcnt.
Qed.

(** ** Traces of scripts *)

Lemma step_reach o w w' :
  reach anyPointer (fst w) (snd w) -> step o w = Ok w' ->
  reach anyPointer (fst w') (snd w').
Proof.
  intros Hr. destruct o as [n|p|n]; cbn [step].
  - destruct (allocate (fst w) (snd w) n) as [[[pa m] r]|] eqn:E;
      cbn [bind]; [|discriminate].
    intros [= <-]. eapply reach_allocate; eauto.
  - intros E. destruct w' as [pa' m'].
    eapply reach_deallocate; eauto. intros; exact I.
  - destruct (allocate (fst w) (snd w) n) as [[[pa m] r]|] eqn:E;
      cbn [bind]; [|discriminate].
    intros E'. destruct w' as [pa' m'].
    eapply reach_deallocate; [| intros; exact I | exact E'].
    eapply reach_allocate; eauto.
Qed.

Lemma run_reach script : forall w w',
  reach anyPointer (fst w) (snd w) -> run script w = Ok w' ->
  reach anyPointer (fst w') (snd w').
Proof.
  induction script as [|o script IH]; intros w w' Hr; cbn [run].
  - intros [= <-]. exact Hr.
  - destruct (step o w) as [w1|] eqn:E; cbn [bind]; [|discriminate].
    apply IH. apply (step_reach _ _ _ Hr E).
Qed.

Lemma lifetime_reach start size zone m script w :
  lifetime start size zone m script = Ok w ->
  reach anyPointer (fst w) (snd w).
Proof.
  unfold lifetime.
  destruct (init start size zone) as [pa|] eqn:E; cbn [bind]; [|discriminate].
  apply run_reach. cbn [fst snd]. eapply reach_init. exact E.
Qed.

Lemma doubleFree_runs :
  match lifetime base (32 * 1024) 0 Mem.zero doubleFree with
  | Ok w => quarantinedPageFree (fst w)
  | Fatal => false
  end = true.
Proof. vm_compute. reflexivity. Qed.

(** C5 as stated fails: with no condition on the pointers freed, a zone of
    32 pages in which one block is freed twice and 31 more blocks are
    allocated and freed ends, every call having returned, with page 0 free
    in the in-use bitmap while an active quarantine entry still covers
    it. *)
Lemma double_free_breaks_bitmaps :
  exists w, lifetime base (32 * 1024) 0 Mem.zero doubleFree = Ok w /\
    reach anyPointer (fst w) (snd w) /\ ~ bitmapsConsistent (fst w).
Proof.
  pose proof doubleFree_runs as H.
  destruct (lifetime base (32 * 1024) 0 Mem.zero doubleFree) as [w|] eqn:E;
    [|discriminate].
  exists w. split; [reflexivity|]. split; [apply (lifetime_reach _ _ _ _ _ _ E)|].
  intros [_ Hq].
  unfold quarantinedPageFree in H.
  apply andb_true_iff in H as [H H4]. apply andb_true_iff in H as [H H3].
  apply andb_true_iff in H as [H1 H2].
  apply negb_true_iff in H1. apply negb_true_iff in H2.
  apply Z.eqb_neq in H2. apply Z.leb_le in H3. apply Z.ltb_lt in H4.
  destruct (Hq 0) as [Hu _]; [|congruence].
  exists 1%nat, (QuarantineTable.entry (quarantine (fst w)) 1).
  split; [|split; [exact H2 | lia]].
  unfold QuarantineTable.entry in *. cbn [Z.to_nat Pos.to_nat Pos.iter_op] in *.
  change (Z.to_nat 1) with 1%nat in *.
  destruct (QuarantineTable.entries (quarantine (fst w)) !! 1%nat);
    [reflexivity|]. cbn in H2. contradiction.
Qed.

Lemma staleFree_runs :
  match lifetime base (64 * 1024) 0 staleMemory staleFree with
  | Ok w => freeCountOff (fst w)
  | Fatal => false
  end = true.
Proof. vm_compute. reflexivity. Qed.

(** C6 as stated fails: a zone of 64 pages is initialised over memory that
    still holds a block of an earlier lifetime at page 40; the old pointer
    is freed, then 32 blocks are allocated and freed.  Every call returns,
    and [freePagesCount] ends one above [N] minus the population count. *)
Lemma stale_free_breaks_free_count :
  exists w, lifetime base (64 * 1024) 0 staleMemory staleFree = Ok w /\
    reach anyPointer (fst w) (snd w) /\ ~ freeCountConsistent (fst w).
Proof.
  pose proof staleFree_runs as H.
  destruct (lifetime base (64 * 1024) 0 staleMemory staleFree) as [w|] eqn:E;
    [|discriminate].
  exists w. split; [reflexivity|]. split; [apply (lifetime_reach _ _ _ _ _ _ E)|].
  intros (n & Hn & Hf). unfold freeCountOff in H. rewrite Hn in H.
  apply negb_true_iff, Z.eqb_neq in H. contradiction.
Qed.
End PageAllocatorFacts.

(** * First fit in [allocate] *)

(** Without the narrowing to 16 bits, [pagesNeeded] is the ceiling of
    (H + requestedSize + F) / P. *)
Lemma pagesNeeded_ceiling rs :
  0 < rs -> rs <= 65535 * 1024 - 64 ->
  PageAllocator.pagesNeeded rs
  = (ALLOC_HEADER_SIZE + rs + ALLOC_FOOTER_SIZE + ALLOC_PAGE_SIZE - 1)
    / ALLOC_PAGE_SIZE.
Proof.
  intros H0 H1. unfold PageAllocator.pagesNeeded, ALLOC_HEADER_SIZE,
    ALLOC_FOOTER_SIZE, ALLOC_PAGE_SIZE.
  rewrite (usize_small (32 + rs)) by lia.
  rewrite (usize_small (32 + rs + 32)) by lia.
  rewrite (usize_small (32 + rs + 32 + 1024)) by lia.
  rewrite (usize_small (32 + rs + 32 + 1024 - 1)) by lia.
  replace (32 + rs + 32 + 1024 - 1) with (rs + 1087) by lia.
  assert (0 <= (rs + 1087) / 1024 < 65536).
  { split; [apply Z.div_pos; lia|]. apply Z.div_lt_upper_bound; lia. }
  apply u16_small. lia.
Qed.

(** A successful [allocate] on a zone that satisfies its invariant places
    the block at the lowest index of a run of [pagesNeeded] clear bits of
    the in-use bitmap. *)
Lemma allocate_first_fit pa m rs pa' m' p :
  PageAllocator.ZInv pa ->
  PageAllocator.allocate pa m rs = Ok (pa', m', Some p) ->
  exists sp,
    p = PageAllocator.baseAddress pa + sp * ALLOC_PAGE_SIZE
        + ALLOC_HEADER_SIZE /\
    PageBitmap.freeRun (PageAllocator.bitmapInUse pa) sp
      (PageAllocator.pagesNeeded rs) /\
    forall j, 0 <= j < sp ->
      ~ PageBitmap.freeRun (PageAllocator.bitmapInUse pa) j
          (PageAllocator.pagesNeeded rs).
Proof.
  intros Hinv H.
  apply allocate_inv in H as [(H & _)|(sp & inUse & allocated & H)];
    [discriminate|].
  destruct H as (_ & _ & _ & Hfind & Hsp & _ & _ & Hp & _).
  destruct Hinv as (HwU & _ & HpU & _).
  destruct (findFreeRun_found _ _ _ HwU
              (proj1 (pagesNeeded_range rs)) Hfind Hsp)
    as (Hrun & _ & Hmin).
  exists sp. split; [|split; assumption].
  injection Hp as ->.
  destruct Hrun as (H0 & H1 & _).
  assert (PageBitmap.pageCount (PageAllocator.bitmapInUse pa) <= 10240)
    by (destruct HwU as [_ Hb]; apply Hb).
  unfold BlockGuard.userDataFromHeader, PageAllocator.pageAddress.
  pose proof (pagesNeeded_range rs).
  rewrite (u16_small sp) by lia.
  unfold ALLOC_PAGE_SIZE. rewrite usize_small by lia. reflexivity.
Qed.

(** When no run of the length asked for is free, [allocate] returns
    [nullptr]. *)
Lemma allocate_no_run pa m rs pa' m' r :
  PageAllocator.ZInv pa ->
  (forall j, ~ PageBitmap.freeRun (PageAllocator.bitmapInUse pa) j
                 (PageAllocator.pagesNeeded rs)) ->
  PageAllocator.allocate pa m rs = Ok (pa', m', r) -> r = None.
Proof.
  intros Hinv Hnone H.
  apply allocate_inv in H as [(H & _)|(sp & inUse & allocated & H)];
    [exact H|].
  destruct H as (_ & _ & _ & Hfind & Hsp & _).
  destruct Hinv as (HwU & _).
  destruct (findFreeRun_found _ _ _ HwU
              (proj1 (pagesNeeded_range rs)) Hfind Hsp) as (Hrun & _).
  destruct (Hnone sp Hrun).
Qed.

(** C2, evaluated where the code departs from it.  The page count is
    truncated to 16 bits: a request of [hugeRequest] bytes needs 65537
    pages and is served as if it needed one; on a fresh zone of 16 pages
    the call then stops at the assertion of [BlockGuard::paddingSize]
    instead of returning [nullptr]. *)
Theorem allocate_truncates_page_count :
  (ALLOC_HEADER_SIZE + PageAllocator.hugeRequest + ALLOC_FOOTER_SIZE
   + ALLOC_PAGE_SIZE - 1) / ALLOC_PAGE_SIZE = 65537 /\
  PageAllocator.pagesNeeded PageAllocator.hugeRequest = 1 /\
  PageAllocator.initialized PageAllocator.fresh16 = true /\
  PageAllocator.totalPages PageAllocator.fresh16 = 16 /\
  PageAllocator.allocate PageAllocator.fresh16 Mem.zero
    PageAllocator.hugeRequest = Fatal.
Proof. vm_compute. repeat split; reflexivity. Qed.

(** [calloc(4, 250)] on a fresh zone succeeds and the payload reads zero. *)
Lemma calloc_example :
  PageAllocator.callocZeroed
    (PageAllocator.calloc PageAllocator.fresh16 Mem.zero 4 250) = true.
Proof. vm_compute. reflexivity. Qed.

(** * PageBitmap::findFreeRun, the guard *)

(** C10.  For a run length of 0 or above the page count, [findFreeRun]
    returns -1, whatever the bits are. *)
Theorem findFreeRun_guard (b : PageBitmap.t) (count : Z) :
  count = 0 \/ count > PageBitmap.pageCount b ->
  PageBitmap.findFreeRun b count = Ok (-1).
Proof.
  intros H. unfold PageBitmap.findFreeRun.
  replace ((count =? 0) || (count >? PageBitmap.pageCount b)) with true;
    [reflexivity|].
  symmetry. apply orb_true_iff. destruct H as [->|H].
  - left. reflexivity.
  - right. apply Z.gtb_lt. lia.
Qed.

(** * AllocatorCustomCpp: routing *)

(** C1, evaluated where the code departs from it.  With [HEAP_ZONE_FAST]
    selected and the fast zone full, the request is served from the slow
    zone: the second pointer lies in the zone at [slowBase], whose
    allocation counter goes to 1.  With [HEAP_ZONE_SLOW] selected and the
    slow zone full, it is served from the fast zone in the same way. *)
Theorem fast_selection_falls_back :
  AllocatorCustomCpp.fastSelectedTwice
  = Ok (Some (PageAllocator.base + ALLOC_HEADER_SIZE),
        Some (AllocatorCustomCpp.slowBase + ALLOC_HEADER_SIZE), 1) /\
  AllocatorCustomCpp.slowSelectedTwice
  = Ok (Some (AllocatorCustomCpp.slowBase + ALLOC_HEADER_SIZE),
        Some (PageAllocator.base + ALLOC_HEADER_SIZE), 1).
Proof. split; vm_compute; reflexivity. Qed.

Lemma zone_setZoneAt_ne a i j pa :
  0 <= i -> 0 <= j -> i <> j ->
  AllocatorCustomCpp.zone (AllocatorCustomCpp.setZoneAt a i pa) j
  = AllocatorCustomCpp.zone a j.
Proof.
  intros Hi Hj Hne. unfold AllocatorCustomCpp.zone, AllocatorCustomCpp.setZoneAt.
  cbn [AllocatorCustomCpp.zones_].
  rewrite list_lookup_insert_ne by lia. reflexivity.
Qed.

(** [calloc], the sibling path, does keep to the fast zone. *)
Lemma calloc_fast_only a m num size a' m' p :
  AllocatorCustomCpp.currentZone_ a = HEAP_ZONE_FAST ->
  AllocatorCustomCpp.calloc a m num size = Ok (a', m', p) ->
  AllocatorCustomCpp.zone a' 1 = AllocatorCustomCpp.zone a 1.
Proof.
  intros Hz. unfold AllocatorCustomCpp.calloc. rewrite Hz.
  cbn [AllocatorCustomCpp.resolveRoute AllocatorCustomCpp.primary
       AllocatorCustomCpp.secondary AllocatorCustomCpp.trySecondary].
  destruct ((0 <? AllocatorCustomCpp.activeZones_ a)
            && PageAllocator.isInitialized (AllocatorCustomCpp.zone a 0)).
  - destruct (PageAllocator.calloc _ _ _ _) as [[[z mz] q]|];
      cbn [bind]; [|discriminate].
    destruct q; cbn [andb]; intros [= <- _ _];
      apply zone_setZoneAt_ne; lia.
  - cbn [bind andb]. intros [= <- _ _]. reflexivity.
Qed.

(** * Instances *)

Lemma allZ_spec f n : forall lo,
  allZ f n lo = true -> forall i, lo <= i < lo + Z.of_nat n -> f i = true.
Proof.
  induction n as [|n IH]; intros lo H i Hi; [lia|].
  cbn [allZ] in H. apply andb_true_iff in H as [H0 H1].
  destruct (Z.eq_dec i lo) as [->|Hne]; [exact H0|].
  apply (IH (lo + 1) H1). lia.
Qed.

Lemma liveBlockb_live pa m p :
  PageAllocator.liveBlockb pa m p = true -> PageAllocator.liveBlock pa m p.
Proof.
  unfold PageAllocator.liveBlockb, PageAllocator.liveBlock. cbv zeta.
  intros H i Hi. apply (allZ_spec _ _ _ H).
  pose proof (load16_range m (BlockGuard.headerFromUserData p + 10)) as Hpc.
  fold (AllocBlockHeader.pageCount m (BlockGuard.headerFromUserData p)) in Hpc.
  lia.
Qed.

Lemma step_reach_live o w w' :
  PageAllocator.freesLive o w = true ->
  PageAllocator.reach PageAllocator.liveBlock (fst w) (snd w) ->
  PageAllocator.step o w = Ok w' ->
  PageAllocator.reach PageAllocator.liveBlock (fst w') (snd w').
Proof.
  intros Hl Hr. destruct o as [n|p|n]; cbn [PageAllocator.step].
  - destruct (PageAllocator.allocate (fst w) (snd w) n) as [[[pa m] r]|] eqn:E;
      cbn [bind]; [|discriminate].
    intros [= <-]. eapply PageAllocator.reach_allocate; eauto.
  - intros E. destruct w' as [pa' m'].
    eapply PageAllocator.reach_deallocate; eauto.
    intros q ->. apply liveBlockb_live. exact Hl.
  - cbn [PageAllocator.freesLive] in Hl.
    destruct (PageAllocator.allocate (fst w) (snd w) n) as [[[pa m] r]|] eqn:E;
      cbn [bind]; [|discriminate].
    intros E'. destruct w' as [pa' m'].
    eapply PageAllocator.reach_deallocate; [| | exact E'].
    + eapply PageAllocator.reach_allocate; eauto.
    + intros q ->. apply liveBlockb_live. exact Hl.
Qed.

Lemma run_reach_live script : forall w w',
  PageAllocator.scriptLive script w = true ->
  PageAllocator.reach PageAllocator.liveBlock (fst w) (snd w) ->
  PageAllocator.run script w = Ok w' ->
  PageAllocator.reach PageAllocator.liveBlock (fst w') (snd w').
Proof.
  induction script as [|o script IH]; intros w w' Hl Hr;
    cbn [PageAllocator.run].
  - intros [= <-]. exact Hr.
  - cbn [PageAllocator.scriptLive] in Hl.
    apply andb_true_iff in Hl as [Hl0 Hl1].
    destruct (PageAllocator.step o w) as [w1|] eqn:E; cbn [bind];
      [|discriminate].
    apply IH; [exact Hl1|]. apply (step_reach_live _ _ _ Hl0 Hr E).
Qed.

Lemma lifetime_reach_live start size zone m script w :
  match PageAllocator.init start size zone with
  | Ok pa => PageAllocator.scriptLive script (pa, m)
  | Fatal => true
  end = true ->
  PageAllocator.lifetime start size zone m script = Ok w ->
  PageAllocator.reach PageAllocator.liveBlock (fst w) (snd w).
Proof.
  unfold PageAllocator.lifetime.
  destruct (PageAllocator.init start size zone) as [pa|] eqn:Ei;
    cbn [bind]; [|discriminate].
  intros Hl Er. apply (run_reach_live _ _ _ Hl); [|exact Er].
  cbn [fst snd]. eapply PageAllocator.reach_init. exact Ei.
Qed.

Lemma allocFree_returns :
  match PageAllocator.lifetime PageAllocator.base (16 * 1024) 0 Mem.zero
          PageAllocator.allocFree with
  | Ok _ => true
  | Fatal => false
  end = true.
Proof. vm_compute. reflexivity. Qed.

Lemma allocFree_live :
  match PageAllocator.init PageAllocator.base (16 * 1024) 0 with
  | Ok pa => PageAllocator.scriptLive PageAllocator.allocFree (pa, Mem.zero)
  | Fatal => true
  end = true.
Proof. vm_compute. reflexivity. Qed.

Lemma afterAllocFree_reach :
  PageAllocator.reach PageAllocator.liveBlock
    (fst PageAllocator.afterAllocFree) (snd PageAllocator.afterAllocFree).
Proof.
  unfold PageAllocator.afterAllocFree.
  pose proof allocFree_returns as Hr.
  destruct (PageAllocator.lifetime PageAllocator.base (16 * 1024) 0 Mem.zero
              PageAllocator.allocFree) as [w|] eqn:E; [|discriminate].
  exact (lifetime_reach_live PageAllocator.base (16 * 1024) 0 Mem.zero
           PageAllocator.allocFree w allocFree_live E).
Qed.

Lemma fullTable_lookup i e :
  QuarantineTable.entries QuarantineTable.fullTable !! i = Some e ->
  e = AllocQuarantineEntry.mk (Z.of_nat i) 1 100 (Z.of_nat i + 1) (-1) 0 1 0
  /\ Z.of_nat i < 32.
Proof.
  unfold QuarantineTable.fullTable. cbn [QuarantineTable.entries].
  rewrite list_lookup_fmap.
  destruct (seqZ 0 32 !! i) as [k|] eqn:E; [|discriminate].
  apply lookup_seqZ in E as [-> Hi]. cbn. intros [= <-].
  split; [reflexivity | exact Hi].
Qed.

Lemma fullTable_typed : QuarantineTable.typed QuarantineTable.fullTable.
Proof.
  split; [reflexivity|]. intros i e H.
  apply fullTable_lookup in H as [-> Hi]. cbn. unfold UINT32_MAX. lia.
Qed.

Lemma fullTable_distinct :
  QuarantineTable.distinctActive QuarantineTable.fullTable.
Proof.
  intros i j ei ej Hi Hj Hne _ _.
  apply fullTable_lookup in Hi as [-> _].
  apply fullTable_lookup in Hj as [-> _]. cbn. lia.
Qed.

(** C7 at a block of 100 bytes at the start of a zone. *)
Lemma guard_round_trip_witness :
  (PageAllocator.base + 32 <= PageAllocator.base + 132
   \/ PageAllocator.base + 132 + 32 <= PageAllocator.base) /\
  exists m1 m2,
    BlockGuard.writeHeader Mem.zero PageAllocator.base 100 0 1 0 7 = Ok m1 /\
    BlockGuard.writeFooter m1 (PageAllocator.base + 132) 100 0 1 0 7
      = Ok m2 /\
    BlockGuard.validateHeader m2 PageAllocator.base = Ok true /\
    BlockGuard.validateFooter m2 (PageAllocator.base + 132) = Ok true /\
    BlockGuard.validatePair m2 PageAllocator.base (PageAllocator.base + 132)
      = true /\
    AllocBlockHeader.checksum m2 PageAllocator.base
      = BlockGuard.xorWords m2 PageAllocator.base /\
    AllocBlockFooter.checksum m2 (PageAllocator.base + 132)
      = BlockGuard.xorWords m2 (PageAllocator.base + 132).
Proof.
  split; [left; lia|].
  apply (guard_round_trip Mem.zero PageAllocator.base
           (PageAllocator.base + 132) 100 0 1 0 7).
  left. lia.
Defined.

(** C3 at the full table whose slot [k] is stamped [k + 1]. *)
Lemma add_evicts_oldest_witness :
  QuarantineTable.typed QuarantineTable.fullTable /\
  QuarantineTable.activeCount QuarantineTable.fullTable
  = QuarantineTable.numActive
      (QuarantineTable.entries QuarantineTable.fullTable) /\
  QuarantineTable.activeCount QuarantineTable.fullTable
  = QuarantineTable.capacity /\
  QuarantineTable.distinctActive QuarantineTable.fullTable /\
  exists o e q',
    QuarantineTable.add QuarantineTable.fullTable 32 1 100 0
    = Ok (q', Some e) /\
    0 <= o < QuarantineTable.capacity /\
    QuarantineTable.entries QuarantineTable.fullTable !! Z.to_nat o = Some e /\
    AllocQuarantineEntry.active e = 1 /\
    (forall j e',
       QuarantineTable.entries QuarantineTable.fullTable !! j = Some e' ->
       j <> Z.to_nat o -> AllocQuarantineEntry.active e' = 1 ->
       AllocQuarantineEntry.freeSequence e
       < AllocQuarantineEntry.freeSequence e') /\
    QuarantineTable.entries q' =
      <[Z.to_nat o := AllocQuarantineEntry.mk 32 1 100
                        (QuarantineTable.nextSequence QuarantineTable.fullTable)
                        (-1) 0 1 0]>
        (QuarantineTable.entries QuarantineTable.fullTable) /\
    QuarantineTable.activeCount q' = QuarantineTable.capacity.
Proof.
  split; [exact fullTable_typed|].
  split; [reflexivity|]. split; [reflexivity|].
  split; [exact fullTable_distinct|].
  apply (add_evicts_oldest QuarantineTable.fullTable 32 1 100 0).
  - exact fullTable_typed.
  - reflexivity.
  - reflexivity.
  - exact fullTable_distinct.
Defined.

(** C4 at a request of 20 pages on a fresh zone of 16. *)
Lemma null_return_changes_nothing_witness :
  ((exists requestedSize,
      PageAllocator.allocate PageAllocator.fresh16 Mem.zero requestedSize
      = Ok (PageAllocator.fresh16, Mem.zero, None)) \/
   (exists num elemSize,
      PageAllocator.calloc PageAllocator.fresh16 Mem.zero num elemSize
      = Ok (PageAllocator.fresh16, Mem.zero, None))) /\
  (PageAllocator.fresh16 = PageAllocator.fresh16 /\ Mem.zero = Mem.zero).
Proof.
  assert (H : PageAllocator.allocate PageAllocator.fresh16 Mem.zero 20000
              = Ok (PageAllocator.fresh16, Mem.zero, None))
    by (vm_compute; reflexivity).
  split; [left; exists 20000; exact H|].
  apply (null_return_changes_nothing PageAllocator.fresh16 Mem.zero
           PageAllocator.fresh16 Mem.zero).
  left. exists 20000. exact H.
Defined.

(** C5 at a zone in which a block was allocated and freed. *)
Lemma zone_bitmaps_consistent_witness :
  PageAllocator.reach PageAllocator.liveBlock
    (fst PageAllocator.afterAllocFree) (snd PageAllocator.afterAllocFree) /\
  PageAllocator.bitmapsConsistent (fst PageAllocator.afterAllocFree).
Proof.
  split; [exact afterAllocFree_reach|].
  apply (zone_bitmaps_consistent (fst PageAllocator.afterAllocFree)
           (snd PageAllocator.afterAllocFree)).
  exact afterAllocFree_reach.
Defined.

(** C6 at the same zone. *)
Lemma zone_free_count_consistent_witness :
  PageAllocator.reach PageAllocator.liveBlock
    (fst PageAllocator.afterAllocFree) (snd PageAllocator.afterAllocFree) /\
  PageAllocator.freeCountConsistent (fst PageAllocator.afterAllocFree).
Proof.
  split; [exact afterAllocFree_reach|].
  apply (zone_free_count_consistent (fst PageAllocator.afterAllocFree)
           (snd PageAllocator.afterAllocFree)).
  exact afterAllocFree_reach.
Defined.

(** C8 at [calloc(4, 250)] on a fresh zone. *)
Lemma calloc_overflow_and_zero_witness :
  0 <= 4 <= SIZE_MAX /\ 0 <= 250 <= SIZE_MAX /\
  (4 > 0 -> 250 > SIZE_MAX / 4 ->
   PageAllocator.calloc PageAllocator.fresh16 Mem.zero 4 250
   = Ok (PageAllocator.fresh16, Mem.zero, None)) /\
  (forall pa' m' p,
     PageAllocator.calloc PageAllocator.fresh16 Mem.zero 4 250
     = Ok (pa', m', Some p) ->
     forall x, p <= x < p + 4 * 250 -> load8 m' x = 0).
Proof.
  assert (H1 : 0 <= 4 <= SIZE_MAX) by (unfold SIZE_MAX; lia).
  assert (H2 : 0 <= 250 <= SIZE_MAX) by (unfold SIZE_MAX; lia).
  split; [exact H1|]. split; [exact H2|].
  apply (calloc_overflow_and_zero PageAllocator.fresh16 Mem.zero 4 250 H1 H2).
Defined.

Lemma afterOneAdd_reach :
  QuarantineTable.reachNoWrap QuarantineTable.afterOneAdd.
Proof.
  eapply QuarantineTable.reachNoWrap_add with (q := QuarantineTable.init)
    (startPage := 0) (pageCount := 1) (requestedSize := 100) (zoneIndex := 0).
  - apply QuarantineTable.reachNoWrap_init.
  - vm_compute. reflexivity.
  - reflexivity.
Qed.

(** C9 at the table that holds one entry. *)
Lemma quarantine_invariant_witness :
  QuarantineTable.reachNoWrap QuarantineTable.afterOneAdd /\
  QuarantineTable.activeCount QuarantineTable.afterOneAdd
  = QuarantineTable.numActive
      (QuarantineTable.entries QuarantineTable.afterOneAdd) /\
  QuarantineTable.numActive
    (QuarantineTable.entries QuarantineTable.afterOneAdd)
  <= QuarantineTable.capacity /\
  QuarantineTable.distinctActive QuarantineTable.afterOneAdd /\
  QuarantineTable.stampedBelow QuarantineTable.afterOneAdd.
Proof.
  split; [exact afterOneAdd_reach|].
  apply (quarantine_invariant QuarantineTable.afterOneAdd).
  exact afterOneAdd_reach.
Defined.

(** C10 at a run of 17 pages asked of a 16-page bitmap. *)
Lemma findFreeRun_guard_witness :
  (17 = 0 \/
   17 > PageBitmap.pageCount
          (PageAllocator.bitmapInUse PageAllocator.fresh16)) /\
  PageBitmap.findFreeRun (PageAllocator.bitmapInUse PageAllocator.fresh16) 17
  = Ok (-1).
Proof.
  assert (H : 17 = 0 \/
              17 > PageBitmap.pageCount
                     (PageAllocator.bitmapInUse PageAllocator.fresh16))
    by (right; vm_compute; reflexivity).
  split; [exact H|].
  apply (findFreeRun_guard
           (PageAllocator.bitmapInUse PageAllocator.fresh16) 17 H).
Defined.

(** * Further properties *)

Ltac splits := repeat match goal with |- _ /\ _ => split end.

Section PageBitmapMore.
Import PageBitmap.

(** * More on PageBitmap *)

(** X1.  [set], [clear] and [test] on one page: [test] reads back what [set] and
    [clear] wrote, and the answer for every other page is the one it was. *)
Theorem set_clear_test_one_page (b : PageBitmap.t) (page : Z) :
  wf b -> 0 <= page < pageCount b ->
  exists bs bc,
    set b page = Ok bs /\ clear b page = Ok bc /\
    test bs page = Ok true /\ test bc page = Ok false /\
    forall other, 0 <= other < pageCount b -> other <> page ->
      test bs other = test b other /\ test bc other = test b other.
Proof.
  intros Hwf Hp.
  destruct (set_spec b page Hwf Hp) as (bs & Hs & _ & Hcs & Hbs).
  destruct (clear_spec b page Hwf Hp) as (bc & Hc & _ & Hcc & Hbc).
  exists bs, bc. split; [exact Hs|]. split; [exact Hc|].
  split; [|split].
  - rewrite test_spec by lia. rewrite Hbs by lia.
    rewrite Z.eqb_refl. reflexivity.
  - rewrite test_spec by lia. rewrite Hbc by lia.
    rewrite Z.eqb_refl. reflexivity.
  - intros o Ho Hne.
    rewrite !test_spec by lia. rewrite Hbs, Hbc by lia.
    replace (o =? page) with false by (symmetry; apply Z.eqb_neq; lia).
    split; reflexivity.
Qed.

(** X2.  [setRange] and [clearRange] return, and change the pages of the range
    and no other: afterwards [test] answers 1 (resp. 0) inside the range
    and what it answered before outside. *)
Theorem range_operations_touch_the_range_only (b : PageBitmap.t)
    (start count : Z) :
  wf b -> 0 <= start -> 0 <= count -> start + count <= pageCount b ->
  exists bs bc,
    setRange b start count = Ok bs /\ clearRange b start count = Ok bc /\
    pageCount bs = pageCount b /\ pageCount bc = pageCount b /\
    forall i, 0 <= i < pageCount b ->
      (start <= i < start + count ->
         test bs i = Ok true /\ test bc i = Ok false) /\
      (~ (start <= i < start + count) ->
         test bs i = test b i /\ test bc i = test b i).
Proof.
  intros Hwf Hs Hc Hb.
  destruct (setRange_spec b start count Hwf Hs Hc Hb)
    as (bs & Es & _ & Hcs & Hbs).
  destruct (clearRange_spec b start count Hwf Hs Hc Hb)
    as (bc & Ec & _ & Hcc & Hbc).
  exists bs, bc.
  split; [exact Es|]. split; [exact Ec|].
  split; [exact Hcs|]. split; [exact Hcc|].
  intros i Hi. rewrite !test_spec by lia.
  rewrite Hbs, Hbc by lia. split; intros Hr.
  - rewrite (in_range_true start count i Hr). split; reflexivity.
  - rewrite (in_range_false start count i Hr). split; reflexivity.
Qed.

(** Marking a free run and unmarking it again gives back the bitmap: every
    bit, and so the number of set bits, is what it was. *)
Lemma clearRange_undoes_setRange (b : PageBitmap.t) (start count : Z) :
  wf b -> 0 <= count -> freeRun b start count ->
  exists b1 b2,
    setRange b start count = Ok b1 /\ clearRange b1 start count = Ok b2 /\
    pageCount b2 = pageCount b /\
    (forall i, 0 <= i -> bit b2 i = bit b i) /\
    countSet b2 = countSet b.
Proof.
  intros Hwf Hc (Hs & Hb & Hfree).
  destruct (setRange_spec b start count Hwf Hs Hc Hb)
    as (b1 & E1 & Hwf1 & Hc1 & Hb1).
  assert (Hb' : start + count <= pageCount b1) by lia.
  destruct (clearRange_spec b1 start count Hwf1 Hs Hc Hb')
    as (b2 & E2 & Hwf2 & Hc2 & Hb2).
  exists b1, b2.
  split; [exact E1|]. split; [exact E2|]. split; [lia|].
  assert (Hbits : forall i, 0 <= i -> bit b2 i = bit b i).
  { intros i Hi. rewrite Hb2, Hb1 by lia.
    destruct (Z_le_dec start i) as [H1|H1];
      [destruct (Z_lt_dec i (start + count)) as [H2|H2]|].
    - rewrite (in_range_true start count i) by lia.
      rewrite Hfree by lia. reflexivity.
    - rewrite (in_range_false start count i) by lia. reflexivity.
    - rewrite (in_range_false start count i) by lia. reflexivity. }
  split; [exact Hbits|].
  rewrite (countSet_spec b2 Hwf2), (countSet_spec b Hwf).
  f_equal. rewrite Hc2, Hc1.
  apply countZ_ext. intros i Hi. apply Hbits. lia.
Qed.

(** X3.  [countSet] returns the number of pages whose bit is set, [countClear]
    the number of the others: together they count every page once. *)
Theorem countSet_countClear_partition (b : PageBitmap.t) :
  wf b ->
  exists s c,
    countSet b = Ok s /\ countClear b = Ok c /\
    s = countZ (bit b) (Z.to_nat (pageCount b)) 0 /\
    c = countZ (fun i => negb (bit b i)) (Z.to_nat (pageCount b)) 0 /\
    s + c = pageCount b.
Proof.
  intros Hwf.
  pose proof (countZ_bounds (bit b) (Z.to_nat (pageCount b)) 0) as Hn.
  assert (Hpc : 0 <= pageCount b <= 10240).
  { destruct Hwf as [_ H]. exact H. }
  rewrite Z2Nat.id in Hn by lia.
  assert (Hsum : forall n lo,
            countZ (bit b) n lo + countZ (fun i => negb (bit b i)) n lo
            = Z.of_nat n).
  { induction n as [|n IH]; intros lo; [reflexivity|].
    cbn [countZ]. specialize (IH (lo + 1)).
    destruct (bit b lo); cbn [negb Z.b2z]; lia. }
  specialize (Hsum (Z.to_nat (pageCount b)) 0).
  rewrite Z2Nat.id in Hsum by lia.
  exists (countZ (bit b) (Z.to_nat (pageCount b)) 0),
         (countZ (fun i => negb (bit b i)) (Z.to_nat (pageCount b)) 0).
  split; [apply countSet_spec; exact Hwf|].
  split.
  - unfold countClear. rewrite (countSet_spec b Hwf). cbn [bind].
    f_equal. rewrite u16_small by lia. lia.
  - split; [reflexivity|]. split; [reflexivity|]. exact Hsum.
Qed.

(** X4.  [findFreeRun] is first-fit: for a count between 1 and the page count it
    returns, and the result is either -1, no run of [count] clear bits
    existing anywhere, or the lowest start of such a run. *)
Theorem findFreeRun_returns_the_lowest_run (b : PageBitmap.t) (count : Z) :
  wf b -> 1 <= count <= pageCount b ->
  exists r, findFreeRun b count = Ok r /\
    ((r = -1 /\ forall j, ~ freeRun b j count) \/
     (0 <= r /\ r + count <= pageCount b /\
      (forall k, r <= k < r + count -> test b k = Ok false) /\
      forall j, 0 <= j < r -> ~ freeRun b j count)).
Proof.
  intros Hwf Hc.
  destruct (findFreeRun_first_fit b count Hwf Hc) as (r & E & [H|[Hf Hlow]]).
  - exists r. split; [exact E|]. left. exact H.
  - exists r. split; [exact E|]. right.
    destruct Hf as (H0 & H1 & H2).
    split; [exact H0|]. split; [exact H1|]. split; [|exact Hlow].
    intros k Hk. rewrite test_spec by lia. rewrite H2 by lia. reflexivity.
Qed.

(** X5.  A bitmap that [init] has just built has no bit set: [test] answers 0
    for every page, [countSet] is 0, [countClear] is the page count, and
    [findFreeRun] finds every admissible run at page 0. *)
Theorem init_leaves_every_page_free (count : Z) (b : PageBitmap.t) :
  0 <= count ->
  PageBitmap.init count = Ok b ->
  pageCount b = count /\
  (forall i, 0 <= i < count -> test b i = Ok false) /\
  countSet b = Ok 0 /\ countClear b = Ok count /\
  forall c, 1 <= c <= count -> findFreeRun b c = Ok 0.
Proof.
  intros H0 E.
  destruct (init_spec count b E) as (Hmax & Hpc & Hlen & Hbit).
  assert (Hwf : wf b).
  { split; [exact Hlen|]. rewrite Hpc.
    unfold ALLOC_MAX_PAGES_PER_ZONE in *. lia. }
  assert (Hcs : countSet b = Ok 0).
  { rewrite (countSet_spec b Hwf). f_equal.
    apply countZ_false. intros i _. apply Hbit. }
  split; [exact Hpc|]. split; [|split; [exact Hcs|split]].
  - intros i Hi. rewrite test_spec by lia. rewrite Hbit. reflexivity.
  - unfold countClear. rewrite Hcs. cbn [bind]. f_equal.
    rewrite Z.sub_0_r, Hpc. apply u16_small.
    unfold ALLOC_MAX_PAGES_PER_ZONE in *. lia.
  - intros c Hc.
    assert (Hc' : 1 <= c <= pageCount b) by lia.
    destruct (findFreeRun_first_fit b c Hwf Hc') as (r & Er & [[_ Hno]|[Hf Hlow]]).
    + exfalso. apply (Hno 0). split; [lia|]. split; [lia|].
      intros k _. apply Hbit.
    + rewrite Er. f_equal.
      destruct Hf as (Hr0 & _ & _).
      destruct (Z.eq_dec r 0) as [->|Hne]; [reflexivity|].
      exfalso. apply (Hlow 0); [lia|].
      split; [lia|]. split; [lia|]. intros k _. apply Hbit.
Qed.

(** ** Instances *)

Lemma fresh16_bitmap_wf :
  wf (PageAllocator.bitmapInUse PageAllocator.fresh16).
Proof.
  split; [vm_compute; reflexivity|].
  assert (E : pageCount (PageAllocator.bitmapInUse PageAllocator.fresh16)
              = 16) by (vm_compute; reflexivity).
  rewrite E. unfold ALLOC_MAX_PAGES_PER_ZONE. lia.
Qed.

Lemma fresh16_bitmap_pages :
  pageCount (PageAllocator.bitmapInUse PageAllocator.fresh16) = 16.
Proof. vm_compute. reflexivity. Qed.

(** Page 3 of the bitmap of a fresh zone of 16 pages. *)
Lemma set_clear_test_one_page_witness :
  wf (PageAllocator.bitmapInUse PageAllocator.fresh16) /\
  0 <= 3 < pageCount (PageAllocator.bitmapInUse PageAllocator.fresh16) /\
  exists bs bc,
    set (PageAllocator.bitmapInUse PageAllocator.fresh16) 3 = Ok bs /\
    clear (PageAllocator.bitmapInUse PageAllocator.fresh16) 3 = Ok bc /\
    test bs 3 = Ok true /\ test bc 3 = Ok false /\
    forall other,
      0 <= other
      < pageCount (PageAllocator.bitmapInUse PageAllocator.fresh16) ->
      other <> 3 ->
      test bs other
      = test (PageAllocator.bitmapInUse PageAllocator.fresh16) other /\
      test bc other
      = test (PageAllocator.bitmapInUse PageAllocator.fresh16) other.
Proof.
  assert (H2 : 0 <= 3
               < pageCount (PageAllocator.bitmapInUse PageAllocator.fresh16))
    by (rewrite fresh16_bitmap_pages; lia).
  split; [exact fresh16_bitmap_wf|]. split; [exact H2|].
  exact (set_clear_test_one_page
           (PageAllocator.bitmapInUse PageAllocator.fresh16) 3
           fresh16_bitmap_wf H2).
Defined.

(** Pages 2 to 6 of the same bitmap. *)
Lemma range_operations_touch_the_range_only_witness :
  wf (PageAllocator.bitmapInUse PageAllocator.fresh16) /\
  0 <= 2 /\ 0 <= 5 /\
  2 + 5 <= pageCount (PageAllocator.bitmapInUse PageAllocator.fresh16) /\
  exists bs bc,
    setRange (PageAllocator.bitmapInUse PageAllocator.fresh16) 2 5 = Ok bs /\
    clearRange (PageAllocator.bitmapInUse PageAllocator.fresh16) 2 5
    = Ok bc /\
    pageCount bs
    = pageCount (PageAllocator.bitmapInUse PageAllocator.fresh16) /\
    pageCount bc
    = pageCount (PageAllocator.bitmapInUse PageAllocator.fresh16) /\
    forall i,
      0 <= i < pageCount (PageAllocator.bitmapInUse PageAllocator.fresh16) ->
      (2 <= i < 2 + 5 -> test bs i = Ok true /\ test bc i = Ok false) /\
      (~ (2 <= i < 2 + 5) ->
       test bs i = test (PageAllocator.bitmapInUse PageAllocator.fresh16) i /\
       test bc i = test (PageAllocator.bitmapInUse PageAllocator.fresh16) i).
Proof.
  assert (H0 : 0 <= 2) by lia. assert (H1 : 0 <= 5) by lia.
  assert (H2 : 2 + 5
               <= pageCount (PageAllocator.bitmapInUse PageAllocator.fresh16))
    by (rewrite fresh16_bitmap_pages; lia).
  split; [exact fresh16_bitmap_wf|]. split; [exact H0|].
  split; [exact H1|]. split; [exact H2|].
  exact (range_operations_touch_the_range_only
           (PageAllocator.bitmapInUse PageAllocator.fresh16) 2 5
           fresh16_bitmap_wf H0 H1 H2).
Defined.

(** The same bitmap, no bit of which is set. *)
Lemma countSet_countClear_partition_witness :
  wf (PageAllocator.bitmapInUse PageAllocator.fresh16) /\
  exists s c,
    countSet (PageAllocator.bitmapInUse PageAllocator.fresh16) = Ok s /\
    countClear (PageAllocator.bitmapInUse PageAllocator.fresh16) = Ok c /\
    s = countZ (bit (PageAllocator.bitmapInUse PageAllocator.fresh16))
          (Z.to_nat
             (pageCount (PageAllocator.bitmapInUse PageAllocator.fresh16)))
          0 /\
    c = countZ
          (fun i =>
             negb (bit (PageAllocator.bitmapInUse PageAllocator.fresh16) i))
          (Z.to_nat
             (pageCount (PageAllocator.bitmapInUse PageAllocator.fresh16)))
          0 /\
    s + c = pageCount (PageAllocator.bitmapInUse PageAllocator.fresh16).
Proof.
  split; [exact fresh16_bitmap_wf|].
  exact (countSet_countClear_partition
           (PageAllocator.bitmapInUse PageAllocator.fresh16)
           fresh16_bitmap_wf).
Defined.

(** A run of 4 pages in the same bitmap. *)
Lemma findFreeRun_returns_the_lowest_run_witness :
  wf (PageAllocator.bitmapInUse PageAllocator.fresh16) /\
  1 <= 4 <= pageCount (PageAllocator.bitmapInUse PageAllocator.fresh16) /\
  exists r,
    findFreeRun (PageAllocator.bitmapInUse PageAllocator.fresh16) 4 = Ok r /\
    ((r = -1 /\
      forall j,
        ~ freeRun (PageAllocator.bitmapInUse PageAllocator.fresh16) j 4) \/
     (0 <= r /\
      r + 4 <= pageCount (PageAllocator.bitmapInUse PageAllocator.fresh16) /\
      (forall k, r <= k < r + 4 ->
         test (PageAllocator.bitmapInUse PageAllocator.fresh16) k
         = Ok false) /\
      forall j, 0 <= j < r ->
        ~ freeRun (PageAllocator.bitmapInUse PageAllocator.fresh16) j 4)).
Proof.
  assert (H1 : 1 <= 4
               <= pageCount (PageAllocator.bitmapInUse PageAllocator.fresh16))
    by (rewrite fresh16_bitmap_pages; lia).
  split; [exact fresh16_bitmap_wf|]. split; [exact H1|].
  exact (findFreeRun_returns_the_lowest_run
           (PageAllocator.bitmapInUse PageAllocator.fresh16) 4
           fresh16_bitmap_wf H1).
Defined.

(** The bitmap [init] builds for 16 pages. *)
Lemma init_leaves_every_page_free_witness :
  0 <= 16 /\
  PageBitmap.init 16
  = Ok (PageAllocator.bitmapInUse PageAllocator.fresh16) /\
  (pageCount (PageAllocator.bitmapInUse PageAllocator.fresh16) = 16 /\
   (forall i, 0 <= i < 16 ->
      test (PageAllocator.bitmapInUse PageAllocator.fresh16) i = Ok false) /\
   countSet (PageAllocator.bitmapInUse PageAllocator.fresh16) = Ok 0 /\
   countClear (PageAllocator.bitmapInUse PageAllocator.fresh16) = Ok 16 /\
   forall c, 1 <= c <= 16 ->
     findFreeRun (PageAllocator.bitmapInUse PageAllocator.fresh16) c = Ok 0).
Proof.
  assert (H0 : 0 <= 16) by lia.
  assert (H1 : PageBitmap.init 16
               = Ok (PageAllocator.bitmapInUse PageAllocator.fresh16))
    by (vm_compute; reflexivity).
  split; [exact H0|]. split; [exact H1|].
  exact (init_leaves_every_page_free 16
           (PageAllocator.bitmapInUse PageAllocator.fresh16) H0 H1).
Defined.
End PageBitmapMore.

Section BlockGuardMore.
Import BlockGuard.

(** * More on BlockGuard *)

Lemma validatePattern_loop_spec n : forall m p pat i,
  validatePattern_loop n m p pat i = true
  <-> forall k, i <= k < i + Z.of_nat n -> load8 m (p + k) = pat.
Proof.
  induction n as [|n IH]; intros m p pat i.
  - cbn [validatePattern_loop]. split; [intros _ k Hk; lia|reflexivity].
  - cbn [validatePattern_loop].
    destruct (Z.eqb_spec (load8 m (p + i)) pat) as [Heq|Hne]; cbn [negb].
    + rewrite IH. split.
      * intros H k Hk. destruct (Z.eq_dec k i) as [->|Hki]; [exact Heq|].
        apply H. lia.
      * intros H k Hk. apply H. lia.
    + split; [discriminate|]. intros H. exfalso. apply Hne, H. lia.
Qed.

Lemma validatePattern_range m p pat size :
  0 <= size ->
  validatePattern_loop (Z.to_nat size) m p pat 0 = true
  <-> forall x, p <= x < p + size -> load8 m x = pat.
Proof.
  intros Hs. rewrite validatePattern_loop_spec.
  rewrite Z2Nat.id by lia. split.
  - intros H x Hx. replace x with (p + (x - p)) by lia. apply H. lia.
  - intros H k Hk. apply H. lia.
Qed.

(** [validatePadding] and [validateQuarantinePayload] answer true exactly
    when every byte of the range reads as the pattern. *)
Lemma pattern_validation_bytewise (m : mem) (p size : Z) :
  0 <= size ->
  (validatePadding m p size = true
   <-> forall x, p <= x < p + size -> load8 m x = ALLOC_PATTERN_PADDING) /\
  (validateQuarantinePayload m p size = true
   <-> forall x, p <= x < p + size ->
         load8 m x = ALLOC_PATTERN_QUARANTINE_FILL).
Proof.
  intros Hs. split; apply validatePattern_range; exact Hs.
Qed.

Lemma validatePattern_false m p pat size x :
  0 <= size -> p <= x < p + size -> load8 m x <> pat ->
  validatePattern_loop (Z.to_nat size) m p pat 0 = false.
Proof.
  intros Hs Hx Hne.
  destruct (validatePattern_loop (Z.to_nat size) m p pat 0) eqn:E;
    [|reflexivity].
  exfalso. apply Hne.
  apply (proj1 (validatePattern_range m p pat size Hs) E x Hx).
Qed.

(** What the fill functions write is what the validation functions accept:
    a padding filled by [fillPadding] passes [validatePadding], a payload
    filled by [fillQuarantinePayload] passes [validateQuarantinePayload];
    neither passes the check of the other pattern, and one byte of another
    value written into the range afterwards makes the check fail. *)
Lemma fill_validate (m : mem) (p size : Z) :
  0 <= size ->
  validatePadding (fillPadding m p size) p size = true /\
  validateQuarantinePayload (fillQuarantinePayload m p size) p size = true /\
  (0 < size ->
   validatePadding (fillQuarantinePayload m p size) p size = false /\
   validateQuarantinePayload (fillPadding m p size) p size = false) /\
  (forall x v, p <= x < p + size ->
     (u8 v <> ALLOC_PATTERN_PADDING ->
      validatePadding (store8 (fillPadding m p size) x v) p size = false) /\
     (u8 v <> ALLOC_PATTERN_QUARANTINE_FILL ->
      validateQuarantinePayload
        (store8 (fillQuarantinePayload m p size) x v) p size = false)).
Proof.
  intros Hs.
  assert (Hfill : forall pat x, p <= x < p + size ->
            load8 (memset m p pat size) x = u8 pat).
  { intros pat x Hx. rewrite load8_memset.
    rewrite (in_range_true p size x Hx). reflexivity. }
  split; [|split; [|split]].
  - apply validatePattern_range; [exact Hs|].
    intros x Hx. unfold fillPadding. rewrite Hfill by exact Hx. reflexivity.
  - apply validatePattern_range; [exact Hs|].
    intros x Hx. unfold fillQuarantinePayload.
    rewrite Hfill by exact Hx. reflexivity.
  - intros Hpos. split.
    + apply (validatePattern_false _ p _ size p); [exact Hs|lia|].
      unfold fillQuarantinePayload. rewrite Hfill by lia. discriminate.
    + apply (validatePattern_false _ p _ size p); [exact Hs|lia|].
      unfold fillPadding. rewrite Hfill by lia. discriminate.
  - intros x v Hx. split; intros Hv.
    + apply (validatePattern_false _ p _ size x); [exact Hs|exact Hx|].
      rewrite load8_store8, Z.eqb_refl. exact Hv.
    + apply (validatePattern_false _ p _ size x); [exact Hs|exact Hx|].
      rewrite load8_store8, Z.eqb_refl. exact Hv.
Qed.

(** X6.  [validatePadding] and [validateQuarantinePayload] answer true exactly
    when every byte of the range reads as the pattern, and what the fill
    functions write is what they accept: a padding filled by [fillPadding]
    passes [validatePadding], a payload filled by [fillQuarantinePayload]
    passes [validateQuarantinePayload]; neither passes the check of the
    other pattern, and one byte of another value written into the range
    afterwards makes the check fail. *)
Theorem fill_then_validate (m : mem) (p size : Z) :
  0 <= size ->
  (validatePadding m p size = true
   <-> forall x, p <= x < p + size -> load8 m x = ALLOC_PATTERN_PADDING) /\
  (validateQuarantinePayload m p size = true
   <-> forall x, p <= x < p + size ->
         load8 m x = ALLOC_PATTERN_QUARANTINE_FILL) /\
  validatePadding (fillPadding m p size) p size = true /\
  validateQuarantinePayload (fillQuarantinePayload m p size) p size = true /\
  (0 < size ->
   validatePadding (fillQuarantinePayload m p size) p size = false /\
   validateQuarantinePayload (fillPadding m p size) p size = false) /\
  (forall x v, p <= x < p + size ->
     (u8 v <> ALLOC_PATTERN_PADDING ->
      validatePadding (store8 (fillPadding m p size) x v) p size = false) /\
     (u8 v <> ALLOC_PATTERN_QUARANTINE_FILL ->
      validateQuarantinePayload
        (store8 (fillQuarantinePayload m p size) x v) p size = false)).
Proof.
  intros Hs.
  destruct (pattern_validation_bytewise m p size Hs) as [H1 H2].
  split; [exact H1|]. split; [exact H2|].
  apply (fill_validate m p size Hs).
Qed.

(** ** One changed byte *)

Lemma load32_store8_out m x v a :
  x < a \/ a + 4 <= x -> load32 (store8 m x v) a = load32 m a.
Proof.
  intros H. unfold load32. rewrite !load8_store8.
  replace (a =? x) with false by (symmetry; apply Z.eqb_neq; lia).
  replace (a + 1 =? x) with false by (symmetry; apply Z.eqb_neq; lia).
  replace (a + 2 =? x) with false by (symmetry; apply Z.eqb_neq; lia).
  replace (a + 3 =? x) with false by (symmetry; apply Z.eqb_neq; lia).
  reflexivity.
Qed.

Lemma load32_store8_in m x v a :
  a <= x < a + 4 -> u8 v <> load8 m x ->
  load32 (store8 m x v) a <> load32 m a.
Proof.
  intros H Hv. unfold load32. rewrite !load8_store8.
  pose proof (u8_range v) as Hr.
  pose proof (load8_range m a) as H0.
  pose proof (load8_range m (a + 1)) as H1.
  pose proof (load8_range m (a + 2)) as H2.
  pose proof (load8_range m (a + 3)) as H3.
  assert (Hc : x = a \/ x = a + 1 \/ x = a + 2 \/ x = a + 3) by lia.
  destruct Hc as [-> | [-> | [-> | ->]]].
  - rewrite Z.eqb_refl.
    replace (a + 1 =? a) with false by (symmetry; apply Z.eqb_neq; lia).
    replace (a + 2 =? a) with false by (symmetry; apply Z.eqb_neq; lia).
    replace (a + 3 =? a) with false by (symmetry; apply Z.eqb_neq; lia).
    lia.
  - rewrite Z.eqb_refl.
    replace (a =? a + 1) with false by (symmetry; apply Z.eqb_neq; lia).
    replace (a + 2 =? a + 1) with false by (symmetry; apply Z.eqb_neq; lia).
    replace (a + 3 =? a + 1) with false by (symmetry; apply Z.eqb_neq; lia).
    lia.
  - rewrite Z.eqb_refl.
    replace (a =? a + 2) with false by (symmetry; apply Z.eqb_neq; lia).
    replace (a + 1 =? a + 2) with false by (symmetry; apply Z.eqb_neq; lia).
    replace (a + 3 =? a + 2) with false by (symmetry; apply Z.eqb_neq; lia).
    lia.
  - rewrite Z.eqb_refl.
    replace (a =? a + 3) with false by (symmetry; apply Z.eqb_neq; lia).
    replace (a + 1 =? a + 3) with false by (symmetry; apply Z.eqb_neq; lia).
    replace (a + 2 =? a + 3) with false by (symmetry; apply Z.eqb_neq; lia).
    lia.
Qed.

Lemma lxor_cancel_r a b c : Z.lxor a c = Z.lxor b c -> a = b.
Proof.
  intros H. apply (f_equal (fun t => Z.lxor t c)) in H.
  rewrite !Z.lxor_assoc, !Z.lxor_nilpotent, !Z.lxor_0_r in H. exact H.
Qed.

Lemma lxor_cancel_l a b c : Z.lxor c a = Z.lxor c b -> a = b.
Proof.
  rewrite (Z.lxor_comm c a), (Z.lxor_comm c b). apply lxor_cancel_r.
Qed.

(** One changed byte among the first 28 changes the XOR of the seven
    words. *)
Lemma xorWords_store8 m p x v :
  p <= x < p + 28 -> u8 v <> load8 m x ->
  xorWords (store8 m x v) p <> xorWords m p.
Proof.
  intros Hx Hv. unfold xorWords. cbn [map fold_left].
  assert (Hin : forall a, a <= x < a + 4 ->
            load32 (store8 m x v) a <> load32 m a).
  { intros a Ha. apply load32_store8_in; assumption. }
  assert (Hout : forall a, x < a \/ a + 4 <= x ->
            load32 (store8 m x v) a = load32 m a).
  { intros a Ha. apply load32_store8_out; assumption. }
  assert (Hc : p + 4 * 0 <= x < p + 4 * 0 + 4 \/
               p + 4 * 1 <= x < p + 4 * 1 + 4 \/
               p + 4 * 2 <= x < p + 4 * 2 + 4 \/
               p + 4 * 3 <= x < p + 4 * 3 + 4 \/
               p + 4 * 4 <= x < p + 4 * 4 + 4 \/
               p + 4 * 5 <= x < p + 4 * 5 + 4 \/
               p + 4 * 6 <= x < p + 4 * 6 + 4) by lia.
  destruct Hc as [Hc|[Hc|[Hc|[Hc|[Hc|[Hc|Hc]]]]]];
    pose proof (Hin _ Hc) as Hd;
    rewrite ?(Hout (p + 4 * 0)), ?(Hout (p + 4 * 1)), ?(Hout (p + 4 * 2)),
            ?(Hout (p + 4 * 3)), ?(Hout (p + 4 * 4)), ?(Hout (p + 4 * 5)),
            ?(Hout (p + 4 * 6)) by lia;
    intros Heq; apply Hd;
    repeat (apply lxor_cancel_r in Heq);
    apply lxor_cancel_l in Heq; exact Heq.
Qed.

(** A record whose magic is [mg] and whose last word is the XOR of the
    others no longer has both after one byte has changed. *)
Lemma record_store8 m p x v mg :
  p <= x < p + 32 -> u8 v <> load8 m x ->
  load32 m p = mg -> load32 m (p + 28) = xorWords m p ->
  load32 (store8 m x v) p <> mg \/
  load32 (store8 m x v) (p + 28) <> xorWords (store8 m x v) p.
Proof.
  intros Hx Hv Hmg Hck.
  destruct (Z_lt_dec x (p + 4)) as [H4|H4].
  - left. rewrite <- Hmg. apply load32_store8_in; [lia|exact Hv].
  - right. destruct (Z_lt_dec x (p + 28)) as [H28|H28].
    + rewrite load32_store8_out by lia. rewrite Hck.
      intros Heq. apply (xorWords_store8 m p x v); [lia|exact Hv|].
      symmetry. exact Heq.
    + rewrite (xorWords_agree (store8 m x v) m p)
        by (apply agree_store8; lia).
      rewrite <- Hck. apply load32_store8_in; [lia|exact Hv].
Qed.

Lemma validateHeader_true m p :
  validateHeader m p = Ok true <->
  load32 m p = ALLOC_PATTERN_HEADER_MAGIC /\
  load32 m (p + 28) = xorWords m p.
Proof.
  unfold validateHeader, AllocBlockHeader.magic, AllocBlockHeader.checksum.
  change ALLOC_HEADER_SIZE with 32. rewrite computeChecksum_32. cbn [bind].
  destruct (Z.eqb_spec (load32 m p) ALLOC_PATTERN_HEADER_MAGIC) as [Hm|Hm];
    cbn [negb].
  - destruct (Z.eqb_spec (load32 m (p + 28)) (xorWords m p)) as [Hc|Hc].
    + split; [intros _; split; assumption|reflexivity].
    + split; [discriminate|]. intros [_ H]. contradiction.
  - split; [discriminate|]. intros [H _]. contradiction.
Qed.

Lemma validateFooter_true m p :
  validateFooter m p = Ok true <->
  load32 m p = ALLOC_PATTERN_FOOTER_MAGIC /\
  load32 m (p + 28) = xorWords m p.
Proof.
  unfold validateFooter, AllocBlockFooter.magic, AllocBlockFooter.checksum.
  change ALLOC_FOOTER_SIZE with 32. rewrite computeChecksum_32. cbn [bind].
  destruct (Z.eqb_spec (load32 m p) ALLOC_PATTERN_FOOTER_MAGIC) as [Hm|Hm];
    cbn [negb].
  - destruct (Z.eqb_spec (load32 m (p + 28)) (xorWords m p)) as [Hc|Hc].
    + split; [intros _; split; assumption|reflexivity].
    + split; [discriminate|]. intros [_ H]. contradiction.
  - split; [discriminate|]. intros [H _]. contradiction.
Qed.

Lemma validateHeader_total m p :
  validateHeader m p = Ok true \/ validateHeader m p = Ok false.
Proof.
  unfold validateHeader. change ALLOC_HEADER_SIZE with 32.
  rewrite computeChecksum_32. cbn [bind].
  destruct (negb _); [right; reflexivity|].
  destruct (_ =? _); [left|right]; reflexivity.
Qed.

Lemma validateFooter_total m p :
  validateFooter m p = Ok true \/ validateFooter m p = Ok false.
Proof.
  unfold validateFooter. change ALLOC_FOOTER_SIZE with 32.
  rewrite computeChecksum_32. cbn [bind].
  destruct (negb _); [right; reflexivity|].
  destruct (_ =? _); [left|right]; reflexivity.
Qed.

Lemma validateHeader_store8 m p x v :
  p <= x < p + 32 -> u8 v <> load8 m x ->
  validateHeader m p = Ok true -> validateHeader (store8 m x v) p = Ok false.
Proof.
  intros Hx Hv H. apply validateHeader_true in H as [Hm Hc].
  destruct (validateHeader_total (store8 m x v) p) as [E|E]; [|exact E].
  exfalso. apply validateHeader_true in E as [Hm' Hc'].
  destruct (record_store8 m p x v _ Hx Hv Hm Hc) as [H|H]; contradiction.
Qed.

Lemma validateFooter_store8 m p x v :
  p <= x < p + 32 -> u8 v <> load8 m x ->
  validateFooter m p = Ok true -> validateFooter (store8 m x v) p = Ok false.
Proof.
  intros Hx Hv H. apply validateFooter_true in H as [Hm Hc].
  destruct (validateFooter_total (store8 m x v) p) as [E|E]; [|exact E].
  exfalso. apply validateFooter_true in E as [Hm' Hc'].
  destruct (record_store8 m p x v _ Hx Hv Hm Hc) as [H|H]; contradiction.
Qed.

(** X7.  A header or a footer that validates no longer does once any one of
    its 32 bytes has been given another value: the magic, a field, a
    reserved byte or the checksum itself. *)
Theorem one_changed_byte_is_detected (m : mem) (p x v : Z) :
  p <= x < p + 32 -> u8 v <> load8 m x ->
  (validateHeader m p = Ok true ->
   validateHeader (store8 m x v) p = Ok false) /\
  (validateFooter m p = Ok true ->
   validateFooter (store8 m x v) p = Ok false).
Proof.
  intros Hx Hv. split.
  - apply validateHeader_store8; assumption.
  - apply validateFooter_store8; assumption.
Qed.

(** No record validates both as a header and as a footer. *)
Lemma header_is_no_footer m p :
  validateHeader m p = Ok true -> validateFooter m p = Ok false.
Proof.
  intros H. apply validateHeader_true in H as [Hm _].
  unfold validateFooter, AllocBlockFooter.magic. rewrite Hm. reflexivity.
Qed.

(** X8.  The four parts of a block follow one another and fill its pages:
    the payload starts behind the header, the footer behind the payload,
    the padding behind the footer, and the padding ends where the last
    page of the block ends.  The sum of header, payload and footer must
    not exceed [SIZE_MAX]. *)
Theorem block_parts_tile_the_pages (m : mem) (header padLen : Z) :
  ALLOC_HEADER_SIZE + AllocBlockHeader.requestedSize m header
  + ALLOC_FOOTER_SIZE <= SIZE_MAX ->
  paddingSize m header = Ok padLen ->
  headerFromUserData (userDataFromHeader header) = header /\
  footerFromHeader m header
  = userDataFromHeader header + AllocBlockHeader.requestedSize m header /\
  paddingFromHeader m header = footerFromHeader m header + ALLOC_FOOTER_SIZE /\
  0 <= padLen /\
  paddingFromHeader m header + padLen
  = header + AllocBlockHeader.pageCount m header * ALLOC_PAGE_SIZE.
Proof.
  unfold paddingSize, paddingFromHeader, footerFromHeader,
    userDataFromHeader, headerFromUserData,
    AllocBlockHeader.requestedSize, AllocBlockHeader.pageCount.
  unfold ALLOC_HEADER_SIZE, ALLOC_FOOTER_SIZE, ALLOC_PAGE_SIZE, SIZE_MAX.
  intros Hmax.
  pose proof (load32_range m (header + 4)) as Hrs.
  pose proof (load16_range m (header + 10)) as Hpc.
  rewrite (usize_small (load16 m (header + 10) * 1024)) by lia.
  rewrite (usize_small (32 + load32 m (header + 4) + 32)) by lia.
  destruct (Z.geb_spec (load16 m (header + 10) * 1024)
              (32 + load32 m (header + 4) + 32)) as [Hge|Hlt];
    cbn [ALLOC_ASSERT bind]; [|discriminate].
  intros [= <-]. repeat split; lia.
Qed.

(** ** Instances *)

(** Eight bytes at the start of the zone of the examples. *)
Lemma fill_then_validate_witness :
  0 <= 8 /\
  ((validatePadding Mem.zero PageAllocator.base 8 = true
    <-> forall x, PageAllocator.base <= x < PageAllocator.base + 8 ->
          load8 Mem.zero x = ALLOC_PATTERN_PADDING) /\
   (validateQuarantinePayload Mem.zero PageAllocator.base 8 = true
    <-> forall x, PageAllocator.base <= x < PageAllocator.base + 8 ->
          load8 Mem.zero x = ALLOC_PATTERN_QUARANTINE_FILL) /\
   validatePadding (fillPadding Mem.zero PageAllocator.base 8)
     PageAllocator.base 8 = true /\
   validateQuarantinePayload
     (fillQuarantinePayload Mem.zero PageAllocator.base 8)
     PageAllocator.base 8 = true /\
   (0 < 8 ->
    validatePadding (fillQuarantinePayload Mem.zero PageAllocator.base 8)
      PageAllocator.base 8 = false /\
    validateQuarantinePayload (fillPadding Mem.zero PageAllocator.base 8)
      PageAllocator.base 8 = false) /\
   (forall x v, PageAllocator.base <= x < PageAllocator.base + 8 ->
      (u8 v <> ALLOC_PATTERN_PADDING ->
       validatePadding
         (store8 (fillPadding Mem.zero PageAllocator.base 8) x v)
         PageAllocator.base 8 = false) /\
      (u8 v <> ALLOC_PATTERN_QUARANTINE_FILL ->
       validateQuarantinePayload
         (store8 (fillQuarantinePayload Mem.zero PageAllocator.base 8) x v)
         PageAllocator.base 8 = false))).
Proof.
  assert (H0 : 0 <= 8) by lia.
  split; [exact H0|].
  exact (fill_then_validate Mem.zero PageAllocator.base 8 H0).
Defined.

(** The header of the block of the examples, whose byte 4 holds the low
    byte of the requested size, 100. *)
Lemma one_changed_byte_is_detected_witness :
  PageAllocator.base <= PageAllocator.base + 4 < PageAllocator.base + 32 /\
  u8 0 <> load8 (PageAllocator.memOf PageAllocator.oneHeld)
            (PageAllocator.base + 4) /\
  ((validateHeader (PageAllocator.memOf PageAllocator.oneHeld)
      PageAllocator.base = Ok true ->
    validateHeader
      (store8 (PageAllocator.memOf PageAllocator.oneHeld)
         (PageAllocator.base + 4) 0) PageAllocator.base = Ok false) /\
   (validateFooter (PageAllocator.memOf PageAllocator.oneHeld)
      PageAllocator.base = Ok true ->
    validateFooter
      (store8 (PageAllocator.memOf PageAllocator.oneHeld)
         (PageAllocator.base + 4) 0) PageAllocator.base = Ok false)).
Proof.
  assert (H1 : PageAllocator.base <= PageAllocator.base + 4
               < PageAllocator.base + 32) by lia.
  assert (H2 : u8 0 <> load8 (PageAllocator.memOf PageAllocator.oneHeld)
                         (PageAllocator.base + 4))
    by (vm_compute; discriminate).
  split; [exact H1|]. split; [exact H2|].
  exact (one_changed_byte_is_detected
           (PageAllocator.memOf PageAllocator.oneHeld) PageAllocator.base
           (PageAllocator.base + 4) 0 H1 H2).
Defined.

(** The same block: one page, of which 860 bytes are padding. *)
Lemma block_parts_tile_the_pages_witness :
  ALLOC_HEADER_SIZE
  + AllocBlockHeader.requestedSize
      (PageAllocator.memOf PageAllocator.oneHeld) PageAllocator.base
  + ALLOC_FOOTER_SIZE <= SIZE_MAX /\
  paddingSize (PageAllocator.memOf PageAllocator.oneHeld) PageAllocator.base
  = Ok 860 /\
  (headerFromUserData (userDataFromHeader PageAllocator.base)
   = PageAllocator.base /\
   footerFromHeader (PageAllocator.memOf PageAllocator.oneHeld)
     PageAllocator.base
   = userDataFromHeader PageAllocator.base
     + AllocBlockHeader.requestedSize
         (PageAllocator.memOf PageAllocator.oneHeld) PageAllocator.base /\
   paddingFromHeader (PageAllocator.memOf PageAllocator.oneHeld)
     PageAllocator.base
   = footerFromHeader (PageAllocator.memOf PageAllocator.oneHeld)
       PageAllocator.base + ALLOC_FOOTER_SIZE /\
   0 <= 860 /\
   paddingFromHeader (PageAllocator.memOf PageAllocator.oneHeld)
     PageAllocator.base + 860
   = PageAllocator.base
     + AllocBlockHeader.pageCount
         (PageAllocator.memOf PageAllocator.oneHeld) PageAllocator.base
       * ALLOC_PAGE_SIZE).
Proof.
  assert (H1 : ALLOC_HEADER_SIZE
               + AllocBlockHeader.requestedSize
                   (PageAllocator.memOf PageAllocator.oneHeld)
                   PageAllocator.base
               + ALLOC_FOOTER_SIZE <= SIZE_MAX)
    by (vm_compute; discriminate).
  assert (H2 : paddingSize (PageAllocator.memOf PageAllocator.oneHeld)
                 PageAllocator.base = Ok 860)
    by (vm_compute; reflexivity).
  split; [exact H1|]. split; [exact H2|].
  exact (block_parts_tile_the_pages
           (PageAllocator.memOf PageAllocator.oneHeld) PageAllocator.base
           860 H1 H2).
Defined.
End BlockGuardMore.

Section QuarantineTableMore.
Import AllocQuarantineEntry QuarantineTable.

(** * More on QuarantineTable *)

(** X9.  [findOldest] returns the first entry, in index order, among the active
    entries with the smallest [freeSequence], provided that stamp is below
    [UINT32_MAX]; it returns [nullptr] exactly when every active entry is
    stamped [UINT32_MAX] or above, an empty table included. *)
Theorem findOldest_is_the_first_minimum (q : QuarantineTable.t) :
  match findOldest q with
  | Some o =>
      0 <= o < capacity /\ active (entry q o) <> 0 /\
      freeSequence (entry q o) < UINT32_MAX /\
      (forall j, 0 <= j < capacity -> active (entry q j) <> 0 ->
         freeSequence (entry q o) <= freeSequence (entry q j)) /\
      (forall j, 0 <= j < o -> active (entry q j) <> 0 ->
         freeSequence (entry q o) < freeSequence (entry q j))
  | None =>
      forall j, 0 <= j < capacity -> active (entry q j) <> 0 ->
        UINT32_MAX <= freeSequence (entry q j)
  end.
Proof.
  unfold findOldest.
  destruct (findOldest_loop_spec (Z.to_nat ALLOC_QUARANTINE_CAPACITY) q 0
              None UINT32_MAX)
    as [[-> H]|(o & -> & Ho & Hact & Hlt & Hmin & Hfirst)].
  - intros j Hj Ha. apply H; [|exact Ha].
    change (Z.of_nat (Z.to_nat ALLOC_QUARANTINE_CAPACITY)) with 32.
    unfold capacity, ALLOC_QUARANTINE_CAPACITY in Hj. lia.
  - change (Z.of_nat (Z.to_nat ALLOC_QUARANTINE_CAPACITY)) with 32 in *.
    unfold capacity, ALLOC_QUARANTINE_CAPACITY.
    split; [lia|]. split; [exact Hact|]. split; [exact Hlt|].
    split; [|exact Hfirst].
    intros j Hj Ha. apply Hmin; [lia|exact Ha].
Qed.

Lemma findSlot_loop_none n : forall q i,
  findSlot_loop n q i = None ->
  forall j, i <= j < i + Z.of_nat n -> active (entry q j) <> 0.
Proof.
  induction n as [|n IH]; intros q i E j Hj; [lia|].
  cbn [findSlot_loop] in E.
  destruct (Z.eqb_spec (active (entry q i)) 0) as [H0|H0]; [discriminate|].
  destruct (Z.eq_dec j i) as [->|Hne]; [exact H0|].
  apply (IH q (i + 1) E). lia.
Qed.

Lemma numActive_all es :
  (forall i e, es !! i = Some e -> active e = 1) ->
  numActive es = Z.of_nat (length es).
Proof.
  induction es as [|e es IH]; intros H; [reflexivity|].
  cbn [numActive length].
  rewrite (H 0%nat e eq_refl). rewrite Z.eqb_refl.
  rewrite IH; [lia|]. intros i e' He'. apply (H (S i) e'). exact He'.
Qed.

(** A table that is not full has a free slot. *)
Lemma findSlot_exists q :
  typed q -> numActive (entries q) < capacity ->
  exists s, findSlot_loop (Z.to_nat ALLOC_QUARANTINE_CAPACITY) q 0 = Some s.
Proof.
  intros [Hlen Hty] Hn.
  destruct (findSlot_loop (Z.to_nat ALLOC_QUARANTINE_CAPACITY) q 0)
    as [s|] eqn:E; [exists s; reflexivity|].
  exfalso.
  pose proof (findSlot_loop_none _ q 0 E) as Hall.
  change (Z.of_nat (Z.to_nat ALLOC_QUARANTINE_CAPACITY)) with 32 in Hall.
  assert (Hfull : numActive (entries q) = Z.of_nat (length (entries q))).
  { apply numActive_all. intros i e He.
    destruct (Hty i e He) as [[H0|H1] _]; [|exact H1].
    exfalso.
    pose proof (lookup_lt_Some _ _ _ He) as Hi.
    rewrite Hlen, capacity_nat in Hi.
    apply (Hall (Z.of_nat i)); [lia|].
    rewrite (entry_lookup q (Z.of_nat i) e); [exact H0|lia|].
    rewrite Nat2Z.id. exact He. }
  rewrite Hlen, capacity_nat in Hfull.
  unfold capacity, ALLOC_QUARANTINE_CAPACITY in Hn. lia.
Qed.

(** X10.  [add] on a table that is not full evicts nothing: the new region goes
    to the free slot of lowest index, stamped with [nextSequence], the
    other slots keep their entries, and both counters advance by one. *)
Theorem add_fills_the_first_free_slot (q : QuarantineTable.t)
    (sp pc rs zi : Z) :
  typed q ->
  activeCount q = numActive (entries q) ->
  activeCount q < capacity ->
  exists s,
    0 <= s < capacity /\
    active (entry q s) = 0 /\
    (forall j, 0 <= j < s -> active (entry q j) <> 0) /\
    add q sp pc rs zi
    = Ok ({| entries :=
               <[Z.to_nat s := AllocQuarantineEntry.mk sp pc rs
                                 (nextSequence q) (-1) zi 1 0]> (entries q);
             nextSequence := u32 (nextSequence q + 1);
             activeCount := activeCount q + 1 |}, None).
Proof.
  intros Hty Hcnt Hlt.
  assert (Hn : numActive (entries q) < capacity) by lia.
  destruct (findSlot_exists q Hty Hn) as (s & Es).
  destruct (findSlot_loop_sound _ q 0 s Es) as (Hs & Ha & Hfirst).
  change (Z.of_nat (Z.to_nat ALLOC_QUARANTINE_CAPACITY)) with 32 in Hs.
  exists s. unfold capacity, ALLOC_QUARANTINE_CAPACITY in Hlt, Hn, Hs |- *.
  split; [lia|]. split; [exact Ha|]. split; [exact Hfirst|].
  unfold add, isFull.
  replace (activeCount q >=? ALLOC_QUARANTINE_CAPACITY) with false
    by (symmetry; rewrite Z.geb_leb; apply Z.leb_gt;
        unfold ALLOC_QUARANTINE_CAPACITY; lia).
  cbn [bind]. rewrite Es.
  pose proof (numActive_bounds (entries q)) as Hb.
  rewrite (u16_small (activeCount q + 1)) by lia.
  reflexivity.
Qed.

(** X11.  [deactivate] releases the slot it is given and no other; on a slot that
    is not active it stops at its assertion. *)
Theorem deactivate_releases_one_slot (q : QuarantineTable.t) (idx : Z) :
  typed q ->
  activeCount q = numActive (entries q) ->
  0 <= idx < capacity ->
  (active (entry q idx) = 0 -> deactivate q idx = Fatal) /\
  (active (entry q idx) <> 0 ->
   exists q', deactivate q idx = Ok q' /\
     activeCount q' = activeCount q - 1 /\
     activeCount q' = numActive (entries q') /\
     nextSequence q' = nextSequence q /\
     active (entry q' idx) = 0 /\
     forall j, 0 <= j -> j <> idx -> entry q' j = entry q j).
Proof.
  intros Hty Hcnt Hidx. unfold deactivate. split.
  - intros ->. reflexivity.
  - intros Hact.
    destruct (Z.eqb_spec (active (entry q idx)) 0) as [H0|_];
      [contradiction|].
    cbn [negb ALLOC_ASSERT bind].
    destruct Hty as [Hlen Hf].
    assert (Hr : 0 <= idx < Z.of_nat (length (entries q))).
    { rewrite Hlen, capacity_nat.
      unfold capacity, ALLOC_QUARANTINE_CAPACITY in Hidx. lia. }
    pose proof (entry_in_range q idx Hr) as Hk.
    destruct (Hf _ _ Hk) as [[Ha0|Ha1] _]; [contradiction|].
    pose proof (numActive_pos _ _ _ Hk Ha1) as Hpos.
    pose proof (numActive_bounds (entries q)) as Hb.
    rewrite Hlen, capacity_nat in Hb.
    eexists. split; [reflexivity|]. cbn [activeCount entries nextSequence].
    rewrite (u16_small (activeCount q - 1)) by lia.
    split; [reflexivity|]. split; [|split; [reflexivity|split]].
    + rewrite (numActive_insert _ _ _ _ Hk). rewrite Ha1.
      cbn [deactivated active]. cbn. lia.
    + erewrite entry_insert; [|reflexivity|exact Hr|lia].
      rewrite Z.eqb_refl. reflexivity.
    + intros j Hj Hne. erewrite entry_insert; [|reflexivity|exact Hr|lia].
      replace (j =? idx) with false by (symmetry; apply Z.eqb_neq; lia).
      reflexivity.
Qed.

(** On a table that satisfies the invariant neither assertion of [add]
    fires. *)
Lemma add_returns q sp pc rs zi :
  QInv q -> exists q' ev, add q sp pc rs zi = Ok (q', ev).
Proof.
  intros Hinv.
  pose proof Hinv as (Hty & Hcnt & Hdist & Hst & Hseq).
  pose proof Hty as [Hlen Hf].
  pose proof (numActive_bounds (entries q)) as Hb.
  rewrite Hlen, capacity_nat in Hb.
  unfold add, isFull.
  destruct (Z.geb_spec (activeCount q) ALLOC_QUARANTINE_CAPACITY) as [Hfull|Hnf].
  - unfold ALLOC_QUARANTINE_CAPACITY in Hfull.
    assert (Hall : forall i e, entries q !! i = Some e -> active e = 1).
    { apply numActive_full. rewrite Hlen, capacity_nat. lia. }
    unfold findOldest.
    destruct (findOldest_loop_spec (Z.to_nat ALLOC_QUARANTINE_CAPACITY) q 0
                None UINT32_MAX)
      as [[_ Hmin]|(o & -> & Ho & Hact & _)].
    + exfalso.
      assert (Hk : entries q !! Z.to_nat 0 = Some (entry q 0)).
      { apply entry_in_range. rewrite Hlen, capacity_nat. lia. }
      pose proof (Hall _ _ Hk) as Ha.
      pose proof (Hst _ _ Hk Ha) as Hs.
      specialize (Hmin 0).
      change (Z.of_nat (Z.to_nat ALLOC_QUARANTINE_CAPACITY)) with 32 in Hmin.
      assert (active (entry q 0) <> 0) by lia.
      specialize (Hmin ltac:(lia) ltac:(assumption)). lia.
    + cbn [bind].
      change (Z.of_nat (Z.to_nat ALLOC_QUARANTINE_CAPACITY)) with 32 in Ho.
      assert (Hk : entries q !! Z.to_nat o = Some (entry q o)).
      { apply entry_in_range. rewrite Hlen, capacity_nat. lia. }
      pose proof (QInv_deactivated q _ _ Hinv Hk Hact) as Hinv1.
      match goal with |- context [findSlot_loop _ ?q1 0] =>
        destruct (findSlot_exists q1 (proj1 Hinv1)) as (s & Es)
      end.
      * destruct Hinv1 as (_ & Hcnt1 & _). cbn [entries activeCount] in *.
        rewrite <- Hcnt1. rewrite u16_small by lia.
        unfold capacity, ALLOC_QUARANTINE_CAPACITY. lia.
      * rewrite Es. eexists. eexists. reflexivity.
  - cbn [bind]. unfold ALLOC_QUARANTINE_CAPACITY in Hnf.
    destruct (findSlot_exists q Hty) as (s & Es).
    { unfold capacity, ALLOC_QUARANTINE_CAPACITY. lia. }
    rewrite Es. eexists. eexists. reflexivity.
Qed.

(** [add] evicts exactly when the table is full. *)
Lemma add_evicts_iff_full q sp pc rs zi q' ev :
  add q sp pc rs zi = Ok (q', ev) ->
  (ev = None <-> activeCount q < capacity).
Proof.
  unfold add, isFull, capacity.
  destruct (Z.geb_spec (activeCount q) ALLOC_QUARANTINE_CAPACITY) as [Hf|Hf].
  - destruct (findOldest q) as [o|]; cbn [bind]; [|discriminate].
    destruct (findSlot_loop _ _ _); [|discriminate].
    intros [= _ <-]. split; [discriminate|lia].
  - cbn [bind]. destruct (findSlot_loop _ _ _); [|discriminate].
    intros [= _ <-]. split; [intros _; exact Hf|reflexivity].
Qed.

(** ** Instances *)

Lemma afterOneAdd_typed : typed afterOneAdd.
Proof.
  split; [reflexivity|]. intros i e H.
  unfold afterOneAdd in H. cbn [entries] in H.
  destruct i as [|i].
  - cbn in H. injection H as <-. cbn. unfold UINT32_MAX. lia.
  - change (replicate 31 AllocQuarantineEntry.zero !! i = Some e) in H.
    apply lookup_replicate in H as [-> _]. cbn. unfold UINT32_MAX. lia.
Qed.

(** The table that holds one entry, in slot 0: slot 1 is the first free
    one. *)
Lemma add_fills_the_first_free_slot_witness :
  typed afterOneAdd /\
  activeCount afterOneAdd = numActive (entries afterOneAdd) /\
  activeCount afterOneAdd < capacity /\
  exists s,
    0 <= s < capacity /\
    active (entry afterOneAdd s) = 0 /\
    (forall j, 0 <= j < s -> active (entry afterOneAdd j) <> 0) /\
    add afterOneAdd 5 1 100 0
    = Ok ({| entries :=
               <[Z.to_nat s := AllocQuarantineEntry.mk 5 1 100
                                 (nextSequence afterOneAdd) (-1) 0 1 0]>
                 (entries afterOneAdd);
             nextSequence := u32 (nextSequence afterOneAdd + 1);
             activeCount := activeCount afterOneAdd + 1 |}, None).
Proof.
  assert (H2 : activeCount afterOneAdd = numActive (entries afterOneAdd))
    by reflexivity.
  assert (H3 : activeCount afterOneAdd < capacity) by reflexivity.
  split; [exact afterOneAdd_typed|]. split; [exact H2|]. split; [exact H3|].
  exact (add_fills_the_first_free_slot afterOneAdd 5 1 100 0
           afterOneAdd_typed H2 H3).
Defined.

(** Slot 0 of the same table. *)
Lemma deactivate_releases_one_slot_witness :
  typed afterOneAdd /\
  activeCount afterOneAdd = numActive (entries afterOneAdd) /\
  0 <= 0 < capacity /\
  ((active (entry afterOneAdd 0) = 0 -> deactivate afterOneAdd 0 = Fatal) /\
   (active (entry afterOneAdd 0) <> 0 ->
    exists q', deactivate afterOneAdd 0 = Ok q' /\
      activeCount q' = activeCount afterOneAdd - 1 /\
      activeCount q' = numActive (entries q') /\
      nextSequence q' = nextSequence afterOneAdd /\
      active (entry q' 0) = 0 /\
      forall j, 0 <= j -> j <> 0 -> entry q' j = entry afterOneAdd j)).
Proof.
  assert (H2 : activeCount afterOneAdd = numActive (entries afterOneAdd))
    by reflexivity.
  assert (H3 : 0 <= 0 < capacity) by (split; [lia|reflexivity]).
  split; [exact afterOneAdd_typed|]. split; [exact H2|]. split; [exact H3|].
  exact (deactivate_releases_one_slot afterOneAdd 0
           afterOneAdd_typed H2 H3).
Defined.
End QuarantineTableMore.

Section MpuGuardFacts.
Import MpuGuard.

(** * MpuGuard: the utilities *)

Lemma usize_pow2 j :
  0 <= j < 32 -> (j < 31 /\ usize (2 ^ j * 2) = 2 ^ (j + 1)) \/ j = 31.
Proof.
  intros Hj. destruct (Z.eq_dec j 31) as [->|Hne]; [right; reflexivity|left].
  split; [lia|].
  replace (2 ^ j * 2) with (2 ^ (j + 1))
    by (rewrite Z.pow_add_r by lia; change (2 ^ 1) with 2; lia).
  apply usize_small. split; [apply Z.pow_nonneg; lia|].
  change 4294967296 with (2 ^ 32). apply Z.pow_lt_mono_r; lia.
Qed.

Lemma floorPow2_loop_spec fuel : forall value j,
  0 <= j <= 30 -> 2 ^ j <= value < 2 ^ 31 -> 31 - j <= Z.of_nat fuel ->
  exists k, j <= k <= 30 /\
    floorPow2_loop fuel value (2 ^ j) = Ok (2 ^ k) /\
    2 ^ k <= value < 2 ^ (k + 1).
Proof.
  induction fuel as [|fuel IH]; intros value j Hj Hv Hf; [lia|].
  cbn [floorPow2_loop].
  destruct (usize_pow2 j) as [[_ E]|E]; [lia| |lia]. rewrite E.
  destruct (Z.leb_spec (2 ^ (j + 1)) value) as [Hle|Hgt].
  - assert (Hj' : j + 1 <= 30).
    { destruct (Z_le_dec (j + 1) 30) as [H|H]; [exact H|].
      exfalso. assert (j = 30) as -> by lia. simpl in Hle. lia. }
    destruct (IH value (j + 1)) as (k & Hk & Ek & Hb); [lia|lia|lia|].
    exists k. split; [lia|]. split; assumption.
  - exists j. split; [lia|]. split; [reflexivity|lia].
Qed.

(** [floorPow2] returns the largest power of two that is at most [value],
    for every [value] below 2^31, and 0 for 0. *)
Lemma floorPow2_below_2_31 (value : Z) :
  0 <= value < 2 ^ 31 ->
  (value = 0 -> floorPow2 value = Ok 0) /\
  (0 < value ->
   exists k, 0 <= k <= 30 /\ floorPow2 value = Ok (2 ^ k) /\
     2 ^ k <= value < 2 ^ (k + 1)).
Proof.
  intros Hv. split.
  - intros ->. reflexivity.
  - intros Hpos. unfold floorPow2.
    replace (value =? 0) with false by (symmetry; apply Z.eqb_neq; lia).
    destruct (floorPow2_loop_spec 33 value 0) as (k & Hk & Ek & Hb);
      [lia|simpl; lia|simpl; lia|].
    exists k. split; [lia|]. split; [exact Ek|exact Hb].
Qed.

Lemma floorPow2_loop_zero fuel : forall value,
  0 <= value -> floorPow2_loop fuel value 0 = Fatal.
Proof.
  induction fuel as [|fuel IH]; intros value Hv; [reflexivity|].
  cbn [floorPow2_loop]. change (usize (0 * 2)) with 0.
  replace (0 <=? value) with true by (symmetry; apply Z.leb_le; lia).
  apply IH. exact Hv.
Qed.

Lemma floorPow2_loop_high fuel : forall value j,
  0 <= j <= 31 -> 2 ^ 31 <= value ->
  floorPow2_loop fuel value (2 ^ j) = Fatal.
Proof.
  induction fuel as [|fuel IH]; intros value j Hj Hv; [reflexivity|].
  cbn [floorPow2_loop].
  destruct (usize_pow2 j) as [[Hj' E]|E]; [lia| |].
  - rewrite E.
    assert (Hle : 2 ^ (j + 1) <= value).
    { apply Z.le_trans with (2 ^ 31); [|exact Hv].
      apply Z.pow_le_mono_r; lia. }
    replace (2 ^ (j + 1) <=? value) with true
      by (symmetry; apply Z.leb_le; exact Hle).
    apply IH; [lia|exact Hv].
  - subst j. change (usize (2 ^ 31 * 2)) with 0.
    replace (0 <=? value) with true by (symmetry; apply Z.leb_le; lia).
    apply floorPow2_loop_zero. lia.
Qed.

(** For a [value] of 2^31 or more the loop of [floorPow2] never exits:
    [result * 2U] wraps around to 0, which is at most [value], and
    [result] stays 0. *)
Lemma floorPow2_from_2_31 (value : Z) :
  2 ^ 31 <= value ->
  (forall fuel, floorPow2_loop fuel value 1 = Fatal) /\
  floorPow2 value = Fatal.
Proof.
  intros Hv.
  assert (H : forall fuel, floorPow2_loop fuel value 1 = Fatal).
  { intros fuel. apply (floorPow2_loop_high fuel value 0); [lia|exact Hv]. }
  split; [exact H|]. unfold floorPow2.
  replace (value =? 0) with false
    by (symmetry; apply Z.eqb_neq; simpl in Hv; lia).
  apply H.
Qed.

(** X12.  [floorPow2] returns 0 for 0 and, for every other [value] below 2^31,
    the largest power of two that is at most [value].  For a [value] of
    2^31 or more its loop never exits: [result * 2U] wraps around to 0,
    which is at most [value], and [result] stays 0. *)
Theorem floorPow2_is_the_largest_power_below (value : Z) :
  0 <= value ->
  (value = 0 -> floorPow2 value = Ok 0) /\
  (0 < value < 2 ^ 31 ->
   exists k, 0 <= k <= 30 /\ floorPow2 value = Ok (2 ^ k) /\
     2 ^ k <= value < 2 ^ (k + 1)) /\
  (2 ^ 31 <= value ->
   (forall fuel, floorPow2_loop fuel value 1 = Fatal) /\
   floorPow2 value = Fatal).
Proof.
  intros H0. split; [|split].
  - intros ->. reflexivity.
  - intros Hv. apply (floorPow2_below_2_31 value); lia.
  - intros Hv. apply (floorPow2_from_2_31 value). exact Hv.
Qed.

Lemma land_pow2_pred k : 0 <= k -> Z.land (2 ^ k) (2 ^ k - 1) = 0.
Proof.
  intros Hk. replace (2 ^ k - 1) with (Z.ones k)
    by (rewrite Z.ones_equiv; lia).
  rewrite Z.land_ones by lia. apply Z.mod_same.
  apply Z.pow_nonzero; lia.
Qed.

Lemma land_pred_zero v : 0 < v -> Z.land v (v - 1) = 0 -> v = 2 ^ Z.log2 v.
Proof.
  intros Hv Hl.
  destruct (Z.log2_spec v Hv) as [Hlo Hhi].
  destruct (Z.eq_dec v (2 ^ Z.log2 v)) as [E|Hne]; [exact E|].
  exfalso.
  assert (Hk : 0 <= Z.log2 v) by apply Z.log2_nonneg.
  assert (H1 : Z.log2 (v - 1) = Z.log2 v).
  { apply Z.log2_unique; [exact Hk|]. lia. }
  assert (Hb : Z.testbit (Z.land v (v - 1)) (Z.log2 v) = true).
  { rewrite Z.land_spec.
    rewrite (Z.bit_log2 v Hv). rewrite <- H1.
    rewrite Z.bit_log2; [reflexivity|].
    assert (0 < 2 ^ Z.log2 v) by (apply Z.pow_pos_nonneg; lia). lia. }
  rewrite Hl, Z.bits_0 in Hb. discriminate.
Qed.

Lemma isPow2_iff value :
  0 <= value < 2 ^ 32 ->
  (isPow2 value = true <-> exists k, 0 <= k < 32 /\ value = 2 ^ k).
Proof.
  intros Hv. unfold isPow2. split.
  - intros H. apply andb_true_iff in H as [Hpos Hl].
    apply Z.gtb_lt in Hpos. apply Z.eqb_eq in Hl.
    rewrite usize_small in Hl by (simpl in Hv; lia).
    pose proof (land_pred_zero value Hpos Hl) as E.
    exists (Z.log2 value). split; [|exact E].
    split; [apply Z.log2_nonneg|].
    apply Z.log2_lt_pow2; [exact Hpos|lia].
  - intros (k & Hk & ->).
    assert (Hp : 0 < 2 ^ k) by (apply Z.pow_pos_nonneg; lia).
    apply andb_true_iff. split; [apply Z.gtb_lt; exact Hp|].
    rewrite usize_small by (simpl in Hv; lia).
    rewrite land_pow2_pred by lia. reflexivity.
Qed.

(** [isPow2] answers true exactly for the powers of two 1, 2, ..., 2^31;
    in particular it answers false for 0. *)
Lemma isPow2_powers (value : Z) :
  0 <= value < 2 ^ 32 ->
  (isPow2 value = true <-> exists k, 0 <= k < 32 /\ value = 2 ^ k) /\
  (value = 0 -> isPow2 value = false).
Proof.
  intros Hv. split; [apply isPow2_iff; exact Hv|].
  intros ->. reflexivity.
Qed.

Lemma land_not_ones addr k :
  0 <= addr < 2 ^ 32 -> 0 <= k < 32 ->
  Z.land addr (Z.lxor (2 ^ k - 1) 0xFFFFFFFF) = addr - addr mod 2 ^ k.
Proof.
  intros Ha Hk.
  replace (2 ^ k - 1) with (Z.ones k) by (rewrite Z.ones_equiv; lia).
  change 0xFFFFFFFF with (Z.ones 32).
  transitivity (Z.ldiff addr (Z.ones k)).
  - apply Z.bits_inj'. intros n Hn.
    rewrite Z.land_spec, Z.lxor_spec, Z.ldiff_spec.
    rewrite !Z.testbit_ones_nonneg by lia.
    destruct (Z.ltb_spec n 32) as [H32|H32].
    + destruct (n <? k); cbn; reflexivity.
    + replace (Z.testbit addr n) with false; [reflexivity|].
      symmetry. rewrite <- (Z.mod_small addr (2 ^ 32)) by lia.
      apply Z.mod_pow2_bits_high. lia.
  - rewrite Z.ldiff_ones_r by lia.
    rewrite Z.shiftr_div_pow2, Z.shiftl_mul_pow2 by lia.
    assert (Hp : 0 < 2 ^ k) by (apply Z.pow_pos_nonneg; lia).
    pose proof (Z.div_mod addr (2 ^ k)). lia.
Qed.

(** [alignDown] rounds the address down to a multiple of the alignment,
    which has to be a power of two: its assertion stops the call for any
    other alignment, 0 included. *)
Lemma alignDown_spec (addr alignment : Z) :
  0 <= addr < 2 ^ 32 -> 0 <= alignment < 2 ^ 32 ->
  (isPow2 alignment = false -> alignDown addr alignment = Fatal) /\
  (isPow2 alignment = true ->
   exists r, alignDown addr alignment = Ok r /\
     r = addr - addr mod alignment /\
     r <= addr < r + alignment /\ r mod alignment = 0).
Proof.
  intros Ha Hal. unfold alignDown. split.
  - intros ->. reflexivity.
  - intros Hp. rewrite Hp. cbn [ALLOC_ASSERT bind].
    apply (isPow2_iff alignment Hal) in Hp as (k & Hk & ->).
    assert (Hpk : 0 < 2 ^ k) by (apply Z.pow_pos_nonneg; lia).
    eexists. split; [reflexivity|].
    rewrite usize_small by (simpl in Hal; lia).
    rewrite land_not_ones by assumption.
    pose proof (Z.mod_pos_bound addr (2 ^ k) Hpk) as Hm.
    split; [reflexivity|]. split; [lia|].
    rewrite Zminus_mod, Zmod_mod, Z.sub_diag. apply Z.mod_0_l. lia.
Qed.

(** X13.  [isPow2] answers true exactly for the powers of two 1, 2, ..., 2^31,
    and [alignDown] rounds the address down to a multiple of such an
    alignment; for any other alignment, 0 included, the assertion of
    [alignDown] stops the call. *)
Theorem alignDown_rounds_down (addr alignment : Z) :
  0 <= addr < 2 ^ 32 -> 0 <= alignment < 2 ^ 32 ->
  (isPow2 alignment = true <-> exists k, 0 <= k < 32 /\ alignment = 2 ^ k) /\
  (isPow2 alignment = false -> alignDown addr alignment = Fatal) /\
  (isPow2 alignment = true ->
   exists r, alignDown addr alignment = Ok r /\
     r = addr - addr mod alignment /\
     r <= addr < r + alignment /\ r mod alignment = 0).
Proof.
  intros Ha Hal. split; [apply (isPow2_powers alignment Hal)|].
  apply (alignDown_spec addr alignment Ha Hal).
Qed.

(** ** Instances *)

(** 1000 lies between 2^9 and 2^10. *)
Lemma floorPow2_is_the_largest_power_below_witness :
  0 <= 1000 /\
  ((1000 = 0 -> floorPow2 1000 = Ok 0) /\
   (0 < 1000 < 2 ^ 31 ->
    exists k, 0 <= k <= 30 /\ floorPow2 1000 = Ok (2 ^ k) /\
      2 ^ k <= 1000 < 2 ^ (k + 1)) /\
   (2 ^ 31 <= 1000 ->
    (forall fuel, floorPow2_loop fuel 1000 1 = Fatal) /\
    floorPow2 1000 = Fatal)).
Proof.
  assert (H0 : 0 <= 1000) by lia.
  split; [exact H0|].
  exact (floorPow2_is_the_largest_power_below 1000 H0).
Defined.

(** An address in the zone of the examples and an alignment of 1024. *)
Lemma alignDown_rounds_down_witness :
  0 <= 0x20000123 < 2 ^ 32 /\ 0 <= 1024 < 2 ^ 32 /\
  ((isPow2 1024 = true <-> exists k, 0 <= k < 32 /\ 1024 = 2 ^ k) /\
   (isPow2 1024 = false -> alignDown 0x20000123 1024 = Fatal) /\
   (isPow2 1024 = true ->
    exists r, alignDown 0x20000123 1024 = Ok r /\
      r = 0x20000123 - 0x20000123 mod 1024 /\
      r <= 0x20000123 < r + 1024 /\ r mod 1024 = 0)).
Proof.
  assert (H1 : 0 <= 0x20000123 < 2 ^ 32) by lia.
  assert (H2 : 0 <= 1024 < 2 ^ 32) by lia.
  split; [exact H1|]. split; [exact H2|].
  exact (alignDown_rounds_down 0x20000123 1024 H1 H2).
Defined.
End MpuGuardFacts.

Section PageAllocatorMore.
Import PageAllocator.

(** * More on PageAllocator *)

(** ** Addresses and page indices *)

Lemma pageAddress_small pa i :
  0 <= i < 65536 ->
  pageAddress pa i = baseAddress pa + i * ALLOC_PAGE_SIZE.
Proof.
  intros Hi. unfold pageAddress. rewrite usize_small; [reflexivity|].
  unfold ALLOC_PAGE_SIZE. lia.
Qed.

Lemma pageIndex_jump pa i off :
  0 <= totalPages pa < 65536 ->
  0 <= i < totalPages pa -> 0 <= off < ALLOC_PAGE_SIZE ->
  pageIndex pa (pageAddress pa i + off) = i.
Proof.
  intros HN Hi Hoff. unfold pageIndex.
  rewrite (usize_small (totalPages pa * ALLOC_PAGE_SIZE))
    by (unfold ALLOC_PAGE_SIZE; lia).
  rewrite pageAddress_small by lia. unfold ALLOC_PAGE_SIZE in *.
  replace (baseAddress pa + i * 1024 + off <? baseAddress pa) with false
    by (symmetry; apply Z.ltb_ge; lia).
  replace (baseAddress pa + i * 1024 + off
           >=? baseAddress pa + totalPages pa * 1024) with false
    by (symmetry; rewrite Z.geb_leb; apply Z.leb_gt; lia).
  cbn [orb].
  replace (baseAddress pa + i * 1024 + off - baseAddress pa)
    with (off + i * 1024) by lia.
  rewrite usize_small by lia.
  rewrite Z.div_add by lia. rewrite Z.div_small by lia.
  unfold i32. rewrite Z.mod_small by lia. lia.
Qed.

(** X14.  [pageIndex] inverts [pageAddress]: every address of page [i] of the
    region is mapped to [i], and an address outside the region to -1. *)
Theorem pageIndex_inverts_pageAddress (pa : PageAllocator.t) (i off : Z) :
  0 <= totalPages pa < 65536 ->
  0 <= i < totalPages pa -> 0 <= off < ALLOC_PAGE_SIZE ->
  pageIndex pa (pageAddress pa i + off) = i /\
  (forall addr,
     addr < baseAddress pa \/
     baseAddress pa + totalPages pa * ALLOC_PAGE_SIZE <= addr ->
     pageIndex pa addr = -1).
Proof.
  intros HN Hi Hoff. split; [apply pageIndex_jump; assumption|].
  unfold pageIndex.
  rewrite (usize_small (totalPages pa * ALLOC_PAGE_SIZE))
    by (unfold ALLOC_PAGE_SIZE; lia).
  intros addr [Hlo|Hhi].
  - replace (addr <? baseAddress pa) with true
      by (symmetry; apply Z.ltb_lt; lia).
    reflexivity.
  - replace (addr >=? baseAddress pa + totalPages pa * ALLOC_PAGE_SIZE)
      with true by (symmetry; rewrite Z.geb_leb; apply Z.leb_le; lia).
    rewrite orb_true_r. reflexivity.
Qed.

(** ** A zone that was never initialised *)

(** X15.  A zone whose [initialized] flag is clear, the zero-filled object that
    [resetState] or the BSS segment leaves included, serves nothing and
    changes nothing: [allocate] and [calloc] return [nullptr],
    [deallocate] returns at once, every size query answers 0 and no
    pointer is owned. *)
Theorem uninitialized_zone_is_inert (pa : PageAllocator.t) (m : mem) :
  initialized pa = false ->
  (forall rs, allocate pa m rs = Ok (pa, m, None)) /\
  (forall num elemSize, calloc pa m num elemSize = Ok (pa, m, None)) /\
  (forall p, deallocate pa m p = Ok (pa, m)) /\
  freeBytes pa = 0 /\ minEverFreeBytes pa = 0 /\ totalBytes pa = 0 /\
  usedBytes pa = 0 /\
  (forall p, ownsPointer pa p = false).
Proof.
  intros Hi.
  assert (Ha : forall rs, allocate pa m rs = Ok (pa, m, None)).
  { intros rs. apply allocate_uninitialized. exact Hi. }
  split; [exact Ha|]. split; [|split; [|repeat split]].
  - intros num es. unfold calloc.
    destruct ((num >? 0) && (es >? SIZE_MAX / num)); [reflexivity|].
    rewrite Ha. reflexivity.
  - intros [p|]; unfold deallocate; [|reflexivity].
    rewrite Hi. reflexivity.
  - unfold freeBytes. rewrite Hi. reflexivity.
  - unfold minEverFreeBytes. rewrite Hi. reflexivity.
  - unfold totalBytes. rewrite Hi. reflexivity.
  - unfold usedBytes, totalBytes, freeBytes. rewrite Hi. reflexivity.
  - intros [p|]; unfold ownsPointer; [|reflexivity].
    rewrite Hi. reflexivity.
Qed.

(** ** What a successful [allocate] does *)

(** The record and the memory a successful call returns, step by step. *)
Lemma allocate_some pa m rs pa' m' p :
  allocate pa m rs = Ok (pa', m', Some p) ->
  exists sp32 inUse allocated m1 m2 padLen,
    let pages := pagesNeeded rs in
    let sp := u16 sp32 in
    let h := pageAddress pa sp in
    initialized pa = true /\ rs <> 0 /\
    pages <= freePagesCount pa /\
    verifyQuarantine pa m = Ok true /\
    PageBitmap.findFreeRun (bitmapInUse pa) pages = Ok sp32 /\
    0 <= sp32 /\
    PageBitmap.setRange (bitmapInUse pa) sp pages = Ok inUse /\
    PageBitmap.setRange (bitmapAllocated pa) sp pages = Ok allocated /\
    BlockGuard.writeHeader m h (u32 rs) sp pages (zoneIndex pa)
      (sequenceCounter pa) = Ok m1 /\
    BlockGuard.writeFooter m1 (BlockGuard.footerFromHeader m1 h) (u32 rs)
      sp pages (zoneIndex pa) (sequenceCounter pa) = Ok m2 /\
    BlockGuard.paddingSize m2 h = Ok padLen /\
    m' = (if padLen >? 0
          then BlockGuard.fillPadding m2
                 (BlockGuard.paddingFromHeader m2 h) padLen
          else m2) /\
    p = BlockGuard.userDataFromHeader h /\
    pa' = {| baseAddress := baseAddress pa;
             regionSize := regionSize pa;
             totalPages := totalPages pa;
             zoneIndex := zoneIndex pa;
             initialized := initialized pa;
             bitmapInUse := inUse;
             bitmapAllocated := allocated;
             quarantine := quarantine pa;
             sequenceCounter := u32 (sequenceCounter pa + 1);
             freePagesCount := usize (freePagesCount pa - pages);
             minEverFreePages :=
               if usize (freePagesCount pa - pages) <? minEverFreePages pa
               then usize (freePagesCount pa - pages)
               else minEverFreePages pa;
             successfulAllocs := usize (successfulAllocs pa + 1);
             successfulFrees := successfulFrees pa |}.
Proof.
  unfold allocate. intros H.
  destruct (initialized pa) eqn:Einit; cbn [negb orb] in H; [|discriminate].
  destruct (Z.eqb_spec rs 0) as [E0|E0]; [discriminate|].
  destruct (Z.gtb_spec (pagesNeeded rs) (freePagesCount pa)) as [Ef|Ef];
    [discriminate|].
  destruct (verifyQuarantine pa m) as [okQ|]; cbn [bind] in H; [|discriminate].
  unfold ALLOC_ASSERT in H. destruct okQ; cbn [bind] in H; [|discriminate].
  destruct (PageBitmap.findFreeRun (bitmapInUse pa) (pagesNeeded rs))
    as [sp32|] eqn:Efind; cbn [bind] in H; [|discriminate].
  destruct (Z.ltb_spec sp32 0) as [Es|Es]; [discriminate|].
  destruct (PageBitmap.setRange (bitmapInUse pa) (u16 sp32) (pagesNeeded rs))
    as [inUse|] eqn:E1; cbn [bind] in H; [|discriminate].
  destruct (PageBitmap.setRange (bitmapAllocated pa) (u16 sp32)
              (pagesNeeded rs))
    as [allocated|] eqn:E2; cbn [bind] in H; [|discriminate].
  destruct (BlockGuard.writeHeader _ _ _ _ _ _ _) as [m1|] eqn:E3;
    cbn [bind] in H; [|discriminate].
  destruct (BlockGuard.writeFooter _ _ _ _ _ _ _) as [m2|] eqn:E4;
    cbn [bind] in H; [|discriminate].
  destruct (BlockGuard.paddingSize _ _) as [padLen|] eqn:E5;
    cbn [bind] in H; [|discriminate].
  exists sp32, inUse, allocated, m1, m2, padLen.
  injection H as <- <- <-. cbn zeta.
  splits; auto; lia.
Qed.

(** The geometry of a request within [maxRequest]. *)
Lemma pagesNeeded_fits rs :
  0 < rs <= maxRequest ->
  1 <= pagesNeeded rs <= 65535 /\
  ALLOC_HEADER_SIZE + rs + ALLOC_FOOTER_SIZE
  <= pagesNeeded rs * ALLOC_PAGE_SIZE /\
  (pagesNeeded rs - 1) * ALLOC_PAGE_SIZE
  < ALLOC_HEADER_SIZE + rs + ALLOC_FOOTER_SIZE.
Proof.
  intros Hrs. unfold maxRequest in Hrs.
  rewrite pagesNeeded_ceiling by (unfold ALLOC_PAGE_SIZE in *; lia).
  unfold ALLOC_HEADER_SIZE, ALLOC_FOOTER_SIZE, ALLOC_PAGE_SIZE in *.
  pose proof (Z.div_mod (32 + rs + 32 + 1024 - 1) 1024 ltac:(lia)) as Hd.
  pose proof (Z.mod_pos_bound (32 + rs + 32 + 1024 - 1) 1024 ltac:(lia)) as Hm.
  lia.
Qed.

(** The block a successful [allocate] leaves in memory. *)
Lemma allocate_block pa m rs pa' m' p :
  ZInv pa -> 0 <= rs <= maxRequest ->
  allocate pa m rs = Ok (pa', m', Some p) ->
  exists sp,
    let pc := pagesNeeded rs in
    let h := pageAddress pa sp in
    0 <= sp /\ 1 <= pc /\ sp + pc <= totalPages pa /\
    PageBitmap.freeRun (bitmapInUse pa) sp pc /\
    h = baseAddress pa + sp * ALLOC_PAGE_SIZE /\
    p = h + ALLOC_HEADER_SIZE /\
    ALLOC_HEADER_SIZE + rs + ALLOC_FOOTER_SIZE <= pc * ALLOC_PAGE_SIZE /\
    BlockGuard.validateHeader m' h = Ok true /\
    BlockGuard.footerFromHeader m' h = h + ALLOC_HEADER_SIZE + rs /\
    BlockGuard.validateFooter m' (h + ALLOC_HEADER_SIZE + rs) = Ok true /\
    BlockGuard.validatePair m' h (h + ALLOC_HEADER_SIZE + rs) = true /\
    AllocBlockHeader.requestedSize m' h = rs /\
    AllocBlockHeader.startPage m' h = sp /\
    AllocBlockHeader.pageCount m' h = pc /\
    AllocBlockHeader.zoneIndex m' h = u8 (zoneIndex pa) /\
    AllocBlockHeader.sequenceNum m' h = u32 (sequenceCounter pa) /\
    (forall x, h + ALLOC_HEADER_SIZE + rs + ALLOC_FOOTER_SIZE <= x
               < h + pc * ALLOC_PAGE_SIZE ->
       load8 m' x = ALLOC_PATTERN_PADDING) /\
    (forall x, x < h \/ h + pc * ALLOC_PAGE_SIZE <= x ->
       load8 m' x = load8 m x) /\
    (forall x, p <= x < p + rs -> load8 m' x = load8 m x) /\
    PageBitmap.setRange (bitmapInUse pa) sp pc = Ok (bitmapInUse pa') /\
    PageBitmap.setRange (bitmapAllocated pa) sp pc
      = Ok (bitmapAllocated pa') /\
    quarantine pa' = quarantine pa /\ totalPages pa' = totalPages pa /\
    initialized pa' = true /\ baseAddress pa' = baseAddress pa /\
    zoneIndex pa' = zoneIndex pa /\
    freePagesCount pa' = freePagesCount pa - pc /\
    minEverFreePages pa' = Z.min (minEverFreePages pa) (freePagesCount pa') /\
    successfulAllocs pa' = usize (successfulAllocs pa + 1) /\
    successfulFrees pa' = successfulFrees pa /\
    sequenceCounter pa' = u32 (sequenceCounter pa + 1).
Proof.
  intros Hinv Hrs H.
  destruct (allocate_some _ _ _ _ _ _ H)
    as (sp32 & inUse & allocated & m1 & m2 & padLen & Hi & Hne & Hfree & HQ
        & Efind & Hsp & E1 & E2 & E3 & E4 & E5 & -> & -> & ->).
  cbn zeta in *.
  destruct Hinv as (Hwu & Hwa & Hcu & Hca & Hlen & Hsub & Hq & Hdisj & Hcnt).
  assert (Hrs' : 0 < rs <= maxRequest) by lia.
  destruct (pagesNeeded_fits rs Hrs') as (Hpc & Hfit & _).
  set (pc := pagesNeeded rs) in *.
  assert (Hpc0 : 0 <= pc) by lia.
  destruct (findFreeRun_found (bitmapInUse pa) pc sp32 Hwu Hpc0 Efind Hsp)
    as (Hrun & _ & _).
  pose proof Hrun as (_ & Hend & _).
  assert (HN : 0 <= totalPages pa <= 10240).
  { destruct Hwu as [_ Hb]. rewrite Hcu in Hb. exact Hb. }
  assert (Hu : u16 sp32 = sp32) by (apply u16_small; lia).
  rewrite Hu in *.
  exists sp32. cbn zeta. fold pc.
  assert (Hh : pageAddress pa sp32 = baseAddress pa + sp32 * ALLOC_PAGE_SIZE)
    by (apply pageAddress_small; lia).
  set (h := pageAddress pa sp32) in *.
  unfold maxRequest in Hrs. unfold BlockGuard.userDataFromHeader.
  unfold ALLOC_HEADER_SIZE, ALLOC_FOOTER_SIZE, ALLOC_PAGE_SIZE in *.
  assert (Hurs : u32 rs = rs) by (apply u32_small; lia).
  rewrite Hurs in *.
  (* the header as written *)
  pose proof E3 as E3'. rewrite writeHeader_ok in E3'.
  injection E3' as E3'.
  pose proof (written_fields m h ALLOC_PATTERN_HEADER_MAGIC rs sp32 pc
                (zoneIndex pa) (sequenceCounter pa)
                (BlockGuard.xorWords
                   (BlockGuard.writeFields m h ALLOC_PATTERN_HEADER_MAGIC rs
                      sp32 pc (zoneIndex pa) (sequenceCounter pa)) h)) as Hf1.
  cbn zeta in Hf1. rewrite E3' in Hf1.
  destruct Hf1 as (_ & Hrs1 & Hsp1 & Hpc1 & Hzi1 & Hseq1 & _).
  rewrite Hurs in Hrs1.
  rewrite (u16_small sp32) in Hsp1 by lia.
  rewrite (u16_small pc) in Hpc1 by lia.
  assert (Hfoot1 : BlockGuard.footerFromHeader m1 h = h + 32 + rs).
  { unfold BlockGuard.footerFromHeader, AllocBlockHeader.requestedSize.
    rewrite Hrs1. reflexivity. }
  rewrite Hfoot1 in E4.
  set (f := h + 32 + rs) in *.
  (* the footer leaves the header alone *)
  assert (Hag21 : agree m2 m1 h 32).
  { apply (writeFooter_agree _ _ _ _ _ _ _ _ _ _ E4). unfold f. lia. }
  assert (Hpad : BlockGuard.paddingFromHeader m2 h = f + 32).
  { unfold BlockGuard.paddingFromHeader, AllocBlockHeader.requestedSize.
    rewrite (agree_load32 m2 m1 h 32) by (try exact Hag21; lia).
    rewrite Hrs1. unfold f, ALLOC_HEADER_SIZE, ALLOC_FOOTER_SIZE. lia. }
  assert (Hlen2 : padLen = pc * 1024 - (32 + rs + 32)).
  { unfold BlockGuard.paddingSize, AllocBlockHeader.requestedSize,
      AllocBlockHeader.pageCount in E5.
    rewrite (agree_load32 m2 m1 h 32) in E5 by (try exact Hag21; lia).
    rewrite (agree_load16 m2 m1 h 32) in E5 by (try exact Hag21; lia).
    rewrite Hrs1, Hpc1 in E5.
    unfold ALLOC_HEADER_SIZE, ALLOC_FOOTER_SIZE, ALLOC_PAGE_SIZE in E5.
    rewrite (usize_small (pc * 1024)) in E5 by lia.
    rewrite (usize_small (32 + rs + 32)) in E5 by lia.
    destruct (pc * 1024 >=? 32 + rs + 32); cbn [ALLOC_ASSERT bind] in E5;
      [|discriminate].
    injection E5 as <-. reflexivity. }
  rewrite Hpad.
  set (m3 := if padLen >? 0 then BlockGuard.fillPadding m2 (f + 32) padLen
             else m2).
  assert (Hag32 : forall lo n, lo + n <= f + 32 -> agree m3 m2 lo n).
  { intros lo n Hb. unfold m3. destruct (padLen >? 0); [|apply agree_refl].
    unfold BlockGuard.fillPadding. apply agree_memset. lia. }
  assert (Hag3h : agree m3 m1 h 32).
  { apply agree_trans with m2; [apply Hag32; unfold f; lia|exact Hag21]. }
  assert (Hag3f : agree m3 m2 f 32) by (apply Hag32; lia).
  pose proof (written_fields m1 f ALLOC_PATTERN_FOOTER_MAGIC rs sp32 pc
                (zoneIndex pa) (sequenceCounter pa)
                (BlockGuard.xorWords
                   (BlockGuard.writeFields m1 f ALLOC_PATTERN_FOOTER_MAGIC rs
                      sp32 pc (zoneIndex pa) (sequenceCounter pa)) f)) as Hf2.
  cbn zeta in Hf2.
  pose proof E4 as E4'. rewrite writeFooter_ok in E4'.
  injection E4' as E4'. rewrite E4' in Hf2.
  destruct Hf2 as (_ & Hrs2 & Hsp2 & Hpc2 & Hzi2 & Hseq2 & _).
  (* fields of header and footer in the final memory *)
  assert (HRh : AllocBlockHeader.requestedSize m3 h = rs).
  { unfold AllocBlockHeader.requestedSize.
    rewrite (agree_load32 m3 m1 h 32) by (try exact Hag3h; lia).
    rewrite Hrs1. reflexivity. }
  assert (HSh : AllocBlockHeader.startPage m3 h = sp32).
  { unfold AllocBlockHeader.startPage.
    rewrite (agree_load16 m3 m1 h 32) by (try exact Hag3h; lia).
    exact Hsp1. }
  assert (HPh : AllocBlockHeader.pageCount m3 h = pc).
  { unfold AllocBlockHeader.pageCount.
    rewrite (agree_load16 m3 m1 h 32) by (try exact Hag3h; lia).
    exact Hpc1. }
  assert (HZh : AllocBlockHeader.zoneIndex m3 h = u8 (zoneIndex pa)).
  { unfold AllocBlockHeader.zoneIndex.
    rewrite (Hag3h (h + 12)) by lia. exact Hzi1. }
  assert (HQh : AllocBlockHeader.sequenceNum m3 h
                = u32 (sequenceCounter pa)).
  { unfold AllocBlockHeader.sequenceNum.
    rewrite (agree_load32 m3 m1 h 32) by (try exact Hag3h; lia).
    exact Hseq1. }
  splits.
  - lia.
  - lia.
  - lia.
  - exact Hrun.
  - exact Hh.
  - reflexivity.
  - lia.
  - rewrite (validateHeader_agree m3 m1 h Hag3h).
    apply (validateHeader_written _ _ _ _ _ _ _ _ E3).
  - unfold BlockGuard.footerFromHeader. rewrite HRh. reflexivity.
  - rewrite (validateFooter_agree m3 m2 f Hag3f).
    apply (validateFooter_written _ _ _ _ _ _ _ _ E4).
  - unfold BlockGuard.validatePair.
    rewrite HRh, HSh, HPh, HZh, HQh.
    unfold AllocBlockFooter.requestedSize, AllocBlockFooter.startPage,
      AllocBlockFooter.pageCount, AllocBlockFooter.zoneIndex,
      AllocBlockFooter.sequenceNum.
    rewrite (agree_load32 m3 m2 f 32 (f + 4)) by (try exact Hag3f; lia).
    rewrite (agree_load16 m3 m2 f 32 (f + 8)) by (try exact Hag3f; lia).
    rewrite (agree_load16 m3 m2 f 32 (f + 10)) by (try exact Hag3f; lia).
    rewrite (Hag3f (f + 12)) by lia.
    rewrite (agree_load32 m3 m2 f 32 (f + 16)) by (try exact Hag3f; lia).
    rewrite Hrs2, Hsp2, Hpc2, Hzi2, Hseq2, Hurs.
    rewrite (u16_small sp32), (u16_small pc) by lia.
    rewrite !Z.eqb_refl. reflexivity.
  - exact HRh.
  - exact HSh.
  - exact HPh.
  - exact HZh.
  - exact HQh.
  - intros x Hx. unfold m3.
    replace (padLen >? 0) with true by (symmetry; apply Z.gtb_lt; lia).
    unfold BlockGuard.fillPadding. rewrite load8_memset.
    rewrite (in_range_true (f + 32) padLen x) by (unfold f; lia).
    reflexivity.
  - intros x Hx.
    assert (H32 : load8 m3 x = load8 m2 x).
    { unfold m3. destruct (padLen >? 0); [|reflexivity].
      unfold BlockGuard.fillPadding. rewrite load8_memset.
      rewrite (in_range_false (f + 32) padLen x) by (unfold f; lia).
      reflexivity. }
    rewrite H32.
    rewrite (writeFooter_agree _ _ _ _ _ _ _ _ x 1 E4) by (unfold f; lia).
    rewrite (writeHeader_agree _ _ _ _ _ _ _ _ x 1 E3) by lia.
    reflexivity.
  - intros x Hx.
    assert (H32 : load8 m3 x = load8 m2 x).
    { unfold m3. destruct (padLen >? 0); [|reflexivity].
      unfold BlockGuard.fillPadding. rewrite load8_memset.
      rewrite (in_range_false (f + 32) padLen x) by (unfold f; lia).
      reflexivity. }
    rewrite H32.
    rewrite (writeFooter_agree _ _ _ _ _ _ _ _ x 1 E4) by (unfold f; lia).
    rewrite (writeHeader_agree _ _ _ _ _ _ _ _ x 1 E3) by lia.
    reflexivity.
  - exact E1.
  - exact E2.
  - reflexivity.
  - reflexivity.
  - exact Hi.
  - reflexivity.
  - reflexivity.
  - cbn [freePagesCount]. apply usize_small.
    pose proof (countZ_bounds (PageBitmap.bit (bitmapInUse pa))
                  (Z.to_nat (totalPages pa)) 0).
    lia.
  - cbn [minEverFreePages freePagesCount].
    destruct (Z.ltb_spec (usize (freePagesCount pa - pc))
                (minEverFreePages pa)); lia.
  - reflexivity.
  - reflexivity.
  - reflexivity.
Qed.

(** X16.  A successful [allocate] leaves a complete block behind: the pointer it
    returns is [ALLOC_HEADER_SIZE] bytes into the first page of the lowest
    free run of [pagesNeeded] pages; the header in front of it and the
    footer behind the payload validate, agree with each other and carry
    the request, the run, the zone and the sequence number; the rest of
    the last page holds the padding pattern; and no byte outside the pages
    of the run, nor any byte of the payload, has been written. *)
Theorem allocate_writes_a_valid_block (pa : PageAllocator.t) (m : mem)
    (rs : Z) (pa' : PageAllocator.t) (m' : mem) (p : Z) :
  ZInv pa -> 0 <= zoneIndex pa < 256 -> 0 <= rs <= maxRequest ->
  allocate pa m rs = Ok (pa', m', Some p) ->
  exists sp,
    let pc := pagesNeeded rs in
    let header := BlockGuard.headerFromUserData p in
    let footer := BlockGuard.footerFromHeader m' header in
    0 <= sp /\ sp + pc <= totalPages pa /\
    p = baseAddress pa + sp * ALLOC_PAGE_SIZE + ALLOC_HEADER_SIZE /\
    footer = p + rs /\
    BlockGuard.validateHeader m' header = Ok true /\
    BlockGuard.validateFooter m' footer = Ok true /\
    BlockGuard.validatePair m' header footer = true /\
    AllocBlockHeader.requestedSize m' header = rs /\
    AllocBlockHeader.startPage m' header = sp /\
    AllocBlockHeader.pageCount m' header = pc /\
    AllocBlockHeader.zoneIndex m' header = zoneIndex pa /\
    AllocBlockHeader.sequenceNum m' header = u32 (sequenceCounter pa) /\
    (exists padLen,
       BlockGuard.paddingSize m' header = Ok padLen /\
       BlockGuard.validatePadding m'
         (BlockGuard.paddingFromHeader m' header) padLen = true) /\
    (forall x, x < header \/ header + pc * ALLOC_PAGE_SIZE <= x ->
       load8 m' x = load8 m x) /\
    (forall x, p <= x < p + rs -> load8 m' x = load8 m x).
Proof.
  intros Hinv Hzi Hrs H.
  destruct (allocate_block _ _ _ _ _ _ Hinv Hrs H)
    as (sp & H0 & Hpc & Hfit & _ & Hh & Hp & Hsz & HvH & Hfoot & HvF & HvP
        & HR & HS & HP & HZ & HQ & Hpad & Hframe & Hpay & _).
  cbn zeta in *.
  assert (Hhd : BlockGuard.headerFromUserData p = pageAddress pa sp).
  { unfold BlockGuard.headerFromUserData. lia. }
  exists sp. cbn zeta. rewrite Hhd, Hfoot.
  pose proof (pagesNeeded_range rs) as Hpr.
  unfold maxRequest in Hrs.
  unfold ALLOC_HEADER_SIZE, ALLOC_FOOTER_SIZE, ALLOC_PAGE_SIZE in *.
  splits; try assumption; try lia.
  - rewrite HZ. apply u8_small. lia.
  - exists (pagesNeeded rs * 1024 - (32 + rs + 32)). split.
    + unfold BlockGuard.paddingSize.
      rewrite HP, HR.
      unfold ALLOC_HEADER_SIZE, ALLOC_FOOTER_SIZE, ALLOC_PAGE_SIZE.
      rewrite (usize_small (pagesNeeded rs * 1024)) by lia.
      rewrite (usize_small (32 + rs + 32)) by lia.
      replace (pagesNeeded rs * 1024 >=? 32 + rs + 32) with true
        by (symmetry; rewrite Z.geb_leb; apply Z.leb_le; lia).
      reflexivity.
    + apply validatePattern_range; [lia|].
      unfold BlockGuard.paddingFromHeader. rewrite HR.
      unfold ALLOC_HEADER_SIZE, ALLOC_FOOTER_SIZE.
      intros x Hx. apply Hpad. lia.
Qed.

(** X17.  The pointer [allocate] returns is one the zone owns, its address maps
    back to the first page of the block, and the block is live: the pages
    its header names are marked in both bitmaps, the free-page count has
    dropped by their number, and the low-water mark follows it. *)
Theorem allocated_pointer_is_owned (pa : PageAllocator.t) (m : mem)
    (rs : Z) (pa' : PageAllocator.t) (m' : mem) (p : Z) :
  ZInv pa -> 0 <= rs <= maxRequest ->
  allocate pa m rs = Ok (pa', m', Some p) ->
  ownsPointer pa' (Some p) = true /\
  ownsPointer pa (Some p) = true /\
  pageIndex pa' p = AllocBlockHeader.startPage m'
                      (BlockGuard.headerFromUserData p) /\
  liveBlock pa' m' p /\
  (forall i, blockPages m' p i ->
     PageBitmap.bit (bitmapInUse pa) i = false /\
     PageBitmap.bit (bitmapInUse pa') i = true) /\
  freePagesCount pa' = freePagesCount pa - pagesNeeded rs /\
  minEverFreePages pa' <= freePagesCount pa' /\
  successfulAllocs pa' = usize (successfulAllocs pa + 1).
Proof.
  intros Hinv Hrs H.
  destruct (allocate_block _ _ _ _ _ _ Hinv Hrs H)
    as (sp & H0 & Hpc & Hfit & Hrun & Hh & Hp & Hsz & _ & _ & _ & _
        & _ & HS & HP & _ & _ & _ & _ & _ & EU & EA & _ & HN & Hi & Hb & _
        & Hfree & Hmin & Hsa & _).
  cbn zeta in *.
  pose proof Hinv
    as (Hwu & Hwa & Hcu & Hca & _ & _ & _ & _ & Hcnt).
  assert (HNb : 0 <= totalPages pa <= 10240).
  { destruct Hwu as [_ Hx]. rewrite Hcu in Hx. exact Hx. }
  assert (Hhd : BlockGuard.headerFromUserData p = pageAddress pa sp).
  { unfold BlockGuard.headerFromUserData. lia. }
  destruct (setRange_spec (bitmapInUse pa) sp (pagesNeeded rs))
    as (bU & EU' & _ & _ & HbU); try lia; [exact Hwu|].
  rewrite EU in EU'. injection EU' as <-.
  destruct (setRange_spec (bitmapAllocated pa) sp (pagesNeeded rs))
    as (bA & EA' & _ & _ & HbA); try lia; [exact Hwa|].
  rewrite EA in EA'. injection EA' as <-.
  assert (Hown : forall z, initialized z = true ->
            baseAddress z = baseAddress pa -> totalPages z = totalPages pa ->
            ownsPointer z (Some p) = true).
  { intros z Hz Hzb HzN. unfold ownsPointer. rewrite Hz, Hzb, HzN.
    cbn [negb].
    rewrite (usize_small (totalPages pa * ALLOC_PAGE_SIZE))
      by (unfold ALLOC_PAGE_SIZE; lia).
    unfold ALLOC_HEADER_SIZE, ALLOC_PAGE_SIZE in *.
    apply andb_true_iff. split;
      [rewrite Z.geb_leb; apply Z.leb_le|apply Z.ltb_lt]; lia. }
  splits.
  - apply Hown; assumption.
  - apply Hown; try reflexivity.
    destruct (allocate_some _ _ _ _ _ _ H)
      as (? & ? & ? & ? & ? & ? & Hx & _). exact Hx.
  - rewrite Hhd, HS, Hp.
    replace (pageAddress pa sp) with (pageAddress pa' sp)
      by (unfold pageAddress; rewrite Hb; reflexivity).
    apply pageIndex_jump; [rewrite HN; lia|rewrite HN; lia|].
    unfold ALLOC_HEADER_SIZE, ALLOC_PAGE_SIZE. lia.
  - unfold liveBlock. cbn zeta. rewrite Hhd, HS, HP.
    intros i Hi'. rewrite HbA by lia.
    rewrite (in_range_true sp (pagesNeeded rs) i Hi'). reflexivity.
  - unfold blockPages. cbn zeta. rewrite Hhd, HS, HP.
    intros i Hi'. split.
    + destruct Hrun as (_ & _ & Hclear). apply Hclear. exact Hi'.
    + rewrite HbU by lia.
      rewrite (in_range_true sp (pagesNeeded rs) i Hi'). reflexivity.
  - exact Hfree.
  - rewrite Hmin. apply Z.le_min_r.
  - exact Hsa.
Qed.

(** ** Instances *)

Lemma fresh16_init : init base (16 * 1024) 0 = Ok fresh16.
Proof. vm_compute. reflexivity. Qed.

Lemma fresh16_ZInv : ZInv fresh16.
Proof. apply (ZInv_init _ _ _ _ fresh16_init). Qed.

Lemma fresh16_pages : totalPages fresh16 = 16.
Proof. vm_compute. reflexivity. Qed.

Lemma returned_block (r : result (t * mem * option Z)) (p : Z) :
  match r with
  | Ok (_, _, Some q) => q =? p
  | _ => false
  end = true ->
  r = Ok (zoneOf r, memOf r, Some p).
Proof.
  destruct r as [[[pa m] [q|]]|]; try discriminate.
  intros H. apply Z.eqb_eq in H. subst q. reflexivity.
Qed.

Lemma oneHeld_eq :
  allocate fresh16 Mem.zero 100
  = Ok (zoneOf oneHeld, memOf oneHeld, Some (base + 32)).
Proof.
  apply (returned_block oneHeld (base + 32)). vm_compute. reflexivity.
Qed.

Lemma twoHeld_eq :
  allocate (zoneOf oneHeld) (memOf oneHeld) 100
  = Ok (zoneOf twoHeld, memOf twoHeld, Some (base + 1056)).
Proof.
  apply (returned_block twoHeld (base + 1056)). vm_compute. reflexivity.
Qed.

Lemma request_100 : 0 <= 100 <= maxRequest.
Proof. unfold maxRequest, ALLOC_PAGE_SIZE. lia. Qed.

(** Byte 100 of page 3 of a fresh zone of 16 pages. *)
Lemma pageIndex_inverts_pageAddress_witness :
  0 <= totalPages fresh16 < 65536 /\
  0 <= 3 < totalPages fresh16 /\ 0 <= 100 < ALLOC_PAGE_SIZE /\
  (pageIndex fresh16 (pageAddress fresh16 3 + 100) = 3 /\
   (forall addr,
      addr < baseAddress fresh16 \/
      baseAddress fresh16 + totalPages fresh16 * ALLOC_PAGE_SIZE <= addr ->
      pageIndex fresh16 addr = -1)).
Proof.
  assert (H1 : 0 <= totalPages fresh16 < 65536)
    by (rewrite fresh16_pages; lia).
  assert (H2 : 0 <= 3 < totalPages fresh16) by (rewrite fresh16_pages; lia).
  assert (H3 : 0 <= 100 < ALLOC_PAGE_SIZE) by (unfold ALLOC_PAGE_SIZE; lia).
  split; [exact H1|]. split; [exact H2|]. split; [exact H3|].
  exact (pageIndex_inverts_pageAddress fresh16 3 100 H1 H2 H3).
Defined.

(** The zero-filled zone. *)
Lemma uninitialized_zone_is_inert_witness :
  initialized zeroed = false /\
  ((forall rs, allocate zeroed Mem.zero rs = Ok (zeroed, Mem.zero, None)) /\
   (forall num elemSize,
      calloc zeroed Mem.zero num elemSize = Ok (zeroed, Mem.zero, None)) /\
   (forall p, deallocate zeroed Mem.zero p = Ok (zeroed, Mem.zero)) /\
   freeBytes zeroed = 0 /\ minEverFreeBytes zeroed = 0 /\
   totalBytes zeroed = 0 /\ usedBytes zeroed = 0 /\
   (forall p, ownsPointer zeroed p = false)).
Proof.
  assert (H : initialized zeroed = false) by reflexivity.
  split; [exact H|].
  exact (uninitialized_zone_is_inert zeroed Mem.zero H).
Defined.

(** The first block of 100 bytes of a fresh zone of 16 pages. *)
Lemma allocate_writes_a_valid_block_witness :
  ZInv fresh16 /\ 0 <= zoneIndex fresh16 < 256 /\ 0 <= 100 <= maxRequest /\
  allocate fresh16 Mem.zero 100
  = Ok (zoneOf oneHeld, memOf oneHeld, Some (base + 32)) /\
  exists sp,
    let pc := pagesNeeded 100 in
    let header := BlockGuard.headerFromUserData (base + 32) in
    let footer := BlockGuard.footerFromHeader (memOf oneHeld) header in
    0 <= sp /\ sp + pc <= totalPages fresh16 /\
    base + 32
    = baseAddress fresh16 + sp * ALLOC_PAGE_SIZE + ALLOC_HEADER_SIZE /\
    footer = base + 32 + 100 /\
    BlockGuard.validateHeader (memOf oneHeld) header = Ok true /\
    BlockGuard.validateFooter (memOf oneHeld) footer = Ok true /\
    BlockGuard.validatePair (memOf oneHeld) header footer = true /\
    AllocBlockHeader.requestedSize (memOf oneHeld) header = 100 /\
    AllocBlockHeader.startPage (memOf oneHeld) header = sp /\
    AllocBlockHeader.pageCount (memOf oneHeld) header = pc /\
    AllocBlockHeader.zoneIndex (memOf oneHeld) header = zoneIndex fresh16 /\
    AllocBlockHeader.sequenceNum (memOf oneHeld) header
    = u32 (sequenceCounter fresh16) /\
    (exists padLen,
       BlockGuard.paddingSize (memOf oneHeld) header = Ok padLen /\
       BlockGuard.validatePadding (memOf oneHeld)
         (BlockGuard.paddingFromHeader (memOf oneHeld) header) padLen
       = true) /\
    (forall x, x < header \/ header + pc * ALLOC_PAGE_SIZE <= x ->
       load8 (memOf oneHeld) x = load8 Mem.zero x) /\
    (forall x, base + 32 <= x < base + 32 + 100 ->
       load8 (memOf oneHeld) x = load8 Mem.zero x).
Proof.
  assert (H2 : 0 <= zoneIndex fresh16 < 256)
    by (split; [vm_compute; discriminate|vm_compute; reflexivity]).
  split; [exact fresh16_ZInv|]. split; [exact H2|].
  split; [exact request_100|]. split; [exact oneHeld_eq|].
  exact (allocate_writes_a_valid_block fresh16 Mem.zero 100 (zoneOf oneHeld)
           (memOf oneHeld) (base + 32) fresh16_ZInv H2 request_100
           oneHeld_eq).
Defined.

(** The same block. *)
Lemma allocated_pointer_is_owned_witness :
  ZInv fresh16 /\ 0 <= 100 <= maxRequest /\
  allocate fresh16 Mem.zero 100
  = Ok (zoneOf oneHeld, memOf oneHeld, Some (base + 32)) /\
  (ownsPointer (zoneOf oneHeld) (Some (base + 32)) = true /\
   ownsPointer fresh16 (Some (base + 32)) = true /\
   pageIndex (zoneOf oneHeld) (base + 32)
   = AllocBlockHeader.startPage (memOf oneHeld)
       (BlockGuard.headerFromUserData (base + 32)) /\
   liveBlock (zoneOf oneHeld) (memOf oneHeld) (base + 32) /\
   (forall i, blockPages (memOf oneHeld) (base + 32) i ->
      PageBitmap.bit (bitmapInUse fresh16) i = false /\
      PageBitmap.bit (bitmapInUse (zoneOf oneHeld)) i = true) /\
   freePagesCount (zoneOf oneHeld)
   = freePagesCount fresh16 - pagesNeeded 100 /\
   minEverFreePages (zoneOf oneHeld) <= freePagesCount (zoneOf oneHeld) /\
   successfulAllocs (zoneOf oneHeld)
   = usize (successfulAllocs fresh16 + 1)).
Proof.
  split; [exact fresh16_ZInv|]. split; [exact request_100|].
  split; [exact oneHeld_eq|].
  exact (allocated_pointer_is_owned fresh16 Mem.zero 100 (zoneOf oneHeld)
           (memOf oneHeld) (base + 32) fresh16_ZInv request_100 oneHeld_eq).
Defined.

(** ** What a [deallocate] that returns did *)

Lemma deallocate_some pa m p pa' m' :
  initialized pa = true ->
  deallocate pa m (Some p) = Ok (pa', m') ->
  let h := BlockGuard.headerFromUserData p in
  let sp := AllocBlockHeader.startPage m h in
  let pc := AllocBlockHeader.pageCount m h in
  let rs := AllocBlockHeader.requestedSize m h in
  BlockGuard.validateHeader m h = Ok true /\
  BlockGuard.validateFooter m (BlockGuard.footerFromHeader m h) = Ok true /\
  BlockGuard.validatePair m h (BlockGuard.footerFromHeader m h) = true /\
  AllocBlockHeader.zoneIndex m h = zoneIndex pa /\
  sp + pc <= totalPages pa /\
  verifyQuarantine pa m = Ok true /\
  exists q ev inUse allocated m2,
    QuarantineTable.add (quarantine pa) sp pc rs (zoneIndex pa)
      = Ok (q, ev) /\
    match ev with
    | Some e =>
        PageBitmap.clearRange (bitmapInUse pa)
          (AllocQuarantineEntry.startPage e)
          (AllocQuarantineEntry.pageCount e) = Ok inUse /\
        m2 = BlockGuard.fillClearedPages m
               (pageAddress pa (AllocQuarantineEntry.startPage e))
               (usize (AllocQuarantineEntry.pageCount e * ALLOC_PAGE_SIZE))
    | None => inUse = bitmapInUse pa /\ m2 = m
    end /\
    PageBitmap.clearRange (bitmapAllocated pa) sp pc = Ok allocated /\
    m' = BlockGuard.fillQuarantinePayload m2 p
           (AllocBlockHeader.requestedSize m2 h) /\
    pa' = {| baseAddress := baseAddress pa;
             regionSize := regionSize pa;
             totalPages := totalPages pa;
             zoneIndex := zoneIndex pa;
             initialized := initialized pa;
             bitmapInUse := inUse;
             bitmapAllocated := allocated;
             quarantine := q;
             sequenceCounter := sequenceCounter pa;
             freePagesCount :=
               match ev with
               | Some e =>
                   usize (freePagesCount pa
                          + AllocQuarantineEntry.pageCount e)
               | None => freePagesCount pa
               end;
             minEverFreePages := minEverFreePages pa;
             successfulAllocs := successfulAllocs pa;
             successfulFrees := usize (successfulFrees pa + 1) |}.
Proof.
  intros Hinit. unfold deallocate. rewrite Hinit. cbn [negb].
  destruct (BlockGuard.validateHeader _ _) as [okH|]; cbn [bind];
    [|discriminate].
  unfold ALLOC_ASSERT at 1. destruct okH; cbn [bind]; [|discriminate].
  destruct (BlockGuard.validateFooter _ _) as [okF|]; cbn [bind];
    [|discriminate].
  unfold ALLOC_ASSERT at 1. destruct okF; cbn [bind]; [|discriminate].
  unfold ALLOC_ASSERT at 1.
  destruct (BlockGuard.validatePair _ _ _); cbn [bind]; [|discriminate].
  unfold ALLOC_ASSERT at 1.
  destruct (Z.eqb_spec
              (AllocBlockHeader.zoneIndex m (BlockGuard.headerFromUserData p))
              (zoneIndex pa)) as [Hz|]; cbn [bind]; [|discriminate].
  unfold ALLOC_ASSERT at 1.
  set (header := BlockGuard.headerFromUserData p).
  pose proof (load16_range m (header + 8)) as Hsp.
  pose proof (load16_range m (header + 10)) as Hpc.
  fold (AllocBlockHeader.startPage m header) in Hsp.
  fold (AllocBlockHeader.pageCount m header) in Hpc.
  rewrite (u32_small (_ + _)) by lia.
  destruct (Z.leb_spec (AllocBlockHeader.startPage m header
                        + AllocBlockHeader.pageCount m header)
              (totalPages pa)) as [Hfit|]; cbn [bind]; [|discriminate].
  destruct (verifyQuarantine pa m) as [okQ|]; cbn [bind]; [|discriminate].
  unfold ALLOC_ASSERT at 1. destruct okQ; cbn [bind]; [|discriminate].
  destruct (QuarantineTable.add _ _ _ _ _) as [[q ev]|] eqn:Eadd;
    cbn [bind]; [|discriminate].
  destruct ev as [e|].
  - unfold evictFromQuarantine.
    cbn [withQuarantine bitmapInUse bitmapAllocated].
    destruct (PageBitmap.clearRange (bitmapInUse pa) _ _) as [inUse|] eqn:EU;
      cbn [bind]; [|discriminate].
    cbn [bitmapAllocated].
    destruct (PageBitmap.clearRange (bitmapAllocated pa) _ _)
      as [allocated|] eqn:EA; cbn [bind]; [|discriminate].
    intros [= <- <-]. cbn zeta. fold header.
    splits; auto.
    exists q, (Some e), inUse, allocated.
    eexists. splits; try reflexivity; auto; rewrite Hinit; reflexivity.
  - cbn [bind withQuarantine bitmapAllocated].
    destruct (PageBitmap.clearRange (bitmapAllocated pa) _ _)
      as [allocated|] eqn:EA; cbn [bind]; [|discriminate].
    intros [= <- <-]. cbn zeta. fold header.
    splits; auto.
    exists q, None, (bitmapInUse pa), allocated, m.
    splits; try reflexivity; auto; rewrite Hinit; reflexivity.
Qed.

(** ** Blocks in memory *)

Lemma header_fields_agree m1 m2 h :
  agree m1 m2 h 32 ->
  AllocBlockHeader.requestedSize m1 h = AllocBlockHeader.requestedSize m2 h /\
  AllocBlockHeader.startPage m1 h = AllocBlockHeader.startPage m2 h /\
  AllocBlockHeader.pageCount m1 h = AllocBlockHeader.pageCount m2 h /\
  AllocBlockHeader.zoneIndex m1 h = AllocBlockHeader.zoneIndex m2 h /\
  AllocBlockHeader.sequenceNum m1 h = AllocBlockHeader.sequenceNum m2 h.
Proof.
  intros Ha.
  unfold AllocBlockHeader.requestedSize, AllocBlockHeader.startPage,
    AllocBlockHeader.pageCount, AllocBlockHeader.zoneIndex,
    AllocBlockHeader.sequenceNum.
  rewrite (agree_load32 m1 m2 h 32 (h + 4)) by (try exact Ha; lia).
  rewrite (agree_load16 m1 m2 h 32 (h + 8)) by (try exact Ha; lia).
  rewrite (agree_load16 m1 m2 h 32 (h + 10)) by (try exact Ha; lia).
  rewrite (Ha (h + 12)) by lia.
  rewrite (agree_load32 m1 m2 h 32 (h + 16)) by (try exact Ha; lia).
  splits; reflexivity.
Qed.

Lemma validatePair_agree m1 m2 h f :
  agree m1 m2 h 32 -> agree m1 m2 f 32 ->
  BlockGuard.validatePair m1 h f = BlockGuard.validatePair m2 h f.
Proof.
  intros Hh Hf.
  destruct (header_fields_agree m1 m2 h Hh) as (E1 & E2 & E3 & E4 & E5).
  destruct (header_fields_agree m1 m2 f Hf) as (F1 & F2 & F3 & F4 & F5).
  unfold BlockGuard.validatePair.
  change AllocBlockFooter.requestedSize with AllocBlockHeader.requestedSize.
  change AllocBlockFooter.startPage with AllocBlockHeader.startPage.
  change AllocBlockFooter.pageCount with AllocBlockHeader.pageCount.
  change AllocBlockFooter.zoneIndex with AllocBlockHeader.zoneIndex.
  change AllocBlockFooter.sequenceNum with AllocBlockHeader.sequenceNum.
  rewrite E1, E2, E3, E4, E5, F1, F2, F3, F4, F5. reflexivity.
Qed.

(** Where the parts of an intact block lie. *)
Lemma intactBlock_geometry pa m sp pc :
  intactBlock pa m sp pc ->
  let h := pageAddress pa sp in
  let rs := AllocBlockHeader.requestedSize m h in
  0 <= sp < 65536 /\ 1 <= pc < 65536 /\ 0 <= rs /\
  h = baseAddress pa + sp * 1024 /\
  BlockGuard.footerFromHeader m h = h + 32 + rs /\
  32 + rs + 32 <= pc * 1024.
Proof.
  intros (_ & _ & _ & HS & HP & _ & Hfit). cbn zeta.
  pose proof (load16_range m (pageAddress pa sp + 8)) as Hs.
  pose proof (load16_range m (pageAddress pa sp + 10)) as Hp.
  pose proof (load32_range m (pageAddress pa sp + 4)) as Hr.
  fold (AllocBlockHeader.startPage m (pageAddress pa sp)) in Hs.
  fold (AllocBlockHeader.pageCount m (pageAddress pa sp)) in Hp.
  fold (AllocBlockHeader.requestedSize m (pageAddress pa sp)) in Hr.
  rewrite HS in Hs. rewrite HP in Hp.
  unfold ALLOC_HEADER_SIZE, ALLOC_FOOTER_SIZE, ALLOC_PAGE_SIZE in Hfit.
  splits; try lia.
  - rewrite pageAddress_small by lia. reflexivity.
  - reflexivity.
Qed.

(** An intact block stays intact while the bytes of its header and of its
    footer stay what they are. *)
Lemma intactBlock_stable pa pa' m m' sp pc :
  baseAddress pa' = baseAddress pa -> zoneIndex pa' = zoneIndex pa ->
  intactBlock pa m sp pc ->
  (forall x,
     pageAddress pa sp <= x < pageAddress pa sp + 32 \/
     pageAddress pa sp + 32
       + AllocBlockHeader.requestedSize m (pageAddress pa sp) <= x
       < pageAddress pa sp + 32
         + AllocBlockHeader.requestedSize m (pageAddress pa sp) + 32 ->
     load8 m' x = load8 m x) ->
  intactBlock pa' m' sp pc /\
  AllocBlockHeader.requestedSize m' (pageAddress pa sp)
  = AllocBlockHeader.requestedSize m (pageAddress pa sp).
Proof.
  intros Hb Hz Hint Hst.
  assert (Hpa : pageAddress pa' sp = pageAddress pa sp)
    by (unfold pageAddress; rewrite Hb; reflexivity).
  destruct (intactBlock_geometry _ _ _ _ Hint) as (_ & _ & _ & _ & Hf & _).
  cbn zeta in Hf.
  destruct Hint as (HvH & HvF & HvP & HS & HP & HZ & Hfit).
  set (h := pageAddress pa sp) in *.
  set (rs := AllocBlockHeader.requestedSize m h) in *.
  assert (Hah : agree m' m h 32).
  { intros x Hx. apply Hst. left. lia. }
  assert (Haf : agree m' m (h + 32 + rs) 32).
  { intros x Hx. apply Hst. right. lia. }
  destruct (header_fields_agree m' m h Hah) as (E1 & E2 & E3 & E4 & E5).
  fold rs in E1.
  assert (Hf' : BlockGuard.footerFromHeader m' h = h + 32 + rs).
  { unfold BlockGuard.footerFromHeader. rewrite E1. reflexivity. }
  split; [|exact E1].
  unfold intactBlock. rewrite Hpa, Hz. fold h. rewrite Hf'.
  rewrite Hf in HvF, HvP.
  splits.
  - rewrite (validateHeader_agree m' m h Hah). exact HvH.
  - rewrite (validateFooter_agree m' m (h + 32 + rs) Haf). exact HvF.
  - rewrite (validatePair_agree m' m h (h + 32 + rs) Hah Haf). exact HvP.
  - congruence.
  - congruence.
  - congruence.
  - rewrite E1. exact Hfit.
Qed.

(** Two non-empty page ranges without a common page lie one after the
    other. *)
Lemma ranges_apart s1 c1 s2 c2 :
  1 <= c1 -> 1 <= c2 ->
  (forall i, s1 <= i < s1 + c1 -> ~ (s2 <= i < s2 + c2)) ->
  s1 + c1 <= s2 \/ s2 + c2 <= s1.
Proof.
  intros H1 H2 H.
  destruct (Z_le_dec (s1 + c1) s2) as [|Ha]; [left; assumption|].
  destruct (Z_le_dec (s2 + c2) s1) as [|Hb]; [right; assumption|].
  exfalso. apply (H (Z.max s1 s2)); lia.
Qed.

(** Where a held block lies. *)
Lemma heldBlock_facts pa m p :
  heldBlock pa m p ->
  let h := BlockGuard.headerFromUserData p in
  let sp := AllocBlockHeader.startPage m h in
  let pc := AllocBlockHeader.pageCount m h in
  let rs := AllocBlockHeader.requestedSize m h in
  h = p - 32 /\ pageAddress pa sp = p - 32 /\
  p = baseAddress pa + sp * 1024 + 32 /\
  0 <= sp /\ 1 <= pc < 65536 /\ sp + pc <= totalPages pa /\
  0 <= rs /\ 32 + rs + 32 <= pc * 1024.
Proof.
  intros (Hh & Hfit & Hint & _). cbn zeta.
  destruct (intactBlock_geometry _ _ _ _ Hint)
    as (Hsp & Hpc & Hrs & Hb & _ & Hsz).
  cbn zeta in *. rewrite <- Hh in *.
  unfold BlockGuard.headerFromUserData, ALLOC_HEADER_SIZE in *.
  splits; lia.
Qed.

Lemma heldBlock_stable pa pa' m m' p :
  baseAddress pa' = baseAddress pa -> zoneIndex pa' = zoneIndex pa ->
  totalPages pa' = totalPages pa ->
  heldBlock pa m p ->
  (forall x,
     p - 32 <= x < p \/
     p + AllocBlockHeader.requestedSize m (BlockGuard.headerFromUserData p)
       <= x
       < p + AllocBlockHeader.requestedSize m
               (BlockGuard.headerFromUserData p) + 32 ->
     load8 m' x = load8 m x) ->
  (forall i, blockPages m p i ->
     PageBitmap.bit (bitmapAllocated pa') i = true) ->
  heldBlock pa' m' p /\
  AllocBlockHeader.startPage m' (BlockGuard.headerFromUserData p)
  = AllocBlockHeader.startPage m (BlockGuard.headerFromUserData p) /\
  AllocBlockHeader.pageCount m' (BlockGuard.headerFromUserData p)
  = AllocBlockHeader.pageCount m (BlockGuard.headerFromUserData p) /\
  AllocBlockHeader.requestedSize m' (BlockGuard.headerFromUserData p)
  = AllocBlockHeader.requestedSize m (BlockGuard.headerFromUserData p).
Proof.
  intros Hb Hz HN Hheld Hst Hbits.
  pose proof (heldBlock_facts _ _ _ Hheld) as Hf. cbn zeta in Hf.
  destruct Hf as (Hh & Hpa & Hp & Hsp & Hpc & Hfit & Hrs & Hsz).
  destruct Hheld as (Hhd & _ & Hint & _).
  set (h := BlockGuard.headerFromUserData p) in *.
  set (sp := AllocBlockHeader.startPage m h) in *.
  set (pc := AllocBlockHeader.pageCount m h) in *.
  destruct (intactBlock_stable pa pa' m m' sp pc Hb Hz Hint) as [Hint' Hrs'].
  { rewrite <- Hhd. intros x Hx. apply Hst. lia. }
  rewrite <- Hhd in Hrs'.
  pose proof Hint' as (_ & _ & _ & HS' & HP' & _).
  assert (Hpa' : pageAddress pa' sp = h).
  { unfold pageAddress. rewrite Hb. exact (eq_sym Hhd). }
  rewrite Hpa' in HS', HP'.
  split; [|split; [exact HS'|split; [exact HP'|exact Hrs']]].
  unfold heldBlock. cbn zeta. fold h. rewrite HS', HP'.
  splits.
  - symmetry. exact Hpa'.
  - rewrite HN. exact Hfit.
  - exact Hint'.
  - intros i Hi. apply Hbits. unfold blockPages. cbn zeta. exact Hi.
Qed.

(** What the zone invariant says of an active quarantine entry. *)
Lemma entry_facts pa m k e :
  ZInv pa ->
  QuarantineTable.entries (quarantine pa) !! k = Some e ->
  AllocQuarantineEntry.active e <> 0 ->
  intactBlock pa m (AllocQuarantineEntry.startPage e)
    (AllocQuarantineEntry.pageCount e) ->
  let sp := AllocQuarantineEntry.startPage e in
  let pc := AllocQuarantineEntry.pageCount e in
  let h := pageAddress pa sp in
  let rs := AllocBlockHeader.requestedSize m h in
  0 <= sp /\ 1 <= pc < 65536 /\ sp + pc <= totalPages pa /\
  h = baseAddress pa + sp * 1024 /\ 0 <= rs /\ 32 + rs + 32 <= pc * 1024 /\
  forall i, sp <= i < sp + pc ->
    PageBitmap.bit (bitmapInUse pa) i = true /\
    PageBitmap.bit (bitmapAllocated pa) i = false.
Proof.
  intros Hinv Hk Ha Hint. cbn zeta.
  destruct Hinv as (_ & _ & _ & _ & _ & _ & Hent & _).
  destruct (Hent k e Hk Ha) as (H0 & H1 & H2 & Hb).
  destruct (intactBlock_geometry _ _ _ _ Hint)
    as (Hsp & Hpc & Hrs & Hh & _ & Hsz).
  cbn zeta in *. splits; try lia. exact Hb.
Qed.

Lemma ZInv_pages pa : ZInv pa -> 0 <= totalPages pa <= 10240.
Proof.
  intros (Hwu & _ & Hcu & _). destruct Hwu as [_ Hb].
  rewrite Hcu in Hb. exact Hb.
Qed.

(** ** The invariant of a client that keeps the contract *)

Ltac split_MInv :=
  unfold MInv;
  refine (conj _ (conj _ (conj _ (conj _ (conj _ (conj _ (conj _ _))))))).

Lemma MInv_init start size zone pa m :
  0 <= zone < 256 -> init start size zone = Ok pa -> MInv pa m [].
Proof.
  intros Hz E.
  destruct (ZInv_init _ _ _ _ E) as [Hinv Hinit].
  assert (Hfields : zoneIndex pa = zone /\
            quarantine pa = QuarantineTable.init /\
            forall i, PageBitmap.bit (bitmapAllocated pa) i = false).
  { revert E. unfold init, ALLOC_ASSERT.
    destruct (negb (start =? 0)); cbn [bind]; [|discriminate].
    destruct (size >=? ALLOC_PAGE_SIZE); cbn [bind]; [|discriminate].
    destruct (u16 (size / ALLOC_PAGE_SIZE) >? 0); cbn [bind]; [|discriminate].
    destruct (u16 (size / ALLOC_PAGE_SIZE) <=? ALLOC_MAX_PAGES_PER_ZONE);
      cbn [bind]; [|discriminate].
    destruct (PageBitmap.init (u16 (size / ALLOC_PAGE_SIZE))) as [b|] eqn:Eb;
      cbn [bind]; [|discriminate].
    intros [= <-]. cbn. splits; try reflexivity.
    apply init_spec in Eb as (_ & _ & _ & Hbits). exact Hbits. }
  destruct Hfields as (Hzi & Hq & Hbits).
  split_MInv.
  - exact Hinv.
  - exact Hinit.
  - rewrite Hzi. exact Hz.
  - rewrite Hq. apply QInv_init.
  - intros p [].
  - intros p q i [].
  - intros i _ Hi. rewrite Hbits in Hi. discriminate.
  - intros k e Hk Ha. rewrite Hq in Hk.
    apply lookup_replicate in Hk as [-> _]. cbn in Ha. contradiction.
Qed.

(** Two held blocks, and a held block and a quarantined one, have no page
    in common. *)
Lemma held_apart pa m live p q :
  MInv pa m live -> In p live -> In q live -> p <> q ->
  let sp := AllocBlockHeader.startPage m (BlockGuard.headerFromUserData p) in
  let pc := AllocBlockHeader.pageCount m (BlockGuard.headerFromUserData p) in
  let sq := AllocBlockHeader.startPage m (BlockGuard.headerFromUserData q) in
  let qc := AllocBlockHeader.pageCount m (BlockGuard.headerFromUserData q) in
  sp + pc <= sq \/ sq + qc <= sp.
Proof.
  intros (_ & _ & _ & _ & Hheld & Hdisj & _) Hp Hq Hne. cbn zeta.
  pose proof (heldBlock_facts _ _ _ (Hheld p Hp)) as Fp.
  pose proof (heldBlock_facts _ _ _ (Hheld q Hq)) as Fq.
  cbn zeta in Fp, Fq.
  apply ranges_apart; [lia|lia|].
  intros i Hi. apply (Hdisj p q i Hp Hq Hne). exact Hi.
Qed.

Lemma held_entry_apart pa m live p k e :
  MInv pa m live -> In p live ->
  QuarantineTable.entries (quarantine pa) !! k = Some e ->
  AllocQuarantineEntry.active e <> 0 ->
  let sp := AllocBlockHeader.startPage m (BlockGuard.headerFromUserData p) in
  let pc := AllocBlockHeader.pageCount m (BlockGuard.headerFromUserData p) in
  sp + pc <= AllocQuarantineEntry.startPage e \/
  AllocQuarantineEntry.startPage e + AllocQuarantineEntry.pageCount e <= sp.
Proof.
  intros (Hinv & _ & _ & _ & Hheld & _ & _ & Hquar) Hp Hk Ha. cbn zeta.
  pose proof (heldBlock_facts _ _ _ (Hheld p Hp)) as Fp.
  pose proof (entry_facts pa m k e Hinv Hk Ha (Hquar k e Hk Ha)) as Fe.
  cbn zeta in Fp, Fe.
  destruct Fe as (_ & Hc & _ & _ & _ & _ & Hbits).
  destruct (Hheld p Hp) as (_ & _ & _ & Hal).
  apply ranges_apart; [lia|lia|].
  intros i Hi Hie. destruct (Hbits i Hie) as [_ Hz].
  rewrite (Hal i Hi) in Hz. discriminate.
Qed.

(** The memory may change inside the payloads of the held blocks. *)
Lemma MInv_write pa m live m' :
  MInv pa m live ->
  (forall x,
     baseAddress pa <= x < baseAddress pa + totalPages pa * ALLOC_PAGE_SIZE ->
     (forall p, In p live -> ~ inPayload m p x) ->
     load8 m' x = load8 m x) ->
  MInv pa m' live.
Proof.
  intros HM Hw. unfold ALLOC_PAGE_SIZE in Hw.
  pose proof HM as (Hinv & Hinit & Hzi & HQ & Hheld & Hdisj & Hcov & Hquar).
  (* a byte of the pages [s, s + c) that is in no payload of a block
     starting in these pages is unchanged, if no other held block meets
     these pages *)
  assert (Hst : forall p, In p live ->
            heldBlock pa m' p /\
            (forall i, blockPages m' p i <-> blockPages m p i)).
  { intros p Hp.
    pose proof (heldBlock_facts _ _ _ (Hheld p Hp)) as Fp. cbn zeta in Fp.
    destruct (heldBlock_stable pa pa m m' p eq_refl eq_refl eq_refl
                (Hheld p Hp)) as (H1 & HS & HP & _).
    - intros x Hx. apply Hw; [lia|]. intros q Hq Hin.
      unfold inPayload in Hin.
      destruct (Z.eq_dec q p) as [->|Hne]; [lia|].
      pose proof (held_apart pa m live q p HM Hq Hp Hne) as Hap.
      pose proof (heldBlock_facts _ _ _ (Hheld q Hq)) as Fq.
      cbn zeta in Hap, Fq. lia.
    - intros i Hi. destruct (Hheld p Hp) as (_ & _ & _ & Hal).
      apply Hal. exact Hi.
    - split; [exact H1|]. intros i. unfold blockPages. cbn zeta.
      rewrite HS, HP. reflexivity. }
  split_MInv; try assumption.
  - intros p Hp. apply (Hst p Hp).
  - intros p q i Hp Hq Hne Hi1 Hi2.
    apply (Hdisj p q i Hp Hq Hne).
    + apply (Hst p Hp). exact Hi1.
    + apply (Hst q Hq). exact Hi2.
  - intros i Hi Hb. destruct (Hcov i Hi Hb) as (p & Hp & Hin).
    exists p. split; [exact Hp|]. apply (Hst p Hp). exact Hin.
  - intros k e Hk Ha.
    pose proof (entry_facts pa m k e Hinv Hk Ha (Hquar k e Hk Ha)) as Fe.
    cbn zeta in Fe.
    apply (intactBlock_stable pa pa m m' _ _ eq_refl eq_refl
             (Hquar k e Hk Ha)).
    intros x Hx. apply Hw; [lia|]. intros q Hq Hin. unfold inPayload in Hin.
    pose proof (held_entry_apart pa m live q k e HM Hq Hk Ha) as Hap.
    pose proof (heldBlock_facts _ _ _ (Hheld q Hq)) as Fq.
    cbn zeta in Hap, Fq. lia.
Qed.

Lemma MInv_allocate pa m live rs pa' m' r :
  MInv pa m live -> 0 <= rs <= maxRequest ->
  allocate pa m rs = Ok (pa', m', r) ->
  MInv pa' m' (match r with Some p => p :: live | None => live end).
Proof.
  intros HM Hrs H.
  destruct r as [p|];
    [|apply allocate_inv in H as [(_ & -> & ->)|(? & ? & ? & H)];
      [exact HM|destruct H as (_ & _ & _ & _ & _ & _ & _ & H & _);
                discriminate]].
  pose proof HM as (Hinv & Hinit & Hzi & HQ & Hheld & Hdisj & Hcov & Hquar).
  pose proof (ZInv_allocate _ _ _ _ _ _ Hinv H) as Hinv'.
  pose proof (ZInv_pages pa Hinv) as HNb.
  destruct (allocate_block _ _ _ _ _ _ Hinv Hrs H)
    as (sp & H0 & Hpc & Hfit & Hrun & Hh & Hp & Hsz & HvH & Hfoot & HvF
        & HvP & HR & HS & HP & HZ & _ & _ & Hframe & _ & _ & EA & Hq' & HN
        & Hi' & Hb' & Hz' & _).
  cbn zeta in *.
  set (pc := pagesNeeded rs) in *.
  unfold ALLOC_HEADER_SIZE, ALLOC_FOOTER_SIZE, ALLOC_PAGE_SIZE in *.
  pose proof Hinv as (_ & Hwa & _ & Hca & _ & Hsub & _).
  destruct (setRange_spec (bitmapAllocated pa) sp pc)
    as (bA & EA' & _ & _ & HbA); try lia; [exact Hwa|].
  rewrite EA in EA'. injection EA' as <-.
  destruct Hrun as (_ & _ & Hclear).
  (* the pages of the new block were in no block *)
  assert (Hold : forall q, In q live ->
            let sq := AllocBlockHeader.startPage m
                        (BlockGuard.headerFromUserData q) in
            let qc := AllocBlockHeader.pageCount m
                        (BlockGuard.headerFromUserData q) in
            sq + qc <= sp \/ sp + pc <= sq).
  { intros q Hq. cbn zeta.
    pose proof (heldBlock_facts _ _ _ (Hheld q Hq)) as Fq. cbn zeta in Fq.
    destruct (Hheld q Hq) as (_ & _ & _ & Hal).
    apply ranges_apart; [lia|lia|].
    intros i Hi Hin. pose proof (Hclear i Hin) as Hc.
    rewrite (Hsub i) in Hc; [discriminate|lia|apply Hal; exact Hi]. }
  assert (Hst : forall q, In q live ->
            heldBlock pa' m' q /\
            (forall i, blockPages m' q i <-> blockPages m q i)).
  { intros q Hq.
    pose proof (heldBlock_facts _ _ _ (Hheld q Hq)) as Fq. cbn zeta in Fq.
    pose proof (Hold q Hq) as Hap. cbn zeta in Hap.
    destruct (heldBlock_stable pa pa' m m' q Hb' Hz' HN (Hheld q Hq))
      as (H1 & HS1 & HP1 & _).
    - intros x Hx. apply Hframe. lia.
    - intros i Hi. rewrite HbA by (unfold blockPages in Hi; lia).
      destruct (Hheld q Hq) as (_ & _ & _ & Hal).
      rewrite (Hal i Hi). apply orb_true_r.
    - split; [exact H1|]. intros i. unfold blockPages. cbn zeta.
      rewrite HS1, HP1. reflexivity. }
  assert (Hhd : BlockGuard.headerFromUserData p = pageAddress pa sp).
  { unfold BlockGuard.headerFromUserData, ALLOC_HEADER_SIZE. lia. }
  assert (Hpa' : pageAddress pa' sp = pageAddress pa sp).
  { unfold pageAddress. rewrite Hb'. reflexivity. }
  assert (Hnew : forall i, blockPages m' p i <-> sp <= i < sp + pc).
  { intros i. unfold blockPages. cbn zeta. rewrite Hhd, HS, HP.
    reflexivity. }
  split_MInv.
  - exact Hinv'.
  - exact Hi'.
  - rewrite Hz'. exact Hzi.
  - rewrite Hq'. exact HQ.
  - intros q [<-|Hq]; [|apply (Hst q Hq)].
    unfold heldBlock. cbn zeta. rewrite Hhd, HS, HP.
    split; [symmetry; exact Hpa'|]. split; [rewrite HN; exact Hfit|].
    split.
    + unfold intactBlock. rewrite Hpa', Hfoot, HS, HP, HZ, HR, Hz'.
      unfold ALLOC_HEADER_SIZE, ALLOC_FOOTER_SIZE, ALLOC_PAGE_SIZE.
      splits; try assumption; try reflexivity.
      apply u8_small. exact Hzi.
    + intros i Hi. rewrite HbA by lia.
      rewrite (in_range_true sp pc i Hi). reflexivity.
  - intros a b i [<-|Ha] [<-|Hb] Hne Hia Hib.
    + contradiction.
    + apply Hnew in Hia. apply (Hst b Hb) in Hib.
      pose proof (Hold b Hb) as Hap. cbn zeta in Hap.
      unfold blockPages in Hib. cbn zeta in Hib. lia.
    + apply Hnew in Hib. apply (Hst a Ha) in Hia.
      pose proof (Hold a Ha) as Hap. cbn zeta in Hap.
      unfold blockPages in Hia. cbn zeta in Hia. lia.
    + apply (Hst a Ha) in Hia. apply (Hst b Hb) in Hib.
      apply (Hdisj a b i Ha Hb Hne Hia Hib).
  - intros i Hi Hbit. rewrite HN in Hi. rewrite HbA in Hbit by lia.
    destruct (Z_le_dec sp i) as [H1|H1];
      [destruct (Z_lt_dec i (sp + pc)) as [H2|H2]|].
    + exists p. split; [left; reflexivity|]. apply Hnew. lia.
    + rewrite (in_range_false sp pc i) in Hbit by lia. cbn [orb] in Hbit.
      destruct (Hcov i Hi Hbit) as (q & Hq & Hin).
      exists q. split; [right; exact Hq|]. apply (Hst q Hq). exact Hin.
    + rewrite (in_range_false sp pc i) in Hbit by lia. cbn [orb] in Hbit.
      destruct (Hcov i Hi Hbit) as (q & Hq & Hin).
      exists q. split; [right; exact Hq|]. apply (Hst q Hq). exact Hin.
  - intros k e Hk Ha. rewrite Hq' in Hk.
    pose proof (entry_facts pa m k e Hinv Hk Ha (Hquar k e Hk Ha)) as Fe.
    cbn zeta in Fe.
    destruct Fe as (He0 & Hec & Hefit & Heh & Hers & Hesz & Hebits).
    assert (Hap : AllocQuarantineEntry.startPage e
                  + AllocQuarantineEntry.pageCount e <= sp \/
                  sp + pc <= AllocQuarantineEntry.startPage e).
    { apply ranges_apart; [lia|lia|].
      intros i Hi Hin. destruct (Hebits i Hi) as [Hu _].
      rewrite (Hclear i Hin) in Hu. discriminate. }
    apply (intactBlock_stable pa pa' m m' _ _ Hb' Hz' (Hquar k e Hk Ha)).
    intros x Hx. apply Hframe. lia.
Qed.

Lemma MInv_calloc pa m live num es pa' m' r :
  MInv pa m live -> 0 <= num -> 0 <= es -> num * es <= maxRequest ->
  calloc pa m num es = Ok (pa', m', r) ->
  MInv pa' m' (match r with Some p => p :: live | None => live end).
Proof.
  intros HM Hn He Hmax. unfold calloc.
  destruct ((num >? 0) && (es >? SIZE_MAX / num));
    [intros [= <- <- <-]; exact HM|].
  assert (Hprod : 0 <= num * es) by (apply Z.mul_nonneg_nonneg; lia).
  assert (Hu : usize (num * es) = num * es).
  { apply usize_small. unfold maxRequest, ALLOC_PAGE_SIZE in Hmax. lia. }
  rewrite Hu.
  destruct (allocate pa m (num * es)) as [[[pa1 m1] p]|] eqn:E;
    cbn [bind]; [|discriminate].
  pose proof (MInv_allocate _ _ _ _ _ _ _ HM (conj Hprod Hmax) E) as HM1.
  destruct p as [p|]; intros [= <- <- <-]; [|exact HM1].
  apply (MInv_write pa1 m1 (p :: live)); [exact HM1|].
  intros x _ Hx. rewrite load8_memset.
  destruct ((p <=? x) && (x <? p + num * es)) eqn:Ein; [|reflexivity].
  exfalso. apply andb_true_iff in Ein as [H1 H2].
  apply Z.leb_le in H1. apply Z.ltb_lt in H2.
  apply (Hx p (or_introl eq_refl)). unfold inPayload.
  pose proof HM as (Hinv & _).
  destruct (allocate_block _ _ _ _ _ _ Hinv (conj Hprod Hmax) E)
    as (sp & _ & _ & _ & _ & _ & Hp & _ & _ & _ & _ & _ & HR & _).
  cbn zeta in *.
  replace (BlockGuard.headerFromUserData p) with (pageAddress pa sp)
    by (unfold BlockGuard.headerFromUserData; lia).
  rewrite HR. lia.
Qed.

(** The step of [deallocate] on the invariant: the block of [p] moves from
    the held blocks to slot [s] of the quarantine, its payload and a
    region [R] away from every surviving block being the only memory that
    changes. *)
Lemma MInv_release pa m live p pa' m' (R : Z -> Prop) s enew :
  MInv pa m live -> In p live ->
  let h := BlockGuard.headerFromUserData p in
  let sp := AllocBlockHeader.startPage m h in
  let pc := AllocBlockHeader.pageCount m h in
  let rs := AllocBlockHeader.requestedSize m h in
  baseAddress pa' = baseAddress pa -> zoneIndex pa' = zoneIndex pa ->
  totalPages pa' = totalPages pa -> initialized pa' = true ->
  ZInv pa' -> QuarantineTable.QInv (quarantine pa') ->
  (forall i, 0 <= i ->
     PageBitmap.bit (bitmapAllocated pa') i
     = negb ((sp <=? i) && (i <? sp + pc))
       && PageBitmap.bit (bitmapAllocated pa) i) ->
  (forall x, ~ R x -> ~ (p <= x < p + rs) -> load8 m' x = load8 m x) ->
  (forall q, In q live -> forall x, R x ->
     ~ (q - 32 <= x
        < q - 32 + AllocBlockHeader.pageCount m
                     (BlockGuard.headerFromUserData q) * 1024)) ->
  QuarantineTable.entries (quarantine pa') !! s = Some enew ->
  AllocQuarantineEntry.startPage enew = sp ->
  AllocQuarantineEntry.pageCount enew = pc ->
  (forall k e, k <> s ->
     QuarantineTable.entries (quarantine pa') !! k = Some e ->
     AllocQuarantineEntry.active e <> 0 ->
     QuarantineTable.entries (quarantine pa) !! k = Some e /\
     forall x, R x ->
       ~ (pageAddress pa (AllocQuarantineEntry.startPage e) <= x
          < pageAddress pa (AllocQuarantineEntry.startPage e)
            + AllocQuarantineEntry.pageCount e * 1024)) ->
  MInv pa' m' (List.remove Z.eq_dec p live).
Proof.
  intros HM Hp h sp pc rs Hb Hz HN Hi' Hinv' HQ' HbA Hmem HR Hs Hes Hec
    Hsurv.
  pose proof HM as (Hinv & Hinit & Hzi & HQ & Hheld & Hdisj & Hcov & Hquar).
  pose proof (heldBlock_facts _ _ _ (Hheld p Hp)) as Fp. cbn zeta in Fp.
  fold h in Fp. fold sp in Fp. fold pc in Fp. fold rs in Fp.
  assert (Hst : forall q, In q live -> q <> p ->
            heldBlock pa' m' q /\
            (forall i, blockPages m' q i <-> blockPages m q i)).
  { intros q Hq Hne.
    pose proof (heldBlock_facts _ _ _ (Hheld q Hq)) as Fq. cbn zeta in Fq.
    pose proof (held_apart pa m live q p HM Hq Hp Hne) as Hap.
    cbn zeta in Hap. fold h in Hap. fold sp in Hap. fold pc in Hap.
    destruct (heldBlock_stable pa pa' m m' q Hb Hz HN (Hheld q Hq))
      as (H1 & HS1 & HP1 & _).
    - intros x Hx. apply Hmem.
      + intros Hr. apply (HR q Hq x Hr). lia.
      + lia.
    - intros i Hi. unfold blockPages in Hi. cbn zeta in Hi.
      rewrite HbA by lia.
      rewrite (in_range_false sp pc i) by lia.
      destruct (Hheld q Hq) as (_ & _ & _ & Hal). rewrite (Hal i Hi).
      reflexivity.
    - split; [exact H1|]. intros i. unfold blockPages. cbn zeta.
      rewrite HS1, HP1. reflexivity. }
  split_MInv.
  - exact Hinv'.
  - exact Hi'.
  - rewrite Hz. exact Hzi.
  - exact HQ'.
  - intros q Hq. apply in_remove in Hq as [Hq Hne]. apply (Hst q Hq Hne).
  - intros a b i Ha Hb' Hne Hia Hib.
    apply in_remove in Ha as [Ha Hnea]. apply in_remove in Hb' as [Hb' Hneb].
    apply (Hst a Ha Hnea) in Hia. apply (Hst b Hb' Hneb) in Hib.
    apply (Hdisj a b i Ha Hb' Hne Hia Hib).
  - intros i Hi Hbit. rewrite HN in Hi. rewrite HbA in Hbit by lia.
    apply andb_true_iff in Hbit as [Hout Hbit].
    destruct (Hcov i Hi Hbit) as (q & Hq & Hin).
    assert (Hne : q <> p).
    { intros ->. unfold blockPages in Hin. cbn zeta in Hin.
      fold h in Hin. fold sp in Hin. fold pc in Hin.
      rewrite (in_range_true sp pc i Hin) in Hout. discriminate. }
    exists q. split; [apply in_in_remove; assumption|].
    apply (Hst q Hq Hne). exact Hin.
  - intros k e Hk Ha.
    destruct (Nat.eq_dec k s) as [->|Hks].
    + rewrite Hs in Hk. injection Hk as <-. rewrite Hes, Hec.
      destruct (Hheld p Hp) as (Hhd & _ & Hint & _).
      fold h in Hhd, Hint. fold sp in Hhd, Hint. fold pc in Hint.
      apply (intactBlock_stable pa pa' m m' sp pc Hb Hz Hint).
      rewrite <- Hhd. fold rs. intros x Hx. apply Hmem.
      * intros Hr. apply (HR p Hp x Hr). fold h. fold pc. lia.
      * lia.
    + destruct (Hsurv k e Hks Hk Ha) as [Hk' HRe].
      pose proof (entry_facts pa m k e Hinv Hk' Ha (Hquar k e Hk' Ha)) as Fe.
      cbn zeta in Fe.
      pose proof (held_entry_apart pa m live p k e HM Hp Hk' Ha) as Hap.
      cbn zeta in Hap. fold h in Hap. fold sp in Hap. fold pc in Hap.
      apply (intactBlock_stable pa pa' m m' _ _ Hb Hz (Hquar k e Hk' Ha)).
      intros x Hx. apply Hmem.
      * intros Hr. apply (HRe x Hr). lia.
      * lia.
Qed.

Lemma MInv_deallocate pa m live p pa' m' :
  MInv pa m live -> In p live ->
  QuarantineTable.nextSequence (quarantine pa) < UINT32_MAX ->
  deallocate pa m (Some p) = Ok (pa', m') ->
  MInv pa' m' (List.remove Z.eq_dec p live).
Proof.
  intros HM Hp Hwrap H.
  pose proof HM as (Hinv & Hinit & Hzi & HQ & Hheld & Hdisj & Hcov & Hquar).
  pose proof (heldBlock_facts _ _ _ (Hheld p Hp)) as Fp. cbn zeta in Fp.
  assert (Hlive : liveBlock pa m p).
  { destruct (Hheld p Hp) as (_ & _ & _ & Hal). exact Hal. }
  pose proof (ZInv_deallocate _ _ _ _ _ Hinv Hlive H) as Hinv'.
  destruct (deallocate_some _ _ _ _ _ Hinit H)
    as (_ & _ & _ & _ & _ & _ & q & ev & inUse & allocated & m2 & Eadd & Hev
        & EA & Hm' & Hpa').
  set (h := BlockGuard.headerFromUserData p) in *.
  set (sp := AllocBlockHeader.startPage m h) in *.
  set (pc := AllocBlockHeader.pageCount m h) in *.
  set (rs := AllocBlockHeader.requestedSize m h) in *.
  pose proof (QInv_add _ _ _ _ _ _ _ HQ Hwrap Eadd) as HQ'.
  pose proof Hinv as (_ & Hwa & _ & Hca & Hlen & _ & _ & Hedis & _).
  destruct (add_active _ _ _ _ _ _ _ Hlen Eadd) as (_ & s & Hs & Hsurv).
  destruct (clearRange_spec (bitmapAllocated pa) sp pc)
    as (bA & EA' & _ & _ & HbA); try lia; [exact Hwa|].
  rewrite EA in EA'. injection EA' as <-.
  assert (Hfields : baseAddress pa' = baseAddress pa /\
            zoneIndex pa' = zoneIndex pa /\ totalPages pa' = totalPages pa /\
            initialized pa' = true /\ bitmapAllocated pa' = allocated /\
            quarantine pa' = q).
  { rewrite Hpa'. cbn. splits; try reflexivity. exact Hinit. }
  destruct Hfields as (Hb & Hz & HN & Hi' & HA' & Hq').
  assert (HQ'' : QuarantineTable.QInv (quarantine pa'))
    by (rewrite Hq'; exact HQ').
  destruct ev as [e|].
  - (* an entry was evicted: its pages are cleared *)
    destruct Hev as [_ Hm2]. destruct Hsurv as (o & Ho & Hao & Hsurv).
    pose proof (entry_facts pa m o e Hinv Ho Hao (Hquar o e Ho Hao)) as Fe.
    cbn zeta in Fe.
    destruct Fe as (He0 & Hec & Hefit & Heh & Hers & Hesz & Hebits).
    pose proof (ZInv_pages pa Hinv) as HNb.
    rewrite usize_small in Hm2 by (unfold ALLOC_PAGE_SIZE; lia).
    unfold ALLOC_PAGE_SIZE in Hm2.
    pose proof (held_entry_apart pa m live p o e HM Hp Ho Hao) as Hap.
    cbn zeta in Hap. fold h in Hap. fold sp in Hap. fold pc in Hap.
    assert (Hrs2 : AllocBlockHeader.requestedSize m2 h = rs).
    { unfold rs, AllocBlockHeader.requestedSize.
      apply (agree_load32 m2 m h 32); [|lia|lia].
      rewrite Hm2. unfold BlockGuard.fillClearedPages.
      apply agree_memset. lia. }
    rewrite Hrs2 in Hm'.
    apply (MInv_release pa m live p pa' m'
             (fun x => pageAddress pa (AllocQuarantineEntry.startPage e) <= x
                       < pageAddress pa (AllocQuarantineEntry.startPage e)
                         + AllocQuarantineEntry.pageCount e * 1024)
             s (AllocQuarantineEntry.mk sp pc rs
                  (QuarantineTable.nextSequence (quarantine pa)) (-1)
                  (zoneIndex pa) 1 0)
             HM Hp Hb Hz HN Hi' Hinv' HQ'').
    + rewrite HA'. exact HbA.
    + intros x HnR Hnp. rewrite Hm', Hm2.
      unfold BlockGuard.fillQuarantinePayload, BlockGuard.fillClearedPages.
      rewrite !load8_memset.
      fold h. fold rs.
      rewrite (in_range_false p rs x) by exact Hnp.
      rewrite in_range_false by exact HnR. reflexivity.
    + intros q0 Hq0 x Hr.
      pose proof (heldBlock_facts _ _ _ (Hheld q0 Hq0)) as Fq.
      cbn zeta in Fq.
      pose proof (held_entry_apart pa m live q0 o e HM Hq0 Ho Hao) as Hap0.
      cbn zeta in Hap0. lia.
    + rewrite Hq'. exact Hs.
    + reflexivity.
    + reflexivity.
    + intros k e' Hks Hk Ha'. rewrite Hq' in Hk.
      destruct (Hsurv k e' Hks Hk Ha') as [Hk' Hko].
      split; [exact Hk'|].
      pose proof (entry_facts pa m k e' Hinv Hk' Ha' (Hquar k e' Hk' Ha'))
        as Fe'.
      cbn zeta in Fe'.
      assert (Hap' : AllocQuarantineEntry.startPage e'
                     + AllocQuarantineEntry.pageCount e'
                     <= AllocQuarantineEntry.startPage e \/
                     AllocQuarantineEntry.startPage e
                     + AllocQuarantineEntry.pageCount e
                     <= AllocQuarantineEntry.startPage e').
      { apply ranges_apart; [lia|lia|].
        intros i Hi. apply (Hedis k o e' e Hk' Ho Hko Ha' Hao i Hi). }
      intros x Hr. lia.
  - (* no eviction *)
    destruct Hev as [_ ->]. fold rs in Hm'.
    apply (MInv_release pa m live p pa' m' (fun _ => False)
             s (AllocQuarantineEntry.mk sp pc rs
                  (QuarantineTable.nextSequence (quarantine pa)) (-1)
                  (zoneIndex pa) 1 0)
             HM Hp Hb Hz HN Hi' Hinv' HQ'').
    + rewrite HA'. exact HbA.
    + intros x _ Hnp. rewrite Hm'.
      unfold BlockGuard.fillQuarantinePayload. rewrite load8_memset.
      fold h. fold rs.
      rewrite (in_range_false p rs x) by exact Hnp. reflexivity.
    + intros q0 _ x [].
    + rewrite Hq'. exact Hs.
    + reflexivity.
    + reflexivity.
    + intros k e' Hks Hk Ha'. rewrite Hq' in Hk.
      split; [apply (Hsurv k e' Hks Hk Ha')|]. intros x [].
Qed.

(** The invariant holds in every state of a client that keeps the
    contract. *)
Lemma served_MInv pa m live : served pa m live -> MInv pa m live.
Proof.
  induction 1 as [start size zone pa m Hz E
                 |pa m live rs pa' m' r _ IH Hrs E
                 |pa m live num es pa' m' r _ IH Hn He Hmax E
                 |pa m live p pa' m' _ IH Hp Hwrap E
                 |pa m live m' _ IH Hw].
  - apply (MInv_init start size zone); assumption.
  - apply (MInv_allocate pa m live rs); assumption.
  - apply (MInv_calloc pa m live num es); assumption.
  - apply (MInv_deallocate pa m live p); assumption.
  - apply (MInv_write pa m live); assumption.
Qed.

(** ** The states of the examples *)

Lemma servedOne : served (zoneOf oneHeld) (memOf oneHeld) [base + 32].
Proof.
  exact (served_allocate fresh16 Mem.zero [] 100 (zoneOf oneHeld)
           (memOf oneHeld) (Some (base + 32))
           (served_init base (16 * 1024) 0 fresh16 Mem.zero
              ltac:(lia) fresh16_init)
           request_100 oneHeld_eq).
Qed.

Lemma servedTwo :
  served (zoneOf twoHeld) (memOf twoHeld) [base + 1056; base + 32].
Proof.
  exact (served_allocate (zoneOf oneHeld) (memOf oneHeld) [base + 32] 100
           (zoneOf twoHeld) (memOf twoHeld) (Some (base + 1056))
           servedOne request_100 twoHeld_eq).
Qed.

Lemma twoHeld_sequences :
  QuarantineTable.nextSequence (quarantine (zoneOf twoHeld)) < UINT32_MAX.
Proof. vm_compute. reflexivity. Qed.

Lemma oneFreed_eq :
  deallocate (zoneOf twoHeld) (memOf twoHeld) (Some (base + 32))
  = Ok (fst oneFreed, snd oneFreed).
Proof.
  assert (H : match deallocate (zoneOf twoHeld) (memOf twoHeld)
                      (Some (base + 32)) with
              | Ok _ => true
              | Fatal => false
              end = true) by (vm_compute; reflexivity).
  unfold oneFreed.
  destruct (deallocate (zoneOf twoHeld) (memOf twoHeld) (Some (base + 32)))
    as [[pa m]|]; [reflexivity|discriminate].
Qed.

Lemma servedFreed : served (fst oneFreed) (snd oneFreed) [base + 1056].
Proof.
  assert (H : In (base + 32) [base + 1056; base + 32])
    by (right; left; reflexivity).
  exact (served_deallocate (zoneOf twoHeld) (memOf twoHeld)
           [base + 1056; base + 32] (base + 32) (fst oneFreed)
           (snd oneFreed) servedTwo H twoHeld_sequences oneFreed_eq).
Qed.

(** ** The integrity checks on the states of such a client *)

Lemma verifyQuarantine_loop_intact pa m n : forall i,
  length (QuarantineTable.entries (quarantine pa))
    = Z.to_nat QuarantineTable.capacity ->
  (forall k e, QuarantineTable.entries (quarantine pa) !! k = Some e ->
     AllocQuarantineEntry.active e <> 0 ->
     intactBlock pa m (AllocQuarantineEntry.startPage e)
       (AllocQuarantineEntry.pageCount e)) ->
  0 <= i -> i + Z.of_nat n <= 32 ->
  verifyQuarantine_loop n pa m i = Ok true.
Proof.
  induction n as [|n IH]; intros i Hlen Hquar H0 Hn; [reflexivity|].
  cbn [verifyQuarantine_loop]. unfold QuarantineTable.entryAt.
  replace (i <? ALLOC_QUARANTINE_CAPACITY) with true
    by (symmetry; apply Z.ltb_lt; unfold ALLOC_QUARANTINE_CAPACITY; lia).
  cbn [ALLOC_ASSERT bind].
  destruct (Z.eqb_spec (AllocQuarantineEntry.active
                          (QuarantineTable.entry (quarantine pa) i)) 0)
    as [Ha|Ha].
  - apply IH; try assumption; lia.
  - assert (Hk : QuarantineTable.entries (quarantine pa) !! Z.to_nat i
                 = Some (QuarantineTable.entry (quarantine pa) i)).
    { apply entry_in_range. rewrite Hlen, capacity_nat. lia. }
    destruct (Hquar _ _ Hk Ha) as (HvH & HvF & HvP & _).
    rewrite HvH. cbn [bind negb]. rewrite HvF. cbn [bind negb].
    rewrite HvP. cbn [negb]. apply IH; try assumption; lia.
Qed.

Lemma MInv_verifyQuarantine pa m live :
  MInv pa m live -> verifyQuarantine pa m = Ok true.
Proof.
  intros (Hinv & _ & _ & _ & _ & _ & _ & Hquar).
  destruct Hinv as (_ & _ & _ & _ & Hlen & _).
  unfold verifyQuarantine.
  apply verifyQuarantine_loop_intact; try assumption; [lia|].
  rewrite capacity_nat. simpl. lia.
Qed.

(** The scan of [verifyAllocated] from a page [i] at which no held block
    is cut in two. *)
Lemma verifyAllocated_loop_intact pa m live fuel : forall i,
  MInv pa m live ->
  0 <= i <= totalPages pa ->
  (forall q, In q live ->
     let sq := AllocBlockHeader.startPage m
                 (BlockGuard.headerFromUserData q) in
     let qc := AllocBlockHeader.pageCount m
                 (BlockGuard.headerFromUserData q) in
     sq + qc <= i \/ i <= sq) ->
  totalPages pa - i < Z.of_nat fuel ->
  verifyAllocated_loop fuel pa m i = Ok true.
Proof.
  induction fuel as [|fuel IH]; intros i HM Hi Hcut Hfuel; [lia|].
  pose proof HM as (Hinv & _ & _ & _ & Hheld & Hdisj & Hcov & _).
  pose proof (ZInv_pages pa Hinv) as HNb.
  pose proof Hinv as (_ & Hwa & _ & Hca & _).
  cbn [verifyAllocated_loop].
  destruct (Z.ltb_spec i (totalPages pa)) as [Hlt|Hge]; [|reflexivity].
  rewrite test_spec by lia. cbn [bind].
  destruct (PageBitmap.bit (bitmapAllocated pa) i) eqn:Hbit; cbn [negb].
  - destruct (Hcov i ltac:(lia) Hbit) as (q & Hq & Hin).
    pose proof (heldBlock_facts _ _ _ (Hheld q Hq)) as Fq. cbn zeta in Fq.
    pose proof (Hcut q Hq) as Hc. cbn zeta in Hc.
    unfold blockPages in Hin. cbn zeta in Hin.
    set (hq := BlockGuard.headerFromUserData q) in *.
    assert (Hsq : AllocBlockHeader.startPage m hq = i) by lia.
    destruct (Hheld q Hq) as (Hhd & _ & Hint & _). fold hq in Hhd, Hint.
    rewrite Hsq in Hhd, Hint. rewrite <- Hhd.
    destruct (intactBlock_geometry _ _ _ _ Hint) as (_ & _ & _ & _ & Hf & _).
    cbn zeta in Hf. rewrite <- Hhd in Hf.
    destruct Hint as (HvH & HvF & HvP & _). rewrite <- Hhd in HvH, HvF, HvP.
    rewrite HvH. cbn [bind negb]. rewrite Hsq, Z.eqb_refl. cbn [negb orb].
    rewrite HvF. cbn [bind negb]. rewrite HvP. cbn [negb].
    rewrite u16_small by lia.
    apply IH; [exact HM|lia| |lia].
    intros q' Hq'. cbn zeta.
    destruct (Z.eq_dec q' q) as [->|Hne]; [fold hq; lia|].
    pose proof (held_apart pa m live q' q HM Hq' Hq Hne) as Hap.
    cbn zeta in Hap. fold hq in Hap. lia.
  - rewrite u16_small by lia.
    apply IH; [exact HM|lia| |lia].
    intros q Hq. cbn zeta.
    pose proof (Hcut q Hq) as Hc. cbn zeta in Hc.
    destruct (Hheld q Hq) as (_ & _ & _ & Hal).
    destruct (Z.eq_dec (AllocBlockHeader.startPage m
                          (BlockGuard.headerFromUserData q)) i) as [E|E];
      [|lia].
    pose proof (heldBlock_facts _ _ _ (Hheld q Hq)) as Fq. cbn zeta in Fq.
    rewrite (Hal i) in Hbit by lia. discriminate.
Qed.

Lemma MInv_verifyAllocated pa m live :
  MInv pa m live -> verifyAllocated pa m = Ok true.
Proof.
  intros HM. pose proof HM as (Hinv & _ & _ & _ & Hheld & _).
  pose proof (ZInv_pages pa Hinv) as HNb.
  unfold verifyAllocated.
  apply (verifyAllocated_loop_intact pa m live); [exact HM|lia| |].
  - intros q Hq. cbn zeta.
    pose proof (heldBlock_facts _ _ _ (Hheld q Hq)) as Fq. cbn zeta in Fq.
    lia.
  - rewrite Z2Nat.id by lia. lia.
Qed.

(** X18.  No false alarm.  In every state of a client that keeps the contract,
    [verifyQuarantine], [verifyAllocated] and [runChecks] return true: the
    headers and footers of all held and of all quarantined blocks
    validate, and the scan of [verifyAllocated] meets every held block at
    its first page and ends. *)
Theorem checks_pass_while_the_contract_is_kept (pa : PageAllocator.t)
    (m : mem) (live : list Z) :
  served pa m live ->
  verifyQuarantine pa m = Ok true /\
  verifyAllocated pa m = Ok true /\
  runChecks pa m = Ok true.
Proof.
  intros H. apply served_MInv in H.
  pose proof (MInv_verifyQuarantine _ _ _ H) as HQ.
  split; [exact HQ|]. split; [apply (MInv_verifyAllocated _ _ _ H)|].
  unfold runChecks. rewrite HQ. reflexivity.
Qed.

(** ** No assertion fires *)

(** Header and footer of a block that fits its pages are written, and the
    assertion of [paddingSize] holds afterwards. *)
Lemma block_write_ok m h rs sp pc zi seq :
  0 <= rs < 4294967296 -> 0 <= pc < 65536 ->
  32 + rs + 32 <= pc * 1024 ->
  exists m1 m2 padLen,
    BlockGuard.writeHeader m h rs sp pc zi seq = Ok m1 /\
    BlockGuard.writeFooter m1 (BlockGuard.footerFromHeader m1 h) rs sp pc
      zi seq = Ok m2 /\
    BlockGuard.paddingSize m2 h = Ok padLen.
Proof.
  intros Hrs Hpc Hfit.
  pose proof (writeHeader_ok m h rs sp pc zi seq) as E1.
  set (m1 := store32 _ (h + 28) _) in E1.
  pose proof (written_fields m h ALLOC_PATTERN_HEADER_MAGIC rs sp pc zi seq
                (BlockGuard.xorWords
                   (BlockGuard.writeFields m h ALLOC_PATTERN_HEADER_MAGIC rs
                      sp pc zi seq) h)) as Hf.
  cbn zeta in Hf. fold m1 in Hf.
  destruct Hf as (_ & Hrs1 & _ & Hpc1 & _).
  rewrite (u32_small rs) in Hrs1 by lia.
  rewrite (u16_small pc) in Hpc1 by lia.
  assert (Hfoot : BlockGuard.footerFromHeader m1 h = h + 32 + rs).
  { unfold BlockGuard.footerFromHeader, AllocBlockHeader.requestedSize.
    rewrite Hrs1. reflexivity. }
  pose proof (writeFooter_ok m1 (h + 32 + rs) rs sp pc zi seq) as E2.
  set (m2 := store32 _ (h + 32 + rs + 28) _) in E2.
  assert (Hag : agree m2 m1 h 32).
  { apply (writeFooter_agree m1 (h + 32 + rs) rs sp pc zi seq m2);
      [exact E2|lia]. }
  exists m1, m2, (pc * 1024 - (32 + rs + 32)).
  split; [exact E1|]. split; [rewrite Hfoot; exact E2|].
  unfold BlockGuard.paddingSize, AllocBlockHeader.requestedSize,
    AllocBlockHeader.pageCount.
  rewrite (agree_load32 m2 m1 h 32) by (try exact Hag; lia).
  rewrite (agree_load16 m2 m1 h 32) by (try exact Hag; lia).
  rewrite Hrs1, Hpc1.
  unfold ALLOC_HEADER_SIZE, ALLOC_FOOTER_SIZE, ALLOC_PAGE_SIZE.
  rewrite (usize_small (pc * 1024)) by lia.
  rewrite (usize_small (32 + rs + 32)) by lia.
  replace (pc * 1024 >=? 32 + rs + 32) with true
    by (symmetry; rewrite Z.geb_leb; apply Z.leb_le; lia).
  reflexivity.
Qed.

Lemma allocate_returns pa m live rs :
  MInv pa m live -> 0 <= rs <= maxRequest ->
  exists pa' m' r, allocate pa m rs = Ok (pa', m', r).
Proof.
  intros HM Hrs.
  pose proof HM as (Hinv & Hinit & _).
  pose proof (MInv_verifyQuarantine _ _ _ HM) as HvQ.
  pose proof (ZInv_pages pa Hinv) as HNb.
  pose proof Hinv as (Hwu & Hwa & Hcu & Hca & _ & _ & _ & _ & Hcnt).
  unfold allocate. rewrite Hinit. cbn [negb orb].
  destruct (Z.eqb_spec rs 0) as [E0|E0]; [eexists _, _, _; reflexivity|].
  destruct (Z.gtb_spec (pagesNeeded rs) (freePagesCount pa)) as [Ef|Ef];
    [eexists _, _, _; reflexivity|].
  rewrite HvQ. cbn [bind ALLOC_ASSERT].
  assert (Hrs' : 0 < rs <= maxRequest) by lia.
  destruct (pagesNeeded_fits rs Hrs') as (Hpc & Hfit & _).
  set (pc := pagesNeeded rs) in *.
  pose proof (countZ_bounds (PageBitmap.bit (bitmapInUse pa))
                (Z.to_nat (totalPages pa)) 0) as Hcb.
  assert (Hpcb : 1 <= pc <= PageBitmap.pageCount (bitmapInUse pa)) by lia.
  destruct (findFreeRun_first_fit _ _ Hwu Hpcb) as (r & Er & [[-> _]|[Hf _]]).
  - rewrite Er. cbn [bind]. eexists _, _, _. reflexivity.
  - rewrite Er. cbn [bind]. destruct Hf as (Hr0 & Hrend & _).
    replace (r <? 0) with false by (symmetry; apply Z.ltb_ge; lia).
    rewrite (u16_small r) by lia.
    destruct (setRange_spec (bitmapInUse pa) r pc)
      as (bU & EU & _); try lia; [exact Hwu|].
    destruct (setRange_spec (bitmapAllocated pa) r pc)
      as (bA & EA & _); try lia; [exact Hwa|].
    rewrite EU, EA. cbn [bind].
    unfold maxRequest, ALLOC_PAGE_SIZE in Hrs.
    unfold ALLOC_HEADER_SIZE, ALLOC_FOOTER_SIZE, ALLOC_PAGE_SIZE in Hfit.
    rewrite (u32_small rs) by lia.
    destruct (block_write_ok m (pageAddress pa r) rs r pc (zoneIndex pa)
                (sequenceCounter pa))
      as (m1 & m2 & padLen & E1 & E2 & E3); try lia.
    rewrite E1. cbn [bind]. rewrite E2. cbn [bind]. rewrite E3. cbn [bind].
    eexists _, _, _. reflexivity.
Qed.

Lemma deallocate_returns pa m live p :
  MInv pa m live -> In p live ->
  QuarantineTable.nextSequence (quarantine pa) < UINT32_MAX ->
  exists pa' m', deallocate pa m (Some p) = Ok (pa', m').
Proof.
  intros HM Hp Hwrap.
  pose proof HM as (Hinv & Hinit & Hzi & HQ & Hheld & _ & _ & Hquar).
  pose proof (MInv_verifyQuarantine _ _ _ HM) as HvQ.
  pose proof (ZInv_pages pa Hinv) as HNb.
  pose proof (heldBlock_facts _ _ _ (Hheld p Hp)) as Fp. cbn zeta in Fp.
  destruct (Hheld p Hp) as (Hhd & Hfit & Hint & Hal).
  pose proof Hinv as (Hwu & Hwa & Hcu & Hca & Hlen & _ & Hent & _).
  unfold deallocate. rewrite Hinit. cbn [negb].
  set (h := BlockGuard.headerFromUserData p) in *.
  set (sp := AllocBlockHeader.startPage m h) in *.
  set (pc := AllocBlockHeader.pageCount m h) in *.
  destruct Hint as (HvH & HvF & HvP & _ & _ & HZ & _).
  rewrite <- Hhd in HvH, HvF, HvP, HZ.
  rewrite HvH. cbn [bind ALLOC_ASSERT]. rewrite HvF. cbn [bind ALLOC_ASSERT].
  rewrite HvP. cbn [bind ALLOC_ASSERT]. rewrite HZ, Z.eqb_refl.
  cbn [bind ALLOC_ASSERT].
  rewrite (u32_small (sp + pc)) by lia.
  replace (sp + pc <=? totalPages pa) with true
    by (symmetry; apply Z.leb_le; lia).
  cbn [bind ALLOC_ASSERT]. rewrite HvQ. cbn [bind ALLOC_ASSERT].
  destruct (add_returns (quarantine pa) sp pc
              (AllocBlockHeader.requestedSize m h) (zoneIndex pa) HQ)
    as (q & ev & Eadd).
  rewrite Eadd. cbn [bind].
  destruct (clearRange_spec (bitmapAllocated pa) sp pc)
    as (bA & EA & _); try lia; [exact Hwa|].
  destruct (add_active _ _ _ _ _ _ _ Hlen Eadd) as (_ & s & _ & Hsurv).
  destruct ev as [e|].
  - destruct Hsurv as (o & Ho & Hao & _).
    destruct (Hent o e Ho Hao) as (He0 & He1 & He2 & _).
    unfold evictFromQuarantine. cbn [withQuarantine bitmapInUse].
    destruct (clearRange_spec (bitmapInUse pa)
                (AllocQuarantineEntry.startPage e)
                (AllocQuarantineEntry.pageCount e))
      as (bU & EU & _); try lia; [exact Hwu|].
    rewrite EU. cbn [bind bitmapAllocated withQuarantine].
    rewrite EA. cbn [bind].
    eexists _, _. reflexivity.
  - cbn [bind withQuarantine bitmapAllocated]. rewrite EA. cbn [bind].
    eexists _, _. reflexivity.
Qed.

(** X19.  No assertion fires.  In every state of a client that keeps the
    contract, [allocate] and [calloc] return for every request of at most
    [maxRequest] bytes, and [deallocate] returns for every pointer the
    client holds, for the null pointer, and so long as the sequence
    counter of the quarantine has not reached its last value. *)
Theorem no_assertion_while_the_contract_is_kept (pa : PageAllocator.t)
    (m : mem) (live : list Z) :
  served pa m live ->
  (forall rs, 0 <= rs <= maxRequest ->
     exists pa' m' r, allocate pa m rs = Ok (pa', m', r)) /\
  (forall num elemSize,
     0 <= num -> 0 <= elemSize -> num * elemSize <= maxRequest ->
     exists pa' m' r, calloc pa m num elemSize = Ok (pa', m', r)) /\
  (forall p, In p live ->
     QuarantineTable.nextSequence (quarantine pa) < UINT32_MAX ->
     exists pa' m', deallocate pa m (Some p) = Ok (pa', m')) /\
  deallocate pa m None = Ok (pa, m).
Proof.
  intros H. apply served_MInv in H.
  split; [|split; [|split]].
  - intros rs Hrs. apply (allocate_returns pa m live rs H Hrs).
  - intros num es Hn He Hmax. unfold calloc.
    destruct ((num >? 0) && (es >? SIZE_MAX / num));
      [eexists _, _, _; reflexivity|].
    assert (Hprod : 0 <= num * es) by (apply Z.mul_nonneg_nonneg; lia).
    rewrite usize_small
      by (unfold maxRequest, ALLOC_PAGE_SIZE in Hmax; lia).
    destruct (allocate_returns pa m live (num * es) H (conj Hprod Hmax))
      as (pa' & m' & r & E).
    rewrite E. cbn [bind]. destruct r; eexists _, _, _; reflexivity.
  - intros p Hp Hwrap. apply (deallocate_returns pa m live p H Hp Hwrap).
  - reflexivity.
Qed.

(** ** Instances *)

(** The zone of the examples, one block held and one in quarantine. *)
Lemma checks_pass_while_the_contract_is_kept_witness :
  served (fst oneFreed) (snd oneFreed) [base + 1056] /\
  (verifyQuarantine (fst oneFreed) (snd oneFreed) = Ok true /\
   verifyAllocated (fst oneFreed) (snd oneFreed) = Ok true /\
   runChecks (fst oneFreed) (snd oneFreed) = Ok true).
Proof.
  split; [exact servedFreed|].
  exact (checks_pass_while_the_contract_is_kept (fst oneFreed)
           (snd oneFreed) [base + 1056] servedFreed).
Defined.

(** The same state. *)
Lemma no_assertion_while_the_contract_is_kept_witness :
  served (fst oneFreed) (snd oneFreed) [base + 1056] /\
  ((forall rs, 0 <= rs <= maxRequest ->
      exists pa' m' r,
        allocate (fst oneFreed) (snd oneFreed) rs = Ok (pa', m', r)) /\
   (forall num elemSize,
      0 <= num -> 0 <= elemSize -> num * elemSize <= maxRequest ->
      exists pa' m' r,
        calloc (fst oneFreed) (snd oneFreed) num elemSize
        = Ok (pa', m', r)) /\
   (forall p, In p [base + 1056] ->
      QuarantineTable.nextSequence (quarantine (fst oneFreed)) < UINT32_MAX ->
      exists pa' m',
        deallocate (fst oneFreed) (snd oneFreed) (Some p) = Ok (pa', m')) /\
   deallocate (fst oneFreed) (snd oneFreed) None
   = Ok (fst oneFreed, snd oneFreed)).
Proof.
  split; [exact servedFreed|].
  exact (no_assertion_while_the_contract_is_kept (fst oneFreed)
           (snd oneFreed) [base + 1056] servedFreed).
Defined.

(** ** What the client can rely on *)

(** X20.  Held blocks do not overlap.  Two different pointers the client holds
    belong to blocks of disjoint pages: header, payload, footer and padding
    of the one lie entirely before or entirely behind those of the other.
    Every payload lies inside the region of the zone, behind a header and
    in front of a footer, and the zone owns the pointer. *)
Theorem held_blocks_do_not_overlap (pa : PageAllocator.t) (m : mem)
    (live : list Z) (p q : Z) :
  served pa m live -> In p live -> In q live -> p <> q ->
  let hp := BlockGuard.headerFromUserData p in
  let hq := BlockGuard.headerFromUserData q in
  (hp + AllocBlockHeader.pageCount m hp * ALLOC_PAGE_SIZE <= hq \/
   hq + AllocBlockHeader.pageCount m hq * ALLOC_PAGE_SIZE <= hp) /\
  (forall x, inPayload m p x -> ~ inPayload m q x) /\
  (forall x, inPayload m p x ->
     hp + ALLOC_HEADER_SIZE <= x
     < hp + AllocBlockHeader.pageCount m hp * ALLOC_PAGE_SIZE
       - ALLOC_FOOTER_SIZE) /\
  baseAddress pa <= hp /\
  hp + AllocBlockHeader.pageCount m hp * ALLOC_PAGE_SIZE
  <= baseAddress pa + totalPages pa * ALLOC_PAGE_SIZE /\
  ownsPointer pa (Some p) = true.
Proof.
  intros H Hp Hq Hne. apply served_MInv in H. cbn zeta.
  pose proof H as (Hinv & Hinit & _ & _ & Hheld & _).
  pose proof (ZInv_pages pa Hinv) as HNb.
  pose proof (heldBlock_facts _ _ _ (Hheld p Hp)) as Fp.
  pose proof (heldBlock_facts _ _ _ (Hheld q Hq)) as Fq.
  pose proof (held_apart pa m live p q H Hp Hq Hne) as Hap.
  cbn zeta in Fp, Fq, Hap.
  unfold inPayload, ALLOC_HEADER_SIZE, ALLOC_FOOTER_SIZE, ALLOC_PAGE_SIZE.
  splits; try lia.
  unfold ownsPointer. rewrite Hinit. cbn [negb].
  rewrite (usize_small (totalPages pa * ALLOC_PAGE_SIZE))
    by (unfold ALLOC_PAGE_SIZE; lia).
  unfold ALLOC_HEADER_SIZE, ALLOC_PAGE_SIZE.
  apply andb_true_iff. split;
    [rewrite Z.geb_leb; apply Z.leb_le|apply Z.ltb_lt]; lia.
Qed.

(** The memory a [deallocate] that returns leaves alone: every byte that
    is neither in the payload of the freed block nor in the pages of an
    entry the quarantine held. *)
Lemma deallocate_frame pa m live p pa' m' :
  MInv pa m live -> In p live ->
  deallocate pa m (Some p) = Ok (pa', m') ->
  (forall x, inPayload m p x ->
     load8 m' x = ALLOC_PATTERN_QUARANTINE_FILL) /\
  (forall x, ~ inPayload m p x ->
     (forall k e,
        QuarantineTable.entries (quarantine pa) !! k = Some e ->
        AllocQuarantineEntry.active e <> 0 ->
        ~ (pageAddress pa (AllocQuarantineEntry.startPage e) <= x
           < pageAddress pa (AllocQuarantineEntry.startPage e)
             + AllocQuarantineEntry.pageCount e * 1024)) ->
     load8 m' x = load8 m x).
Proof.
  intros HM Hp H.
  pose proof HM as (Hinv & Hinit & Hzi & HQ & Hheld & Hdisj & Hcov & Hquar).
  pose proof (heldBlock_facts _ _ _ (Hheld p Hp)) as Fp. cbn zeta in Fp.
  destruct (deallocate_some _ _ _ _ _ Hinit H)
    as (_ & _ & _ & _ & _ & _ & q & ev & inUse & allocated & m2 & Eadd & Hev
        & EA & Hm' & Hpa').
  pose proof Hinv as (_ & _ & _ & _ & Hlen & _).
  destruct (add_active _ _ _ _ _ _ _ Hlen Eadd) as (_ & s & Hs & Hsurv).
  unfold inPayload.
  set (h := BlockGuard.headerFromUserData p) in *.
  set (sp := AllocBlockHeader.startPage m h) in *.
  set (pc := AllocBlockHeader.pageCount m h) in *.
  set (rs := AllocBlockHeader.requestedSize m h) in *.
  assert (Hm2 : AllocBlockHeader.requestedSize m2 h = rs /\
            forall x,
              (forall k e,
                 QuarantineTable.entries (quarantine pa) !! k = Some e ->
                 AllocQuarantineEntry.active e <> 0 ->
                 ~ (pageAddress pa (AllocQuarantineEntry.startPage e) <= x
                    < pageAddress pa (AllocQuarantineEntry.startPage e)
                      + AllocQuarantineEntry.pageCount e * 1024)) ->
              load8 m2 x = load8 m x).
  { destruct ev as [e|]; [|destruct Hev as [_ ->]; split; reflexivity].
    destruct Hev as [_ Hm2]. destruct Hsurv as (o & Ho & Hao & _).
    pose proof (entry_facts pa m o e Hinv Ho Hao (Hquar o e Ho Hao)) as Fe.
    cbn zeta in Fe.
    pose proof (ZInv_pages pa Hinv) as HNb.
    rewrite usize_small in Hm2 by (unfold ALLOC_PAGE_SIZE; lia).
    unfold ALLOC_PAGE_SIZE in Hm2.
    pose proof (held_entry_apart pa m live p o e HM Hp Ho Hao) as Hap.
    cbn zeta in Hap. fold h in Hap. fold sp in Hap. fold pc in Hap.
    split.
    - unfold rs, AllocBlockHeader.requestedSize.
      apply (agree_load32 m2 m h 32); [|lia|lia].
      rewrite Hm2. unfold BlockGuard.fillClearedPages.
      apply agree_memset. lia.
    - intros x Hx. rewrite Hm2. unfold BlockGuard.fillClearedPages.
      rewrite load8_memset.
      rewrite in_range_false by (apply (Hx o e Ho Hao)). reflexivity. }
  destruct Hm2 as [Hrs2 Hm2]. rewrite Hrs2 in Hm'.
  split.
  - intros x Hx. rewrite Hm'. unfold BlockGuard.fillQuarantinePayload.
    rewrite load8_memset. rewrite (in_range_true p rs x Hx). reflexivity.
  - intros x Hnp Hne. rewrite Hm'. unfold BlockGuard.fillQuarantinePayload.
    rewrite load8_memset. rewrite (in_range_false p rs x Hnp).
    apply Hm2. exact Hne.
Qed.

(** The memory a successful [allocate] leaves alone: the pages of every
    held and of every quarantined block, the block it hands out lying in
    pages that were free. *)
Lemma allocate_frame pa m live rs pa' m' r :
  MInv pa m live -> 0 <= rs <= maxRequest ->
  allocate pa m rs = Ok (pa', m', r) ->
  forall x,
    (exists q, In q live /\
       q - 32 <= x
       < q - 32 + AllocBlockHeader.pageCount m
                    (BlockGuard.headerFromUserData q) * 1024) \/
    (exists k e,
       QuarantineTable.entries (quarantine pa) !! k = Some e /\
       AllocQuarantineEntry.active e <> 0 /\
       pageAddress pa (AllocQuarantineEntry.startPage e) <= x
       < pageAddress pa (AllocQuarantineEntry.startPage e)
         + AllocQuarantineEntry.pageCount e * 1024) ->
    load8 m' x = load8 m x.
Proof.
  intros HM Hrs H x Hx.
  destruct r as [p|];
    [|apply allocate_inv in H as [(_ & _ & ->)|(? & ? & ? & H)];
      [reflexivity|destruct H as (_ & _ & _ & _ & _ & _ & _ & H & _);
                   discriminate]].
  pose proof HM as (Hinv & _ & _ & _ & Hheld & _ & _ & Hquar).
  pose proof (ZInv_pages pa Hinv) as HNb.
  destruct (allocate_block _ _ _ _ _ _ Hinv Hrs H)
    as (sp & H0 & Hpc & Hfit & Hrun & Hh & _ & _ & _ & _ & _ & _ & _ & _ & _
        & _ & _ & _ & Hframe & _).
  cbn zeta in *. unfold ALLOC_PAGE_SIZE in *.
  destruct Hrun as (_ & _ & Hclear).
  pose proof Hinv as (_ & _ & _ & _ & _ & Hsub & _).
  apply Hframe.
  destruct Hx as [(q & Hq & Hx)|(k & e & Hk & Ha & Hx)].
  - pose proof (heldBlock_facts _ _ _ (Hheld q Hq)) as Fq. cbn zeta in Fq.
    destruct (Hheld q Hq) as (_ & _ & _ & Hal).
    assert (Hap : AllocBlockHeader.startPage m
                    (BlockGuard.headerFromUserData q)
                  + AllocBlockHeader.pageCount m
                      (BlockGuard.headerFromUserData q) <= sp \/
                  sp + pagesNeeded rs
                  <= AllocBlockHeader.startPage m
                       (BlockGuard.headerFromUserData q)).
    { apply ranges_apart; [lia|lia|].
      intros i Hi Hin. pose proof (Hclear i Hin) as Hc.
      rewrite (Hsub i) in Hc; [discriminate|lia|apply Hal; exact Hi]. }
    lia.
  - pose proof (entry_facts pa m k e Hinv Hk Ha (Hquar k e Hk Ha)) as Fe.
    cbn zeta in Fe.
    destruct Fe as (He0 & Hec & Hefit & Heh & _ & _ & Hebits).
    assert (Hap : AllocQuarantineEntry.startPage e
                  + AllocQuarantineEntry.pageCount e <= sp \/
                  sp + pagesNeeded rs <= AllocQuarantineEntry.startPage e).
    { apply ranges_apart; [lia|lia|].
      intros i Hi Hin. destruct (Hebits i Hi) as [Hu _].
      rewrite (Hclear i Hin) in Hu. discriminate. }
    lia.
Qed.

Lemma calloc_frame pa m live num es pa' m' r :
  MInv pa m live -> 0 <= num -> 0 <= es -> num * es <= maxRequest ->
  calloc pa m num es = Ok (pa', m', r) ->
  forall x,
    (exists q, In q live /\
       q - 32 <= x
       < q - 32 + AllocBlockHeader.pageCount m
                    (BlockGuard.headerFromUserData q) * 1024) \/
    (exists k e,
       QuarantineTable.entries (quarantine pa) !! k = Some e /\
       AllocQuarantineEntry.active e <> 0 /\
       pageAddress pa (AllocQuarantineEntry.startPage e) <= x
       < pageAddress pa (AllocQuarantineEntry.startPage e)
         + AllocQuarantineEntry.pageCount e * 1024) ->
    load8 m' x = load8 m x.
Proof.
  intros HM Hn He Hmax. unfold calloc.
  destruct ((num >? 0) && (es >? SIZE_MAX / num));
    [intros [= _ <- _]; reflexivity|].
  assert (Hprod : 0 <= num * es) by (apply Z.mul_nonneg_nonneg; lia).
  rewrite usize_small by (unfold maxRequest, ALLOC_PAGE_SIZE in Hmax; lia).
  destruct (allocate pa m (num * es)) as [[[pa1 m1] p]|] eqn:E;
    cbn [bind]; [|discriminate].
  pose proof (allocate_frame _ _ _ _ _ _ _ HM (conj Hprod Hmax) E) as Hfr.
  destruct p as [p|]; intros [= _ <- _] x Hx; [|apply Hfr; exact Hx].
  rewrite <- (Hfr x Hx). rewrite load8_memset.
  destruct ((p <=? x) && (x <? p + num * es)) eqn:Ein; [|reflexivity].
  exfalso. apply andb_true_iff in Ein as [H1 H2].
  apply Z.leb_le in H1. apply Z.ltb_lt in H2.
  (* [x] is in the payload of the new block, which [allocate] has written
     around: the old byte would have to be one of a free page *)
  pose proof HM as (Hinv & _ & _ & _ & Hheld & _ & _ & Hquar).
  pose proof (ZInv_pages pa Hinv) as HNb.
  destruct (allocate_block _ _ _ _ _ _ Hinv (conj Hprod Hmax) E)
    as (sp & H0 & Hpc & Hfit & Hrun & Hh & Hp & Hsz & _).
  cbn zeta in *.
  unfold ALLOC_HEADER_SIZE, ALLOC_FOOTER_SIZE, ALLOC_PAGE_SIZE in *.
  destruct Hrun as (_ & _ & Hclear).
  pose proof Hinv as (_ & _ & _ & _ & _ & Hsub & _).
  destruct Hx as [(q & Hq & Hx)|(k & e & Hk & Ha & Hx)].
  - pose proof (heldBlock_facts _ _ _ (Hheld q Hq)) as Fq. cbn zeta in Fq.
    destruct (Hheld q Hq) as (_ & _ & _ & Hal).
    assert (Hap : AllocBlockHeader.startPage m
                    (BlockGuard.headerFromUserData q)
                  + AllocBlockHeader.pageCount m
                      (BlockGuard.headerFromUserData q) <= sp \/
                  sp + pagesNeeded (num * es)
                  <= AllocBlockHeader.startPage m
                       (BlockGuard.headerFromUserData q)).
    { apply ranges_apart; [lia|lia|].
      intros i Hi Hin. pose proof (Hclear i Hin) as Hc.
      rewrite (Hsub i) in Hc; [discriminate|lia|apply Hal; exact Hi]. }
    lia.
  - pose proof (entry_facts pa m k e Hinv Hk Ha (Hquar k e Hk Ha)) as Fe.
    cbn zeta in Fe.
    destruct Fe as (He0 & Hec & Hefit & Heh & _ & _ & Hebits).
    assert (Hap : AllocQuarantineEntry.startPage e
                  + AllocQuarantineEntry.pageCount e <= sp \/
                  sp + pagesNeeded (num * es)
                  <= AllocQuarantineEntry.startPage e).
    { apply ranges_apart; [lia|lia|].
      intros i Hi Hin. destruct (Hebits i Hi) as [Hu _].
      rewrite (Hclear i Hin) in Hu. discriminate. }
    lia.
Qed.

(** X21.  [allocate] and [calloc] write to free pages only.  Whatever they
    return, no byte in the pages of a block the client holds, and no byte
    in the pages of a block in quarantine, is changed: the data of the
    client survives, and so do the header, the footer and the fill
    pattern of every quarantined block. *)
Theorem allocation_writes_to_free_pages_only (pa : PageAllocator.t)
    (m : mem) (live : list Z) (x : Z) :
  served pa m live ->
  (exists q, In q live /\
     BlockGuard.headerFromUserData q <= x
     < BlockGuard.headerFromUserData q
       + AllocBlockHeader.pageCount m (BlockGuard.headerFromUserData q)
         * ALLOC_PAGE_SIZE) \/
  (exists k e,
     QuarantineTable.entries (quarantine pa) !! k = Some e /\
     AllocQuarantineEntry.active e <> 0 /\
     pageAddress pa (AllocQuarantineEntry.startPage e) <= x
     < pageAddress pa (AllocQuarantineEntry.startPage e)
       + AllocQuarantineEntry.pageCount e * ALLOC_PAGE_SIZE) ->
  (forall rs pa' m' r,
     0 <= rs <= maxRequest -> allocate pa m rs = Ok (pa', m', r) ->
     load8 m' x = load8 m x) /\
  (forall num elemSize pa' m' r,
     0 <= num -> 0 <= elemSize -> num * elemSize <= maxRequest ->
     calloc pa m num elemSize = Ok (pa', m', r) ->
     load8 m' x = load8 m x).
Proof.
  intros H Hx. apply served_MInv in H.
  unfold BlockGuard.headerFromUserData, ALLOC_HEADER_SIZE, ALLOC_PAGE_SIZE
    in Hx.
  split.
  - intros rs pa' m' r Hrs E.
    apply (allocate_frame _ _ _ _ _ _ _ H Hrs E). exact Hx.
  - intros num es pa' m' r Hn He Hmax E.
    apply (calloc_frame _ _ _ _ _ _ _ _ H Hn He Hmax E). exact Hx.
Qed.

(** X22.  What [deallocate] does to the block it is given.  The block goes to
    the quarantine whole: its payload is filled with the quarantine
    pattern, its header and its footer still validate, an active entry of
    the table describes it, its pages stay marked in use and are no longer
    marked allocated, and no page is given back unless the table was
    full.  The blocks the client still holds are not written to. *)
Theorem deallocate_quarantines_the_block (pa : PageAllocator.t) (m : mem)
    (live : list Z) (p : Z) (pa' : PageAllocator.t) (m' : mem) :
  served pa m live -> In p live ->
  QuarantineTable.nextSequence (quarantine pa) < UINT32_MAX ->
  deallocate pa m (Some p) = Ok (pa', m') ->
  let h := BlockGuard.headerFromUserData p in
  let sp := AllocBlockHeader.startPage m h in
  let pc := AllocBlockHeader.pageCount m h in
  let rs := AllocBlockHeader.requestedSize m h in
  BlockGuard.validateQuarantinePayload m' p rs = true /\
  intactBlock pa' m' sp pc /\
  (exists k e,
     QuarantineTable.entries (quarantine pa') !! k = Some e /\
     AllocQuarantineEntry.active e = 1 /\
     AllocQuarantineEntry.startPage e = sp /\
     AllocQuarantineEntry.pageCount e = pc /\
     AllocQuarantineEntry.requestedSize e = rs /\
     AllocQuarantineEntry.freeSequence e
     = QuarantineTable.nextSequence (quarantine pa)) /\
  (forall i, sp <= i < sp + pc ->
     PageBitmap.bit (bitmapInUse pa') i = true /\
     PageBitmap.bit (bitmapAllocated pa') i = false) /\
  (QuarantineTable.activeCount (quarantine pa) < QuarantineTable.capacity ->
   bitmapInUse pa' = bitmapInUse pa /\
   freePagesCount pa' = freePagesCount pa) /\
  successfulFrees pa' = usize (successfulFrees pa + 1) /\
  (forall q x, In q live -> q <> p ->
     BlockGuard.headerFromUserData q <= x
     < BlockGuard.headerFromUserData q
       + AllocBlockHeader.pageCount m (BlockGuard.headerFromUserData q)
         * ALLOC_PAGE_SIZE ->
     load8 m' x = load8 m x).
Proof.
  intros H Hp Hwrap E. apply served_MInv in H. cbn zeta.
  pose proof (MInv_deallocate _ _ _ _ _ _ H Hp Hwrap E) as H'.
  pose proof H as (Hinv & Hinit & _ & _ & Hheld & _ & _ & Hquar).
  pose proof H' as (Hinv' & _ & _ & _ & _ & _ & _ & Hquar').
  pose proof (heldBlock_facts _ _ _ (Hheld p Hp)) as Fp. cbn zeta in Fp.
  destruct (deallocate_frame _ _ _ _ _ _ H Hp E) as [Hfill Hfr].
  destruct (deallocate_some _ _ _ _ _ Hinit E)
    as (_ & _ & _ & _ & _ & _ & q & ev & inUse & allocated & m2 & Eadd & Hev
        & EA & Hm' & Hpa').
  pose proof Hinv as (_ & _ & _ & _ & Hlen & _).
  destruct (add_active _ _ _ _ _ _ _ Hlen Eadd) as (_ & s & Hs & _).
  assert (Hq' : quarantine pa' = q) by (rewrite Hpa'; reflexivity).
  set (h := BlockGuard.headerFromUserData p) in *.
  set (sp := AllocBlockHeader.startPage m h) in *.
  set (pc := AllocBlockHeader.pageCount m h) in *.
  set (rs := AllocBlockHeader.requestedSize m h) in *.
  rewrite <- Hq' in Hs.
  pose proof (Hquar' s _ Hs ltac:(cbn; lia)) as Hint'.
  cbn [AllocQuarantineEntry.startPage AllocQuarantineEntry.pageCount]
    in Hint'.
  pose proof (entry_facts pa' m' s _ Hinv' Hs ltac:(cbn; lia) Hint') as Fe.
  cbn zeta in Fe.
  cbn [AllocQuarantineEntry.startPage AllocQuarantineEntry.pageCount] in Fe.
  splits.
  - apply validatePattern_range; [lia|]. intros x Hx. apply Hfill.
    unfold inPayload. fold h. fold rs. exact Hx.
  - exact Hint'.
  - eexists s, _. split; [exact Hs|]. cbn. splits; reflexivity.
  - apply Fe.
  - intros Hnf.
    apply (add_evicts_iff_full _ _ _ _ _ _ _ Eadd) in Hnf. subst ev.
    destruct Hev as [-> _]. rewrite Hpa'. split; reflexivity.
  - rewrite Hpa'. reflexivity.
  - intros q0 x Hq0 Hne Hx.
    pose proof (heldBlock_facts _ _ _ (Hheld q0 Hq0)) as Fq.
    cbn zeta in Fq.
    pose proof (held_apart pa m live q0 p H Hq0 Hp Hne) as Hap.
    cbn zeta in Hap. fold h in Hap. fold sp in Hap. fold pc in Hap.
    unfold ALLOC_PAGE_SIZE in Hx.
    apply Hfr.
    + unfold inPayload. fold h. fold rs. lia.
    + intros k e Hk Ha.
      pose proof (held_entry_apart pa m live q0 k e H Hq0 Hk Ha) as Hap'.
      pose proof (entry_facts pa m k e Hinv Hk Ha (Hquar k e Hk Ha)) as Fe'.
      cbn zeta in Hap', Fe'. lia.
Qed.

(** ** Instances *)

Lemma held_first : In (base + 32) [base + 1056; base + 32].
Proof. right. left. reflexivity. Qed.

Lemma held_second : In (base + 1056) [base + 1056; base + 32].
Proof. left. reflexivity. Qed.

(** The two blocks of the zone of the examples. *)
Lemma held_blocks_do_not_overlap_witness :
  served (zoneOf twoHeld) (memOf twoHeld) [base + 1056; base + 32] /\
  In (base + 1056) [base + 1056; base + 32] /\
  In (base + 32) [base + 1056; base + 32] /\
  base + 1056 <> base + 32 /\
  (let hp := BlockGuard.headerFromUserData (base + 1056) in
   let hq := BlockGuard.headerFromUserData (base + 32) in
   (hp + AllocBlockHeader.pageCount (memOf twoHeld) hp * ALLOC_PAGE_SIZE
    <= hq \/
    hq + AllocBlockHeader.pageCount (memOf twoHeld) hq * ALLOC_PAGE_SIZE
    <= hp) /\
   (forall x, inPayload (memOf twoHeld) (base + 1056) x ->
      ~ inPayload (memOf twoHeld) (base + 32) x) /\
   (forall x, inPayload (memOf twoHeld) (base + 1056) x ->
      hp + ALLOC_HEADER_SIZE <= x
      < hp + AllocBlockHeader.pageCount (memOf twoHeld) hp * ALLOC_PAGE_SIZE
        - ALLOC_FOOTER_SIZE) /\
   baseAddress (zoneOf twoHeld) <= hp /\
   hp + AllocBlockHeader.pageCount (memOf twoHeld) hp * ALLOC_PAGE_SIZE
   <= baseAddress (zoneOf twoHeld)
      + totalPages (zoneOf twoHeld) * ALLOC_PAGE_SIZE /\
   ownsPointer (zoneOf twoHeld) (Some (base + 1056)) = true).
Proof.
  assert (Hne : base + 1056 <> base + 32) by lia.
  split; [exact servedTwo|]. split; [exact held_second|].
  split; [exact held_first|]. split; [exact Hne|].
  exact (held_blocks_do_not_overlap (zoneOf twoHeld) (memOf twoHeld)
           [base + 1056; base + 32] (base + 1056) (base + 32)
           servedTwo held_second held_first Hne).
Defined.

(** A byte of the payload of the block held in the zone of the
    examples. *)
Lemma allocation_writes_to_free_pages_only_witness :
  served (zoneOf oneHeld) (memOf oneHeld) [base + 32] /\
  ((exists q, In q [base + 32] /\
      BlockGuard.headerFromUserData q <= base + 40
      < BlockGuard.headerFromUserData q
        + AllocBlockHeader.pageCount (memOf oneHeld)
            (BlockGuard.headerFromUserData q) * ALLOC_PAGE_SIZE) \/
   (exists k e,
      QuarantineTable.entries (quarantine (zoneOf oneHeld)) !! k = Some e /\
      AllocQuarantineEntry.active e <> 0 /\
      pageAddress (zoneOf oneHeld) (AllocQuarantineEntry.startPage e)
      <= base + 40
      < pageAddress (zoneOf oneHeld) (AllocQuarantineEntry.startPage e)
        + AllocQuarantineEntry.pageCount e * ALLOC_PAGE_SIZE)) /\
  ((forall rs pa' m' r,
      0 <= rs <= maxRequest ->
      allocate (zoneOf oneHeld) (memOf oneHeld) rs = Ok (pa', m', r) ->
      load8 m' (base + 40) = load8 (memOf oneHeld) (base + 40)) /\
   (forall num elemSize pa' m' r,
      0 <= num -> 0 <= elemSize -> num * elemSize <= maxRequest ->
      calloc (zoneOf oneHeld) (memOf oneHeld) num elemSize
      = Ok (pa', m', r) ->
      load8 m' (base + 40) = load8 (memOf oneHeld) (base + 40))).
Proof.
  assert (H : (exists q, In q [base + 32] /\
                 BlockGuard.headerFromUserData q <= base + 40
                 < BlockGuard.headerFromUserData q
                   + AllocBlockHeader.pageCount (memOf oneHeld)
                       (BlockGuard.headerFromUserData q)
                     * ALLOC_PAGE_SIZE) \/
              (exists k e,
                 QuarantineTable.entries (quarantine (zoneOf oneHeld)) !! k
                 = Some e /\
                 AllocQuarantineEntry.active e <> 0 /\
                 pageAddress (zoneOf oneHeld)
                   (AllocQuarantineEntry.startPage e) <= base + 40
                 < pageAddress (zoneOf oneHeld)
                     (AllocQuarantineEntry.startPage e)
                   + AllocQuarantineEntry.pageCount e * ALLOC_PAGE_SIZE)).
  { left. exists (base + 32). split; [left; reflexivity|].
    split; [vm_compute; discriminate|vm_compute; reflexivity]. }
  split; [exact servedOne|]. split; [exact H|].
  exact (allocation_writes_to_free_pages_only (zoneOf oneHeld)
           (memOf oneHeld) [base + 32] (base + 40) servedOne H).
Defined.

(** The first of the two blocks of the zone of the examples is given
    back. *)
Lemma deallocate_quarantines_the_block_witness :
  served (zoneOf twoHeld) (memOf twoHeld) [base + 1056; base + 32] /\
  In (base + 32) [base + 1056; base + 32] /\
  QuarantineTable.nextSequence (quarantine (zoneOf twoHeld)) < UINT32_MAX /\
  deallocate (zoneOf twoHeld) (memOf twoHeld) (Some (base + 32))
  = Ok (fst oneFreed, snd oneFreed) /\
  (let h := BlockGuard.headerFromUserData (base + 32) in
   let sp := AllocBlockHeader.startPage (memOf twoHeld) h in
   let pc := AllocBlockHeader.pageCount (memOf twoHeld) h in
   let rs := AllocBlockHeader.requestedSize (memOf twoHeld) h in
   BlockGuard.validateQuarantinePayload (snd oneFreed) (base + 32) rs
   = true /\
   intactBlock (fst oneFreed) (snd oneFreed) sp pc /\
   (exists k e,
      QuarantineTable.entries (quarantine (fst oneFreed)) !! k = Some e /\
      AllocQuarantineEntry.active e = 1 /\
      AllocQuarantineEntry.startPage e = sp /\
      AllocQuarantineEntry.pageCount e = pc /\
      AllocQuarantineEntry.requestedSize e = rs /\
      AllocQuarantineEntry.freeSequence e
      = QuarantineTable.nextSequence (quarantine (zoneOf twoHeld))) /\
   (forall i, sp <= i < sp + pc ->
      PageBitmap.bit (bitmapInUse (fst oneFreed)) i = true /\
      PageBitmap.bit (bitmapAllocated (fst oneFreed)) i = false) /\
   (QuarantineTable.activeCount (quarantine (zoneOf twoHeld))
    < QuarantineTable.capacity ->
    bitmapInUse (fst oneFreed) = bitmapInUse (zoneOf twoHeld) /\
    freePagesCount (fst oneFreed) = freePagesCount (zoneOf twoHeld)) /\
   successfulFrees (fst oneFreed)
   = usize (successfulFrees (zoneOf twoHeld) + 1) /\
   (forall q x, In q [base + 1056; base + 32] -> q <> base + 32 ->
      BlockGuard.headerFromUserData q <= x
      < BlockGuard.headerFromUserData q
        + AllocBlockHeader.pageCount (memOf twoHeld)
            (BlockGuard.headerFromUserData q) * ALLOC_PAGE_SIZE ->
      load8 (snd oneFreed) x = load8 (memOf twoHeld) x)).
Proof.
  split; [exact servedTwo|]. split; [exact held_first|].
  split; [exact twoHeld_sequences|]. split; [exact oneFreed_eq|].
  exact (deallocate_quarantines_the_block (zoneOf twoHeld) (memOf twoHeld)
           [base + 1056; base + 32] (base + 32) (fst oneFreed)
           (snd oneFreed) servedTwo held_first twoHeld_sequences
           oneFreed_eq).
Defined.

(** ** What the checks report *)

(** A block none of whose header and footer bytes is [x] is as intact
    after a store to [x] as before. *)
Lemma intactBlock_store8 pa m sp pc x v :
  intactBlock pa m sp pc ->
  x < pageAddress pa sp \/ pageAddress pa sp + pc * 1024 <= x ->
  intactBlock pa (store8 m x v) sp pc.
Proof.
  intros Hint Hx.
  destruct (intactBlock_geometry _ _ _ _ Hint) as (_ & _ & Hrs & _ & _ & Hsz).
  cbn zeta in *.
  apply (intactBlock_stable pa pa m (store8 m x v) sp pc eq_refl eq_refl
           Hint).
  intros y Hy. rewrite load8_store8.
  replace (y =? x) with false by (symmetry; apply Z.eqb_neq; lia).
  reflexivity.
Qed.

(** The scan of [verifyAllocated] stops at the held block whose footer has
    a changed byte. *)
Lemma verifyAllocated_loop_footer pa m live p x v fuel : forall i,
  MInv pa m live -> In p live ->
  BlockGuard.footerFromHeader m (BlockGuard.headerFromUserData p) <= x
  < BlockGuard.footerFromHeader m (BlockGuard.headerFromUserData p) + 32 ->
  u8 v <> load8 m x ->
  0 <= i <= AllocBlockHeader.startPage m (BlockGuard.headerFromUserData p) ->
  (forall q, In q live ->
     let sq := AllocBlockHeader.startPage m
                 (BlockGuard.headerFromUserData q) in
     let qc := AllocBlockHeader.pageCount m
                 (BlockGuard.headerFromUserData q) in
     sq + qc <= i \/ i <= sq) ->
  totalPages pa - i < Z.of_nat fuel ->
  verifyAllocated_loop fuel pa (store8 m x v) i = Ok false.
Proof.
  induction fuel as [|fuel IH]; intros i HM Hp Hx Hv Hi Hcut Hfuel;
    pose proof HM as (Hinv & _ & _ & _ & Hheld & Hdisj & Hcov & _);
    pose proof (ZInv_pages pa Hinv) as HNb;
    pose proof Hinv as (_ & Hwa & _ & Hca & _);
    pose proof (heldBlock_facts _ _ _ (Hheld p Hp)) as Fp; cbn zeta in Fp;
    [simpl in Hfuel; lia|].
  destruct (Hheld p Hp) as (Hhdp & _ & Hintp & Halp).
  destruct (intactBlock_geometry _ _ _ _ Hintp)
    as (_ & _ & _ & _ & Hfp & _).
  cbn zeta in Hfp. rewrite <- Hhdp in Hfp.
  pose proof Hx as Hx0. rewrite Hfp in Hx.
  set (hp := BlockGuard.headerFromUserData p) in *.
  set (sp := AllocBlockHeader.startPage m hp) in *.
  set (pc := AllocBlockHeader.pageCount m hp) in *.
  set (rs := AllocBlockHeader.requestedSize m hp) in *.
  cbn [verifyAllocated_loop].
  replace (i <? totalPages pa) with true by (symmetry; apply Z.ltb_lt; lia).
  rewrite test_spec by lia. cbn [bind].
  destruct (PageBitmap.bit (bitmapAllocated pa) i) eqn:Hbit; cbn [negb].
  - destruct (Hcov i ltac:(lia) Hbit) as (q & Hq & Hin).
    pose proof (heldBlock_facts _ _ _ (Hheld q Hq)) as Fq. cbn zeta in Fq.
    pose proof (Hcut q Hq) as Hc. cbn zeta in Hc.
    unfold blockPages in Hin. cbn zeta in Hin.
    set (hq := BlockGuard.headerFromUserData q) in *.
    assert (Hsq : AllocBlockHeader.startPage m hq = i) by lia.
    destruct (Hheld q Hq) as (Hhd & _ & Hint & _). fold hq in Hhd, Hint.
    rewrite Hsq in Hhd, Hint.
    destruct (Z.eq_dec q p) as [->|Hne].
    + (* the block with the changed footer *)
      subst hq. fold hp in Hhd, Hint, Hsq. rewrite <- Hhd.
      assert (Hah : agree (store8 m x v) m hp 32)
        by (apply agree_store8; lia).
      destruct (header_fields_agree _ _ _ Hah) as (E1 & E2 & _).
      fold rs in E1. fold sp in E2.
      destruct Hint as (HvH & HvF & _). rewrite <- Hhd in HvH, HvF.
      rewrite Hfp in HvF.
      rewrite (validateHeader_agree _ _ _ Hah), HvH. cbn [bind negb].
      rewrite E2. fold sp in Hsq. rewrite Hsq, Z.eqb_refl. cbn [negb orb].
      unfold BlockGuard.footerFromHeader. rewrite E1.
      unfold ALLOC_HEADER_SIZE.
      rewrite (validateFooter_store8 m (hp + 32 + rs) x v Hx Hv HvF).
      reflexivity.
    + (* another block, untouched *)
      pose proof (held_apart pa m live q p HM Hq Hp Hne) as Hap.
      cbn zeta in Hap. fold hq in Hap. fold hp in Hap. fold sp in Hap.
      fold pc in Hap.
      assert (Hint' : intactBlock pa (store8 m x v) i
                        (AllocBlockHeader.pageCount m hq)).
      { apply intactBlock_store8; [exact Hint|]. rewrite <- Hhd. lia. }
      rewrite <- Hhd.
      destruct Hint' as (HvH & HvF & HvP & HS & HP & _).
      rewrite <- Hhd in HvH, HvF, HvP, HS, HP.
      rewrite HvH. cbn [bind negb]. rewrite HS, Z.eqb_refl. cbn [negb orb].
      rewrite HvF. cbn [bind negb]. rewrite HvP. cbn [negb]. rewrite HP.
      rewrite u16_small by lia.
      apply IH; try assumption; [lia| |lia].
      intros q' Hq'. cbn zeta.
      destruct (Z.eq_dec q' q) as [->|Hne']; [fold hq; lia|].
      pose proof (held_apart pa m live q' q HM Hq' Hq Hne') as Hap'.
      cbn zeta in Hap'. fold hq in Hap'. lia.
  - rewrite u16_small by lia.
    assert (Hisp : i <> sp).
    { intros ->. rewrite (Halp sp) in Hbit by (fold hp; fold sp; fold pc; lia).
      discriminate. }
    apply IH; try assumption; [lia| |lia].
    intros q Hq. cbn zeta.
    pose proof (Hcut q Hq) as Hc. cbn zeta in Hc.
    destruct (Hheld q Hq) as (_ & _ & _ & Hal).
    destruct (Z.eq_dec (AllocBlockHeader.startPage m
                          (BlockGuard.headerFromUserData q)) i) as [E|E];
      [|lia].
    pose proof (heldBlock_facts _ _ _ (Hheld q Hq)) as Fq. cbn zeta in Fq.
    rewrite (Hal i) in Hbit by lia. discriminate.
Qed.

(** X23.  A changed byte in a held block is reported.  If one byte of the footer
    of a block the client holds takes another value, [verifyAllocated]
    returns false; and [deallocate] of the block stops at an assertion as
    soon as one byte of its header or of its footer has changed. *)
Theorem changed_guard_byte_is_reported (pa : PageAllocator.t) (m : mem)
    (live : list Z) (p x v : Z) :
  served pa m live -> In p live -> u8 v <> load8 m x ->
  let header := BlockGuard.headerFromUserData p in
  let footer := BlockGuard.footerFromHeader m header in
  (footer <= x < footer + ALLOC_FOOTER_SIZE ->
   verifyAllocated pa (store8 m x v) = Ok false /\
   deallocate pa (store8 m x v) (Some p) = Fatal) /\
  (header <= x < header + ALLOC_HEADER_SIZE ->
   deallocate pa (store8 m x v) (Some p) = Fatal).
Proof.
  intros H Hp Hv. apply served_MInv in H. cbn zeta.
  pose proof H as (Hinv & Hinit & _ & _ & Hheld & _).
  pose proof (ZInv_pages pa Hinv) as HNb.
  pose proof (heldBlock_facts _ _ _ (Hheld p Hp)) as Fp. cbn zeta in Fp.
  destruct (Hheld p Hp) as (Hhd & _ & Hint & _).
  destruct (intactBlock_geometry _ _ _ _ Hint) as (_ & _ & _ & _ & Hf & _).
  cbn zeta in Hf. rewrite <- Hhd in Hf.
  destruct Hint as (HvH & HvF & _). rewrite <- Hhd in HvH, HvF.
  unfold ALLOC_HEADER_SIZE, ALLOC_FOOTER_SIZE.
  split.
  - intros Hx. split.
    + unfold verifyAllocated.
      apply (verifyAllocated_loop_footer pa m live p x v); try assumption.
      * lia.
      * intros q Hq. cbn zeta.
        pose proof (heldBlock_facts _ _ _ (Hheld q Hq)) as Fq.
        cbn zeta in Fq. lia.
      * rewrite Z2Nat.id by lia. lia.
    + rewrite Hf in Hx, HvF. unfold deallocate. rewrite Hinit. cbn [negb].
      assert (Hah : agree (store8 m x v) m (BlockGuard.headerFromUserData p)
                      32) by (apply agree_store8; lia).
      destruct (header_fields_agree _ _ _ Hah) as (E1 & _).
      rewrite (validateHeader_agree _ _ _ Hah), HvH. cbn [bind ALLOC_ASSERT].
      unfold BlockGuard.footerFromHeader. rewrite E1.
      unfold ALLOC_HEADER_SIZE.
      rewrite (validateFooter_store8 m _ x v Hx Hv HvF). reflexivity.
  - intros Hx. unfold deallocate. rewrite Hinit. cbn [negb].
    rewrite (validateHeader_store8 m _ x v Hx Hv HvH). reflexivity.
Qed.

(** The loop of [verifyQuarantine] stops at the entry whose block has a
    changed header or footer byte. *)
Lemma verifyQuarantine_loop_changed pa m live k e x v n : forall i,
  MInv pa m live ->
  QuarantineTable.entries (quarantine pa) !! k = Some e ->
  AllocQuarantineEntry.active e <> 0 ->
  (let h := pageAddress pa (AllocQuarantineEntry.startPage e) in
   h <= x < h + 32 \/
   BlockGuard.footerFromHeader m h <= x
   < BlockGuard.footerFromHeader m h + 32) ->
  u8 v <> load8 m x ->
  0 <= i <= Z.of_nat k -> Z.of_nat k < i + Z.of_nat n ->
  verifyQuarantine_loop n pa (store8 m x v) i = Ok false.
Proof.
  induction n as [|n IH]; intros i HM Hk Ha Hx Hv Hi Hn; [lia|].
  pose proof HM as (Hinv & _ & _ & _ & _ & _ & _ & Hquar).
  pose proof Hinv as (_ & _ & _ & _ & Hlen & _ & _ & Hdis & _).
  pose proof (lookup_lt_Some _ _ _ Hk) as Hkl.
  rewrite Hlen, capacity_nat in Hkl.
  pose proof (entry_facts pa m k e Hinv Hk Ha (Hquar k e Hk Ha)) as Fe.
  pose proof Hx as Hx0.
  cbn zeta in Fe, Hx.
  destruct (intactBlock_geometry _ _ _ _ (Hquar k e Hk Ha))
    as (_ & _ & _ & _ & Hf & _).
  cbn zeta in Hf. rewrite Hf in Hx.
  cbn [verifyQuarantine_loop]. unfold QuarantineTable.entryAt.
  replace (i <? ALLOC_QUARANTINE_CAPACITY) with true
    by (symmetry; apply Z.ltb_lt; unfold ALLOC_QUARANTINE_CAPACITY; lia).
  cbn [ALLOC_ASSERT bind].
  assert (Hki : QuarantineTable.entries (quarantine pa) !! Z.to_nat i
                = Some (QuarantineTable.entry (quarantine pa) i)).
  { apply entry_in_range. rewrite Hlen, capacity_nat. lia. }
  destruct (Z.eq_dec i (Z.of_nat k)) as [->|Hne].
  - rewrite Nat2Z.id in Hki. rewrite Hk in Hki. injection Hki as <-.
    destruct (Z.eqb_spec (AllocQuarantineEntry.active e) 0) as [|_];
      [contradiction|].
    destruct (Hquar k e Hk Ha) as (HvH & HvF & _). rewrite Hf in HvF.
    set (h := pageAddress pa (AllocQuarantineEntry.startPage e)) in *.
    destruct Hx as [Hx|Hx].
    + rewrite (validateHeader_store8 m h x v Hx Hv HvH). reflexivity.
    + assert (Hah : agree (store8 m x v) m h 32)
        by (apply agree_store8; lia).
      destruct (header_fields_agree _ _ _ Hah) as (E1 & _).
      rewrite (validateHeader_agree _ _ _ Hah), HvH. cbn [bind negb].
      unfold BlockGuard.footerFromHeader. rewrite E1.
      unfold ALLOC_HEADER_SIZE.
      rewrite (validateFooter_store8 m _ x v Hx Hv HvF). reflexivity.
  - destruct (Z.eqb_spec (AllocQuarantineEntry.active
                            (QuarantineTable.entry (quarantine pa) i)) 0)
      as [Hz|Hnz].
    + apply IH; try assumption; lia.
    + set (e' := QuarantineTable.entry (quarantine pa) i) in *.
      pose proof (entry_facts pa m _ e' Hinv Hki Hnz (Hquar _ e' Hki Hnz))
        as Fe'.
      cbn zeta in Fe'.
      assert (Hap : AllocQuarantineEntry.startPage e'
                    + AllocQuarantineEntry.pageCount e'
                    <= AllocQuarantineEntry.startPage e \/
                    AllocQuarantineEntry.startPage e
                    + AllocQuarantineEntry.pageCount e
                    <= AllocQuarantineEntry.startPage e').
      { apply ranges_apart; [lia|lia|].
        intros j Hj. apply (Hdis (Z.to_nat i) k e' e Hki Hk); try assumption.
        lia. }
      assert (Hint' : intactBlock pa (store8 m x v)
                        (AllocQuarantineEntry.startPage e')
                        (AllocQuarantineEntry.pageCount e')).
      { apply intactBlock_store8; [apply (Hquar _ e' Hki Hnz)|]. lia. }
      destruct Hint' as (HvH & HvF & HvP & _).
      rewrite HvH. cbn [bind negb]. rewrite HvF. cbn [bind negb].
      rewrite HvP. cbn [negb].
      apply IH; try assumption; lia.
Qed.

(** X24.  A write to a freed block is reported.  If one byte of the header or of
    the footer of a quarantined block takes another value,
    [verifyQuarantine] and [runChecks] return false, and the next
    [deallocate] of a held block stops at its assertion. *)
Theorem changed_quarantine_byte_is_reported (pa : PageAllocator.t)
    (m : mem) (live : list Z) (k : nat) (e : AllocQuarantineEntry.t)
    (x v : Z) :
  served pa m live ->
  QuarantineTable.entries (quarantine pa) !! k = Some e ->
  AllocQuarantineEntry.active e <> 0 ->
  u8 v <> load8 m x ->
  let header := pageAddress pa (AllocQuarantineEntry.startPage e) in
  let footer := BlockGuard.footerFromHeader m header in
  header <= x < header + ALLOC_HEADER_SIZE \/
  footer <= x < footer + ALLOC_FOOTER_SIZE ->
  verifyQuarantine pa (store8 m x v) = Ok false /\
  runChecks pa (store8 m x v) = Ok false /\
  forall p, In p live -> deallocate pa (store8 m x v) (Some p) = Fatal.
Proof.
  intros H Hk Ha Hv header footer Hx. apply served_MInv in H.
  pose proof H as (Hinv & Hinit & _ & _ & Hheld & _ & _ & Hquar).
  pose proof Hinv as (_ & _ & _ & _ & Hlen & _).
  pose proof (lookup_lt_Some _ _ _ Hk) as Hkl.
  rewrite Hlen, capacity_nat in Hkl.
  assert (HvQ : verifyQuarantine pa (store8 m x v) = Ok false).
  { unfold verifyQuarantine.
    apply (verifyQuarantine_loop_changed pa m live k e x v); try assumption.
    - lia.
    - rewrite capacity_nat. lia. }
  split; [exact HvQ|]. split; [unfold runChecks; rewrite HvQ; reflexivity|].
  intros p Hp.
  pose proof (ZInv_pages pa Hinv) as HNb.
  pose proof (heldBlock_facts _ _ _ (Hheld p Hp)) as Fp. cbn zeta in Fp.
  pose proof (entry_facts pa m k e Hinv Hk Ha (Hquar k e Hk Ha)) as Fe.
  cbn zeta in Fe.
  destruct (intactBlock_geometry _ _ _ _ (Hquar k e Hk Ha))
    as (_ & _ & _ & _ & Hf & _).
  cbn zeta in Hf. unfold footer, header in Hx. rewrite Hf in Hx.
  unfold ALLOC_HEADER_SIZE, ALLOC_FOOTER_SIZE in Hx.
  pose proof (held_entry_apart pa m live p k e H Hp Hk Ha) as Hap.
  cbn zeta in Hap.
  destruct (Hheld p Hp) as (Hhd & Hfit & Hint & _).
  assert (Hint' : intactBlock pa (store8 m x v)
                    (AllocBlockHeader.startPage m
                       (BlockGuard.headerFromUserData p))
                    (AllocBlockHeader.pageCount m
                       (BlockGuard.headerFromUserData p))).
  { apply intactBlock_store8; [exact Hint|]. lia. }
  destruct Hint' as (HvH & HvF & HvP & HS & HP & HZ & _).
  rewrite <- Hhd in HvH, HvF, HvP, HS, HP, HZ.
  unfold deallocate. rewrite Hinit. cbn [negb].
  rewrite HvH. cbn [bind ALLOC_ASSERT]. rewrite HvF. cbn [bind ALLOC_ASSERT].
  rewrite HvP. cbn [bind ALLOC_ASSERT]. rewrite HZ, Z.eqb_refl.
  cbn [bind ALLOC_ASSERT]. rewrite HS, HP.
  rewrite (u32_small (_ + _)) by lia.
  replace (_ <=? totalPages pa) with true by (symmetry; apply Z.leb_le; lia).
  cbn [bind ALLOC_ASSERT]. rewrite HvQ. reflexivity.
Qed.

(** ** Instances *)

Lemma held_only : In (base + 32) [base + 32].
Proof. left. reflexivity. Qed.

(** Byte 4 of the footer of the block held in the zone of the examples,
    the low byte of the requested size. *)
Lemma changed_guard_byte_is_reported_witness :
  served (zoneOf oneHeld) (memOf oneHeld) [base + 32] /\
  In (base + 32) [base + 32] /\
  u8 0 <> load8 (memOf oneHeld) (base + 136) /\
  (let header := BlockGuard.headerFromUserData (base + 32) in
   let footer := BlockGuard.footerFromHeader (memOf oneHeld) header in
   (footer <= base + 136 < footer + ALLOC_FOOTER_SIZE ->
    verifyAllocated (zoneOf oneHeld) (store8 (memOf oneHeld) (base + 136) 0)
    = Ok false /\
    deallocate (zoneOf oneHeld) (store8 (memOf oneHeld) (base + 136) 0)
      (Some (base + 32)) = Fatal) /\
   (header <= base + 136 < header + ALLOC_HEADER_SIZE ->
    deallocate (zoneOf oneHeld) (store8 (memOf oneHeld) (base + 136) 0)
      (Some (base + 32)) = Fatal)).
Proof.
  assert (H : u8 0 <> load8 (memOf oneHeld) (base + 136))
    by (vm_compute; discriminate).
  split; [exact servedOne|]. split; [exact held_only|]. split; [exact H|].
  exact (changed_guard_byte_is_reported (zoneOf oneHeld) (memOf oneHeld)
           [base + 32] (base + 32) (base + 136) 0 servedOne held_only H).
Defined.

Lemma oneFreed_entry :
  QuarantineTable.entries (quarantine (fst oneFreed)) !! 0%nat
  = Some (AllocQuarantineEntry.mk 0 1 100 1 (-1) 0 1 0).
Proof. vm_compute. reflexivity. Qed.

(** Byte 4 of the header of the block in quarantine in the zone of the
    examples. *)
Lemma changed_quarantine_byte_is_reported_witness :
  served (fst oneFreed) (snd oneFreed) [base + 1056] /\
  QuarantineTable.entries (quarantine (fst oneFreed)) !! 0%nat
  = Some (AllocQuarantineEntry.mk 0 1 100 1 (-1) 0 1 0) /\
  AllocQuarantineEntry.active (AllocQuarantineEntry.mk 0 1 100 1 (-1) 0 1 0)
  <> 0 /\
  u8 0 <> load8 (snd oneFreed) (base + 4) /\
  (let header :=
     pageAddress (fst oneFreed)
       (AllocQuarantineEntry.startPage
          (AllocQuarantineEntry.mk 0 1 100 1 (-1) 0 1 0)) in
   let footer := BlockGuard.footerFromHeader (snd oneFreed) header in
   header <= base + 4 < header + ALLOC_HEADER_SIZE \/
   footer <= base + 4 < footer + ALLOC_FOOTER_SIZE) /\
  (verifyQuarantine (fst oneFreed) (store8 (snd oneFreed) (base + 4) 0)
   = Ok false /\
   runChecks (fst oneFreed) (store8 (snd oneFreed) (base + 4) 0)
   = Ok false /\
   forall p, In p [base + 1056] ->
     deallocate (fst oneFreed) (store8 (snd oneFreed) (base + 4) 0) (Some p)
     = Fatal).
Proof.
  assert (H3 : AllocQuarantineEntry.active
                 (AllocQuarantineEntry.mk 0 1 100 1 (-1) 0 1 0) <> 0)
    by (cbn; lia).
  assert (H4 : u8 0 <> load8 (snd oneFreed) (base + 4))
    by (vm_compute; discriminate).
  assert (H5 : let header :=
                 pageAddress (fst oneFreed)
                   (AllocQuarantineEntry.startPage
                      (AllocQuarantineEntry.mk 0 1 100 1 (-1) 0 1 0)) in
               let footer :=
                 BlockGuard.footerFromHeader (snd oneFreed) header in
               header <= base + 4 < header + ALLOC_HEADER_SIZE \/
               footer <= base + 4 < footer + ALLOC_FOOTER_SIZE).
  { left. split; [vm_compute; discriminate|vm_compute; reflexivity]. }
  split; [exact servedFreed|]. split; [exact oneFreed_entry|].
  split; [exact H3|]. split; [exact H4|]. split; [exact H5|].
  exact (changed_quarantine_byte_is_reported (fst oneFreed) (snd oneFreed)
           [base + 1056] 0%nat
           (AllocQuarantineEntry.mk 0 1 100 1 (-1) 0 1 0) (base + 4) 0
           servedFreed oneFreed_entry H3 H4 H5).
Defined.

(** ** The size queries *)

Lemma init_counters start size zone pa :
  init start size zone = Ok pa ->
  minEverFreePages pa = freePagesCount pa.
Proof.
  unfold init, ALLOC_ASSERT.
  destruct (negb (start =? 0)); cbn [bind]; [|discriminate].
  destruct (size >=? ALLOC_PAGE_SIZE); cbn [bind]; [|discriminate].
  destruct (u16 (size / ALLOC_PAGE_SIZE) >? 0); cbn [bind]; [|discriminate].
  destruct (u16 (size / ALLOC_PAGE_SIZE) <=? ALLOC_MAX_PAGES_PER_ZONE);
    cbn [bind]; [|discriminate].
  destruct (PageBitmap.init (u16 (size / ALLOC_PAGE_SIZE))) as [b|];
    cbn [bind]; [|discriminate].
  intros [= <-]. reflexivity.
Qed.

Lemma ZInv_free_range pa :
  ZInv pa -> 0 <= freePagesCount pa <= totalPages pa.
Proof.
  intros Hinv. pose proof (ZInv_pages pa Hinv) as HNb.
  destruct Hinv as (_ & _ & _ & _ & _ & _ & _ & _ & Hcnt).
  pose proof (countZ_bounds (PageBitmap.bit (bitmapInUse pa))
                (Z.to_nat (totalPages pa)) 0) as Hb.
  rewrite Z2Nat.id in Hb by lia. lia.
Qed.

Lemma allocate_low_water pa m live rs pa' m' r :
  MInv pa m live -> 0 <= rs <= maxRequest ->
  allocate pa m rs = Ok (pa', m', r) ->
  0 <= minEverFreePages pa <= freePagesCount pa ->
  0 <= minEverFreePages pa' <= freePagesCount pa'.
Proof.
  intros HM Hrs H Hlow. pose proof HM as (Hinv & _).
  pose proof (ZInv_free_range _ (ZInv_allocate _ _ _ _ _ _ Hinv H)) as Hfr.
  destruct r as [p|];
    [|apply allocate_inv in H as [(_ & -> & _)|(? & ? & ? & H)];
      [exact Hlow|destruct H as (_ & _ & _ & _ & _ & _ & _ & H & _);
                  discriminate]].
  destruct (allocate_block _ _ _ _ _ _ Hinv Hrs H) as (sp & Hblock).
  cbn zeta in Hblock.
  destruct Hblock as (_ & _ & _ & _ & _ & _ & _ & _ & _ & _ & _ & _ & Hrest).
  destruct Hrest as (_ & _ & _ & _ & _ & _ & _ & _ & _ & _ & _ & Hstate).
  destruct Hstate as (_ & _ & _ & _ & Hmin & _).
  rewrite Hmin. lia.
Qed.

(** The low-water mark never exceeds the free-page count. *)
Lemma served_low_water pa m live :
  served pa m live -> 0 <= minEverFreePages pa <= freePagesCount pa.
Proof.
  induction 1 as [start size zone pa m Hz E
                 |pa m live rs pa' m' r Hs IH Hrs E
                 |pa m live num es pa' m' r Hs IH Hn He Hmax E
                 |pa m live p pa' m' Hs IH Hp Hwrap E
                 |pa m live m' Hs IH Hw].
  - destruct (ZInv_init _ _ _ _ E) as [Hinv _].
    pose proof (ZInv_free_range _ Hinv).
    rewrite (init_counters _ _ _ _ E). lia.
  - apply served_MInv in Hs.
    apply (allocate_low_water pa m live rs pa' m' r); assumption.
  - apply served_MInv in Hs. revert E. unfold calloc.
    destruct ((num >? 0) && (es >? SIZE_MAX / num));
      [intros [= <- _ _]; exact IH|].
    assert (Hprod : 0 <= num * es) by (apply Z.mul_nonneg_nonneg; lia).
    rewrite usize_small
      by (unfold maxRequest, ALLOC_PAGE_SIZE in Hmax; lia).
    destruct (allocate pa m (num * es)) as [[[pa1 m1] p]|] eqn:E;
      cbn [bind]; [|discriminate].
    pose proof (allocate_low_water pa m live (num * es) pa1 m1 p Hs
                  (conj Hprod Hmax) E IH) as H1.
    destruct p; intros [= <- _ _]; exact H1.
  - apply served_MInv in Hs.
    pose proof Hs as (Hinv & Hinit & _ & _ & Hheld & _ & _ & Hquar).
    pose proof (ZInv_free_range _ Hinv) as Hfr.
    pose proof (ZInv_pages _ Hinv) as HNb.
    destruct (deallocate_some _ _ _ _ _ Hinit E)
      as (_ & _ & _ & _ & _ & _ & q & ev & inUse & allocated & m2 & Eadd
          & _ & _ & _ & Hpa').
    rewrite Hpa'. cbn [minEverFreePages freePagesCount].
    destruct ev as [e|]; [|exact IH].
    pose proof Hinv as (_ & _ & _ & _ & Hlen & _ & Hent & _).
    destruct (add_active _ _ _ _ _ _ _ Hlen Eadd) as (_ & s & _ & Hsurv).
    destruct Hsurv as (o & Ho & Hao & _).
    destruct (Hent o e Ho Hao) as (He0 & He1 & He2 & _).
    rewrite usize_small by lia. lia.
  - exact IH.
Qed.

(** X25.  The size queries agree with the bitmap.  In every state of a client
    that keeps the contract, [freeBytes] is the page size times the number
    of pages whose in-use bit is clear, [usedBytes] the page size times the
    number of those whose bit is set (held and quarantined pages alike),
    the two add up to [totalBytes], and [minEverFreeBytes] is at most
    [freeBytes]; none of the products wraps around. *)
Theorem size_queries_agree_with_the_bitmap (pa : PageAllocator.t) (m : mem)
    (live : list Z) :
  served pa m live ->
  exists used,
    PageBitmap.countSet (bitmapInUse pa) = Ok used /\
    0 <= used <= totalPages pa /\
    totalBytes pa = totalPages pa * ALLOC_PAGE_SIZE /\
    usedBytes pa = used * ALLOC_PAGE_SIZE /\
    freeBytes pa = (totalPages pa - used) * ALLOC_PAGE_SIZE /\
    freeBytes pa + usedBytes pa = totalBytes pa /\
    0 <= minEverFreeBytes pa <= freeBytes pa.
Proof.
  intros H. pose proof (served_low_water _ _ _ H) as Hlow.
  apply served_MInv in H. destruct H as (Hinv & Hinit & _).
  pose proof (ZInv_pages _ Hinv) as HNb.
  pose proof (ZInv_free_range _ Hinv) as Hfr.
  pose proof Hinv as (Hwu & _ & Hcu & _ & _ & _ & _ & _ & Hcnt).
  exists (countZ (PageBitmap.bit (bitmapInUse pa))
            (Z.to_nat (totalPages pa)) 0).
  split; [rewrite (countSet_spec _ Hwu), Hcu; reflexivity|].
  unfold usedBytes, totalBytes, freeBytes, minEverFreeBytes.
  rewrite Hinit. unfold ALLOC_PAGE_SIZE.
  rewrite (usize_small (freePagesCount pa * 1024)) by lia.
  rewrite (usize_small (totalPages pa * 1024)) by lia.
  rewrite (usize_small (minEverFreePages pa * 1024)) by lia.
  rewrite (usize_small (totalPages pa * 1024 - freePagesCount pa * 1024))
    by lia.
  splits; lia.
Qed.

(** ** Instances *)

(** The zone of the examples, one block held and one in quarantine. *)
Lemma size_queries_agree_with_the_bitmap_witness :
  served (fst oneFreed) (snd oneFreed) [base + 1056] /\
  exists used,
    PageBitmap.countSet (bitmapInUse (fst oneFreed)) = Ok used /\
    0 <= used <= totalPages (fst oneFreed) /\
    totalBytes (fst oneFreed) = totalPages (fst oneFreed) * ALLOC_PAGE_SIZE /\
    usedBytes (fst oneFreed) = used * ALLOC_PAGE_SIZE /\
    freeBytes (fst oneFreed)
    = (totalPages (fst oneFreed) - used) * ALLOC_PAGE_SIZE /\
    freeBytes (fst oneFreed) + usedBytes (fst oneFreed)
    = totalBytes (fst oneFreed) /\
    0 <= minEverFreeBytes (fst oneFreed) <= freeBytes (fst oneFreed).
Proof.
  split; [exact servedFreed|].
  exact (size_queries_agree_with_the_bitmap (fst oneFreed) (snd oneFreed)
           [base + 1056] servedFreed).
Defined.
End PageAllocatorMore.

Section AllocatorCustomCppFacts.
Import AllocatorCustomCpp.

(** * More on AllocatorCustomCpp *)

Lemma setZoneAt_same a i : setZoneAt a i (zone a i) = a.
Proof.
  destruct a as [zs n c b]. unfold setZoneAt, zone. cbn. f_equal.
  destruct (zs !! Z.to_nat i) as [z|] eqn:E; cbn.
  - apply list_insert_id. exact E.
  - apply list_insert_ge. apply lookup_ge_None. exact E.
Qed.

Lemma zone_setZoneAt_eq a i pa :
  0 <= i < Z.of_nat (length (zones_ a)) ->
  zone (setZoneAt a i pa) i = pa.
Proof.
  intros Hi. unfold zone, setZoneAt. cbn.
  rewrite list_lookup_insert_eq by lia. reflexivity.
Qed.

(** ** A request that is not served *)

Lemma zone_allocate_null z m size z' m' :
  PageAllocator.allocate z m size = Ok (z', m', None) -> z' = z /\ m' = m.
Proof.
  intros H.
  apply allocate_inv in H as [(_ & -> & ->)|(? & ? & ? & H)]; [auto|].
  destruct H as (_ & _ & _ & _ & _ & _ & _ & H & _). discriminate.
Qed.

Lemma zone_calloc_null z m num size z' m' :
  PageAllocator.calloc z m num size = Ok (z', m', None) -> z' = z /\ m' = m.
Proof.
  unfold PageAllocator.calloc.
  destruct ((num >? 0) && (size >? SIZE_MAX / num));
    [intros [= <- <-]; auto|].
  destruct (PageAllocator.allocate z m (usize (num * size)))
    as [[[z1 m1] p]|] eqn:E; cbn [bind]; [|discriminate].
  destruct p; [discriminate|]. intros [= <- <-].
  apply (zone_allocate_null _ _ _ _ _ E).
Qed.

Lemma allocateWithRoute_loop_null n : forall a m route size i a' m',
  allocateWithRoute_loop n a m route size i = Ok (a', m', None) ->
  a' = a /\ m' = m.
Proof.
  induction n as [|n IH]; intros a m route size i a' m';
    cbn [allocateWithRoute_loop].
  - intros [= <- <-]. auto.
  - destruct (i =? primary route); [apply IH|].
    destruct (trySecondary route && (i =? secondary route)); [apply IH|].
    destruct (negb (PageAllocator.isInitialized (zone a i))); [apply IH|].
    destruct (PageAllocator.allocate (zone a i) m size)
      as [[[z m1] p]|] eqn:E; cbn [bind]; [|discriminate].
    destruct p; [discriminate|].
    destruct (zone_allocate_null _ _ _ _ _ E) as [-> ->].
    rewrite setZoneAt_same. apply IH.
Qed.

Lemma route_range zone :
  0 <= primary (resolveRoute zone) /\ 0 <= secondary (resolveRoute zone).
Proof. destruct zone; cbn; lia. Qed.

Lemma allocateWithRoute_loop_some n : forall a m route size i a' m' p,
  allocateWithRoute_loop n a m route size i = Ok (a', m', Some p) ->
  exists k z,
    i <= k < i + Z.of_nat n /\
    PageAllocator.isInitialized (zone a k) = true /\
    PageAllocator.allocate (zone a k) m size = Ok (z, m', Some p) /\
    a' = setZoneAt a k z.
Proof.
  induction n as [|n IH]; intros a m route size i a' m' p;
    cbn [allocateWithRoute_loop]; [discriminate|].
  assert (Hnext : allocateWithRoute_loop n a m route size (i + 1)
                  = Ok (a', m', Some p) ->
                  exists k z,
                    i <= k < i + Z.of_nat (S n) /\
                    PageAllocator.isInitialized (zone a k) = true /\
                    PageAllocator.allocate (zone a k) m size
                    = Ok (z, m', Some p) /\
                    a' = setZoneAt a k z).
  { intros H. destruct (IH _ _ _ _ _ _ _ _ H) as (k & z & Hk & Hrest).
    exists k, z. split; [lia|exact Hrest]. }
  destruct (i =? primary route); [exact Hnext|].
  destruct (trySecondary route && (i =? secondary route)); [exact Hnext|].
  destruct (PageAllocator.isInitialized (zone a i)) eqn:Ei; cbn [negb];
    [|exact Hnext].
  destruct (PageAllocator.allocate (zone a i) m size)
    as [[[z m1] q]|] eqn:E; cbn [bind]; [|discriminate].
  destruct q as [q|].
  - intros [= <- <- <-]. exists i, z. split; [lia|]. auto.
  - destruct (zone_allocate_null _ _ _ _ _ E) as [-> ->].
    rewrite setZoneAt_same. exact Hnext.
Qed.

Lemma deallocate_loop_none n : forall a m p i,
  (forall k, i <= k < i + Z.of_nat n ->
     PageAllocator.isInitialized (zone a k)
     && PageAllocator.ownsPointer (zone a k) p = false) ->
  deallocate_loop n a m p i = Fatal.
Proof.
  induction n as [|n IH]; intros a m p i H; cbn [deallocate_loop];
    [reflexivity|].
  rewrite (H i) by lia. apply IH. intros k Hk. apply H. lia.
Qed.

Lemma deallocate_loop_first n : forall a m p i k,
  i <= k < i + Z.of_nat n ->
  PageAllocator.isInitialized (zone a k)
  && PageAllocator.ownsPointer (zone a k) p = true ->
  (forall j, i <= j < k ->
     PageAllocator.isInitialized (zone a j)
     && PageAllocator.ownsPointer (zone a j) p = false) ->
  deallocate_loop n a m p i
  = (do (z, m') <- PageAllocator.deallocate (zone a k) m p;
     Ok (setZoneAt a k z, m')).
Proof.
  induction n as [|n IH]; intros a m p i k Hk Hown Hlow;
    cbn [deallocate_loop]; [lia|].
  destruct (Z.eq_dec k i) as [->|Hne].
  - rewrite Hown. reflexivity.
  - rewrite (Hlow i) by lia. apply IH; [lia|exact Hown|].
    intros j Hj. apply Hlow. lia.
Qed.

Lemma router_allocate_inv a m size a' m' r :
  allocate a m size = Ok (a', m', r) ->
  match r with
  | None => a' = a /\ m' = m
  | Some p =>
      exists i z,
        0 <= i < activeZones_ a /\
        PageAllocator.isInitialized (zone a i) = true /\
        PageAllocator.allocate (zone a i) m size = Ok (z, m', Some p) /\
        a' = setZoneAt a i z
  end.
Proof.
  pose proof (route_range (currentZone_ a)) as [Hp0 Hs0].
  unfold allocate, allocateWithRoute.
  set (route := resolveRoute (currentZone_ a)) in *.
  assert (Hloop : allocateWithRoute_loop (Z.to_nat (activeZones_ a)) a m
                    route size 0 = Ok (a', m', r) ->
                  match r with
                  | None => a' = a /\ m' = m
                  | Some p =>
                      exists i z,
                        0 <= i < activeZones_ a /\
                        PageAllocator.isInitialized (zone a i) = true /\
                        PageAllocator.allocate (zone a i) m size
                        = Ok (z, m', Some p) /\
                        a' = setZoneAt a i z
                  end).
  { destruct r as [p|]; [|apply allocateWithRoute_loop_null].
    intros H.
    destruct (allocateWithRoute_loop_some _ _ _ _ _ _ _ _ _ H)
      as (k & z & Hk & Hrest).
    exists k, z. split; [lia|exact Hrest]. }
  assert (Hsec :
    (do (a2, m2, p2) <-
       (if trySecondary route && (secondary route <? activeZones_ a)
           && negb (secondary route =? primary route)
           && PageAllocator.isInitialized (zone a (secondary route))
        then do (z, m', p) <- PageAllocator.allocate
                                 (zone a (secondary route)) m size;
             Ok (setZoneAt a (secondary route) z, m', p)
        else Ok (a, m, None));
     match p2 with
     | Some _ => Ok (a2, m2, p2)
     | None =>
         allocateWithRoute_loop (Z.to_nat (activeZones_ a2)) a2 m2 route
           size 0
     end) = Ok (a', m', r) ->
    match r with
    | None => a' = a /\ m' = m
    | Some p =>
        exists i z,
          0 <= i < activeZones_ a /\
          PageAllocator.isInitialized (zone a i) = true /\
          PageAllocator.allocate (zone a i) m size = Ok (z, m', Some p) /\
          a' = setZoneAt a i z
    end).
  { destruct (trySecondary route && (secondary route <? activeZones_ a)
              && negb (secondary route =? primary route)
              && PageAllocator.isInitialized (zone a (secondary route)))
      eqn:Ec; [|exact Hloop].
    apply andb_true_iff in Ec as [Ec Ei].
    apply andb_true_iff in Ec as [Ec _].
    apply andb_true_iff in Ec as [_ Ec]. apply Z.ltb_lt in Ec.
    destruct (PageAllocator.allocate (zone a (secondary route)) m size)
      as [[[z m2] q]|] eqn:E2; cbn [bind]; [|discriminate].
    destruct q as [q|].
    - intros [= <- <- <-]. exists (secondary route), z.
      split; [lia|]. auto.
    - destruct (zone_allocate_null _ _ _ _ _ E2) as [-> ->].
      rewrite setZoneAt_same. exact Hloop. }
  destruct ((primary route <? activeZones_ a)
            && PageAllocator.isInitialized (zone a (primary route)))
    eqn:Ec; [|exact Hsec].
  apply andb_true_iff in Ec as [Ec Ei]. apply Z.ltb_lt in Ec.
  destruct (PageAllocator.allocate (zone a (primary route)) m size)
    as [[[z m1] q]|] eqn:E1; cbn [bind]; [|discriminate].
  destruct q as [q|].
  - intros [= <- <- <-]. exists (primary route), z. split; [lia|]. auto.
  - destruct (zone_allocate_null _ _ _ _ _ E1) as [-> ->].
    rewrite setZoneAt_same. exact Hsec.
Qed.

Lemma router_calloc_inv a m num size a' m' r :
  calloc a m num size = Ok (a', m', r) ->
  match r with
  | None => a' = a /\ m' = m
  | Some p =>
      exists i z,
        0 <= i < activeZones_ a /\
        PageAllocator.isInitialized (zone a i) = true /\
        PageAllocator.calloc (zone a i) m num size = Ok (z, m', Some p) /\
        a' = setZoneAt a i z
  end.
Proof.
  pose proof (route_range (currentZone_ a)) as [Hp0 Hs0].
  unfold calloc.
  set (route := resolveRoute (currentZone_ a)) in *.
  assert (Hsec :
    (if trySecondary route && (secondary route <? activeZones_ a)
        && negb (secondary route =? primary route)
        && PageAllocator.isInitialized (zone a (secondary route))
     then do (z, m', p) <- PageAllocator.calloc
                              (zone a (secondary route)) m num size;
          Ok (setZoneAt a (secondary route) z, m', p)
     else Ok (a, m, None)) = Ok (a', m', r) ->
    match r with
    | None => a' = a /\ m' = m
    | Some p =>
        exists i z,
          0 <= i < activeZones_ a /\
          PageAllocator.isInitialized (zone a i) = true /\
          PageAllocator.calloc (zone a i) m num size
          = Ok (z, m', Some p) /\
          a' = setZoneAt a i z
    end).
  { destruct (trySecondary route && (secondary route <? activeZones_ a)
              && negb (secondary route =? primary route)
              && PageAllocator.isInitialized (zone a (secondary route)))
      eqn:Ec; [|intros [= <- <- <-]; auto].
    apply andb_true_iff in Ec as [Ec Ei].
    apply andb_true_iff in Ec as [Ec _].
    apply andb_true_iff in Ec as [_ Ec]. apply Z.ltb_lt in Ec.
    destruct (PageAllocator.calloc (zone a (secondary route)) m num size)
      as [[[z m2] q]|] eqn:E2; cbn [bind]; [|discriminate].
    destruct q as [q|].
    - intros [= <- <- <-]. exists (secondary route), z.
      split; [lia|]. auto.
    - destruct (zone_calloc_null _ _ _ _ _ _ E2) as [-> ->].
      rewrite setZoneAt_same. intros [= <- <- <-]. auto. }
  destruct ((primary route <? activeZones_ a)
            && PageAllocator.isInitialized (zone a (primary route)))
    eqn:Ec; [|exact Hsec].
  apply andb_true_iff in Ec as [Ec Ei]. apply Z.ltb_lt in Ec.
  destruct (PageAllocator.calloc (zone a (primary route)) m num size)
    as [[[z m1] q]|] eqn:E1; cbn [bind]; [|discriminate].
  destruct q as [q|].
  - intros [= <- <- <-]. exists (primary route), z. split; [lia|]. auto.
  - destruct (zone_calloc_null _ _ _ _ _ _ E1) as [-> ->].
    rewrite setZoneAt_same. exact Hsec.
Qed.

(** X26.  A call of the multi-zone allocator is a call of one zone.  [allocate]
    and [calloc] either return [nullptr], and then the allocator and the
    memory are what they were, or return what one initialised active zone
    returned for the same request on the same memory, the other zones
    being left as they were.  [deallocate] hands the pointer to the
    initialised active zone of lowest index that owns it, and stops at its
    assertion when there is none; the null pointer is ignored. *)
Theorem router_call_is_one_zone_call (a : AllocatorCustomCpp.t) (m : mem) :
  (forall size a' m' r,
     allocate a m size = Ok (a', m', r) ->
     match r with
     | None => a' = a /\ m' = m
     | Some p =>
         exists i z,
           0 <= i < activeZones_ a /\
           PageAllocator.isInitialized (zone a i) = true /\
           PageAllocator.allocate (zone a i) m size = Ok (z, m', Some p) /\
           a' = setZoneAt a i z
     end) /\
  (forall num size a' m' r,
     calloc a m num size = Ok (a', m', r) ->
     match r with
     | None => a' = a /\ m' = m
     | Some p =>
         exists i z,
           0 <= i < activeZones_ a /\
           PageAllocator.isInitialized (zone a i) = true /\
           PageAllocator.calloc (zone a i) m num size = Ok (z, m', Some p) /\
           a' = setZoneAt a i z
     end) /\
  (forall p,
     (forall i, 0 <= i < activeZones_ a ->
        PageAllocator.isInitialized (zone a i)
        && PageAllocator.ownsPointer (zone a i) (Some p) = false) ->
     deallocate a m (Some p) = Fatal) /\
  (forall p i,
     0 <= i < activeZones_ a ->
     PageAllocator.isInitialized (zone a i)
     && PageAllocator.ownsPointer (zone a i) (Some p) = true ->
     (forall j, 0 <= j < i ->
        PageAllocator.isInitialized (zone a j)
        && PageAllocator.ownsPointer (zone a j) (Some p) = false) ->
     deallocate a m (Some p)
     = (do (z, m') <- PageAllocator.deallocate (zone a i) m (Some p);
        Ok (setZoneAt a i z, m'))) /\
  deallocate a m None = Ok (a, m).
Proof.
  split; [|split; [|split; [|split]]].
  - intros size a' m' r. apply router_allocate_inv.
  - intros num size a' m' r. apply router_calloc_inv.
  - intros p H. unfold deallocate. apply deallocate_loop_none.
    intros k Hk. apply H. lia.
  - intros p i Hi Hown Hlow. unfold deallocate.
    apply deallocate_loop_first; [lia|exact Hown|exact Hlow].
  - reflexivity.
Qed.

(** ** An allocator without zones *)

Lemma resetState_loop_fields n : forall a i,
  activeZones_ (resetState_loop n a i) = activeZones_ a /\
  length (zones_ (resetState_loop n a i)) = length (zones_ a).
Proof.
  induction n as [|n IH]; intros a i; cbn [resetState_loop]; [auto|].
  destruct (IH (setZoneAt a i PageAllocator.zeroed) (i + 1)) as [H1 H2].
  rewrite H1, H2. cbn. rewrite length_insert. auto.
Qed.

Lemma sumZones_loop_zero n : forall a f i,
  (forall j, f (zone a j) = 0) ->
  sumZones_loop n a f i 0 = 0.
Proof.
  induction n as [|n IH]; intros a f i H; cbn [sumZones_loop]; [reflexivity|].
  rewrite H. change (usize (0 + 0)) with 0. apply IH. exact H.
Qed.

Lemma resetState_loop_zone n : forall a i j,
  0 <= i -> 0 <= j ->
  zone (resetState_loop n a i) j
  = if (i <=? j) && (j <? i + Z.of_nat n) then PageAllocator.zeroed
    else zone a j.
Proof.
  induction n as [|n IH]; intros a i j Hi Hj; cbn [resetState_loop].
  - replace ((i <=? j) && (j <? i + Z.of_nat 0)) with false; [reflexivity|].
    symmetry. apply andb_false_iff.
    destruct (Z.leb_spec i j); [right; apply Z.ltb_ge; lia|left; reflexivity].
  - rewrite IH by lia.
    destruct (Z.leb_spec (i + 1) j); destruct (Z.ltb_spec j (i + 1 + Z.of_nat n));
      destruct (Z.leb_spec i j); destruct (Z.ltb_spec j (i + Z.of_nat (S n)));
      cbn [andb]; try lia; try reflexivity.
    + unfold zone, setZoneAt. cbn [zones_].
      rewrite list_lookup_insert_ne by lia. reflexivity.
    + assert (j = i) as -> by lia.
      unfold zone, setZoneAt. cbn [zones_].
      destruct (decide (Z.to_nat i < length (zones_ a))%nat) as [Hlt|Hge].
      * rewrite list_lookup_insert_eq by exact Hlt. reflexivity.
      * rewrite list_insert_ge by lia.
        rewrite (proj2 (lookup_ge_None (zones_ a) (Z.to_nat i))) by lia.
        reflexivity.
    + unfold zone, setZoneAt. cbn [zones_].
      rewrite list_lookup_insert_ne by lia. reflexivity.
Qed.

(** X27.  [resetState] clears the zones that were active and leaves an allocator
    without zones: the zones below the old zone count are zero-filled and
    the others untouched; afterwards [allocate] and [calloc] return
    [nullptr] and change nothing, [deallocate] of any pointer but the null
    one stops at its assertion, every size query answers 0, [validateHeap]
    finds nothing wrong, and the zone selection is [HEAP_ZONE_ANY]. *)
Theorem reset_allocator_serves_nothing (a : AllocatorCustomCpp.t) (m : mem) :
  let r := resetState a in
  (forall i, 0 <= i < activeZones_ a -> zone r i = PageAllocator.zeroed) /\
  (forall i, 0 <= i -> activeZones_ a <= i -> zone r i = zone a i) /\
  getZoneCount r = 0 /\ isInitialized r = false /\
  getZone r = HEAP_ZONE_ANY /\
  (forall size, allocate r m size = Ok (r, m, None)) /\
  (forall num size, calloc r m num size = Ok (r, m, None)) /\
  (forall p, deallocate r m (Some p) = Fatal) /\
  deallocate r m None = Ok (r, m) /\
  getFreeHeapSize r = 0 /\ getMinimumEverFreeBytes r = 0 /\
  getTotalHeapSize r = 0 /\ getUsedHeapSize r = 0 /\
  (forall idx, 0 <= idx ->
     getZoneFreeBytes r idx = 0 /\ getZoneTotalBytes r idx = 0 /\
     getZoneMinFreeBytes r idx = 0 /\ getZoneUsedBytes r idx = 0) /\
  validateHeap r m = Ok true.
Proof.
  cbn zeta. set (r := resetState a).
  assert (Hn : activeZones_ r = 0) by reflexivity.
  assert (Hz : forall j, 0 <= j ->
            zone r j = if (0 <=? j) && (j <? 0 + Z.of_nat (Z.to_nat (activeZones_ a)))
                       then PageAllocator.zeroed else zone a j).
  { intros j Hj. rewrite <- (resetState_loop_zone _ a 0 j) by lia.
    reflexivity. }
  split; [|split].
  - intros i Hi. rewrite Hz by lia.
    destruct (Z.leb_spec 0 i); [|lia].
    destruct (Z.ltb_spec i (0 + Z.of_nat (Z.to_nat (activeZones_ a))));
      [reflexivity|lia].
  - intros i Hi Hge. rewrite Hz by lia.
    destruct (Z.ltb_spec i (0 + Z.of_nat (Z.to_nat (activeZones_ a))));
      [lia|]. rewrite andb_false_r. reflexivity.
  - splits; try reflexivity.
    intros idx Hidx.
    unfold getZoneFreeBytes, getZoneTotalBytes, getZoneMinFreeBytes,
      getZoneUsedBytes.
    rewrite Hn.
    replace (idx <? 0) with false by (symmetry; apply Z.ltb_ge; lia).
    splits; reflexivity.
Qed.

(** ** Statistics *)

Lemma getHeapStats_loop_spec n : forall a i st,
  getHeapStats_loop n a i st
  = {| xAvailableHeapSpaceInBytes :=
         sumZones_loop n a PageAllocator.freeBytes i
           (xAvailableHeapSpaceInBytes st);
       xSizeOfLargestFreeBlockInBytes := xSizeOfLargestFreeBlockInBytes st;
       xSizeOfSmallestFreeBlockInBytes := xSizeOfSmallestFreeBlockInBytes st;
       xNumberOfFreeBlocks := xNumberOfFreeBlocks st;
       xMinimumEverFreeBytesRemaining :=
         sumZones_loop n a PageAllocator.minEverFreeBytes i
           (xMinimumEverFreeBytesRemaining st);
       xNumberOfSuccessfulAllocations :=
         sumZones_loop n a PageAllocator.successfulAllocs i
           (xNumberOfSuccessfulAllocations st);
       xNumberOfSuccessfulFrees :=
         sumZones_loop n a PageAllocator.successfulFrees i
           (xNumberOfSuccessfulFrees st) |}.
Proof.
  induction n as [|n IH]; intros a i st;
    cbn [getHeapStats_loop sumZones_loop].
  - destruct st; reflexivity.
  - rewrite IH. reflexivity.
Qed.

(** X28.  [getHeapStats] agrees with the size queries: the available space it
    reports is [getFreeHeapSize], the low-water mark is
    [getMinimumEverFreeBytes], the two counters are the sums of the
    counters of the active zones, and the three fields on free blocks are
    always 0.  What the structure held before the call plays no part, and
    a null pointer is ignored. *)
Theorem getHeapStats_agrees_with_the_size_queries (a : AllocatorCustomCpp.t)
    (before : HeapStats_t) :
  getHeapStats a None = None /\
  exists st,
    getHeapStats a (Some before) = Some st /\
    xAvailableHeapSpaceInBytes st = getFreeHeapSize a /\
    xMinimumEverFreeBytesRemaining st = getMinimumEverFreeBytes a /\
    xNumberOfSuccessfulAllocations st
    = sumZones_loop (Z.to_nat (activeZones_ a)) a
        PageAllocator.successfulAllocs 0 0 /\
    xNumberOfSuccessfulFrees st
    = sumZones_loop (Z.to_nat (activeZones_ a)) a
        PageAllocator.successfulFrees 0 0 /\
    xSizeOfLargestFreeBlockInBytes st = 0 /\
    xSizeOfSmallestFreeBlockInBytes st = 0 /\
    xNumberOfFreeBlocks st = 0.
Proof.
  split; [reflexivity|]. unfold getHeapStats.
  eexists. split; [reflexivity|].
  rewrite getHeapStats_loop_spec. cbn.
  unfold getFreeHeapSize, getMinimumEverFreeBytes. splits; reflexivity.
Qed.

(** ** defineHeapRegions *)

Lemma init_zone start size zi pa :
  PageAllocator.init start size zi = Ok pa ->
  PageAllocator.isInitialized pa = true /\ PageAllocator.zoneIndex pa = zi /\
  PageAllocator.baseAddress pa = start.
Proof.
  unfold PageAllocator.init, ALLOC_ASSERT.
  destruct (negb (start =? 0)); cbn [bind]; [|discriminate].
  destruct (size >=? ALLOC_PAGE_SIZE); cbn [bind]; [|discriminate].
  destruct (u16 (size / ALLOC_PAGE_SIZE) >? 0); cbn [bind]; [|discriminate].
  destruct (u16 (size / ALLOC_PAGE_SIZE) <=? ALLOC_MAX_PAGES_PER_ZONE);
    cbn [bind]; [|discriminate].
  destruct (PageBitmap.init (u16 (size / ALLOC_PAGE_SIZE))) as [b|];
    cbn [bind]; [|discriminate].
  intros [= <-]. auto.
Qed.

Lemma defineHeapRegions_inv
    (a : AllocatorCustomCpp.t) (regions : list (Z * Z)) :
  length (zones_ a) = Z.to_nat ALLOC_MAX_ZONES ->
  defineHeapRegions a None = Ok a /\
  (forall a',
     defineHeapRegions a (Some regions) = Ok a' ->
     initialized_ a' = true /\ currentZone_ a' = HEAP_ZONE_ANY /\
     1 <= activeZones_ a' <= ALLOC_MAX_ZONES /\
     length (zones_ a') = length (zones_ a) /\
     (forall i, 0 <= i < activeZones_ a' ->
        exists start size,
          regions !! Z.to_nat i = Some (start, size) /\
          start <> 0 /\ size <> 0 /\
          PageAllocator.init start size i = Ok (zone a' i) /\
          PageAllocator.isInitialized (zone a' i) = true /\
          PageAllocator.zoneIndex (zone a' i) = i) /\
     (activeZones_ a' < ALLOC_MAX_ZONES ->
        match regions !! Z.to_nat (activeZones_ a') with
        | Some (start, size) => start = 0 \/ size = 0
        | None => True
        end) /\
     (forall i, activeZones_ a' <= i -> zone a' i = zone a i)) /\
  (match regions with
   | [] => True
   | (start, size) :: _ => start = 0 \/ size = 0
   end ->
   defineHeapRegions a (Some regions) = Fatal).
Proof.
  intros Hlen. destruct a as [zs n0 c0 b0]. cbn [zones_] in Hlen.
  destruct zs as [|x [|y [|? ?]]]; try discriminate Hlen. clear Hlen.
  split; [reflexivity|].
  unfold defineHeapRegions. cbn [zones_].
  destruct regions as [|[s1 z1] rest].
  { split; [discriminate|]. reflexivity. }
  cbn [defineHeapRegions_loop activeZones_ zones_ currentZone_ initialized_].
  change (0 <? ALLOC_MAX_ZONES) with true. cbn [andb].
  destruct (Z.eqb_spec s1 0) as [Hs1|Hs1]; cbn [negb andb].
  { split; [discriminate|]. reflexivity. }
  destruct (Z.eqb_spec z1 0) as [Hz1|Hz1]; cbn [negb andb].
  { split; [discriminate|]. reflexivity. }
  split; [|intros [?|?]; contradiction].
  destruct (PageAllocator.init s1 z1 0) as [pa0|] eqn:E0; cbn [bind];
    [|discriminate].
  destruct (init_zone _ _ _ _ E0) as (Hi0 & Hzi0 & _).
  change (u8 (0 + 1)) with 1. change (Z.to_nat 0) with 0%nat.
  cbn [insert list_insert].
  assert (Hone : forall a',
    Ok {| zones_ := [pa0; y]; activeZones_ := 1;
          currentZone_ := HEAP_ZONE_ANY; initialized_ := true |} = Ok a' ->
    match rest with
    | [] => True
    | (s2, z2) :: _ => s2 = 0 \/ z2 = 0
    end ->
    initialized_ a' = true /\ currentZone_ a' = HEAP_ZONE_ANY /\
    1 <= activeZones_ a' <= ALLOC_MAX_ZONES /\
    length (zones_ a') = length [x; y] /\
    (forall i, 0 <= i < activeZones_ a' ->
       exists start size,
         ((s1, z1) :: rest) !! Z.to_nat i = Some (start, size) /\
         start <> 0 /\ size <> 0 /\
         PageAllocator.init start size i = Ok (zone a' i) /\
         PageAllocator.isInitialized (zone a' i) = true /\
         PageAllocator.zoneIndex (zone a' i) = i) /\
    (activeZones_ a' < ALLOC_MAX_ZONES ->
       match ((s1, z1) :: rest) !! Z.to_nat (activeZones_ a') with
       | Some (start, size) => start = 0 \/ size = 0
       | None => True
       end) /\
    (forall i, activeZones_ a' <= i ->
       zone a' i = zone {| zones_ := [x; y]; activeZones_ := n0;
                           currentZone_ := c0; initialized_ := b0 |} i)).
  { intros a' [= <-] Hterm. cbn [initialized_ currentZone_ activeZones_ zones_].
    split; [reflexivity|]. split; [reflexivity|].
    split; [unfold ALLOC_MAX_ZONES; lia|]. split; [reflexivity|].
    split; [|split].
    - intros i Hi. assert (i = 0) as -> by lia.
      exists s1, z1. splits; try assumption; reflexivity.
    - intros _. change (Z.to_nat 1) with 1%nat. cbn.
      destruct rest as [|[s2 z2] ?]; cbn; exact Hterm.
    - intros i Hi. unfold zone. cbn [zones_].
      destruct (Z.to_nat i) as [|[|k]] eqn:Ek; try lia; reflexivity. }
  destruct rest as [|[s2 z2] rest2].
  { cbn [defineHeapRegions_loop bind activeZones_ zones_ currentZone_
         initialized_].
    change (1 >? 0) with true. cbn [bind ALLOC_ASSERT].
    intros a' H. apply (Hone a' H). exact I. }
  cbn [defineHeapRegions_loop activeZones_ zones_ currentZone_ initialized_].
  change (1 <? ALLOC_MAX_ZONES) with true. cbn [andb].
  destruct (Z.eqb_spec s2 0) as [Hs2|Hs2]; cbn [negb andb].
  { change (1 >? 0) with true. cbn [bind ALLOC_ASSERT].
    intros a' H. apply (Hone a' H). left. exact Hs2. }
  destruct (Z.eqb_spec z2 0) as [Hz2|Hz2]; cbn [negb andb].
  { change (1 >? 0) with true. cbn [bind ALLOC_ASSERT].
    intros a' H. apply (Hone a' H). right. exact Hz2. }
  destruct (PageAllocator.init s2 z2 1) as [pa1|] eqn:E1; cbn [bind];
    [|discriminate].
  destruct (init_zone _ _ _ _ E1) as (Hi1 & Hzi1 & _).
  change (u8 (1 + 1)) with 2. change (Z.to_nat 1) with 1%nat.
  cbn [insert list_insert].
  assert (Hloop : forall a2,
            activeZones_ a2 = 2 -> defineHeapRegions_loop rest2 a2 = Ok a2).
  { intros a2 H2. destruct rest2 as [|[s3 z3] ?]; cbn [defineHeapRegions_loop];
      [reflexivity|]. rewrite H2. reflexivity. }
  rewrite Hloop by reflexivity. cbn [bind activeZones_ zones_ currentZone_
                                     initialized_].
  change (2 >? 0) with true. cbn [bind ALLOC_ASSERT].
  intros a' [= <-]. cbn [initialized_ currentZone_ activeZones_ zones_].
  split; [reflexivity|]. split; [reflexivity|].
  split; [unfold ALLOC_MAX_ZONES; lia|]. split; [reflexivity|].
  split; [|split].
  - intros i Hi. assert (i = 0 \/ i = 1) as [-> | ->] by lia.
    + exists s1, z1. splits; try assumption; reflexivity.
    + exists s2, z2. splits; try assumption; reflexivity.
  - unfold ALLOC_MAX_ZONES. lia.
  - intros i Hi. unfold zone. cbn [zones_].
    destruct (Z.to_nat i) as [|[|k]] eqn:Ek; try lia; reflexivity.
Qed.

(** X29.  [defineHeapRegions] takes the leading regions of the list, up to the
    first one with a null start or a zero size and at most
    [ALLOC_MAX_ZONES] of them: zone [i] is what [PageAllocator::init] makes
    of region [i] with zone index [i], the zones behind them are not
    touched, the selection is [HEAP_ZONE_ANY] and the allocator is
    initialised.  Regions behind the second are ignored.  A list that is
    empty or starts with the terminator stops the call at its assertion,
    and a null pointer is ignored. *)
Theorem defineHeapRegions_takes_the_leading_regions
    (a : AllocatorCustomCpp.t) (regions : list (Z * Z)) :
  length (zones_ a) = Z.to_nat ALLOC_MAX_ZONES ->
  defineHeapRegions a None = Ok a /\
  (forall a',
     defineHeapRegions a (Some regions) = Ok a' ->
     initialized_ a' = true /\ currentZone_ a' = HEAP_ZONE_ANY /\
     1 <= activeZones_ a' <= ALLOC_MAX_ZONES /\
     length (zones_ a') = length (zones_ a) /\
     (forall i, 0 <= i < activeZones_ a' ->
        exists start size,
          regions !! Z.to_nat i = Some (start, size) /\
          start <> 0 /\ size <> 0 /\
          PageAllocator.init start size i = Ok (zone a' i) /\
          PageAllocator.isInitialized (zone a' i) = true /\
          PageAllocator.zoneIndex (zone a' i) = i) /\
     (activeZones_ a' < ALLOC_MAX_ZONES ->
        match regions !! Z.to_nat (activeZones_ a') with
        | Some (start, size) => start = 0 \/ size = 0
        | None => True
        end) /\
     (forall i, activeZones_ a' <= i -> zone a' i = zone a i)) /\
  (match regions with
   | [] => True
   | (start, size) :: _ => start = 0 \/ size = 0
   end ->
   defineHeapRegions a (Some regions) = Fatal).
Proof. exact (defineHeapRegions_inv a regions). Qed.

(** ** Instances *)

Lemma zeroed_zones : length (zones_ zeroed) = Z.to_nat ALLOC_MAX_ZONES.
Proof. reflexivity. Qed.

(** Three regions are handed to the zero-filled allocator; the third one
    is ignored. *)
Lemma defineHeapRegions_takes_the_leading_regions_witness :
  length (zones_ zeroed) = Z.to_nat ALLOC_MAX_ZONES /\
  (defineHeapRegions zeroed None = Ok zeroed /\
   (forall a',
      defineHeapRegions zeroed
        (Some [(PageAllocator.base, 16 * 1024); (slowBase, 1024);
               (slowBase + 4096, 1024)]) = Ok a' ->
      initialized_ a' = true /\ currentZone_ a' = HEAP_ZONE_ANY /\
      1 <= activeZones_ a' <= ALLOC_MAX_ZONES /\
      length (zones_ a') = length (zones_ zeroed) /\
      (forall i, 0 <= i < activeZones_ a' ->
         exists start size,
           [(PageAllocator.base, 16 * 1024); (slowBase, 1024);
            (slowBase + 4096, 1024)] !! Z.to_nat i = Some (start, size) /\
           start <> 0 /\ size <> 0 /\
           PageAllocator.init start size i = Ok (zone a' i) /\
           PageAllocator.isInitialized (zone a' i) = true /\
           PageAllocator.zoneIndex (zone a' i) = i) /\
      (activeZones_ a' < ALLOC_MAX_ZONES ->
         match [(PageAllocator.base, 16 * 1024); (slowBase, 1024);
                (slowBase + 4096, 1024)] !! Z.to_nat (activeZones_ a') with
         | Some (start, size) => start = 0 \/ size = 0
         | None => True
         end) /\
      (forall i, activeZones_ a' <= i -> zone a' i = zone zeroed i)) /\
   (match [(PageAllocator.base, 16 * 1024); (slowBase, 1024);
           (slowBase + 4096, 1024)] with
    | [] => True
    | (start, size) :: _ => start = 0 \/ size = 0
    end ->
    defineHeapRegions zeroed
      (Some [(PageAllocator.base, 16 * 1024); (slowBase, 1024);
             (slowBase + 4096, 1024)]) = Fatal)).
Proof.
  split; [exact zeroed_zones|].
  exact (defineHeapRegions_takes_the_leading_regions zeroed
           [(PageAllocator.base, 16 * 1024); (slowBase, 1024);
            (slowBase + 4096, 1024)] zeroed_zones).
Defined.

(** ** The contract of the multi-zone allocator *)

(** What a call of a zone leaves alone: the bytes outside its region and
    the place of the region. *)
Lemma zone_allocate_region pa m rs pa' m' r :
  PageAllocator.ZInv pa -> 0 <= rs <= PageAllocator.maxRequest ->
  PageAllocator.allocate pa m rs = Ok (pa', m', r) ->
  (forall x, ~ inZone pa x -> load8 m' x = load8 m x) /\
  PageAllocator.baseAddress pa' = PageAllocator.baseAddress pa /\
  PageAllocator.totalPages pa' = PageAllocator.totalPages pa /\
  PageAllocator.initialized pa' = PageAllocator.initialized pa /\
  match r with
  | Some p => inZone pa p /\ ownedBy pa p = true
  | None => True
  end.
Proof.
  intros Hinv Hrs H. destruct r as [p|].
  - pose proof (ZInv_pages pa Hinv) as HNb.
    destruct (allocate_some _ _ _ _ _ _ H) as (_ & _ & _ & _ & _ & _ & Hi & _).
    cbn zeta in Hi.
    destruct (allocate_block _ _ _ _ _ _ Hinv Hrs H)
      as (sp & Hsp & Hpc & Hfit & _ & Hh & Hp & _ & _ & _ & _ & _ & _ & _ & _
          & _ & _ & _ & Hout & _ & _ & _ & _ & Htp & Hinit & Hbase & _).
    cbn zeta in Hfit, Hh, Hp, Hout.
    unfold inZone, ALLOC_PAGE_SIZE, ALLOC_HEADER_SIZE in *.
    split; [|split; [exact Hbase|split; [exact Htp|split]]].
    + intros x Hx. apply Hout. rewrite Hh. lia.
    + rewrite Hinit, Hi. reflexivity.
    + split; [rewrite Hp, Hh; lia|].
      unfold ownedBy, PageAllocator.ownsPointer. rewrite Hi. cbn [negb].
      unfold ALLOC_PAGE_SIZE, ALLOC_HEADER_SIZE.
      rewrite usize_small by lia.
      apply andb_true_iff. split.
      * rewrite Z.geb_leb. apply Z.leb_le. lia.
      * apply Z.ltb_lt. lia.
  - destruct (zone_allocate_null _ _ _ _ _ H) as [-> ->]. auto.
Qed.

Lemma zone_calloc_region pa m num es pa' m' r :
  PageAllocator.ZInv pa -> 0 <= num -> 0 <= es ->
  num * es <= PageAllocator.maxRequest ->
  PageAllocator.calloc pa m num es = Ok (pa', m', r) ->
  (forall x, ~ inZone pa x -> load8 m' x = load8 m x) /\
  PageAllocator.baseAddress pa' = PageAllocator.baseAddress pa /\
  PageAllocator.totalPages pa' = PageAllocator.totalPages pa /\
  PageAllocator.initialized pa' = PageAllocator.initialized pa /\
  match r with
  | Some p => inZone pa p /\ ownedBy pa p = true
  | None => True
  end.
Proof.
  intros Hinv Hn He Hmax. unfold PageAllocator.calloc.
  destruct ((num >? 0) && (es >? SIZE_MAX / num));
    [intros [= <- <- <-]; auto|].
  assert (Hprod : 0 <= num * es) by (apply Z.mul_nonneg_nonneg; lia).
  rewrite usize_small
    by (unfold PageAllocator.maxRequest, ALLOC_PAGE_SIZE in Hmax; lia).
  destruct (PageAllocator.allocate pa m (num * es)) as [[[pa1 m1] p]|] eqn:E;
    cbn [bind]; [|discriminate].
  pose proof (zone_allocate_region _ _ _ _ _ _ Hinv (conj Hprod Hmax) E)
    as (Hout & Hb & Ht & Hi & Hr).
  destruct p as [p|]; intros [= <- <- <-];
    [|split; [exact Hout|auto]].
  split; [|auto].
  intros x Hx. rewrite load8_memset.
  pose proof (ZInv_pages pa Hinv) as HNb.
  destruct (allocate_block _ _ _ _ _ _ Hinv (conj Hprod Hmax) E)
    as (sp & Hsp & Hpc & Hfit & _ & Hh & Hp & Hsz & _).
  cbn zeta in Hfit, Hh, Hp, Hsz.
  unfold inZone, ALLOC_PAGE_SIZE, ALLOC_HEADER_SIZE, ALLOC_FOOTER_SIZE in *.
  destruct (Z.leb_spec p x); destruct (Z.ltb_spec x (p + num * es));
    cbn [andb]; try (apply Hout; exact Hx).
  exfalso. apply Hx. lia.
Qed.

Lemma zone_deallocate_region pa m live p pa' m' :
  PageAllocator.MInv pa m live -> In p live ->
  PageAllocator.deallocate pa m (Some p) = Ok (pa', m') ->
  (forall x, ~ inZone pa x -> load8 m' x = load8 m x) /\
  PageAllocator.baseAddress pa' = PageAllocator.baseAddress pa /\
  PageAllocator.totalPages pa' = PageAllocator.totalPages pa /\
  PageAllocator.initialized pa' = PageAllocator.initialized pa.
Proof.
  intros HM Hp H.
  pose proof HM as (Hinv & Hinit & _ & _ & Hheld & _ & _ & Hquar).
  pose proof (ZInv_pages pa Hinv) as HNb.
  pose proof (heldBlock_facts _ _ _ (Hheld p Hp)) as Fp. cbn zeta in Fp.
  destruct (deallocate_frame _ _ _ _ _ _ HM Hp H) as [_ Hout].
  split.
  - intros x Hx. unfold inZone, ALLOC_PAGE_SIZE in Hx. apply Hout.
    + unfold PageAllocator.inPayload. lia.
    + intros k e Hk Ha.
      pose proof (entry_facts pa m k e Hinv Hk Ha (Hquar k e Hk Ha)) as Fe.
      cbn zeta in Fe. lia.
  - destruct (deallocate_some _ _ _ _ _ Hinit H)
      as (_ & _ & _ & _ & _ & _ & q & ev & inUse & allocated & m2 & _ & _ & _
          & _ & ->).
    auto.
Qed.

(** [ownsPointer] looks at the place of the region only. *)
Lemma ownedBy_region pa pa' :
  PageAllocator.baseAddress pa' = PageAllocator.baseAddress pa ->
  PageAllocator.totalPages pa' = PageAllocator.totalPages pa ->
  PageAllocator.initialized pa' = PageAllocator.initialized pa ->
  forall p, ownedBy pa' p = ownedBy pa p.
Proof.
  intros Hb Ht Hi p. unfold ownedBy, PageAllocator.ownsPointer.
  rewrite Hb, Ht, Hi. reflexivity.
Qed.

Lemma ownedBy_inZone pa p :
  PageAllocator.ZInv pa -> ownedBy pa p = true -> inZone pa p.
Proof.
  intros Hinv. pose proof (ZInv_pages pa Hinv) as HNb.
  unfold ownedBy, PageAllocator.ownsPointer, inZone.
  destruct (negb (PageAllocator.initialized pa)); [discriminate|].
  unfold ALLOC_PAGE_SIZE, ALLOC_HEADER_SIZE.
  rewrite usize_small by lia. intros H.
  apply andb_true_iff in H as [H1 H2].
  rewrite Z.geb_leb in H1. apply Z.leb_le in H1. apply Z.ltb_lt in H2. lia.
Qed.

Lemma held_ownedBy pa m live p :
  PageAllocator.MInv pa m live -> In p live -> ownedBy pa p = true.
Proof.
  intros HM Hp.
  pose proof HM as (Hinv & Hinit & _ & _ & Hheld & _).
  pose proof (ZInv_pages pa Hinv) as HNb.
  pose proof (heldBlock_facts _ _ _ (Hheld p Hp)) as Fp. cbn zeta in Fp.
  unfold ownedBy, PageAllocator.ownsPointer. rewrite Hinit. cbn [negb].
  unfold ALLOC_PAGE_SIZE, ALLOC_HEADER_SIZE.
  rewrite usize_small by lia.
  apply andb_true_iff. split.
  - rewrite Z.geb_leb. apply Z.leb_le. lia.
  - apply Z.ltb_lt. lia.
Qed.

(** Lists of pointers. *)
Lemma filter_remove f (p : Z) l :
  List.filter f (List.remove Z.eq_dec p l)
  = List.remove Z.eq_dec p (List.filter f l).
Proof.
  induction l as [|q l IH]; [reflexivity|]. cbn [List.remove List.filter].
  destruct (Z.eq_dec p q) as [<-|Hne].
  - destruct (f p) eqn:E; [|exact IH]. cbn [List.remove].
    destruct (Z.eq_dec p p); [exact IH|contradiction].
  - cbn [List.filter]. destruct (f q); [|exact IH]. cbn [List.remove].
    destruct (Z.eq_dec p q); [contradiction|]. rewrite IH. reflexivity.
Qed.

Lemma filter_remove_other f (p : Z) l :
  f p = false ->
  List.filter f (List.remove Z.eq_dec p l) = List.filter f l.
Proof.
  intros Hp. rewrite filter_remove. apply List.notin_remove.
  intros H. apply List.filter_In in H as [_ H]. congruence.
Qed.

Lemma filter_same (f g : Z -> bool) l :
  (forall p, f p = g p) -> List.filter f l = List.filter g l.
Proof. intros H. apply List.filter_ext. exact H. Qed.

Lemma payload_inZone pa m live p x :
  PageAllocator.MInv pa m live -> In p live ->
  PageAllocator.inPayload m p x -> inZone pa x.
Proof.
  intros HM Hp Hx.
  pose proof HM as (Hinv & _ & _ & _ & Hheld & _).
  pose proof (heldBlock_facts _ _ _ (Hheld p Hp)) as Fp. cbn zeta in Fp.
  unfold PageAllocator.inPayload in Hx. unfold inZone, ALLOC_PAGE_SIZE. lia.
Qed.

Lemma zonesApart_ne a i j x :
  zonesApart a -> 0 <= i < activeZones_ a -> 0 <= j < activeZones_ a ->
  i <> j -> inZone (zone a i) x -> ~ inZone (zone a j) x.
Proof.
  intros Hap Hi Hj Hne Hxi Hxj.
  destruct (Z.lt_ge_cases i j).
  - apply (Hap i j x); [lia|lia|exact Hxi|exact Hxj].
  - apply (Hap j i x); [lia|lia|exact Hxj|exact Hxi].
Qed.

Lemma RInv_zone a m live i :
  RInv a m live -> 0 <= i < activeZones_ a ->
  PageAllocator.MInv (zone a i) m (List.filter (ownedBy (zone a i)) live).
Proof.
  intros (_ & _ & _ & Hz & _) Hi. apply served_MInv. apply Hz. exact Hi.
Qed.

Lemma RInv_other a m live i j p :
  RInv a m live -> 0 <= i < activeZones_ a -> 0 <= j < activeZones_ a ->
  j <> i -> inZone (zone a i) p -> ownedBy (zone a j) p = false.
Proof.
  intros HR Hi Hj Hne Hp.
  destruct (ownedBy (zone a j) p) eqn:E; [|reflexivity]. exfalso.
  pose proof (RInv_zone _ _ _ j HR Hj) as (Hinv & _).
  pose proof HR as (_ & _ & Hap & _).
  apply (zonesApart_ne a i j p Hap Hi Hj); [lia|exact Hp|].
  apply ownedBy_inZone; assumption.
Qed.

(** One zone moves, the others see a write outside their regions. *)
Lemma RInv_step a m live i z m' live' :
  RInv a m live -> 0 <= i < activeZones_ a ->
  PageAllocator.served z m' (List.filter (ownedBy (zone a i)) live') ->
  PageAllocator.baseAddress z = PageAllocator.baseAddress (zone a i) ->
  PageAllocator.totalPages z = PageAllocator.totalPages (zone a i) ->
  PageAllocator.initialized z = PageAllocator.initialized (zone a i) ->
  (forall x, ~ inZone (zone a i) x -> load8 m' x = load8 m x) ->
  (forall p, In p live' -> In p live \/ ownedBy (zone a i) p = true) ->
  (forall j, 0 <= j < activeZones_ a -> j <> i ->
     List.filter (ownedBy (zone a j)) live'
     = List.filter (ownedBy (zone a j)) live) ->
  RInv (setZoneAt a i z) m' live'.
Proof.
  intros HR Hi Hz Hb Ht Hin Hout Hlive Hoth.
  pose proof HR as (Hlen & Hact & Hap & Hzones & Hown).
  assert (Hl2 : Z.of_nat (length (zones_ a)) = 2)
    by (rewrite Hlen; reflexivity).
  unfold ALLOC_MAX_ZONES in Hact.
  assert (Hzi : zone (setZoneAt a i z) i = z)
    by (apply zone_setZoneAt_eq; lia).
  assert (Hzj : forall j, 0 <= j -> j <> i ->
            zone (setZoneAt a i z) j = zone a j)
    by (intros j Hj Hne; apply zone_setZoneAt_ne; lia).
  assert (Hreg : forall k x, 0 <= k ->
            inZone (zone (setZoneAt a i z) k) x <-> inZone (zone a k) x).
  { intros k x Hk. destruct (Z.eq_dec k i) as [->|Hne].
    - rewrite Hzi. unfold inZone. rewrite Hb, Ht. tauto.
    - rewrite Hzj by assumption. tauto. }
  assert (Hob : forall k p, 0 <= k ->
            ownedBy (zone (setZoneAt a i z) k) p = ownedBy (zone a k) p).
  { intros k p Hk. destruct (Z.eq_dec k i) as [->|Hne].
    - rewrite Hzi. apply ownedBy_region; assumption.
    - rewrite Hzj by assumption. reflexivity. }
  unfold RInv. cbn [activeZones_ setZoneAt zones_].
  split; [rewrite length_insert; exact Hlen|].
  split; [exact Hact|]. split; [|split].
  - intros k j x Hk Hj Hxk Hxj.
    apply (Hreg k x) in Hxk; [|lia]. apply (Hreg j x) in Hxj; [|lia].
    apply (Hap k j x); assumption.
  - intros k Hk.
    rewrite (filter_same _ (ownedBy (zone a k)))
      by (intros p; apply Hob; lia).
    destruct (Z.eq_dec k i) as [->|Hne].
    + fold (setZoneAt a i z). rewrite Hzi. exact Hz.
    + fold (setZoneAt a i z). rewrite Hzj by lia.
      rewrite (Hoth k Hk Hne).
      apply (PageAllocator.served_write _ m); [apply Hzones; exact Hk|].
      intros x Hx _. apply Hout.
      apply (zonesApart_ne a k i x Hap Hk Hi Hne). exact Hx.
  - intros p Hp. destruct (Hlive p Hp) as [Hold|Hnew].
    + destruct (Hown p Hold) as (k & Hk & Hk').
      exists k. split; [exact Hk|].
      fold (setZoneAt a i z). rewrite Hob by lia. exact Hk'.
    + exists i. split; [exact Hi|].
      fold (setZoneAt a i z). rewrite Hob by lia. exact Hnew.
Qed.

Lemma RInv_define a regions a' m :
  length (zones_ a) = Z.to_nat ALLOC_MAX_ZONES ->
  defineHeapRegions a (Some regions) = Ok a' ->
  zonesApart a' ->
  RInv a' m [].
Proof.
  intros Hlen H Hap.
  destruct (defineHeapRegions_inv a regions Hlen) as (_ & Hok & _).
  destruct (Hok a' H) as (_ & _ & Hact & Hlen' & Hz & _).
  split; [congruence|]. split; [exact Hact|]. split; [exact Hap|].
  split; [|intros p []].
  intros i Hi. destruct (Hz i Hi) as (start & size & _ & _ & _ & E & _).
  cbn [List.filter].
  apply (PageAllocator.served_init start size i); [|exact E].
  unfold ALLOC_MAX_ZONES in Hact. lia.
Qed.

Lemma RInv_allocate a m live size a' m' r :
  RInv a m live -> 0 <= size <= PageAllocator.maxRequest ->
  allocate a m size = Ok (a', m', r) ->
  RInv a' m' (match r with Some p => p :: live | None => live end).
Proof.
  intros HR Hsize H. apply router_allocate_inv in H.
  destruct r as [p|]; [|destruct H as [-> ->]; exact HR].
  destruct H as (i & z & Hi & _ & E & ->).
  pose proof (RInv_zone _ _ _ i HR Hi) as HM.
  pose proof HM as (Hinv & _).
  pose proof HR as (_ & _ & _ & Hzones & _).
  destruct (zone_allocate_region _ _ _ _ _ _ Hinv Hsize E)
    as (Hout & Hb & Ht & Hin & Hpz & Hpo).
  apply (RInv_step a m live i z m' (p :: live) HR Hi); try assumption.
  - cbn [List.filter]. rewrite Hpo.
    exact (PageAllocator.served_allocate (zone a i) m
             (List.filter (ownedBy (zone a i)) live) size z m' (Some p)
             (Hzones i Hi) Hsize E).
  - intros q [<-|Hq]; [right; exact Hpo|left; exact Hq].
  - intros j Hj Hne. cbn [List.filter].
    rewrite (RInv_other a m live i j p HR Hi Hj Hne Hpz). reflexivity.
Qed.

Lemma RInv_calloc a m live num size a' m' r :
  RInv a m live -> 0 <= num -> 0 <= size ->
  num * size <= PageAllocator.maxRequest ->
  calloc a m num size = Ok (a', m', r) ->
  RInv a' m' (match r with Some p => p :: live | None => live end).
Proof.
  intros HR Hn Hs Hmax H. apply router_calloc_inv in H.
  destruct r as [p|]; [|destruct H as [-> ->]; exact HR].
  destruct H as (i & z & Hi & _ & E & ->).
  pose proof (RInv_zone _ _ _ i HR Hi) as HM.
  pose proof HM as (Hinv & _).
  pose proof HR as (_ & _ & _ & Hzones & _).
  destruct (zone_calloc_region _ _ _ _ _ _ _ Hinv Hn Hs Hmax E)
    as (Hout & Hb & Ht & Hin & Hpz & Hpo).
  apply (RInv_step a m live i z m' (p :: live) HR Hi); try assumption.
  - cbn [List.filter]. rewrite Hpo.
    exact (PageAllocator.served_calloc (zone a i) m
             (List.filter (ownedBy (zone a i)) live) num size z m' (Some p)
             (Hzones i Hi) Hn Hs Hmax E).
  - intros q [<-|Hq]; [right; exact Hpo|left; exact Hq].
  - intros j Hj Hne. cbn [List.filter].
    rewrite (RInv_other a m live i j p HR Hi Hj Hne Hpz). reflexivity.
Qed.

(** The zone a held pointer is given back to. *)
Lemma router_deallocate_held a m live p :
  RInv a m live -> In p live ->
  exists i,
    0 <= i < activeZones_ a /\
    In p (List.filter (ownedBy (zone a i)) live) /\
    inZone (zone a i) p /\
    deallocate a m (Some p)
    = (do (z, m') <- PageAllocator.deallocate (zone a i) m (Some p);
       Ok (setZoneAt a i z, m')).
Proof.
  intros HR Hp. pose proof HR as (_ & _ & _ & _ & Hown).
  destruct (Hown p Hp) as (i & Hi & Ho).
  pose proof (RInv_zone _ _ _ i HR Hi) as HM.
  pose proof HM as (Hinv & Hinit & _).
  assert (Hpz : inZone (zone a i) p) by (apply ownedBy_inZone; assumption).
  exists i. split; [exact Hi|].
  split; [apply List.filter_In; split; assumption|].
  split; [exact Hpz|].
  unfold deallocate. apply deallocate_loop_first; [lia| |].
  - unfold PageAllocator.isInitialized. rewrite Hinit. exact Ho.
  - intros j Hj. apply andb_false_iff. right.
    apply (RInv_other a m live i j p HR Hi); [lia|lia|exact Hpz].
Qed.

Lemma RInv_deallocate a m live p a' m' :
  RInv a m live -> In p live -> sequencesLeft a ->
  deallocate a m (Some p) = Ok (a', m') ->
  RInv a' m' (List.remove Z.eq_dec p live).
Proof.
  intros HR Hp Hseq H.
  destruct (router_deallocate_held a m live p HR Hp)
    as (i & Hi & Hpi & Hpz & E).
  rewrite E in H.
  destruct (PageAllocator.deallocate (zone a i) m (Some p))
    as [[z m1]|] eqn:Ez; cbn [bind] in H; [|discriminate].
  injection H as <- <-.
  pose proof (RInv_zone _ _ _ i HR Hi) as HM.
  pose proof HR as (_ & _ & _ & Hzones & _).
  destruct (zone_deallocate_region _ _ _ _ _ _ HM Hpi Ez)
    as (Hout & Hb & Ht & Hin).
  apply (RInv_step a m live i z m1 (List.remove Z.eq_dec p live) HR Hi);
    try assumption.
  - rewrite filter_remove.
    exact (PageAllocator.served_deallocate (zone a i) m
             (List.filter (ownedBy (zone a i)) live) p z m1
             (Hzones i Hi) Hpi (Hseq i Hi) Ez).
  - intros q Hq. left. apply List.in_remove in Hq as [Hq _]. exact Hq.
  - intros j Hj Hne. apply filter_remove_other.
    apply (RInv_other a m live i j p HR Hi Hj Hne Hpz).
Qed.

Lemma RInv_write a m live m' :
  RInv a m live ->
  (forall x,
     (exists i, 0 <= i < activeZones_ a /\ inZone (zone a i) x) ->
     (forall p, In p live -> ~ PageAllocator.inPayload m p x) ->
     load8 m' x = load8 m x) ->
  RInv a m' live.
Proof.
  intros HR Hw. pose proof HR as (Hlen & Hact & Hap & Hzones & Hown).
  split; [exact Hlen|]. split; [exact Hact|]. split; [exact Hap|].
  split; [|exact Hown].
  intros k Hk.
  apply (PageAllocator.served_write _ m); [apply Hzones; exact Hk|].
  intros x Hx Hfree. apply Hw; [exists k; split; assumption|].
  intros p Hp Hpx.
  destruct (ownedBy (zone a k) p) eqn:Ek.
  - apply (Hfree p); [apply List.filter_In; split; assumption|exact Hpx].
  - destruct (Hown p Hp) as (j & Hj & Ho).
    assert (Hne : j <> k) by (intros ->; congruence).
    apply (zonesApart_ne a j k x Hap Hj Hk Hne); [|exact Hx].
    apply (payload_inZone (zone a j) m
             (List.filter (ownedBy (zone a j)) live) p x);
      [apply RInv_zone; assumption
      |apply List.filter_In; split; assumption|exact Hpx].
Qed.

Lemma RInv_setZone a m live selector :
  RInv a m live -> RInv (setZone a selector) m live.
Proof. intros HR. exact HR. Qed.

Lemma served_RInv a m live : served a m live -> RInv a m live.
Proof.
  induction 1 as [a regions a' m Hlen E Hap
                 |a m live selector Hs IH
                 |a m live size a' m' r Hs IH Hsize E
                 |a m live num size a' m' r Hs IH Hn Hsz Hmax E
                 |a m live p a' m' Hs IH Hp Hseq E
                 |a m live m' Hs IH Hw].
  - apply (RInv_define a regions a' m); assumption.
  - apply RInv_setZone. exact IH.
  - apply (RInv_allocate a m live size a' m' r); assumption.
  - apply (RInv_calloc a m live num size a' m' r); assumption.
  - apply (RInv_deallocate a m live p a' m'); assumption.
  - apply (RInv_write a m live m'); assumption.
Qed.

Lemma validateHeap_loop_true n : forall a m i,
  (forall k, i <= k < i + Z.of_nat n ->
     PageAllocator.isInitialized (zone a k) = false \/
     (PageAllocator.verifyQuarantine (zone a k) m = Ok true /\
      PageAllocator.verifyAllocated (zone a k) m = Ok true)) ->
  validateHeap_loop n a m i true = Ok true.
Proof.
  induction n as [|n IH]; intros a m i H; cbn [validateHeap_loop];
    [reflexivity|].
  assert (Hnext : validateHeap_loop n a m (i + 1) true = Ok true)
    by (apply IH; intros k Hk; apply H; lia).
  destruct (H i ltac:(lia)) as [E|[EQ EA]].
  - rewrite E. exact Hnext.
  - destruct (negb (PageAllocator.isInitialized (zone a i))); [exact Hnext|].
    rewrite EQ. cbn [bind]. rewrite EA. cbn [bind]. exact Hnext.
Qed.

Lemma allocateWithRoute_loop_returns n : forall a m route size i,
  (forall k, i <= k < i + Z.of_nat n ->
     exists z m' r, PageAllocator.allocate (zone a k) m size = Ok (z, m', r)) ->
  exists a' m' r, allocateWithRoute_loop n a m route size i = Ok (a', m', r).
Proof.
  induction n as [|n IH]; intros a m route size i H;
    cbn [allocateWithRoute_loop]; [eauto|].
  assert (Hnext : exists a' m' r,
            allocateWithRoute_loop n a m route size (i + 1)
            = Ok (a', m', r))
    by (apply IH; intros k Hk; apply H; lia).
  destruct (i =? primary route); [exact Hnext|].
  destruct (trySecondary route && (i =? secondary route)); [exact Hnext|].
  destruct (negb (PageAllocator.isInitialized (zone a i))); [exact Hnext|].
  destruct (H i ltac:(lia)) as (z & m1 & r & E). rewrite E. cbn [bind].
  destruct r as [p|]; [eauto|].
  destruct (zone_allocate_null _ _ _ _ _ E) as [-> ->].
  rewrite setZoneAt_same. exact Hnext.
Qed.

Lemma router_allocate_returns a m size :
  (forall k, 0 <= k < activeZones_ a ->
     exists z m' r, PageAllocator.allocate (zone a k) m size = Ok (z, m', r)) ->
  exists a' m' r, allocate a m size = Ok (a', m', r).
Proof.
  intros H. pose proof (route_range (currentZone_ a)) as [Hp0 Hs0].
  unfold allocate, allocateWithRoute.
  set (route := resolveRoute (currentZone_ a)) in *.
  assert (Hloop : exists a' m' r,
            allocateWithRoute_loop (Z.to_nat (activeZones_ a)) a m route
              size 0 = Ok (a', m', r)).
  { apply allocateWithRoute_loop_returns. intros k Hk. apply H. lia. }
  assert (Hsec : exists a' m' r,
    (do (a2, m2, p2) <-
       (if trySecondary route && (secondary route <? activeZones_ a)
           && negb (secondary route =? primary route)
           && PageAllocator.isInitialized (zone a (secondary route))
        then do (z, m', p) <- PageAllocator.allocate
                                 (zone a (secondary route)) m size;
             Ok (setZoneAt a (secondary route) z, m', p)
        else Ok (a, m, None));
     match p2 with
     | Some _ => Ok (a2, m2, p2)
     | None =>
         allocateWithRoute_loop (Z.to_nat (activeZones_ a2)) a2 m2 route
           size 0
     end) = Ok (a', m', r)).
  { destruct (trySecondary route && (secondary route <? activeZones_ a)
              && negb (secondary route =? primary route)
              && PageAllocator.isInitialized (zone a (secondary route)))
      eqn:Ec; [|exact Hloop].
    apply andb_true_iff in Ec as [Ec _].
    apply andb_true_iff in Ec as [Ec _].
    apply andb_true_iff in Ec as [_ Ec]. apply Z.ltb_lt in Ec.
    destruct (H (secondary route) ltac:(lia)) as (z & m1 & r & E).
    rewrite E. cbn [bind]. destruct r as [p|]; [eauto|].
    destruct (zone_allocate_null _ _ _ _ _ E) as [-> ->].
    rewrite setZoneAt_same. exact Hloop. }
  destruct ((primary route <? activeZones_ a)
            && PageAllocator.isInitialized (zone a (primary route)))
    eqn:Ec; [|exact Hsec].
  apply andb_true_iff in Ec as [Ec _]. apply Z.ltb_lt in Ec.
  destruct (H (primary route) ltac:(lia)) as (z & m1 & r & E).
  rewrite E. cbn [bind]. destruct r as [p|]; [eauto|].
  destruct (zone_allocate_null _ _ _ _ _ E) as [-> ->].
  rewrite setZoneAt_same. exact Hsec.
Qed.

Lemma router_calloc_returns a m num size :
  (forall k, 0 <= k < activeZones_ a ->
     exists z m' r,
       PageAllocator.calloc (zone a k) m num size = Ok (z, m', r)) ->
  exists a' m' r, calloc a m num size = Ok (a', m', r).
Proof.
  intros H. pose proof (route_range (currentZone_ a)) as [Hp0 Hs0].
  unfold calloc.
  set (route := resolveRoute (currentZone_ a)) in *.
  assert (Hsec : exists a' m' r,
    (if trySecondary route && (secondary route <? activeZones_ a)
        && negb (secondary route =? primary route)
        && PageAllocator.isInitialized (zone a (secondary route))
     then do (z, m', p) <- PageAllocator.calloc
                              (zone a (secondary route)) m num size;
          Ok (setZoneAt a (secondary route) z, m', p)
     else Ok (a, m, None)) = Ok (a', m', r)).
  { destruct (trySecondary route && (secondary route <? activeZones_ a)
              && negb (secondary route =? primary route)
              && PageAllocator.isInitialized (zone a (secondary route)))
      eqn:Ec; [|eauto].
    apply andb_true_iff in Ec as [Ec _].
    apply andb_true_iff in Ec as [Ec _].
    apply andb_true_iff in Ec as [_ Ec]. apply Z.ltb_lt in Ec.
    destruct (H (secondary route) ltac:(lia)) as (z & m1 & r & E).
    rewrite E. cbn [bind]. eauto. }
  destruct ((primary route <? activeZones_ a)
            && PageAllocator.isInitialized (zone a (primary route)))
    eqn:Ec; [|exact Hsec].
  apply andb_true_iff in Ec as [Ec _]. apply Z.ltb_lt in Ec.
  destruct (H (primary route) ltac:(lia)) as (z & m1 & r & E).
  rewrite E. cbn [bind]. destruct r as [p|]; [eauto|].
  destruct (zone_calloc_null _ _ _ _ _ _ E) as [-> ->].
  rewrite setZoneAt_same. exact Hsec.
Qed.

Lemma zone_calloc_returns pa m live num es :
  PageAllocator.MInv pa m live -> 0 <= num -> 0 <= es ->
  num * es <= PageAllocator.maxRequest ->
  exists pa' m' r, PageAllocator.calloc pa m num es = Ok (pa', m', r).
Proof.
  intros HM Hn He Hmax. unfold PageAllocator.calloc.
  destruct ((num >? 0) && (es >? SIZE_MAX / num)); [eauto|].
  assert (Hprod : 0 <= num * es) by (apply Z.mul_nonneg_nonneg; lia).
  rewrite usize_small
    by (unfold PageAllocator.maxRequest, ALLOC_PAGE_SIZE in Hmax; lia).
  destruct (allocate_returns pa m live (num * es) HM (conj Hprod Hmax))
    as (pa1 & m1 & r & E).
  rewrite E. cbn [bind]. destruct r; eauto.
Qed.

(** X30.  The heap stays valid.  In every state of a client of the multi-zone
    allocator that keeps the contract, [validateHeap] returns true; no
    assertion fires, [allocate] and [calloc] returning for every request
    of at most [maxRequest] bytes and [deallocate] for every pointer the
    client holds, so long as no zone has used up its sequence numbers;
    every pointer the client holds is owned by exactly one active zone,
    whose state is one of [PageAllocator.served]; and the payloads of two
    different pointers share no byte, whichever zones they come from. *)
Theorem heap_stays_valid_while_the_contract_is_kept
    (a : AllocatorCustomCpp.t) (m : mem) (live : list Z) :
  served a m live ->
  validateHeap a m = Ok true /\
  (forall size, 0 <= size <= PageAllocator.maxRequest ->
     exists a' m' r, allocate a m size = Ok (a', m', r)) /\
  (forall num size,
     0 <= num -> 0 <= size -> num * size <= PageAllocator.maxRequest ->
     exists a' m' r, calloc a m num size = Ok (a', m', r)) /\
  (forall p, In p live -> sequencesLeft a ->
     exists a' m', deallocate a m (Some p) = Ok (a', m')) /\
  (forall i, 0 <= i < activeZones_ a ->
     PageAllocator.served (zone a i) m
       (List.filter (ownedBy (zone a i)) live)) /\
  (forall p, In p live ->
     exists i, 0 <= i < activeZones_ a /\
       PageAllocator.ownsPointer (zone a i) (Some p) = true /\
       forall j, 0 <= j < activeZones_ a -> j <> i ->
         PageAllocator.ownsPointer (zone a j) (Some p) = false) /\
  (forall p q x, In p live -> In q live -> p <> q ->
     PageAllocator.inPayload m p x -> ~ PageAllocator.inPayload m q x).
Proof.
  intros H. apply served_RInv in H.
  pose proof H as (Hlen & Hact & Hap & Hzones & Hown).
  split; [|split; [|split; [|split; [|split; [exact Hzones|split]]]]].
  - unfold validateHeap. apply validateHeap_loop_true.
    intros k Hk. right.
    pose proof (RInv_zone _ _ _ k H ltac:(lia)) as HM.
    split; [apply (MInv_verifyQuarantine _ _ _ HM)
           |apply (MInv_verifyAllocated _ _ _ HM)].
  - intros size Hsize. apply router_allocate_returns. intros k Hk.
    apply (allocate_returns _ _ _ size (RInv_zone _ _ _ k H Hk) Hsize).
  - intros num size Hn Hs Hmax. apply router_calloc_returns. intros k Hk.
    apply (zone_calloc_returns _ _ _ num size (RInv_zone _ _ _ k H Hk));
      assumption.
  - intros p Hp Hseq.
    destruct (router_deallocate_held a m live p H Hp)
      as (i & Hi & Hpi & _ & E).
    destruct (deallocate_returns _ _ _ p (RInv_zone _ _ _ i H Hi) Hpi
                (Hseq i Hi)) as (z & m1 & Ez).
    rewrite E, Ez. cbn [bind]. eauto.
  - intros p Hp. destruct (Hown p Hp) as (i & Hi & Ho).
    exists i. split; [exact Hi|]. split; [exact Ho|].
    intros j Hj Hne.
    apply (RInv_other a m live i j p H Hi Hj Hne).
    apply ownedBy_inZone; [|exact Ho].
    apply (RInv_zone _ _ _ i H Hi).
  - intros p q x Hp Hq Hne Hpx Hqx.
    destruct (Hown p Hp) as (i & Hi & Hpo).
    destruct (Hown q Hq) as (j & Hj & Hqo).
    pose proof (RInv_zone _ _ _ i H Hi) as HMi.
    pose proof (RInv_zone _ _ _ j H Hj) as HMj.
    assert (Hpi : In p (List.filter (ownedBy (zone a i)) live))
      by (apply List.filter_In; split; assumption).
    assert (Hqj : In q (List.filter (ownedBy (zone a j)) live))
      by (apply List.filter_In; split; assumption).
    destruct (Z.eq_dec i j) as [<-|Hij].
    + pose proof HMi as (_ & _ & _ & _ & Hheld & _).
      pose proof (heldBlock_facts _ _ _ (Hheld p Hpi)) as Fp.
      pose proof (heldBlock_facts _ _ _ (Hheld q Hqj)) as Fq.
      pose proof (held_apart _ _ _ p q HMi Hpi Hqj Hne) as Hapart.
      cbn zeta in Fp, Fq, Hapart.
      unfold PageAllocator.inPayload in Hpx, Hqx. lia.
    + apply (zonesApart_ne a i j x Hap Hi Hj Hij).
      * apply (payload_inZone _ _ _ p x HMi Hpi Hpx).
      * apply (payload_inZone _ _ _ q x HMj Hqj Hqx).
Qed.

(** ** Instances *)

Lemma twoZones_eq :
  defineHeapRegions zeroed
    (Some [(PageAllocator.base, 16 * 1024); (slowBase, 1024)])
  = Ok twoZones.
Proof. vm_compute. reflexivity. Qed.

Lemma twoZones_apart : zonesApart twoZones.
Proof.
  intros i j x Hi Hj.
  assert (E : activeZones_ twoZones = 2) by (vm_compute; reflexivity).
  rewrite E in Hj.
  assert (i = 0) as -> by lia. assert (j = 1) as -> by lia.
  unfold inZone.
  assert (E0 : PageAllocator.baseAddress (zone twoZones 0) = 0x20000000)
    by (vm_compute; reflexivity).
  assert (E1 : PageAllocator.totalPages (zone twoZones 0) = 16)
    by (vm_compute; reflexivity).
  assert (E2 : PageAllocator.baseAddress (zone twoZones 1) = 0x60000000)
    by (vm_compute; reflexivity).
  assert (E3 : PageAllocator.totalPages (zone twoZones 1) = 1)
    by (vm_compute; reflexivity).
  rewrite E0, E1, E2, E3. unfold ALLOC_PAGE_SIZE. lia.
Qed.

Lemma returned_pointer (r : result (t * mem * option Z)) (p : Z) :
  match r with
  | Ok (_, _, Some q) => q =? p
  | _ => false
  end = true ->
  r = Ok (stateOf r, memoryOf r, Some p).
Proof.
  destruct r as [[[a m] [q|]]|]; try discriminate.
  intros H. apply Z.eqb_eq in H. subst q. reflexivity.
Qed.

Lemma oneServed_eq :
  allocate twoZones Mem.zero 100
  = Ok (stateOf oneServed, memoryOf oneServed,
        Some (PageAllocator.base + 32)).
Proof.
  apply (returned_pointer oneServed (PageAllocator.base + 32)).
  vm_compute. reflexivity.
Qed.

Lemma servedOneBlock :
  served (stateOf oneServed) (memoryOf oneServed) [PageAllocator.base + 32].
Proof.
  exact (served_allocate twoZones Mem.zero [] 100 (stateOf oneServed)
           (memoryOf oneServed) (Some (PageAllocator.base + 32))
           (served_define zeroed
              [(PageAllocator.base, 16 * 1024); (slowBase, 1024)]
              twoZones Mem.zero zeroed_zones twoZones_eq twoZones_apart)
           request_100 oneServed_eq).
Qed.

(** The allocator of the examples after one request of 100 bytes. *)
Lemma heap_stays_valid_while_the_contract_is_kept_witness :
  served (stateOf oneServed) (memoryOf oneServed)
    [PageAllocator.base + 32] /\
  (validateHeap (stateOf oneServed) (memoryOf oneServed) = Ok true /\
   (forall size, 0 <= size <= PageAllocator.maxRequest ->
      exists a' m' r,
        allocate (stateOf oneServed) (memoryOf oneServed) size
        = Ok (a', m', r)) /\
   (forall num size,
      0 <= num -> 0 <= size -> num * size <= PageAllocator.maxRequest ->
      exists a' m' r,
        calloc (stateOf oneServed) (memoryOf oneServed) num size
        = Ok (a', m', r)) /\
   (forall p, In p [PageAllocator.base + 32] ->
      sequencesLeft (stateOf oneServed) ->
      exists a' m',
        deallocate (stateOf oneServed) (memoryOf oneServed) (Some p)
        = Ok (a', m')) /\
   (forall i, 0 <= i < activeZones_ (stateOf oneServed) ->
      PageAllocator.served (zone (stateOf oneServed) i)
        (memoryOf oneServed)
        (List.filter (ownedBy (zone (stateOf oneServed) i))
           [PageAllocator.base + 32])) /\
   (forall p, In p [PageAllocator.base + 32] ->
      exists i, 0 <= i < activeZones_ (stateOf oneServed) /\
        PageAllocator.ownsPointer (zone (stateOf oneServed) i) (Some p)
        = true /\
        forall j, 0 <= j < activeZones_ (stateOf oneServed) -> j <> i ->
          PageAllocator.ownsPointer (zone (stateOf oneServed) j) (Some p)
          = false) /\
   (forall p q x,
      In p [PageAllocator.base + 32] -> In q [PageAllocator.base + 32] ->
      p <> q ->
      PageAllocator.inPayload (memoryOf oneServed) p x ->
      ~ PageAllocator.inPayload (memoryOf oneServed) q x)).
Proof.
  split; [exact servedOneBlock|].
  exact (heap_stays_valid_while_the_contract_is_kept (stateOf oneServed)
           (memoryOf oneServed) [PageAllocator.base + 32] servedOneBlock).
Defined.
End AllocatorCustomCppFacts.
